(* ===== verification/_CoqProject ===== *)
-Q . S2P
Prelude.v
Errno.v
CInt.v
CDouble.v
CStdio.v
IperfTime.v
Json.v
JsonPrint.v
JsonParse.v
JsonRoundtrip.v
JsonBuild.v
Net.v
Control.v
Timer.v
Test.v
Params.v
Udp.v
Auth.v
Results.v
Stats.v
Reports.v
Document.v
Endpoint.v
Client.v
Server.v
Session.v
Kernel.v
Sockets.v
Tcp.v
Sctp.v
UdpStreams.v
Streams.v
Quic.v
QuicTest.v
QuicEnds.v
CScan.v
Units.v
Dscp.v
Options.v
CommandLine.v
Errors.v
Files.v
Main.v
