(* ===== verification/Prelude.v ===== *)
(** * iperf3: a verification development

    iperf3 measures the throughput between a client and a server.  The two
    processes agree on a test over a control connection (JSON messages behind a
    length), run data streams of one of several protocols under timers, and
    exchange their results.  This development models the parts of the program
    that carry that logic and proves what makes each of them correct.

    ** Conventions

    An integer of [w] bits is a [Z]; the wrap-around of C is written out with
    [u8], [u32], [u64] (unsigned) and [i32], [i64] (signed) from [CInt.v].  A
    [double] is the binary64 float of the Standard Library's [SpecFloat]
    ([CDouble.v]).  A string is the list of its bytes.  A routine that can fail
    returns an [outcome]: [Ok], [Fail] (the error return of the C code),
    [Undef] (undefined behaviour: a read or write outside an object, a null
    dereference) or [NoFuel].  Theorems that say that a routine returns [Ok], or
    [Ok] or [Fail], therefore say that it terminates and stays within its
    objects.  Fuel is given by the routines themselves (the length of the
    input, the count of bytes left, the number of allocated timers), except for
    [tmr_run], whose theorem states how much is enough, and for the main loops,
    whose theorems are about runs that end and about sessions whose number of
    turns is known.  The routines that set up sockets are programs over the state
    of [Kernel.v] and are always run to their end ([wp]).

    ** Files

    - [Prelude.v]: record update, [outcome], list lemmas, tactics.
    - [Errno.v] ([src/iperf_api.h]): the numbers of [i_errno].
    - [CInt.v], [CDouble.v], [CStdio.v]: the C language and library as far as the
      source uses them: integer widths, doubles, [printf] of numbers, [strtod].
    - [IperfTime.v] ([src/iperf_time.c]): timestamps.
    - [Json.v], [JsonPrint.v], [JsonParse.v] ([src/cjson.c]): items and lookups,
      the printer with its growing buffer, the parser.  [JsonRoundtrip.v]
      relates the two, [JsonBuild.v] is about flat objects built member by member,
      which is what all control messages are.
    - [Net.v] ([src/net.c]): the transfer loops over a script of kernel answers.
    - [Control.v] ([src/iperf_api.c], [JSON_write] and [JSON_read]): messages.
    - [Timer.v] ([src/timer.c]): the timer lists as a heap of linked records,
      refined to a sorted queue.
    - [Test.v] ([src/iperf.h], [src/iperf_api.c]): the test record, its defaults,
      its reset, the setters of role, direction and protocol.
    - [Params.v] ([send_parameters], [get_parameters]): the parameter exchange.
    - [Udp.v] ([src/iperf_udp.c]): datagrams: numbering, loss and jitter, the
      buffer check, the reply loop of the handshake.
    - [Auth.v] ([src/iperf_auth.c]): the token, the users file, the decision.
    - [Results.v] ([send_results], [get_results], the two exchanges with their
      error reports): the result exchange, member by member.
    - [Stats.v] ([iperf_stats_callback], [iperf_check_total_rate],
      [iperf_check_throttle], [iperf_send_mt], [iperf_recv_mt]): the intervals of
      a stream, the server's rate check, the turns of a stream's thread.
    - [Reports.v] ([iperf_json_printf], [iperf_print_intermediate],
      [iperf_print_results]): the items and sums of the reports in JSON.
    - [Document.v] ([iperf_json_start] to [iperf_json_finish],
      [JSONStream_Output]): the document of a test and its stream of events.
    - [Endpoint.v]: what client and server share: the [world] of a process (its
      control connection, its timers, a log of effects), the [env] of calls that
      are not looked into, streams and their numbers, the timers of a test, and
      the record [conn] of a connection that works.
    - [Client.v] ([src/iperf_client_api.c]), [Server.v]
      ([src/iperf_server_api.c]): every message handler, the timers, the clean-up
      and the main loop, a function of the answers of [select].
    - [Session.v]: a client and a server together: each reads what the other
      sends.
    - [Kernel.v]: system calls on sockets and address lists: the open descriptors
      of the process with the calls made on each, the allocated lists, [errno],
      a script of answers; weakest preconditions and their automation.
    - [Sockets.v] ([src/net.c]): [create_socket], [netdial], [netannounce], the
      connection with a timeout.
    - [Tcp.v] ([src/iperf_tcp.c]), [Sctp.v] ([src/iperf_sctp.c]), [UdpStreams.v]
      ([src/iperf_udp.c], [iperf_server_listen], [iperf_init_stream]): sending and
      receiving with their counters, accepting, listening and connecting with
      every system call; also [iperf_common_sockopts] and
      [iperf_set_control_keepalive].
    - [Streams.v] ([iperf_new_stream], [iperf_free_stream], [src/iperf_util.c]): the
      memory, mappings and files of a stream, and what its buffer is filled with.
    - [Quic.v] ([src/iperf_quic.c]): the callbacks of a QUIC stream against the
      thread that sends and receives, with every wait as a script of what other
      threads do.  [QuicTest.v]: the context of a test over QUIC as programs over
      the handles, descriptors and tables of a process ([wpq]), its start and its
      release.  [QuicEnds.v]: listening, accepting, attaching and connecting.
    - [CScan.v], [Units.v] ([src/units.c]), [Dscp.v] ([src/dscp.c]): [strtol] and
      [sscanf] of numbers, quantities with a unit, code points.
    - [Options.v], [CommandLine.v] ([iperf_parse_arguments]): every option, the
      loop over them, the checks behind it, and what an accepted line means.
    - [Errors.v] ([src/iperf_error.c]): the message of an error number.
    - [Files.v] ([diskfile_send], [diskfile_recv]): the transfer of a file.
    - [Main.v] ([src/main.c], [iperf_reset_test]): one client after the other.

    ** What is shown

    The parser is total and safe on arbitrary bytes, the printer produces the
    reference text without leaving its buffer, and the two are inverse on
    well-formed items.  The transfer loops neither lose nor reorder bytes
    whatever the kernel answers, and complete on a prompt peer; hence messages
    are delivered, the server ends up with the test the client described, and
    after the exchange of results each side has the other's half of the account.
    UDP counters are exact; the intervals of a stream account for every byte; the
    rate check is a sliding-window average.  The report of an interval sums
    exactly the streams of a direction, and after the exchange of results the
    final reports of both sides say the same of what was sent, received and
    lost.  What [--json] writes is read back as the document of the test, and the events
    of [--json-stream] say the same ([json_output_agrees]).  The timer operations keep a
    sorted, correctly linked queue; [tmr_run] ends and calls what is due.

    On top of these, [Session.v] follows the messages of a session through the
    handlers of both sides: the set-up ([session_sets_up]: both run the test the
    client described, with the same streams), the end ([session_finishes]) and
    a refusal ([refusal_reaches_client]).  [Server.v] shows that the server
    closes what it opened however its loop returns.  Some theorems state where
    the code fails: an overflow behind the authentication, a race of the
    statistics, an array of the rate check that can be too short.

    The routines that make sockets are all-or-nothing for every resolver and all
    answers of the kernel: a new socket on which exactly the calls were made
    that were asked for, or the descriptors and address lists of before; where
    the code falls short of that (the listener of TCP, the sockets of UDP and
    SCTP) the theorems say what is left.  A command line that is accepted gives a
    test within the bounds of the manual; sizes with a unit are read exactly.
    What [iperf_new_stream] takes, [iperf_free_stream] gives back.
    The two ends of a TCP stream count the same bytes, a file arrives as it was
    sent as long as no write is interrupted, no two error numbers have the same
    message, and a server serves the next client whatever the last one did.

    Over QUIC, whatever the callbacks of MsQuic do between and during the calls of a
    stream's thread, bytes are taken in the order of their arrival and the
    counters are those of the wire ([quic_stream_accounted]).  A server numbers and
    attaches its streams as they arrive, the pipe that wakes it holds a byte for
    each that waits ([quic_streams_in_order]), and from the context's start
    ([quic_ctx_init_all_or_nothing], [quic_listen_outcome],
    [quic_connect_outcome]) to its end ([quic_server_leaves_nothing]) every handle
    is closed once.  The fuel of [wait_ready] is the length of its script: a wait
    whose script ends before it does is [NoFuel], which is a wait that goes on
    ([wait_goes_on]); the theorems that say that a call returns have as their
    hypothesis that the reports end its wait.

    Each claim is a theorem with a comment that states it; [_witness] lemmas
    apply the theorems at concrete inputs, and examples run the definitions
    where the code misbehaves.

    ** What is not modelled

    The kernel, the resolver and the disk appear through their answers; memory
    allocation does not fail, but in [Streams.v] and for QUIC; OpenSSL, [strerror], [getopt_long] and the file
    system behind the options are parameters.  The threads of the streams are
    functions of [Stats.v] and [Udp.v]; their creation, cancellation and
    scheduling are not modelled, apart from the race between the statistics and
    a stream.  In the main loops of [Client.v] and [Server.v] the calls of a
    protocol ([connect], [listen], [accept]) are parameters: what they do is in
    [Tcp.v], [Sctp.v], [UdpStreams.v] and [QuicEnds.v].  Of [sscanf] and [strtod] only decimal
    numbers are modelled (no infinities, no hexadecimal).

    MsQuic is modelled as far as its documentation says what the source relies
    on: handles that are valid from [Open] to [Close], buffers that belong to it
    until they are reported, callbacks with the context last set; its answers and
    reports are scripts.  The deadlines of the waits, the scheduling parameter of
    a connection and the stubs of a build without MsQuic are left out.

    Left out: the reports as text, [TCP_INFO] and the status of an SCTP association, the daemon,
    signals and the content of the PID file, CPU usage, warnings and debug
    output, the one-line accessors of the library interface, and the
    operations of [src/cjson.c] that iperf3 does not call.

    ** What could follow

    The threads' creation and cancellation with their interleavings, and the main
    loops over the sockets of [Kernel.v], the streams of [Streams.v] and the
    contexts of [QuicTest.v] in the place of parameters. *)

From stdpp Require Export prelude strings list gmap.
From Stdlib Require Export ZArith Lia Ascii.
#[global] Unset Program Cases.
#[global] Open Scope Z_scope.

(** ** Record update

    [r <| f := v |>] rebuilds the record [r] with its field [f] replaced, the
    way an assignment [r.f = v] changes one member of a C structure.  A record
    type opts in by an instance of [Settable] (its eta expansion); the update
    of one field is found by the tactic below. *)

Class Settable (R : Type) := eta_record : R → R.
Class FieldUpdate {R E : Type} (get : R → E) := update_field : (E → E) → R → R.
#[global] Hint Mode Settable + : typeclass_instances.

Ltac solve_field_update :=
  lazymatch goal with
  | |- @FieldUpdate ?R ?E ?get =>
      let i := lazymatch constr:(@eta_record R _) with @eta_record _ ?i => i end in
      exact (fun (f : E → E) (r : R) =>
        ltac:(let t := eval cbv beta delta [i eta_record] in (i r) in
              lazymatch t with
              | context C [get r] =>
                  let t' := context C [f (get r)] in exact t'
              end))
  end.
#[global] Hint Extern 1 (FieldUpdate _) => solve_field_update : typeclass_instances.

Declare Scope record_scope.
Delimit Scope record_scope with rec.
Notation "r <| f := v |>" := (@update_field _ _ f _ (fun _ => v) r)
  (at level 1, f at next level, left associativity) : record_scope.
Notation "r <| f ::= g |>" := (@update_field _ _ f _ g r)
  (at level 1, f at next level, left associativity) : record_scope.
#[global] Open Scope record_scope.

(** ** Bytes and C strings

    A [char] buffer is a list of bytes; a byte is an [ascii] (eight bits), and
    [u8] reads it as the unsigned integer C compares it with. *)

Abbreviation bytes := (list ascii).

Definition B (s : string) : bytes := String.list_ascii_of_string s.
Arguments B s%_string_scope : simpl never.

Definition u8 (c : ascii) : Z := Z.of_N (N_of_ascii c).
Definition chr (z : Z) : ascii := ascii_of_N (Z.to_N (z mod 256)).

#[global] Instance ascii_eq_dec : EqDecision ascii := ascii_dec.
Definition NUL : ascii := Ascii.zero.

Lemma u8_range c : 0 ≤ u8 c < 256.
Proof.
  unfold u8. pose proof (N_ascii_bounded c). lia.
Qed.

Lemma chr_u8 c : chr (u8 c) = c.
Proof.
  unfold chr. rewrite Z.mod_small by apply u8_range.
  unfold u8. rewrite N2Z.id. apply ascii_N_embedding.
Qed.

Lemma u8_chr z : u8 (chr z) = z mod 256.
Proof.
  unfold u8, chr. pose proof (Z.mod_pos_bound z 256 ltac:(lia)).
  rewrite N_ascii_embedding by lia. lia.
Qed.

Lemma u8_inj c d : u8 c = u8 d → c = d.
Proof. intros H. rewrite <- (chr_u8 c), <- (chr_u8 d). by rewrite H. Qed.

#[export] Instance u8_Inj : Inj (=) (=) u8.
Proof. intros c d. apply u8_inj. Qed.

Lemma u8_small_chr z : 0 ≤ z < 256 → u8 (chr z) = z.
Proof. intros. rewrite u8_chr. by apply Z.mod_small. Qed.

(** A fact about every byte, checked on all 256 of them. *)
Lemma forall_bytes (P : ascii → Prop) (f : ascii → bool) :
  (∀ c, f c = true → P c) →
  forallb (fun n => f (ascii_of_nat n)) (List.seq 0 256) = true →
  ∀ c, P c.
Proof.
  intros Hf Hall c. apply Hf. rewrite <- (ascii_nat_embedding c).
  rewrite forallb_forall in Hall. apply Hall. apply in_seq.
  pose proof (nat_ascii_bounded c). lia.
Qed.

(** [s] as a C string: the bytes before the first NUL. *)
Fixpoint c_str (l : bytes) : bytes :=
  match l with
  | [] => []
  | c :: l' => if decide (c = NUL) then [] else c :: c_str l'
  end.

Definition no_nul (l : bytes) : Prop := NUL ∉ l.
#[export] Instance no_nul_dec l : Decision (no_nul l).
Proof. unfold no_nul. apply _. Defined.

Lemma no_nul_cons c l : no_nul (c :: l) ↔ c ≠ NUL ∧ no_nul l.
Proof. unfold no_nul. rewrite not_elem_of_cons. naive_solver. Qed.

Lemma no_nul_app l k : no_nul (l ++ k) ↔ no_nul l ∧ no_nul k.
Proof. unfold no_nul. rewrite elem_of_app. naive_solver. Qed.

Lemma c_str_no_nul l : no_nul l → c_str l = l.
Proof.
  induction l as [|c l IH]; simpl; [done|].
  rewrite no_nul_cons. intros [Hc Hl]. rewrite decide_False by done. by rewrite IH.
Qed.

Lemma c_str_app_nul l k : no_nul l → c_str (l ++ NUL :: k) = l.
Proof.
  induction l as [|c l IH]; simpl; [done|].
  rewrite no_nul_cons. intros [Hc Hl]. rewrite decide_False by done. by rewrite IH.
Qed.

(** ** Outcomes

    What a C routine can do besides returning a value: refuse (a false or null
    result, [Fail]), run into undefined behaviour ([Undef]: an access outside a
    buffer, the use of an invalid pointer), or not finish within the fuel of the
    model ([NoFuel]). *)

Inductive outcome (A : Type) : Type :=
| Ok (a : A)
| Fail
| Undef
| NoFuel.
Arguments Ok {A} a.
Arguments Fail {A}.
Arguments Undef {A}.
Arguments NoFuel {A}.

#[export] Instance outcome_ret : MRet outcome := @Ok.
#[export] Instance outcome_bind : MBind outcome := fun A B f m =>
  match m with Ok a => f a | Fail => Fail | Undef => Undef | NoFuel => NoFuel end.

#[export] Instance outcome_eq_dec `{EqDecision A} : EqDecision (outcome A).
Proof. solve_decision. Defined.

Definition is_ok {A} (m : outcome A) : Prop := ∃ a, m = Ok a.

(** An outcome free of undefined behaviour and of fuel exhaustion. *)
Definition defined {A} (m : outcome A) : Prop := m ≠ Undef ∧ m ≠ NoFuel.

Lemma Ok_bind {A C} (a : A) (f : A → outcome C) : Ok a ≫= f = f a.
Proof. done. Qed.

Lemma bind_Ok {A C} (m : outcome A) (f : A → outcome C) c :
  m ≫= f = Ok c ↔ ∃ a, m = Ok a ∧ f a = Ok c.
Proof.
  destruct m; cbn; split; intros H; [by eauto| | | | | | |]; try naive_solver.
Qed.

Lemma defined_bind {A C} (m : outcome A) (f : A → outcome C) :
  defined m → (∀ a, m = Ok a → defined (f a)) → defined (m ≫= f).
Proof. intros [H1 H2] Hf. destruct m; cbn; [by apply Hf|split; done|done|done]. Qed.

(** ** Lists *)

Lemma lookup_middle_app {A} (l k : list A) x i :
  i = length l → (l ++ x :: k) !! i = Some x.
Proof. intros ->. by apply list_lookup_middle. Qed.

Lemma drop_length_app {A} (l k : list A) i : i = length l → drop i (l ++ k) = k.
Proof. intros ->. apply drop_app_length. Qed.

Lemma take_length_app {A} (l k : list A) i : i = length l → take i (l ++ k) = l.
Proof. intros ->. apply take_app_length. Qed.

(** ** Automation *)

#[global] Create HintDb iperf.
#[global] Create Rewrite HintDb iperf_rw.
#[export] Hint Resolve u8_range : iperf.
#[export] Hint Rewrite chr_u8 u8_chr : iperf_rw.

(** Case analysis on the test of the topmost [if] or [match] of the goal. *)
Ltac case_goal :=
  match goal with
  | |- context [decide ?P] => destruct (decide P)
  | |- context [if ?b then _ else _] => destruct b eqn:?
  | |- context [match ?x with _ => _ end] => destruct x eqn:?
  end.

(** Boolean integer tests in the context become propositions. *)
Ltac bool_to_prop :=
  repeat match goal with
  | H : (_ && _)%bool = true |- _ => apply andb_true_iff in H as [? ?]
  | H : (_ || _)%bool = false |- _ => apply orb_false_iff in H as [? ?]
  | H : negb _ = true |- _ => apply negb_true_iff in H
  | H : negb _ = false |- _ => apply negb_false_iff in H
  | H : (_ =? _) = true |- _ => apply Z.eqb_eq in H
  | H : (_ =? _) = false |- _ => apply Z.eqb_neq in H
  | H : (_ <? _) = true |- _ => apply Z.ltb_lt in H
  | H : (_ <? _) = false |- _ => apply Z.ltb_ge in H
  | H : (_ <=? _) = true |- _ => apply Z.leb_le in H
  | H : (_ <=? _) = false |- _ => apply Z.leb_gt in H
  | H : (_ >? _) = _ |- _ => rewrite Z.gtb_ltb in H
  | H : (_ >=? _) = _ |- _ => rewrite Z.geb_leb in H
  end.

(** A goal about every byte, by computing the boolean [f] on all of them. *)
Ltac all_bytes f :=
  lazymatch goal with
  | |- ∀ c : ascii, @?P c => refine (forall_bytes P f _ _); [cbv beta|by vm_compute]
  end.

(** Decide a condition that the context settles. *)
Ltac ztest :=
  repeat match goal with
  | |- context [?a <? ?b] =>
      first [ rewrite (proj2 (Z.ltb_lt a b)) by lia
            | rewrite (proj2 (Z.ltb_ge a b)) by lia ]
  | |- context [?a <=? ?b] =>
      first [ rewrite (proj2 (Z.leb_le a b)) by lia
            | rewrite (proj2 (Z.leb_gt a b)) by lia ]
  | |- context [?a =? ?b] =>
      first [ rewrite (proj2 (Z.eqb_eq a b)) by lia
            | rewrite (proj2 (Z.eqb_neq a b)) by lia ]
  end.

(** Evaluate a decidable proposition about concrete data. *)
Ltac decided := apply (bool_decide_unpack _); vm_compute; exact I.
