(* ===== verification/Errno.v ===== *)
(** * Error numbers ([src/iperf_api.h])

    The enumeration of the values of [i_errno]. *)

From S2P Require Import Prelude.

Definition IENONE : Z := 0.

(** Parameters *)
Definition IESERVCLIENT : Z := 1.
Definition IENOROLE : Z := 2.
Definition IESERVERONLY : Z := 3.
Definition IECLIENTONLY : Z := 4.
Definition IEDURATION : Z := 5.
Definition IENUMSTREAMS : Z := 6.
Definition IEBLOCKSIZE : Z := 7.
Definition IEBUFSIZE : Z := 8.
Definition IEINTERVAL : Z := 9.
Definition IEMSS : Z := 10.
Definition IENOSENDFILE : Z := 11.
Definition IEOMIT : Z := 12.
Definition IEUNIMP : Z := 13.
Definition IEFILE : Z := 14.
Definition IEBURST : Z := 15.
Definition IEENDCONDITIONS : Z := 16.
Definition IELOGFILE : Z := 17.
Definition IENOSCTP : Z := 18.
Definition IEBIND : Z := 19.
Definition IEUDPBLOCKSIZE : Z := 20.
Definition IEBADTOS : Z := 21.
Definition IESETCLIENTAUTH : Z := 22.
Definition IESETSERVERAUTH : Z := 23.
Definition IEBADFORMAT : Z := 24.
Definition IEREVERSEBIDIR : Z := 25.
Definition IEBADPORT : Z := 26.
Definition IETOTALRATE : Z := 27.
Definition IETOTALINTERVAL : Z := 28.
Definition IESKEWTHRESHOLD : Z := 29.
Definition IEIDLETIMEOUT : Z := 30.
Definition IERCVTIMEOUT : Z := 31.
Definition IERVRSONLYRCVTIMEOUT : Z := 32.
Definition IESNDTIMEOUT : Z := 33.
Definition IEUDPFILETRANSFER : Z := 34.
Definition IESERVERAUTHUSERS : Z := 35.
Definition IECNTLKA : Z := 36.
Definition IEMAXSERVERTESTDURATIONEXCEEDED : Z := 37.
Definition IEUNITVAL : Z := 38.
Definition IEQUICCERT : Z := 39.

(** The test *)
Definition IENEWTEST : Z := 100.
Definition IEINITTEST : Z := 101.
Definition IELISTEN : Z := 102.
Definition IECONNECT : Z := 103.
Definition IEACCEPT : Z := 104.
Definition IESENDCOOKIE : Z := 105.
Definition IERECVCOOKIE : Z := 106.
Definition IECTRLWRITE : Z := 107.
Definition IECTRLREAD : Z := 108.
Definition IECTRLCLOSE : Z := 109.
Definition IEMESSAGE : Z := 110.
Definition IESENDMESSAGE : Z := 111.
Definition IERECVMESSAGE : Z := 112.
Definition IESENDPARAMS : Z := 113.
Definition IERECVPARAMS : Z := 114.
Definition IEPACKAGERESULTS : Z := 115.
Definition IESENDRESULTS : Z := 116.
Definition IERECVRESULTS : Z := 117.
Definition IESELECT : Z := 118.
Definition IECLIENTTERM : Z := 119.
Definition IESERVERTERM : Z := 120.
Definition IEACCESSDENIED : Z := 121.
Definition IESETNODELAY : Z := 122.
Definition IESETMSS : Z := 123.
Definition IESETBUF : Z := 124.
Definition IESETTOS : Z := 125.
Definition IESETCOS : Z := 126.
Definition IESETFLOW : Z := 127.
Definition IEREUSEADDR : Z := 128.
Definition IENONBLOCKING : Z := 129.
Definition IESETWINDOWSIZE : Z := 130.
Definition IEPROTOCOL : Z := 131.
Definition IEAFFINITY : Z := 132.
Definition IEDAEMON : Z := 133.
Definition IESETCONGESTION : Z := 134.
Definition IEPIDFILE : Z := 135.
Definition IEV6ONLY : Z := 136.
Definition IESETSCTPDISABLEFRAG : Z := 137.
Definition IESETSCTPNSTREAM : Z := 138.
Definition IESETSCTPBINDX : Z := 139.
Definition IESETPACING : Z := 140.
Definition IESETBUF2 : Z := 141.
Definition IEAUTHTEST : Z := 142.
Definition IEBINDDEV : Z := 143.
Definition IENOMSG : Z := 144.
Definition IESETDONTFRAGMENT : Z := 145.
Definition IEBINDDEVNOSUPPORT : Z := 146.
Definition IEHOSTDEV : Z := 147.
Definition IESETUSERTIMEOUT : Z := 148.
Definition IEPTHREADCREATE : Z := 150.
Definition IEPTHREADCANCEL : Z := 151.
Definition IEPTHREADJOIN : Z := 152.
Definition IEPTHREADATTRINIT : Z := 153.
Definition IEPTHREADATTRDESTROY : Z := 154.
Definition IESETCNTLKA : Z := 155.
Definition IESETCNTLKAKEEPIDLE : Z := 156.
Definition IESETCNTLKAINTERVAL : Z := 157.
Definition IESETCNTLKACOUNT : Z := 158.
Definition IEPTHREADSIGMASK : Z := 159.

(** Streams *)
Definition IECREATESTREAM : Z := 200.
Definition IEINITSTREAM : Z := 201.
Definition IESTREAMLISTEN : Z := 202.
Definition IESTREAMCONNECT : Z := 203.
Definition IESTREAMACCEPT : Z := 204.
Definition IESTREAMWRITE : Z := 205.
Definition IESTREAMREAD : Z := 206.
Definition IESTREAMCLOSE : Z := 207.
Definition IESTREAMID : Z := 208.

(** Timers *)
Definition IENEWTIMER : Z := 300.
Definition IEUPDATETIMER : Z := 301.
