(* ===== verification/CInt.v ===== *)
(** * Machine integers of the C code

    A C integer is a [Z]; what the width does to it is written out.  [wrapu w]
    is the conversion to an unsigned type of [w] bits, [wraps w] the conversion
    to a signed one (two's complement, as every supported compiler does).  The
    network byte order conversions of the packet and control headers
    ([htonl]/[ntohl], [htobe64]/[be64toh] followed by the [memcpy]) are the big
    endian splitting and combining of the value. *)

From S2P Require Import Prelude.

Definition wrapu (w x : Z) : Z := x mod 2 ^ w.
Definition wraps (w x : Z) : Z :=
  let y := x mod 2 ^ w in if y <? 2 ^ (w - 1) then y else y - 2 ^ w.

Abbreviation u32 := (wrapu 32).
Abbreviation u64 := (wrapu 64).
Abbreviation i32 := (wraps 32).
Abbreviation i64 := (wraps 64).
Abbreviation i8 := (wraps 8).

Definition in_u (w x : Z) : Prop := 0 ≤ x < 2 ^ w.
Definition in_s (w x : Z) : Prop := - 2 ^ (w - 1) ≤ x < 2 ^ (w - 1).

#[export] Instance in_u_dec w x : Decision (in_u w x).
Proof. unfold in_u. apply _. Defined.
#[export] Instance in_s_dec w x : Decision (in_s w x).
Proof. unfold in_s. apply _. Defined.

Lemma wrapu_range w x : 0 ≤ w → in_u w (wrapu w x).
Proof. intros. apply Z.mod_pos_bound, Z.pow_pos_nonneg; lia. Qed.

Lemma wrapu_id w x : in_u w x → wrapu w x = x.
Proof. apply Z.mod_small. Qed.

Lemma wrapu_eq_cong w x y : x mod 2 ^ w = y mod 2 ^ w → wrapu w x = wrapu w y.
Proof. done. Qed.

Lemma wrapu_wrapu w x : 0 ≤ w → wrapu w (wrapu w x) = wrapu w x.
Proof. intros. apply wrapu_id, wrapu_range. done. Qed.

Lemma wrapu_add_l w x y : wrapu w (wrapu w x + y) = wrapu w (x + y).
Proof. unfold wrapu. apply Zplus_mod_idemp_l. Qed.

Lemma wrapu_add_r w x y : wrapu w (x + wrapu w y) = wrapu w (x + y).
Proof. unfold wrapu. apply Zplus_mod_idemp_r. Qed.

Lemma wraps_range w x : 0 < w → in_s w (wraps w x).
Proof.
  intros Hw. unfold wraps, in_s.
  assert (2 ^ w = 2 * 2 ^ (w - 1)) as E.
  { rewrite <- Z.pow_succ_r by lia. f_equal. lia. }
  pose proof (Z.mod_pos_bound x (2 ^ w) ltac:(apply Z.pow_pos_nonneg; lia)).
  destruct (Z.ltb_spec (x mod 2 ^ w) (2 ^ (w - 1))); lia.
Qed.

Lemma wraps_id w x : 0 < w → in_s w x → wraps w x = x.
Proof.
  intros Hw [Hl Hh]. unfold wraps.
  assert (2 ^ w = 2 * 2 ^ (w - 1)) as E.
  { rewrite <- Z.pow_succ_r by lia. f_equal. lia. }
  assert (0 < 2 ^ (w - 1)) by (apply Z.pow_pos_nonneg; lia).
  destruct (decide (0 ≤ x)).
  - rewrite Z.mod_small by lia. rewrite (proj2 (Z.ltb_lt _ _)) by lia. done.
  - assert (x mod 2 ^ w = x + 2 ^ w) as ->.
    { rewrite <- (Z.mod_add x 1) by lia. rewrite Z.mul_1_l. apply Z.mod_small. lia. }
    rewrite (proj2 (Z.ltb_ge _ _)) by lia. lia.
Qed.

(** The signed and the unsigned view of a value agree on the bits. *)
Lemma wrapu_wraps w x : 0 < w → wrapu w (wraps w x) = wrapu w x.
Proof.
  intros Hw. unfold wrapu, wraps.
  assert (2 ^ w ≠ 0) by (apply Z.pow_nonzero; lia).
  destruct (x mod 2 ^ w <? 2 ^ (w - 1)).
  - by apply Z.mod_mod.
  - rewrite Zminus_mod, Z_mod_same_full, Z.sub_0_r, !Z.mod_mod by done. done.
Qed.

(** ** Big endian byte order *)

(** [be_split n x]: the [n] low bytes of [x], the most significant first
    ([htonl]/[htobe64] and the copy of the result to the buffer). *)
Fixpoint be_split (n : nat) (x : Z) : bytes :=
  match n with
  | O => []
  | S n' => chr (x / 2 ^ (8 * Z.of_nat n')) :: be_split n' x
  end.

(** The value of a byte string read as a big endian number. *)
Definition be_combine (l : bytes) : Z := foldl (fun a c => a * 256 + u8 c) 0 l.

Lemma length_be_split n x : length (be_split n x) = n.
Proof. induction n; simpl; congruence. Qed.

Lemma be_combine_snoc l c : be_combine (l ++ [c]) = be_combine l * 256 + u8 c.
Proof. unfold be_combine. by rewrite foldl_app. Qed.

Lemma foldl_be_acc a l :
  foldl (fun a c => a * 256 + u8 c) a l = a * 256 ^ Z.of_nat (length l) + be_combine l.
Proof.
  revert a. induction l as [|c l IH] using rev_ind; intros a.
  - unfold be_combine. simpl. lia.
  - rewrite foldl_app, be_combine_snoc, IH, length_app. simpl.
    rewrite Nat2Z.inj_add, Z.pow_add_r by lia. lia.
Qed.

Lemma be_combine_cons c l :
  be_combine (c :: l) = u8 c * 256 ^ Z.of_nat (length l) + be_combine l.
Proof. unfold be_combine at 1. cbn [foldl]. rewrite foldl_be_acc. lia. Qed.

Lemma be_combine_range l : 0 ≤ be_combine l < 256 ^ Z.of_nat (length l).
Proof.
  induction l as [|c l IH]; [unfold be_combine; simpl; lia|].
  rewrite be_combine_cons. cbn [length]. rewrite Nat2Z.inj_succ, Z.pow_succ_r by lia.
  pose proof (u8_range c). nia.
Qed.

Lemma pow_256 n : 256 ^ Z.of_nat n = 2 ^ (8 * Z.of_nat n).
Proof. change 256 with (2 ^ 8). rewrite <- Z.pow_mul_r by lia. done. Qed.

(** Reading back the bytes that were written gives the value modulo the width. *)
Lemma be_combine_split n x : be_combine (be_split n x) = x mod 2 ^ (8 * Z.of_nat n).
Proof.
  induction n as [|n IH]; [simpl; by rewrite Z.mod_1_r|].
  cbn [be_split]. rewrite be_combine_cons, length_be_split, IH, u8_chr, pow_256.
  replace (8 * Z.of_nat (S n)) with (8 * Z.of_nat n + 8) by lia.
  rewrite Z.pow_add_r by lia. change (2 ^ 8) with 256.
  assert (0 < 2 ^ (8 * Z.of_nat n)) by (apply Z.pow_pos_nonneg; lia).
  rewrite Z.rem_mul_r by lia. lia.
Qed.

Lemma be_split_combine l : be_split (length l) (be_combine l) = l.
Proof.
  induction l as [|c l IH]; [done|].
  cbn [length be_split]. rewrite be_combine_cons, pow_256.
  pose proof (be_combine_range l) as Hr. rewrite pow_256 in Hr.
  f_equal.
  - rewrite Z.div_add_l by lia. rewrite Z.div_small by lia.
    rewrite Z.add_0_r. apply chr_u8.
  - etrans; [|apply IH]. clear IH.
    generalize (be_combine l) Hr. intros v Hv.
    assert (∀ n m, (n ≤ m)%nat →
      be_split n (u8 c * 2 ^ (8 * Z.of_nat m) + v) = be_split n v) as Hgen; [|by apply Hgen].
    induction n as [|n IHn]; intros m Hm; [done|].
    cbn [be_split]. rewrite IHn by lia. f_equal.
    apply u8_inj. rewrite !u8_chr.
    replace (8 * Z.of_nat m) with (8 * Z.of_nat n + 8 + 8 * (Z.of_nat m - Z.of_nat n - 1)) by lia.
    rewrite !Z.pow_add_r by lia. change (2 ^ 8) with 256.
    replace (u8 c * (2 ^ (8 * Z.of_nat n) * 256 * 2 ^ (8 * (Z.of_nat m - Z.of_nat n - 1))))
      with (u8 c * 2 ^ (8 * (Z.of_nat m - Z.of_nat n - 1)) * 256 * 2 ^ (8 * Z.of_nat n)) by lia.
    rewrite Z.div_add_l by (apply Z.pow_nonzero; lia).
    rewrite Z.add_comm. apply Z.mod_add. lia.
Qed.

Lemma be_combine_split_id n x :
  0 ≤ x < 2 ^ (8 * Z.of_nat n) → be_combine (be_split n x) = x.
Proof. intros. rewrite be_combine_split. by apply Z.mod_small. Qed.

#[export] Hint Resolve wrapu_range wraps_range length_be_split : iperf.
#[export] Hint Rewrite length_be_split be_combine_split : iperf_rw.
