(* ===== verification/CDouble.v ===== *)
(** * C [double] values

    A [double] is an IEEE 754 binary64 value of the standard library's
    executable specification ([spec_float] at precision 53 and maximal exponent
    1024, round to nearest even).  Conversions to integer types truncate and are
    partial: the C conversion of a NaN, an infinity or an out of range value is
    undefined, which the model reports as [None]. *)

From S2P Require Import Prelude CInt.
From Stdlib Require Export Floats.SpecFloat.

Abbreviation double := spec_float.

#[export] Instance double_eq_dec : EqDecision double.
Proof. solve_decision. Defined.

Definition Dadd : double → double → double := SFadd 53 1024.
Definition Dsub : double → double → double := SFsub 53 1024.
Definition Dmul : double → double → double := SFmul 53 1024.
Definition Ddiv : double → double → double := SFdiv 53 1024.
Definition Dneg : double → double := SFopp.
Definition Dltb : double → double → bool := SFltb.
Definition Dleb : double → double → bool := SFleb.
Definition Deqb : double → double → bool := SFeqb.

(** The conversion of an integer to [double]. *)
Definition D_of_Z (z : Z) : double := binary_normalize 53 1024 z 0 false.
Definition D0 : double := S754_zero false.

(** The decimal literal [m * 10^e], correctly rounded. *)
Definition D_of_dec (m e : Z) : double :=
  if 0 <=? e then D_of_Z (m * 10 ^ e)
  else match m with
       | Z0 => D0
       | Zpos p => Ddiv (S754_finite false p 0) (S754_finite false (Z.to_pos (10 ^ (- e))) 0)
       | Zneg p => Ddiv (S754_finite true p 0) (S754_finite false (Z.to_pos (10 ^ (- e))) 0)
       end.

Definition D_isnan (d : double) : bool := match d with S754_nan => true | _ => false end.
Definition D_isinf (d : double) : bool := match d with S754_infinity _ => true | _ => false end.

(** Truncation toward zero. *)
Definition D_trunc (d : double) : option Z :=
  match d with
  | S754_zero _ => Some 0
  | S754_finite s m e => Some (cond_Zopp s (Z.shiftl (Zpos m) e))
  | _ => None
  end.

(** [(uint64_t) d] and [(int64_t) d]. *)
Definition D_to_u (w : Z) (d : double) : option Z :=
  z ← D_trunc d; if decide (in_u w z) then Some z else None.
Definition D_to_s (w : Z) (d : double) : option Z :=
  z ← D_trunc d; if decide (in_s w z) then Some z else None.

(** ** Doubles that hold integers *)

Lemma digits2_log2 p : Zpos (digits2_pos p) = Z.log2 (Zpos p) + 1.
Proof.
  induction p as [p IH|p IH|]; [| |done]; cbn [digits2_pos];
    rewrite Pos2Z.inj_succ, IH.
  - rewrite (Pos2Z.inj_xI p), Z.log2_succ_double; lia.
  - rewrite (Pos2Z.inj_xO p), Z.log2_double; lia.
Qed.

Lemma iter_xO p n : Zpos (Pos.iter xO p n) = Zpos p * 2 ^ Zpos n.
Proof.
  induction n as [|n IH] using Pos.peano_ind; [cbn; lia|].
  rewrite Pos.iter_succ. rewrite Pos2Z.inj_xO, IH, Pos2Z.inj_succ, Z.pow_succ_r by lia. lia.
Qed.

Lemma digits_53 m : 2 ^ 52 ≤ Zpos m < 2 ^ 53 → Zpos (digits2_pos m) = 53.
Proof. intros. rewrite digits2_log2, (Z.log2_unique _ 52); lia. Qed.

(** A value with a full mantissa and an exponent in range is not rounded. *)
Lemma binary_round_aux_exact s m e :
  2 ^ 52 ≤ Zpos m < 2 ^ 53 → -1074 ≤ e ≤ 971 →
  binary_round_aux 53 1024 s (Zpos m) e loc_Exact = S754_finite s m e.
Proof.
  intros Hm He. unfold binary_round_aux.
  assert (∀ e', e' = e → shr_fexp 53 1024 (Zpos m) e' loc_Exact
                 = (Build_shr_record (Zpos m) false false, e)) as Hs.
  { intros ? ->. unfold shr_fexp, fexp, emin, Zdigits2. rewrite digits_53 by done.
    replace (Z.max (53 + e - 53) (3 - 1024 - 53) - e) with 0 by lia. done. }
  rewrite Hs by done. cbn -[shr_fexp Z.leb]. rewrite Hs by done. cbn -[Z.leb].
  rewrite (proj2 (Z.leb_le e _)) by lia. done.
Qed.

(** The mantissa and exponent of a nonzero integer below 2^53. *)
Definition int_exp (p : positive) : Z := Z.log2 (Zpos p) - 52.
Definition int_mant (p : positive) : positive :=
  match int_exp p with Zneg d => Pos.iter xO p d | _ => p end.

Lemma int_mant_val p : Zpos p < 2 ^ 53 → Zpos (int_mant p) = Zpos p * 2 ^ (- int_exp p).
Proof.
  intros Hp. unfold int_mant. pose proof (proj1 (Z.log2_lt_pow2 (Zpos p) 53 ltac:(lia)) ltac:(lia)).
  destruct (int_exp p) as [|d|d] eqn:E; unfold int_exp in E; [cbn; lia|lia|].
  rewrite iter_xO. done.
Qed.

Lemma int_mant_range p : Zpos p < 2 ^ 53 → 2 ^ 52 ≤ Zpos (int_mant p) < 2 ^ 53.
Proof.
  intros Hp. rewrite int_mant_val by done. unfold int_exp.
  pose proof (Z.log2_spec (Zpos p) ltac:(lia)) as [Hl Hh].
  pose proof (proj1 (Z.log2_lt_pow2 (Zpos p) 53 ltac:(lia)) ltac:(lia)).
  pose proof (Z.log2_nonneg (Zpos p)).
  set (k := Z.log2 (Zpos p)) in *.
  replace (2 ^ 52) with (2 ^ k * 2 ^ (- (k - 52))) by (rewrite <- Z.pow_add_r by lia; f_equal; lia).
  replace (2 ^ 53) with (2 ^ (Z.succ k) * 2 ^ (- (k - 52)))
    by (rewrite <- Z.pow_add_r by lia; f_equal; lia).
  assert (0 < 2 ^ (- (k - 52))) by (apply Z.pow_pos_nonneg; lia). nia.
Qed.

Lemma int_exp_range p : Zpos p < 2 ^ 53 → -52 ≤ int_exp p ≤ 0.
Proof.
  intros. unfold int_exp. pose proof (proj1 (Z.log2_lt_pow2 (Zpos p) 53 ltac:(lia)) ltac:(lia)).
  pose proof (Z.log2_nonneg (Zpos p)). lia.
Qed.

Lemma binary_round_int s p :
  Zpos p < 2 ^ 53 → binary_round 53 1024 s p 0 = S754_finite s (int_mant p) (int_exp p).
Proof.
  intros Hp. unfold binary_round.
  pose proof (int_exp_range p Hp).
  assert (shl_align p 0 (fexp 53 1024 (Zpos (digits2_pos p) + 0)) = (int_mant p, int_exp p)) as ->.
  { unfold shl_align, fexp, emin. rewrite digits2_log2.
    replace (Z.max (Z.log2 (Zpos p) + 1 + 0 - 53) (3 - 1024 - 53)) with (int_exp p)
      by (unfold int_exp in *; lia).
    rewrite Z.sub_0_r. unfold int_mant.
    destruct (int_exp p) eqn:E; [done|lia|done]. }
  apply binary_round_aux_exact; [by apply int_mant_range|lia].
Qed.

Definition small_int (z : Z) : Prop := - 2 ^ 53 < z < 2 ^ 53.
#[export] Instance small_int_dec z : Decision (small_int z).
Proof. unfold small_int. apply _. Defined.

Lemma D_of_Z_pos p : Zpos p < 2 ^ 53 → D_of_Z (Zpos p) = S754_finite false (int_mant p) (int_exp p).
Proof. apply binary_round_int. Qed.
Lemma D_of_Z_neg p : Zpos p < 2 ^ 53 → D_of_Z (Zneg p) = S754_finite true (int_mant p) (int_exp p).
Proof. apply binary_round_int. Qed.

Lemma shiftl_int_mant p : Zpos p < 2 ^ 53 → Z.shiftl (Zpos (int_mant p)) (int_exp p) = Zpos p.
Proof.
  intros Hp. pose proof (int_exp_range p Hp).
  replace (int_exp p) with (- (- int_exp p)) by lia.
  rewrite Z.shiftl_opp_r, Z.shiftr_div_pow2 by lia. rewrite int_mant_val by done.
  apply Z.div_mul. apply Z.pow_nonzero; lia.
Qed.

(** Truncating the double of a small integer gives the integer back. *)
Lemma D_trunc_of_Z z : small_int z → D_trunc (D_of_Z z) = Some z.
Proof.
  unfold small_int. intros Hz. destruct z as [|p|p]; [done| |].
  - rewrite D_of_Z_pos by lia. cbn -[Z.shiftl]. rewrite shiftl_int_mant by lia. done.
  - rewrite D_of_Z_neg by lia. cbn -[Z.shiftl]. rewrite shiftl_int_mant by lia. done.
Qed.

Lemma int_compare p q :
  Zpos p < 2 ^ 53 → Zpos q < 2 ^ 53 →
  match int_exp p ?= int_exp q with
  | Lt => Lt | Gt => Gt
  | Eq => Pos.compare_cont Eq (int_mant p) (int_mant q)
  end = (p ?= q)%positive.
Proof.
  intros Hp Hq. change (p ?= q)%positive with (Zpos p ?= Zpos q).
  change (Pos.compare_cont Eq (int_mant p) (int_mant q)) with (Zpos (int_mant p) ?= Zpos (int_mant q)).
  destruct (Z.compare_spec (int_exp p) (int_exp q)) as [E|L|G]; symmetry.
  - rewrite !int_mant_val, E by done.
    apply Zmult_compare_compat_r. apply Z.lt_gt, Z.pow_pos_nonneg; [lia|].
    pose proof (int_exp_range q Hq). lia.
  - apply Z.compare_lt_iff. unfold int_exp in L. apply Z.log2_lt_cancel. lia.
  - apply Z.compare_gt_iff. unfold int_exp in G. apply Z.log2_lt_cancel. lia.
Qed.

(** The comparison of the doubles of two small integers is theirs. *)
Lemma D_compare_of_Z a b :
  small_int a → small_int b → SFcompare (D_of_Z a) (D_of_Z b) = Some (a ?= b).
Proof.
  unfold small_int. intros Ha Hb.
  destruct a as [|p|p], b as [|q|q];
    rewrite ?D_of_Z_pos, ?D_of_Z_neg by lia; try done.
  - cbn [SFcompare]. f_equal. rewrite (int_compare p q) by lia. done.
  - cbn [SFcompare]. f_equal.
    pose proof (int_compare p q ltac:(lia) ltac:(lia)) as Hc.
    cbn. rewrite <- Hc.
    destruct (int_exp p ?= int_exp q); done.
Qed.

Lemma Deqb_of_Z a b : small_int a → small_int b → Deqb (D_of_Z a) (D_of_Z b) = (a =? b).
Proof.
  intros. unfold Deqb, SFeqb. rewrite D_compare_of_Z by done.
  rewrite Z.eqb_compare. by destruct (a ?= b).
Qed.
Lemma Dltb_of_Z a b : small_int a → small_int b → Dltb (D_of_Z a) (D_of_Z b) = (a <? b).
Proof.
  intros. unfold Dltb, SFltb. rewrite D_compare_of_Z by done. done.
Qed.
Lemma Dleb_of_Z a b : small_int a → small_int b → Dleb (D_of_Z a) (D_of_Z b) = (a <=? b).
Proof.
  intros. unfold Dleb, SFleb. rewrite D_compare_of_Z by done. done.
Qed.

Lemma D_of_Z_finite z : small_int z → D_isnan (D_of_Z z) = false ∧ D_isinf (D_of_Z z) = false.
Proof.
  unfold small_int. intros. destruct z; [done| |];
    rewrite ?D_of_Z_pos, ?D_of_Z_neg by lia; done.
Qed.

(** A finite double minus itself is the positive zero. *)
Lemma Dsub_diag s m e : Dsub (S754_finite s m e) (S754_finite s m e) = D0.
Proof. cbn. by rewrite Z.sub_diag. Qed.
