(* ===== verification/CStdio.v ===== *)
(** * Number formatting and scanning of the C library

    The conversions of [printf] and [strtod] the sources use, on exact values:
    [%lld] ([dec_Z]), [%02x]/[%04x] ([hex_pad]), [%.Nf] ([fmt_f]), [%.Ng]
    ([fmt_g]) and the decimal forms of [strtod].  Formatting a double rounds its
    exact value half to even to the requested digits; scanning rounds the exact
    decimal to the nearest double. *)

From S2P Require Import Prelude CInt CDouble.

(** ** Decimal integers *)

Definition digit (d : Z) : ascii := chr (48 + d).
Definition is_digit (c : ascii) : bool := (48 <=? u8 c) && (u8 c <=? 57).
Definition digit_val (c : ascii) : Z := u8 c - 48.

(** The decimal digits of [n], most significant first, before [acc]. *)
Fixpoint udigits (fuel : nat) (n : Z) (acc : bytes) : bytes :=
  match fuel with
  | O => acc
  | S fuel' =>
      if n <? 10 then digit n :: acc
      else udigits fuel' (n / 10) (digit (n mod 10) :: acc)
  end.

Definition dec_fuel (n : Z) : nat := S (Z.to_nat (Z.log2 n)).
Definition dec_U (n : Z) : bytes := udigits (dec_fuel n) n [].
Definition dec_Z (n : Z) : bytes := if n <? 0 then B "-" ++ dec_U (- n) else dec_U n.

Definition dec_val (l : bytes) : Z := foldl (fun a c => 10 * a + digit_val c) 0 l.

Lemma digit_is_digit d : 0 ≤ d < 10 → is_digit (digit d) = true.
Proof.
  intros. unfold is_digit, digit. rewrite u8_small_chr by lia.
  apply andb_true_iff. rewrite !Z.leb_le. lia.
Qed.

Lemma digit_val_digit d : 0 ≤ d < 10 → digit_val (digit d) = d.
Proof. intros. unfold digit_val, digit. rewrite u8_small_chr; lia. Qed.

Lemma dec_fuel_ok n : 0 ≤ n → n < 10 ^ Z.of_nat (dec_fuel n).
Proof.
  intros. unfold dec_fuel. pose proof (Z.log2_nonneg n).
  destruct (decide (n = 0)) as [->|]; [done|].
  pose proof (Z.log2_spec n ltac:(lia)) as [_ Hh].
  rewrite Nat2Z.inj_succ, Z2Nat.id by lia.
  eapply Z.lt_le_trans; [exact Hh|]. apply Z.pow_le_mono_l. lia.
Qed.

(** Every property of the digits follows from this one: the accumulator is
    extended to the left by digits whose value is [n]. *)
Lemma udigits_spec fuel n acc :
  0 ≤ n < 10 ^ Z.of_nat fuel →
  ∃ l, udigits fuel n acc = l ++ acc ∧ Forall (fun c => is_digit c = true) l
       ∧ (0 < fuel → l ≠ [])%nat ∧ dec_val l = n.
Proof.
  revert n acc. induction fuel as [|fuel IH]; intros n acc Hn.
  { exists []. cbn in *. unfold dec_val. cbn. split_and!; [done|by constructor|lia|lia]. }
  cbn [udigits]. destruct (Z.ltb_spec n 10).
  - exists [digit n]. split_and!; [done| |intros; discriminate|].
    + constructor; [apply digit_is_digit; lia|constructor].
    + unfold dec_val. cbn [foldl]. rewrite digit_val_digit; lia.
  - rewrite Nat2Z.inj_succ, Z.pow_succ_r in Hn by lia.
    pose proof (Z.mod_pos_bound n 10 ltac:(lia)).
    destruct (IH (n / 10) (digit (n mod 10) :: acc)) as (l & -> & Hd & Hne & Hv).
    { split; [apply Z.div_pos; lia|apply Z.div_lt_upper_bound; lia]. }
    exists (l ++ [digit (n mod 10)]). split_and!.
    + by rewrite <- app_assoc.
    + apply Forall_app. split; [done|]. constructor; [by apply digit_is_digit|constructor].
    + intros _ E. by destruct l.
    + unfold dec_val. rewrite foldl_app. fold (dec_val l). cbn [foldl].
      rewrite Hv, digit_val_digit by done. pose proof (Z.div_mod n 10). lia.
Qed.

Lemma dec_U_spec n :
  0 ≤ n → Forall (fun c => is_digit c = true) (dec_U n) ∧ dec_U n ≠ [] ∧ dec_val (dec_U n) = n.
Proof.
  intros. pose proof (dec_fuel_ok n). unfold dec_U.
  destruct (udigits_spec (dec_fuel n) n []) as (l & -> & ? & Hne & ?); [lia|].
  rewrite app_nil_r. split_and!; [done| |done]. apply Hne. unfold dec_fuel. lia.
Qed.

Lemma udigits_length fuel n acc k :
  0 ≤ n < 10 ^ Z.of_nat k → (length (udigits fuel n acc) ≤ Nat.max 1 k + length acc)%nat.
Proof.
  revert n acc k. induction fuel as [|fuel IH]; intros n acc k Hn; cbn [udigits]; [lia|].
  case_match; bool_to_prop; [cbn; lia|]. destruct k as [|k]; [cbn in Hn; lia|].
  rewrite Nat2Z.inj_succ, Z.pow_succ_r in Hn by lia.
  assert (k ≠ 0)%nat by (intros ->; cbn in Hn; lia).
  specialize (IH (n / 10) (digit (n mod 10) :: acc) k).
  cbn [length] in IH. etransitivity; [apply IH|lia].
  split; [apply Z.div_pos; lia|apply Z.div_lt_upper_bound; lia].
Qed.

Lemma dec_Z_length z k :
  Z.abs z < 10 ^ Z.of_nat k → (length (dec_Z z) ≤ 1 + Nat.max 1 k)%nat.
Proof.
  intros. unfold dec_Z, dec_U. case_match; bool_to_prop; [rewrite length_app|].
  - pose proof (udigits_length (dec_fuel (- z)) (- z) [] k). cbn [length B String.list_ascii_of_string] in *.
    change (length (B "-")) with 1%nat. lia.
  - pose proof (udigits_length (dec_fuel z) z [] k). cbn [length] in *. lia.
Qed.

(** ** Hexadecimal digits of [%02x] and [%04x] *)

Definition hexdigit (d : Z) : ascii := if d <? 10 then chr (48 + d) else chr (87 + d).
Fixpoint hex_pad (n : nat) (x : Z) : bytes :=
  match n with
  | O => []
  | S n' => hexdigit (x / 16 ^ Z.of_nat n' mod 16) :: hex_pad n' x
  end.

(** ** Floating point formatting *)

(** [num / den] rounded to the nearest integer, ties to even. *)
Definition round_div (num den : Z) : Z :=
  let q := num / den in
  let r := num mod den in
  match 2 * r ?= den with
  | Lt => q
  | Gt => q + 1
  | Eq => if Z.even q then q else q + 1
  end.

(** The exact value of a finite nonzero double as a fraction. *)
Definition D_frac (m : positive) (e : Z) : Z * Z :=
  if 0 <=? e then (Zpos m * 2 ^ e, 1) else (Zpos m, 2 ^ (- e)).

(** The decimal exponent of [num / den] > 0. *)
Definition dec_exp (num den : Z) : Z :=
  if den <=? num then Z.of_nat (length (dec_U (num / den))) - 1
  else - Z.of_nat (length (dec_U ((den + num - 1) / num - 1))).

(** [num / den * 10 ^ k], rounded. *)
Definition scale_round (num den k : Z) : Z :=
  if 0 <=? k then round_div (num * 10 ^ k) den else round_div num (den * 10 ^ (- k)).

(** [p] significant digits (as an integer) and the decimal exponent. *)
Definition sig_digits (p num den : Z) : Z * Z :=
  let x := dec_exp num den in
  let q := scale_round num den (p - 1 - x) in
  if q =? 10 ^ p then (10 ^ (p - 1), x + 1) else (q, x).

Definition pad_left (n : nat) (c : ascii) (l : bytes) : bytes :=
  replicate (n - length l)%nat c ++ l.

(** An integer [q] printed with [k] digits after the point. *)
Definition fixed_point (q : Z) (k : nat) : bytes :=
  let l := pad_left (S k) "0"%char (dec_U q) in
  let i := (length l - k)%nat in
  if decide (k = 0%nat) then l else take i l ++ B "." ++ drop i l.

Definition strip_zeros (l : bytes) : bytes :=
  let fix go (r : bytes) : bytes :=
    match r with c :: r' => if decide (c = "0"%char) then go r' else r | [] => [] end in
  match go (rev l) with
  | c :: r => if decide (c = "."%char) then rev r else rev (c :: r)
  | [] => []
  end.

(** Trailing zeros go only when there is a fractional part. *)
Definition strip_fraction (l : bytes) : bytes :=
  if decide ("."%char ∈ l) then strip_zeros l else l.

Definition exp_suffix (x : Z) : bytes :=
  B "e" ++ (if x <? 0 then B "-" else B "+") ++ pad_left 2 "0"%char (dec_U (Z.abs x)).

Definition sign_text (s : bool) : bytes := if s then B "-" else [].

(** [%.pg] without the [#] flag. *)
Definition fmt_g (p : Z) (d : double) : bytes :=
  match d with
  | S754_nan => B "nan"
  | S754_infinity s => sign_text s ++ B "inf"
  | S754_zero s => sign_text s ++ B "0"
  | S754_finite s m e =>
      let '(num, den) := D_frac m e in
      let '(q, x) := sig_digits p num den in
      sign_text s ++
      (if (x <? -4) || (p <=? x)
       then strip_fraction (fixed_point q (Z.to_nat (p - 1))) ++ exp_suffix x
       else strip_fraction (fixed_point q (Z.to_nat (p - 1 - x))))
  end.

(** [%.kf]. *)
Definition fmt_f (k : nat) (d : double) : bytes :=
  match d with
  | S754_nan => B "nan"
  | S754_infinity s => sign_text s ++ B "inf"
  | S754_zero s => sign_text s ++ fixed_point 0 k
  | S754_finite s m e =>
      let '(num, den) := D_frac m e in
      sign_text s ++ fixed_point (scale_round num den (Z.of_nat k)) k
  end.

(** ** [strtod] on decimal forms *)

(** The longest prefix of digits, and the rest. *)
Fixpoint span_digits (l : bytes) : bytes * bytes :=
  match l with
  | c :: l' => if is_digit c then let '(d, r) := span_digits l' in (c :: d, r) else ([], l)
  | [] => ([], [])
  end.

Definition strtod_sign (l : bytes) : bool * bytes :=
  match l with
  | c :: l' => if decide (c = "-"%char) then (true, l')
               else if decide (c = "+"%char) then (false, l') else (false, l)
  | [] => (false, [])
  end.

(** An exponent part is read only when it has digits. *)
Definition strtod_exp (l : bytes) : Z * bytes :=
  match l with
  | c :: l' =>
      if (bool_decide (c = "e"%char) || bool_decide (c = "E"%char))
      then let '(s, l1) := strtod_sign l' in
           match span_digits l1 with
           | ([], _) => (0, l)
           | (d, r) => ((if s then - dec_val d else dec_val d), r)
           end
      else (0, l)
  | [] => (0, [])
  end.

(** The value of [± digits . fraction e exponent] as a double. *)
Definition strtod_value (s : bool) (d f : bytes) (x : Z) : double :=
  let m := dec_val (d ++ f) in
  if m =? 0 then S754_zero s
  else D_of_dec (if s then - m else m) (x - Z.of_nat (length f)).

(** The value and the number of bytes read; [None] when there is no number. *)
Definition strtod (l : bytes) : option (double * nat) :=
  let '(s, l1) := strtod_sign l in
  let '(d, l2) := span_digits l1 in
  let '(f, l3) :=
    match l2 with
    | c :: l' => if decide (c = "."%char) then span_digits l' else ([], l2)
    | [] => ([], [])
    end in
  match d ++ f with
  | [] => None
  | _ => let '(x, l4) := strtod_exp l3 in
         Some (strtod_value s d f x, (length l - length l4)%nat)
  end.

(** ** Reading back what was printed *)

Lemma span_digits_app l r :
  Forall (fun c => is_digit c = true) l →
  (∀ c, head r = Some c → is_digit c = false) →
  span_digits (l ++ r) = (l, r).
Proof.
  intros Hl Hr. induction Hl as [|c l Hc Hl IH]; cbn.
  - destruct r as [|c r]; [done|]. cbn. by rewrite (Hr c).
  - rewrite Hc, IH. done.
Qed.

Lemma digit_not_sign c : is_digit c = true → c ≠ "-"%char ∧ c ≠ "+"%char.
Proof. intros Hc. split; intros ->; done. Qed.

(** A byte that may follow a number in the text without being read as part of it. *)
Definition ends_number (r : bytes) : Prop :=
  match r with
  | [] => True
  | c :: _ => is_digit c = false ∧ c ≠ "."%char ∧ c ≠ "e"%char ∧ c ≠ "E"%char
  end.

Lemma strtod_exp_end r : ends_number r → strtod_exp r = (0, r).
Proof.
  destruct r as [|c r]; [done|]. intros (_ & _ & He & HE). cbn.
  by rewrite !bool_decide_false by done.
Qed.

(** [strtod] reads a printed integer as the double of the integer. *)
Lemma strtod_dec_Z z r :
  small_int z → ends_number r →
  strtod (dec_Z z ++ r) = Some (D_of_Z z, length (dec_Z z)).
Proof.
  intros Hz Hr. unfold dec_Z.
  assert (∀ n (s : bool), 0 ≤ n → (n = 0 → s = false) →
    strtod ((if s then B "-" else []) ++ dec_U n ++ r)
    = Some (D_of_Z (if s then - n else n), length ((if s then B "-" else []) ++ dec_U n))) as Hgen.
  { intros n s Hn Hs. destruct (dec_U_spec n Hn) as (Hd & Hne & Hv).
    unfold strtod.
    assert (strtod_sign ((if s then B "-" else []) ++ dec_U n ++ r) = (s, dec_U n ++ r)) as ->.
    { destruct s; [done|]. destruct (dec_U n) as [|c l]; [done|]. cbn.
      apply Forall_cons in Hd as [Hc _]. destruct (digit_not_sign c Hc).
      by rewrite !decide_False. }
    rewrite span_digits_app; [|done|].
    2: { destruct r as [|c' r]; [done|]. intros ? [= <-]. apply Hr. }
    assert (match r with
            | [] => ([], [])
            | c :: l' => if decide (c = "."%char) then span_digits l' else ([], r)
            end = ([], r)) as ->.
    { destruct r as [|c' r]; [done|]. destruct Hr as (_ & ? & _). by rewrite decide_False. }
    rewrite app_nil_r. destruct (dec_U n) as [|c l] eqn:E; [done|]. rewrite <- E in *.
    rewrite strtod_exp_end by done. f_equal. f_equal.
    - unfold strtod_value. rewrite app_nil_r, Hv. cbn [length].
      unfold D_of_dec. replace (0 <=? 0 - Z.of_nat 0) with true by done.
      change (0 - Z.of_nat 0) with 0. rewrite Z.mul_1_r.
      destruct (Z.eqb_spec n 0); [|done]. subst. by rewrite Hs.
    - rewrite !length_app. lia. }
  destruct (Z.ltb_spec z 0).
  - rewrite <- app_assoc. rewrite (Hgen (- z) true) by lia. by rewrite Z.opp_involutive.
  - apply (Hgen z false); lia.
Qed.

(** ** What [strtod] consumes *)

Lemma span_digits_length l d r : span_digits l = (d, r) → length l = (length d + length r)%nat.
Proof.
  revert d r. induction l as [|c l IH]; intros d r; cbn; [by intros [= <- <-]|].
  case_match; [|by intros [= <- <-]].
  destruct (span_digits l) as [d' r'] eqn:E. intros [= <- <-]. cbn. by rewrite (IH d' r').
Qed.

Lemma strtod_sign_length l s r : strtod_sign l = (s, r) → (length r ≤ length l)%nat.
Proof.
  destruct l as [|c l]; cbn; [intros [= <- <-]; done|].
  repeat case_match; intros [= <- <-]; cbn; lia.
Qed.

Lemma strtod_exp_length l x r : strtod_exp l = (x, r) → (length r ≤ length l)%nat.
Proof.
  destruct l as [|c l]; cbn; [intros [= <- <-]; done|].
  case_match; [|intros [= <- <-]; done].
  destruct (strtod_sign l) as [s l1] eqn:Es. apply strtod_sign_length in Es.
  destruct (span_digits l1) as [d r'] eqn:Ed. apply span_digits_length in Ed.
  destruct d; intros [= <- <-]; cbn in *; lia.
Qed.

Lemma strtod_consumed l v n : strtod l = Some (v, n) → (0 < n ≤ length l)%nat.
Proof.
  unfold strtod. destruct (strtod_sign l) as [s l1] eqn:Es. apply strtod_sign_length in Es.
  destruct (span_digits l1) as [d l2] eqn:Ed. apply span_digits_length in Ed.
  destruct (match l2 with [] => _ | _ => _ end) as [f l3] eqn:Ef.
  assert (length f + length l3 ≤ length l2)%nat.
  { destruct l2 as [|c l2]; [injection Ef as <- <-; done|].
    case_match; [apply span_digits_length in Ef; cbn; lia|injection Ef as <- <-; done]. }
  destruct (d ++ f) as [|c df] eqn:Edf; [done|].
  apply (f_equal length) in Edf. rewrite length_app in Edf. cbn in Edf.
  destruct (strtod_exp l3) as [x l4] eqn:Ex. apply strtod_exp_length in Ex.
  intros [= <- <-]. lia.
Qed.
