(* ===== verification/IperfTime.v ===== *)
(** * Timestamps ([src/iperf_time.c])

    [struct iperf_time] is a pair of 32-bit unsigned fields; the functions
    below compute at the widths of the C code.  [value] is the number of
    microseconds a timestamp denotes, [normalized] says that its microsecond
    field is below one million: the clock helper, [iperf_time_add_usecs] and
    [iperf_time_diff] only produce such timestamps. *)

From S2P Require Import Prelude CInt CDouble.

Record iperf_time := mk_time { secs : Z; usecs : Z }.

#[export] Instance iperf_time_eq_dec : EqDecision iperf_time.
Proof. solve_decision. Defined.
#[export] Instance eta_iperf_time : Settable iperf_time :=
  fun t => mk_time (secs t) (usecs t).

(** [clock_gettime_helper]: the seconds and nanoseconds the clock returned. *)
Definition of_timespec (tv_sec tv_nsec : Z) : iperf_time :=
  mk_time (u32 tv_sec) (u32 tv_nsec / 1000).

Definition iperf_time_add_usecs (time1 : iperf_time) (us : Z) : iperf_time :=
  let total_usecs := u64 (usecs time1 + u64 us) in
  mk_time (u32 (secs time1 + total_usecs / 1000000))
          (u32 (total_usecs mod 1000000)).

Definition iperf_time_in_usecs (t : iperf_time) : Z :=
  u64 (i64 (secs t * 1000000) + usecs t).

Definition iperf_time_in_secs (t : iperf_time) : double :=
  Dadd (D_of_Z (secs t)) (Ddiv (D_of_Z (usecs t)) (D_of_Z 1000000)).

Definition iperf_time_compare (time1 time2 : iperf_time) : Z :=
  if secs time1 <? secs time2 then -1
  else if secs time1 >? secs time2 then 1
  else if usecs time1 <? usecs time2 then -1
  else if usecs time1 >? usecs time2 then 1
  else 0.

(** The subtraction of [iperf_time_diff], [a] being the later operand. *)
Definition diff_later (a b : iperf_time) : iperf_time :=
  let s := u32 (secs a - secs b) in
  let us := usecs a in
  let '(s, us) :=
    if us <? usecs b then (u32 (s - 1), u32 (us + 1000000)) else (s, us) in
  mk_time s (u32 (us - usecs b)).

(** The result is the [past] flag and the difference stored through [diff]. *)
Definition iperf_time_diff (time1 time2 : iperf_time) : Z * iperf_time :=
  let cmp := iperf_time_compare time1 time2 in
  if cmp =? 0 then (1, mk_time 0 0)
  else if cmp =? 1 then (0, diff_later time1 time2)
  else (1, diff_later time2 time1).

(** ** Specification *)

Definition value (t : iperf_time) : Z := secs t * 1000000 + usecs t.

Definition normalized (t : iperf_time) : Prop :=
  in_u 32 (secs t) ∧ 0 ≤ usecs t < 1000000.

#[export] Instance normalized_dec t : Decision (normalized t).
Proof. unfold normalized. apply _. Defined.

Lemma of_timespec_normalized s ns :
  0 ≤ ns < 1000000000 → normalized (of_timespec s ns).
Proof.
  intros Hns. split; [apply wrapu_range; lia|]. cbn.
  rewrite wrapu_id by (unfold in_u; lia).
  pose proof (Z.div_pos ns 1000). pose proof (Z.div_lt_upper_bound ns 1000 1000000). lia.
Qed.

Lemma value_inj t1 t2 : normalized t1 → normalized t2 → value t1 = value t2 → t1 = t2.
Proof.
  destruct t1 as [s1 u1], t2 as [s2 u2]. unfold normalized, value, in_u. cbn.
  intros [??] [??] ?. assert (s1 = s2) by lia. subst. f_equal. lia.
Qed.

Lemma value_range t : normalized t → 0 ≤ value t < 2 ^ 32 * 1000000.
Proof. unfold normalized, value, in_u. lia. Qed.

(** [iperf_time_compare] is the comparison of the denoted microseconds. *)
Lemma compare_value t1 t2 :
  normalized t1 → normalized t2 →
  iperf_time_compare t1 t2 = Z.sgn (value t1 - value t2).
Proof.
  unfold normalized, value, iperf_time_compare, in_u. intros [??] [??].
  repeat case_goal; bool_to_prop;
    symmetry; rewrite ?Z.sgn_null_iff, ?Z.sgn_pos_iff, ?Z.sgn_neg_iff; lia.
Qed.

Lemma compare_lt t1 t2 :
  normalized t1 → normalized t2 →
  (iperf_time_compare t1 t2 <? 0) = bool_decide (value t1 < value t2).
Proof.
  intros. rewrite compare_value by done.
  case_bool_decide; [apply Z.ltb_lt|apply Z.ltb_ge]; lia.
Qed.

Lemma compare_gt t1 t2 :
  normalized t1 → normalized t2 →
  (iperf_time_compare t1 t2 >? 0) = bool_decide (value t2 < value t1).
Proof.
  intros. rewrite compare_value, Z.gtb_ltb by done.
  case_bool_decide; [apply Z.ltb_lt|apply Z.ltb_ge]; lia.
Qed.

Lemma add_usecs_normalized t us : normalized (iperf_time_add_usecs t us).
Proof.
  split; [apply wrapu_range; lia|]. cbn.
  pose proof (Z.mod_pos_bound (u64 (usecs t + u64 us)) 1000000 ltac:(lia)).
  rewrite wrapu_id; [lia|unfold in_u; lia].
Qed.

(** Adding microseconds adds to the denoted value, as long as the seconds stay
    in 32 bits. *)
Lemma add_usecs_value t us :
  normalized t → 0 ≤ us → value t + us < 2 ^ 32 * 1000000 →
  value (iperf_time_add_usecs t us) = value t + us.
Proof.
  unfold normalized, value, in_u. intros [??] ? Hb. cbn.
  rewrite (wrapu_id 64 us) by (unfold in_u; lia).
  rewrite (wrapu_id 64) by (unfold in_u; lia).
  pose proof (Z.div_mod (usecs t + us) 1000000 ltac:(lia)).
  pose proof (Z.mod_pos_bound (usecs t + us) 1000000 ltac:(lia)).
  pose proof (Z.div_pos (usecs t + us) 1000000).
  rewrite !wrapu_id by (unfold in_u; lia). lia.
Qed.

Lemma in_usecs_value t : normalized t → iperf_time_in_usecs t = value t.
Proof.
  unfold normalized, in_u, iperf_time_in_usecs, value. intros [??].
  rewrite wraps_id by (unfold in_s; lia). apply wrapu_id. unfold in_u. lia.
Qed.

Lemma diff_later_spec a b :
  normalized a → normalized b → value b ≤ value a →
  normalized (diff_later a b) ∧ value (diff_later a b) = value a - value b.
Proof.
  unfold normalized, value, in_u. destruct a as [sa ua], b as [sb ub]. cbn.
  intros [??] [??] ?. unfold diff_later. cbn.
  rewrite (wrapu_id 32 (sa - sb)) by (unfold in_u; lia).
  destruct (Z.ltb_spec ua ub); cbn;
    [rewrite (wrapu_id 32 (ua + 1000000)) by (unfold in_u; lia)|];
    rewrite !wrapu_id by (unfold in_u; lia); lia.
Qed.

(** On normalized timestamps [iperf_time_diff] stores the distance between the
    two instants, again normalized, and returns 1 exactly when the first one is
    not later than the second. *)
Lemma iperf_time_diff_value t1 t2 :
  normalized t1 → normalized t2 →
  let '(past, d) := iperf_time_diff t1 t2 in
  normalized d ∧ iperf_time_in_usecs d = Z.abs (value t1 - value t2) ∧
  past = (if bool_decide (value t1 ≤ value t2) then 1 else 0).
Proof.
  intros H1 H2. unfold iperf_time_diff. rewrite compare_value by done.
  destruct (Z.lt_trichotomy (value t1) (value t2)) as [Hlt|[He|Hgt]].
  - rewrite Z.sgn_neg by lia. cbn.
    destruct (diff_later_spec t2 t1) as [Hn Hv]; [done..|lia|].
    rewrite in_usecs_value, Hv, bool_decide_true by (done || lia).
    split_and!; [done|lia|done].
  - rewrite He, Z.sub_diag. cbn. rewrite bool_decide_true by lia. done.
  - rewrite Z.sgn_pos by lia. cbn.
    destruct (diff_later_spec t1 t2) as [Hn Hv]; [done..|lia|].
    rewrite in_usecs_value, Hv, bool_decide_false by (done || lia).
    split_and!; [done|lia|done].
Qed.

(** ** Properties *)

(** Adding a timeout to a timestamp and taking the difference gives the
    timeout back, which is what the timers rely on to sleep until a deadline:
    the arithmetic carries between the fields and, below 2^32 seconds, no
    field wraps. *)
Theorem add_then_diff t us :
  normalized t → 0 < us → value t + us < 2 ^ 32 * 1000000 →
  let '(past, d) := iperf_time_diff (iperf_time_add_usecs t us) t in
  past = 0 ∧ iperf_time_in_usecs d = us.
Proof.
  intros Ht Hus Hb.
  pose proof (iperf_time_diff_value _ t (add_usecs_normalized t us) Ht) as Hd.
  destruct (iperf_time_diff _ t) as [past d]. destruct Hd as (_ & Hd & ->).
  rewrite Hd, add_usecs_value by (done || lia).
  rewrite bool_decide_false by lia. split; [done|lia].
Qed.

Lemma add_then_diff_witness :
  let '(past, d) := iperf_time_diff (iperf_time_add_usecs (mk_time 7 999999) 2000003) (mk_time 7 999999) in
  past = 0 ∧ iperf_time_in_usecs d = 2000003.
Proof.
  apply (add_then_diff (mk_time 7 999999) 2000003);
[decided|done|done].
Defined.
