(* ===== verification/Json.v ===== *)
(** * cJSON items ([src/cjson.c], [src/cjson.h]): the data, the lookups, the builders

    An item carries the fields of [struct cJSON]; the sibling list behind
    [child]/[next]/[prev] is the list [child].  A null pointer is [None].
    Allocation is total here: no operation models a failing [malloc].  A string
    held by an item is the C string its buffer holds, without its terminator. *)

From S2P Require Import Prelude CInt CDouble CStdio.

Definition cJSON_Invalid : Z := 0.
Definition cJSON_False : Z := 1.
Definition cJSON_True : Z := 2.
Definition cJSON_NULL : Z := 4.
Definition cJSON_Number : Z := 8.
Definition cJSON_String : Z := 16.
Definition cJSON_Array : Z := 32.
Definition cJSON_Object : Z := 64.
Definition cJSON_Raw : Z := 128.
Definition cJSON_IsReference : Z := 256.
Definition cJSON_StringIsConst : Z := 512.

Inductive cJSON : Type := mk_cJSON {
  type : Z;
  valuestring : option bytes;
  valueint : Z;
  valuedouble : double;
  string_ : option bytes;
  child : list cJSON
}.

#[export] Instance eta_cJSON : Settable cJSON := fun j =>
  mk_cJSON (type j) (valuestring j) (valueint j) (valuedouble j) (string_ j) (child j).

(** The induction principle that goes through the children. *)
Section cJSON_induction.
Context (P : cJSON → Prop).
Hypothesis Hitem : ∀ t vs vi vd s c, Forall P c → P (mk_cJSON t vs vi vd s c).

Fixpoint cJSON_rect' (j : cJSON) : P j :=
  match j with
  | mk_cJSON t vs vi vd s c =>
      Hitem t vs vi vd s c
        ((fix go (c : list cJSON) : Forall P c :=
            match c with
            | [] => List.Forall_nil _
            | x :: c' => List.Forall_cons _ _ _ (cJSON_rect' x) (go c')
            end) c)
  end.
End cJSON_induction.

(** ** Construction *)

(** [cJSON_New_Item]: an allocated item, all zero. *)
Definition cJSON_New_Item : cJSON := mk_cJSON 0 None 0 D0 None [].

Definition LLONG_MAX : Z := 9223372036854775807.
Definition LLONG_MIN : Z := - 9223372036854775808.

(** The saturating conversion shared by [cJSON_CreateNumber], [parse_number]
    and [cJSON_SetNumberHelper].  The last cast is undefined for a NaN, which
    passes both tests; the model then leaves the zero of the fresh item. *)
Definition saturate_int (num : double) : Z :=
  if Dleb (D_of_Z LLONG_MAX) num then LLONG_MAX
  else if Dleb num (D_of_Z LLONG_MIN) then LLONG_MIN
  else default 0 (D_to_s 64 num).

Definition cJSON_CreateNull : cJSON := cJSON_New_Item <| type := cJSON_NULL |>.
Definition cJSON_CreateTrue : cJSON := cJSON_New_Item <| type := cJSON_True |>.
Definition cJSON_CreateFalse : cJSON := cJSON_New_Item <| type := cJSON_False |>.
Definition cJSON_CreateBool (boolean : bool) : cJSON :=
  cJSON_New_Item <| type := if boolean then cJSON_True else cJSON_False |>.
Definition cJSON_CreateNumber (num : double) : cJSON :=
  cJSON_New_Item <| type := cJSON_Number |> <| valuedouble := num |>
    <| valueint := saturate_int num |>.
Definition cJSON_CreateString (s : bytes) : cJSON :=
  cJSON_New_Item <| type := cJSON_String |> <| valuestring := Some s |>.
Definition cJSON_CreateArray : cJSON := cJSON_New_Item <| type := cJSON_Array |>.
Definition cJSON_CreateObject : cJSON := cJSON_New_Item <| type := cJSON_Object |>.

(** [create_reference]: a copy of the item that shares its children. *)
Definition create_reference (item : cJSON) : cJSON :=
  item <| string_ := None |> <| type := Z.lor (type item) cJSON_IsReference |>.

Definition add_item_to_array (array item : cJSON) : cJSON :=
  array <| child := child array ++ [item] |>.

Definition add_item_to_object (object : cJSON) (string : bytes) (item : cJSON)
    (constant_key : bool) : cJSON :=
  let new_type := if constant_key then Z.lor (type item) cJSON_StringIsConst
                  else Z.land (type item) (Z.lnot cJSON_StringIsConst) in
  add_item_to_array object (item <| string_ := Some string |> <| type := new_type |>).

Definition cJSON_AddItemToArray := add_item_to_array.
Definition cJSON_AddItemToObject (object : cJSON) (string : bytes) (item : cJSON) : cJSON :=
  add_item_to_object object string item false.
Definition cJSON_AddItemReferenceToObject (object : cJSON) (string : bytes) (item : cJSON) : cJSON :=
  add_item_to_object object string (create_reference item) false.
Definition cJSON_AddTrueToObject (object : cJSON) (name : bytes) : cJSON :=
  add_item_to_object object name cJSON_CreateTrue false.
Definition cJSON_AddNumberToObject (object : cJSON) (name : bytes) (number : double) : cJSON :=
  add_item_to_object object name (cJSON_CreateNumber number) false.
Definition cJSON_AddStringToObject (object : cJSON) (name string : bytes) : cJSON :=
  add_item_to_object object name (cJSON_CreateString string) false.

(** ** Type tests *)

Definition cJSON_IsBool (item : cJSON) : bool :=
  negb (Z.land (type item) (Z.lor cJSON_True cJSON_False) =? 0).
Definition is_type (t : Z) (item : cJSON) : bool := Z.land (type item) 255 =? t.
Definition cJSON_IsNull := is_type cJSON_NULL.
Definition cJSON_IsNumber := is_type cJSON_Number.
Definition cJSON_IsString := is_type cJSON_String.
Definition cJSON_IsArray := is_type cJSON_Array.

(** ** Lookups *)

(** [tolower] in the C locale. *)
Definition tolower (c : Z) : Z := if (65 <=? c) && (c <=? 90) then c + 32 else c.

Fixpoint case_insensitive_strcmp (string1 string2 : bytes) : Z :=
  match string1, string2 with
  | [], [] => 0
  | [], c :: _ => 0 - tolower (u8 c)
  | c :: _, [] => tolower (u8 c) - 0
  | c :: s1, d :: s2 =>
      if tolower (u8 c) =? tolower (u8 d) then case_insensitive_strcmp s1 s2
      else tolower (u8 c) - tolower (u8 d)
  end.

(** One step of the loop of [get_object_item]: does the walk go past the
    element?  The case sensitive walk stops at an element without a name. *)
Definition passes (case_sensitive : bool) (name : bytes) (element : cJSON) : bool :=
  match string_ element with
  | None => negb case_sensitive
  | Some s => if case_sensitive then negb (bool_decide (name = s))
              else negb (case_insensitive_strcmp name s =? 0)
  end.

Fixpoint find_element (case_sensitive : bool) (name : bytes) (l : list cJSON) : option cJSON :=
  match l with
  | [] => None
  | e :: l' => if passes case_sensitive name e then find_element case_sensitive name l' else Some e
  end.

Definition get_object_item (object : cJSON) (name : bytes) (case_sensitive : bool) : option cJSON :=
  e ← find_element case_sensitive name (child object);
  match string_ e with None => None | Some _ => Some e end.

Definition cJSON_GetObjectItem (object : cJSON) (string : bytes) : option cJSON :=
  get_object_item object string false.

Definition cJSON_GetArraySize (array : cJSON) : Z := i32 (Z.of_nat (length (child array))).
Definition get_array_item (array : cJSON) (index : nat) : option cJSON := child array !! index.
Definition cJSON_GetArrayItem (array : cJSON) (index : Z) : option cJSON :=
  if index <? 0 then None else get_array_item array (Z.to_nat index).

(** [cJSON_DetachItemFromObject]: the item found and the object without it. *)
Fixpoint detach_element (name : bytes) (l : list cJSON) : option (cJSON * list cJSON) :=
  match l with
  | [] => None
  | e :: l' =>
      if passes false name e then '(x, r) ← detach_element name l'; Some (x, e :: r)
      else match string_ e with None => None | Some _ => Some (e, l') end
  end.

Definition cJSON_DetachItemFromObject (object : cJSON) (string : bytes) : option cJSON * cJSON :=
  match detach_element string (child object) with
  | None => (None, object)
  | Some (x, r) => (Some x, object <| child := r |>)
  end.

(** [iperf_cJSON_GetObjectItemType] of [src/iperf_util.c]. *)
Definition iperf_cJSON_GetObjectItemType (j : cJSON) (item_string : bytes) (expected_type : Z)
  : option cJSON :=
  j_p ← cJSON_GetObjectItem j item_string;
  let checked (ok : bool) := if ok then Some j_p else None in
  if expected_type =? cJSON_True then checked (cJSON_IsBool j_p)
  else if expected_type =? cJSON_String then checked (cJSON_IsString j_p)
  else if expected_type =? cJSON_Number then checked (cJSON_IsNumber j_p)
  else if expected_type =? cJSON_Array then checked (cJSON_IsArray j_p)
  else None.

(** ** Facts about the lookups *)

Definition lower (s : bytes) : list Z := map (fun c => tolower (u8 c)) s.

Lemma tolower_nul c : tolower (u8 c) = 0 → c = NUL.
Proof.
  intros H. apply u8_inj. unfold tolower in H. change (u8 NUL) with 0.
  pose proof (u8_range c). case_match; bool_to_prop; lia.
Qed.

(** On C strings the comparison is equality up to the case of letters. *)
Lemma case_insensitive_strcmp_eq s1 s2 :
  no_nul s1 → no_nul s2 → case_insensitive_strcmp s1 s2 = 0 ↔ lower s1 = lower s2.
Proof.
  unfold lower. revert s2.
  induction s1 as [|c s1 IH]; intros [|d s2] H1 H2; cbn; [done|..].
  - apply no_nul_cons in H2 as [Hd _]. split; [|done].
    intros H. exfalso. apply Hd, tolower_nul. lia.
  - apply no_nul_cons in H1 as [Hc _]. split; [|done].
    intros H. exfalso. apply Hc, tolower_nul. lia.
  - apply no_nul_cons in H1 as [_ H1], H2 as [_ H2].
    destruct (Z.eqb_spec (tolower (u8 c)) (tolower (u8 d))) as [E|E].
    + rewrite IH by done. rewrite E. split; congruence.
    + split; [lia|]. intros [= ? _]. done.
Qed.

(** ** Numbers that hold integers *)

Lemma Dleb_of_Z_large b z : small_int z → b = LLONG_MAX → Dleb (D_of_Z b) (D_of_Z z) = false.
Proof.
  intros Hz ->. change (D_of_Z LLONG_MAX) with (S754_finite false 4503599627370496 11).
  destruct z as [|p|p]; [done|..].
  - rewrite D_of_Z_pos by (unfold small_int in *; lia).
    pose proof (int_exp_range p ltac:(unfold small_int in *; lia)).
    unfold Dleb, SFleb, SFcompare. destruct (Z.compare_spec 11 (int_exp p)); [lia..|done].
  - rewrite D_of_Z_neg by (unfold small_int in *; lia). done.
Qed.

Lemma Dleb_of_Z_small z : small_int z → Dleb (D_of_Z z) (D_of_Z LLONG_MIN) = false.
Proof.
  intros Hz. change (D_of_Z LLONG_MIN) with (S754_finite true 4503599627370496 11).
  destruct z as [|p|p]; [done|..].
  - rewrite D_of_Z_pos by (unfold small_int in *; lia). done.
  - rewrite D_of_Z_neg by (unfold small_int in *; lia).
    pose proof (int_exp_range p ltac:(unfold small_int in *; lia)).
    unfold Dleb, SFleb, SFcompare. destruct (Z.compare_spec (int_exp p) 11); [lia|done|lia].
Qed.

(** [cJSON_CreateNumber] keeps an integer of magnitude below 2^53 exactly. *)
Lemma saturate_int_of_Z z : small_int z → saturate_int (D_of_Z z) = z.
Proof.
  intros Hz. unfold saturate_int. rewrite (Dleb_of_Z_large _ z), Dleb_of_Z_small by done.
  unfold D_to_s. rewrite D_trunc_of_Z by done. cbn.
  rewrite decide_True; [done|]. unfold in_s, small_int in *. lia.
Qed.
