(* ===== verification/JsonPrint.v ===== *)
(** * Rendering cJSON items ([src/cjson.c]: [print] and its helpers)

    The print buffer is modelled with its capacity: [ensure] computes the new
    size as the code does, and [put] is a write of [s] at the offset (with or
    without a terminating NUL), undefined when it does not fit.  [pb_text] is
    what the buffer holds from its start up to the last byte written, and
    [pb_term] says that a NUL follows it. *)

From S2P Require Import Prelude CInt CDouble CStdio Json.

Definition SIZE_MAX : Z := 2 ^ 64 - 1.

Record printbuffer := mk_pb {
  pb_text : bytes;
  pb_term : bool;
  pb_length : Z;
  pb_offset : nat;
  pb_depth : Z;
  pb_noalloc : bool;
  pb_format : bool
}.
#[export] Instance eta_printbuffer : Settable printbuffer := fun p =>
  mk_pb (pb_text p) (pb_term p) (pb_length p) (pb_offset p) (pb_depth p) (pb_noalloc p) (pb_format p).

Definition ensure (p : printbuffer) (needed : Z) : outcome printbuffer :=
  if (0 <? pb_length p) && (pb_length p <=? Z.of_nat (pb_offset p)) then Fail
  else
    let needed := u64 (needed + Z.of_nat (pb_offset p) + 1) in
    if needed <=? pb_length p then Ok p
    else if pb_noalloc p then Fail
    else
      let newsize := if SIZE_MAX / 2 <? needed then SIZE_MAX else needed * 2 in
      Ok (p <| pb_length := newsize |>).

(** The bytes [s] written from the offset on. *)
Definition put (s : bytes) (nul : bool) (p : printbuffer) : outcome printbuffer :=
  let written := Z.of_nat (length s) + (if nul then 1 else 0) in
  if Z.of_nat (pb_offset p) + written <=? pb_length p
  then Ok (p <| pb_text := take (pb_offset p) (pb_text p) ++ s |> <| pb_term := nul |>)
  else Undef.

Definition advance (n : nat) (p : printbuffer) : printbuffer :=
  p <| pb_offset ::= Nat.add n |>.

(** The recurring steps of the printer: reserve, write, move the offset past
    what was written. *)
Definition emit (needed : Z) (s : bytes) (nul : bool) (p : printbuffer) : outcome printbuffer :=
  p ← ensure p needed;
  p ← put s nul p;
  Ok (advance (length s) p).

(** [update_offset]: the [strlen] of what follows the offset, which has to be
    terminated. *)
Definition update_offset (p : printbuffer) : outcome printbuffer :=
  if pb_term p then Ok (p <| pb_offset := length (pb_text p) |>) else Undef.

(** ** Numbers *)

Definition DBL_EPSILON : double := Ddiv (D_of_Z 1) (D_of_Z (2 ^ 52)).
Definition fabs : double → double := SFabs.

Definition compare_double (a b : double) : bool :=
  let maxVal := if Dltb (fabs b) (fabs a) then fabs a else fabs b in
  Dleb (fabs (Dsub a b)) (Dmul maxVal DBL_EPSILON).

(** The text [print_number] puts in its [number_buffer]. *)
Definition number_text (item : cJSON) : bytes :=
  let d := valuedouble item in
  if D_isnan d || D_isinf d then B "null"
  else if Deqb d (D_of_Z (valueint item)) then dec_Z (valueint item)
  else
    let t := fmt_g 15 d in
    match strtod t with
    | Some (test, _) => if compare_double test d then t else fmt_g 17 d
    | None => fmt_g 17 d
    end.

Definition print_number (item : cJSON) (p : printbuffer) : outcome printbuffer :=
  let t := number_text item in
  if 25 <? Z.of_nat (length t) then Fail
  else p ← ensure p (Z.of_nat (length t) + 1);
       p ← put t true p;
       Ok (advance (length t) p).

(** ** Strings *)

Definition escape_cost (c : ascii) : nat :=
  if bool_decide (u8 c ∈ [34; 92; 8; 12; 10; 13; 9]) then 1%nat
  else if u8 c <? 32 then 5%nat else 0%nat.

Definition escape_char (c : ascii) : bytes :=
  if (31 <? u8 c) && negb (u8 c =? 34) && negb (u8 c =? 92) then [c]
  else "\"%char ::
       (if u8 c =? 92 then B "\"
        else if u8 c =? 34 then [chr 34]
        else if u8 c =? 8 then B "b"
        else if u8 c =? 12 then B "f"
        else if u8 c =? 10 then B "n"
        else if u8 c =? 13 then B "r"
        else if u8 c =? 9 then B "t"
        else B "u" ++ hex_pad 4 (u8 c)).

Definition quoted (s : bytes) : bytes := chr 34 :: s ++ [chr 34].

(** The closing quote goes to the index the first loop computed; the model is
    undefined if the second loop wrote another number of bytes. *)
Definition print_string_ptr (input : option bytes) (p : printbuffer) : outcome printbuffer :=
  match input with
  | None => p ← ensure p 3; put (quoted []) true p
  | Some s =>
      let escape_characters := sum_list (map escape_cost s) in
      let output_length := (length s + escape_characters)%nat in
      p ← ensure p (Z.of_nat output_length + 3);
      if decide (escape_characters = 0%nat) then put (quoted s) true p
      else let body := concat (map escape_char s) in
           if decide (length body = output_length) then put (quoted body) true p else Undef
  end.

Definition print_string (item : cJSON) (p : printbuffer) : outcome printbuffer :=
  print_string_ptr (valuestring item) p.

(** ** Values *)

Definition print_literal (s : bytes) (p : printbuffer) : outcome printbuffer :=
  p ← ensure p (Z.of_nat (length s) + 1); put s true p.

Definition tabs (n : Z) : bytes := replicate (Z.to_nat n) (chr 9).

Section Containers.
Context (print_value : cJSON → printbuffer → outcome printbuffer).

(** The loop of [print_array]. *)
Fixpoint print_elements (l : list cJSON) (p : printbuffer) : outcome printbuffer :=
  match l with
  | [] => Ok p
  | current_element :: next =>
      p ← print_value current_element p;
      p ← update_offset p;
      p ← match next with
          | [] => Ok p
          | _ =>
              let comma := if pb_format p then B ", " else B "," in
              emit (Z.of_nat (length comma) + 1) comma true p
          end;
      print_elements next p
  end.

Definition print_array (l : list cJSON) (p : printbuffer) : outcome printbuffer :=
  p ← emit 1 (B "[") false p;
  p ← print_elements l (p <| pb_depth ::= Z.succ |>);
  p ← ensure p 2;
  p ← put (B "]") true p;
  Ok (p <| pb_depth ::= Z.pred |>).

(** The loop of [print_object]. *)
Fixpoint print_members (l : list cJSON) (p : printbuffer) : outcome printbuffer :=
  match l with
  | [] => Ok p
  | current_item :: next =>
      p ← (if pb_format p then emit (pb_depth p) (tabs (pb_depth p)) false p else Ok p);
      p ← print_string_ptr (string_ current_item) p;
      p ← update_offset p;
      let colon := if pb_format p then ":"%char :: tabs 1 else B ":" in
      p ← emit (Z.of_nat (length colon)) colon false p;
      p ← print_value current_item p;
      p ← update_offset p;
      let tail := (match next with [] => [] | _ => B "," end)
                  ++ (if pb_format p then [chr 10] else []) in
      p ← emit (Z.of_nat (length tail) + 1) tail true p;
      print_members next p
  end.

Definition print_object (l : list cJSON) (p : printbuffer) : outcome printbuffer :=
  let open := B "{" ++ (if pb_format p then [chr 10] else []) in
  p ← emit (Z.of_nat (length open) + 1) open false p;
  p ← print_members l (p <| pb_depth ::= Z.succ |>);
  let closing := (if pb_format p then tabs (pb_depth p - 1) else []) ++ B "}" in
  p ← ensure p (if pb_format p then pb_depth p + 1 else 2);
  p ← put closing true p;
  Ok (p <| pb_depth ::= Z.pred |>).
End Containers.

Fixpoint print_value (item : cJSON) (p : printbuffer) : outcome printbuffer :=
  match item with
  | mk_cJSON t vs _ _ _ children =>
      let t := Z.land t 255 in
      if t =? cJSON_NULL then print_literal (B "null") p
      else if t =? cJSON_False then print_literal (B "false") p
      else if t =? cJSON_True then print_literal (B "true") p
      else if t =? cJSON_Number then print_number item p
      else if t =? cJSON_Raw then
        match vs with None => Fail | Some raw => print_literal raw p end
      else if t =? cJSON_String then print_string item p
      else if t =? cJSON_Array then print_array print_value children p
      else if t =? cJSON_Object then print_object print_value children p
      else Fail
  end.

(** [print] with the default buffer of 256 bytes, and its two public forms. *)
Definition print (item : cJSON) (format : bool) : outcome bytes :=
  p ← print_value item (mk_pb [] false 256 0 0 false format);
  p ← update_offset p;
  Ok (c_str (take (pb_offset p) (pb_text p))).

Definition cJSON_Print (item : cJSON) : outcome bytes := print item true.
Definition cJSON_PrintUnformatted (item : cJSON) : outcome bytes := print item false.

Definition cJSON_PrintPreallocated (item : cJSON) (length : Z) (format : bool) : outcome bytes :=
  if length <? 0 then Fail
  else p ← print_value item (mk_pb [] false length 0 0 true format); Ok (pb_text p).

(** ** Specification: the text of an item

    [render format depth item] is the text of an item at a nesting depth, and
    [None] where the printer refuses (an invalid type, raw text that is missing,
    a number that would overflow the number buffer). *)

Definition render_string (s : option bytes) : bytes :=
  quoted (concat (map escape_char (default [] s))).

Section RenderContainers.
Context (render : cJSON → option bytes) (format : bool) (depth : Z).

Fixpoint render_elements (l : list cJSON) : option bytes :=
  match l with
  | [] => Some []
  | e :: next =>
      s ← render e;
      r ← render_elements next;
      Some (s ++ (match next with [] => [] | _ => if format then B ", " else B "," end) ++ r)
  end.

Fixpoint render_members (l : list cJSON) : option bytes :=
  match l with
  | [] => Some []
  | e :: next =>
      s ← render e;
      r ← render_members next;
      Some ((if format then tabs depth else []) ++ render_string (string_ e)
            ++ (if format then ":"%char :: tabs 1 else B ":") ++ s
            ++ (match next with [] => [] | _ => B "," end)
            ++ (if format then [chr 10] else []) ++ r)
  end.
End RenderContainers.

Fixpoint render (format : bool) (depth : Z) (item : cJSON) : option bytes :=
  match item with
  | mk_cJSON t vs _ _ _ children =>
      let t := Z.land t 255 in
      if t =? cJSON_NULL then Some (B "null")
      else if t =? cJSON_False then Some (B "false")
      else if t =? cJSON_True then Some (B "true")
      else if t =? cJSON_Number then
        let s := number_text item in
        if 25 <? Z.of_nat (length s) then None else Some s
      else if t =? cJSON_Raw then vs
      else if t =? cJSON_String then Some (render_string vs)
      else if t =? cJSON_Array then
        s ← render_elements (render format (depth + 1)) format children;
        Some (B "[" ++ s ++ B "]")
      else if t =? cJSON_Object then
        s ← render_members (render format (depth + 1)) format (depth + 1) children;
        Some (B "{" ++ (if format then [chr 10] else []) ++ s
              ++ (if format then tabs depth else []) ++ B "}")
      else None
  end.

(** ** The printer implements the specification *)

Record pb_wf (p : printbuffer) : Prop := {
  wf_offset : Z.of_nat (pb_offset p) < pb_length p;
  wf_text : (pb_offset p ≤ length (pb_text p))%nat;
  wf_length : 0 < pb_length p ≤ 2 ^ 64;
  wf_alloc : pb_noalloc p = false
}.

(** [p'] is [p] after the text [s] was printed at its offset. *)
Record printed (p : printbuffer) (s : bytes) (p' : printbuffer) : Prop := {
  printed_text : pb_text p' = take (pb_offset p) (pb_text p) ++ s;
  printed_term : pb_term p' = true;
  printed_depth : pb_depth p' = pb_depth p;
  printed_format : pb_format p' = pb_format p;
  printed_noalloc : pb_noalloc p' = false;
  printed_offset : (pb_offset p ≤ pb_offset p' ≤ pb_offset p + length s)%nat;
  printed_length : Z.of_nat (pb_offset p + length s) < pb_length p' ≤ 2 ^ 64
}.

(** Enough address space is left for [n] more bytes and the code's slack. *)
Definition room (p : printbuffer) (n : nat) : Prop := Z.of_nat (pb_offset p + n) + 8 < 2 ^ 64.

Lemma ensure_ok p needed :
  pb_wf p → 0 ≤ needed → needed + Z.of_nat (pb_offset p) + 1 < 2 ^ 64 →
  ∃ L, ensure p needed = Ok (p <| pb_length := L |>) ∧
       needed + Z.of_nat (pb_offset p) + 1 ≤ L ≤ 2 ^ 64 ∧ 0 < L.
Proof.
  intros [Ho _ [Hl Hh] Ha] Hn Hb. unfold ensure.
  rewrite (proj2 (Z.leb_gt _ _)), andb_false_r by lia.
  rewrite wrapu_id by (unfold in_u; lia). rewrite Ha.
  destruct (Z.leb_spec (needed + Z.of_nat (pb_offset p) + 1) (pb_length p)).
  - exists (pb_length p). split; [by destruct p|lia].
  - eexists. split; [done|]. unfold SIZE_MAX.
    case_match eqn:E; bool_to_prop; [lia|].
    pose proof (Z.div_mod (2 ^ 64 - 1) 2 ltac:(lia)).
    pose proof (Z.mod_pos_bound (2 ^ 64 - 1) 2 ltac:(lia)). lia.
Qed.

Lemma put_ok p s nul :
  Z.of_nat (pb_offset p + length s) + (if nul : bool then 1 else 0) ≤ pb_length p →
  put s nul p = Ok (p <| pb_text := take (pb_offset p) (pb_text p) ++ s |> <| pb_term := nul |>).
Proof. intros. unfold put. rewrite (proj2 (Z.leb_le _ _)) by lia. done. Qed.

(** A terminated write after [ensure]. *)
Lemma ensure_put_nul p needed s :
  pb_wf p → Z.of_nat (length s) ≤ needed ≤ Z.of_nat (length s) + 3 → room p (length s) →
  ∃ p', (p ← ensure p needed; put s true p) = Ok p' ∧ printed p s p'.
Proof.
  unfold room. intros Hwf Hn Hr.
  destruct (ensure_ok p needed) as (L & -> & HL & ?); [done|lia|lia|]. cbn.
  rewrite put_ok by (cbn; lia). eexists. split; [done|]. destruct Hwf.
  split; cbn; try done; lia.
Qed.

(** An unterminated write after [ensure], with the offset moved past it. *)
Definition moved (p : printbuffer) (s : bytes) (p' : printbuffer) : Prop :=
  pb_text p' = take (pb_offset p) (pb_text p) ++ s ∧
  pb_offset p' = (pb_offset p + length s)%nat ∧
  pb_depth p' = pb_depth p ∧ pb_format p' = pb_format p ∧ pb_wf p'.

Lemma emit_spec p needed s nul :
  pb_wf p → Z.of_nat (length s) ≤ needed ≤ Z.of_nat (length s) + 3 → room p (length s) →
  ∃ p', emit needed s nul p = Ok p' ∧ moved p s p'.
Proof.
  unfold room, emit. intros Hwf Hn Hr.
  destruct (ensure_ok p needed) as (L & -> & HL & ?); [done|lia|lia|]. cbn.
  rewrite put_ok by (cbn; destruct nul; lia). cbn. eexists. split; [done|].
  destruct Hwf. unfold moved, advance. cbn. split_and!; try done; try lia.
  split; cbn; rewrite ?length_app, ?length_take; (done || lia).
Qed.

Lemma printed_update p s p' :
  pb_wf p → printed p s p' →
  ∃ q, update_offset p' = Ok q ∧ moved p s q.
Proof.
  intros Hwf [Ht Hterm ? ? ? ? Hl]. unfold update_offset. rewrite Hterm.
  eexists. split; [done|]. destruct Hwf as [? Htx ? ?].
  assert (length (pb_text p') = (pb_offset p + length s)%nat) as Hlen.
  { rewrite Ht, length_app, length_take. lia. }
  unfold moved. cbn. split_and!; try done.
  split; cbn; rewrite ?Hlen; (done || lia).
Qed.

(** Writes compose: what was moved over is a prefix of the text. *)
Lemma moved_trans p s q r u :
  moved p s q → moved q r u → moved p (s ++ r) u.
Proof.
  intros (Ht & Ho & Hd & Hf & _) (Ht' & Ho' & Hd' & Hf' & Hwf).
  unfold moved. split_and!; [|rewrite length_app; lia|congruence|congruence|done].
  rewrite Ht', Ht, Ho. rewrite app_assoc. f_equal.
  rewrite take_ge; [done|]. rewrite length_app, length_take. lia.
Qed.

Lemma moved_printed p s q r u :
  moved p s q → printed q r u → printed p (s ++ r) u.
Proof.
  intros (Ht & Ho & Hd & Hf & _) [Ht' ? ? ? ? ? ?].
  split; try congruence; rewrite ?length_app; try lia.
  rewrite Ht', Ht, Ho, app_assoc. f_equal.
  rewrite take_ge; [done|]. rewrite length_app, length_take. lia.
Qed.

Lemma moved_same p s q :
  moved p s q → pb_format q = pb_format p ∧ pb_depth q = pb_depth p ∧ pb_wf q.
Proof. by intros (_ & _ & ? & ? & ?). Qed.

(** After a move the text ends at the offset: nothing is pending. *)
Lemma moved_refl p s q : pb_wf p → moved p s q → moved q [] q.
Proof.
  intros [_ Htx _ _] (Ht & Ho & Hd & Hf & Hwf). unfold moved. cbn.
  split_and!; try done; try lia. rewrite app_nil_r, take_ge; [done|].
  rewrite Ht, Ho, length_app, length_take. lia.
Qed.

Lemma moved_room p s q n m :
  moved p s q → room p n → (length s + m ≤ n)%nat → room q m.
Proof. unfold room. intros (_ & Ho & _) ? ?. lia. Qed.

(** A change of the recorded depth keeps the buffer well formed. *)
Lemma moved_depth p s q f :
  moved p s q → pb_wf (q <| pb_depth ::= f |>).
Proof. intros (_ & _ & _ & _ & [? ? ? ?]). by split. Qed.

Lemma length_escape_char c : length (escape_char c) = S (escape_cost c).
Proof.
  revert c. apply (forall_bytes _ (fun c => bool_decide (length (escape_char c) = S (escape_cost c)))).
  - intros c. apply bool_decide_eq_true.
  - vm_compute. reflexivity.
Qed.

Lemma escape_free c : escape_cost c = 0%nat → escape_char c = [c].
Proof.
  revert c. apply (forall_bytes (fun c => escape_cost c = 0%nat → escape_char c = [c])
    (fun c => implb (bool_decide (escape_cost c = 0%nat)) (bool_decide (escape_char c = [c])))).
  - intros c Hc H. rewrite (bool_decide_true (escape_cost c = 0%nat)) in Hc by done.
    by apply bool_decide_eq_true in Hc.
  - vm_compute. reflexivity.
Qed.

Lemma length_escaped s :
  length (concat (map escape_char s)) = (length s + sum_list (map escape_cost s))%nat.
Proof.
  induction s as [|c s IH]; [done|]. cbn.
  rewrite length_app, IH, length_escape_char. lia.
Qed.

Lemma escaped_free s :
  sum_list (map escape_cost s) = 0%nat → concat (map escape_char s) = s.
Proof.
  induction s as [|c s IH]; [done|]. cbn. intros H.
  rewrite escape_free, IH by lia. done.
Qed.

Lemma print_string_spec input p :
  pb_wf p → room p (length (render_string input)) →
  ∃ p', print_string_ptr input p = Ok p' ∧ printed p (render_string input) p'.
Proof.
  intros Hwf Hr. destruct input as [s|]; [|by apply ensure_put_nul].
  unfold print_string_ptr, render_string in *. change (default [] (Some s)) with s in *.
  cbv zeta.
  assert (length (quoted (concat (map escape_char s)))
          = (length s + sum_list (map escape_cost s) + 2)%nat) as Hl.
  { unfold quoted. cbn. rewrite length_app, length_escaped. cbn. lia. }
  destruct (decide (sum_list (map escape_cost s) = 0%nat)) as [E|E].
  - rewrite (escaped_free s E) in *. apply ensure_put_nul; [done|lia|done].
  - destruct (decide (length (concat (map escape_char s)) = _)) as [_|[]];
      [|apply length_escaped]. apply ensure_put_nul; [done|lia|done].
Qed.

(** What the theorem says of one item, at a format and a depth. *)
Definition prints (pv : cJSON → printbuffer → outcome printbuffer)
    (rd : cJSON → option bytes) (f : bool) (d : Z) (e : cJSON) : Prop :=
  ∀ p s, pb_wf p → pb_format p = f → pb_depth p = d → rd e = Some s → room p (length s) →
  ∃ p', pv e p = Ok p' ∧ printed p s p'.

#[local] Opaque render_string.

Section ContainerSpecs.
Context (pv : cJSON → printbuffer → outcome printbuffer) (rd : cJSON → option bytes).
Context (f : bool) (d : Z) (Hd : 0 < d).

Lemma print_elements_spec l p s :
  Forall (prints pv rd f d) l →
  moved p [] p → pb_format p = f → pb_depth p = d →
  render_elements rd f l = Some s → room p (length s) →
  ∃ p', print_elements pv l p = Ok p' ∧ moved p s p'.
Proof.
  intros Hl. revert p s. induction Hl as [|e next He Hnext IH]; intros p s Hm Hf Hdp Hs Hr.
  { injection Hs as <-. by exists p. }
  destruct (moved_same _ _ _ Hm) as (_ & _ & Hwf).
  cbn in Hs. apply bind_Some in Hs as (se & Hse & Hs). apply bind_Some in Hs as (sn & Hsn & [= <-]).
  destruct (He p se Hwf Hf Hdp Hse) as (p1 & Hp1 & Hpr);
    [rewrite !length_app in Hr; unfold room in *; lia|].
  destruct (printed_update _ _ _ Hwf Hpr) as (p2 & Hp2 & Hm2).
  cbn [print_elements]. rewrite Hp1, Ok_bind, Hp2, Ok_bind.
  destruct (moved_same _ _ _ Hm2) as (Hf2 & Hd2 & Hwf2).
  destruct next as [|e' next'].
  - cbn in *. injection Hsn as <-. exists p2. split; [done|]. by rewrite app_nil_r.
  - cbv beta iota in Hr |- *. rewrite Hf2, Hf. set (comma := if f then B ", " else B ",") in *.
    destruct (emit_spec p2 (Z.of_nat (length comma) + 1) comma true) as (p3 & Hp3 & Hm3);
      [done|lia|apply (moved_room _ _ _ _ _ Hm2 Hr); rewrite !length_app; lia|].
    destruct (moved_same _ _ _ Hm3) as (Hf3 & Hd3 & Hwf3).
    destruct (IH p3 sn) as (p4 & Hp4 & Hm4); try congruence.
    + by apply (moved_refl p2 comma).
    + apply (moved_room _ _ _ _ _ (moved_trans _ _ _ _ _ Hm2 Hm3) Hr). rewrite !length_app. lia.
    + exists p4. split; [by rewrite Hp3|].
      eapply moved_trans; [exact Hm2|]. by eapply moved_trans.
Qed.

Lemma tabs_length n : 0 ≤ n → Z.of_nat (length (tabs n)) = n.
Proof. intros. unfold tabs. rewrite length_replicate. lia. Qed.

(** The indentation of a member in the formatted form. *)
Lemma print_indent p :
  pb_wf p → pb_format p = f → pb_depth p = d → moved p [] p →
  room p (length (if f then tabs d else [])) →
  ∃ p', (if pb_format p then emit (pb_depth p) (tabs (pb_depth p)) false p else Ok p) = Ok p'
        ∧ moved p (if f then tabs d else []) p'.
Proof.
  intros Hwf Hf Hdp Hm Hr. rewrite Hf, Hdp. destruct f; [|by exists p].
  apply emit_spec; [done| |done]. rewrite tabs_length by lia. lia.
Qed.

Lemma print_members_spec l p s :
  Forall (prints pv rd f d) l →
  moved p [] p → pb_format p = f → pb_depth p = d →
  render_members rd f d l = Some s → room p (length s) →
  ∃ p', print_members pv l p = Ok p' ∧ moved p s p'.
Proof.
  intros Hl. revert p s. induction Hl as [|e next He Hnext IH]; intros p s Hm Hf Hdp Hs Hr.
  { injection Hs as <-. by exists p. }
  cbn [render_members] in Hs.
  apply bind_Some in Hs as (se & Hse & Hs). apply bind_Some in Hs as (sn & Hsn & [= <-]).
  destruct (moved_same _ _ _ Hm) as (_ & _ & Hwf).
  cbn [print_members].
  (* indentation *)
  destruct (print_indent p Hwf Hf Hdp Hm) as (p1 & -> & Hm1);
    [unfold room in *; rewrite length_app in Hr; lia|].
  rewrite Ok_bind. destruct (moved_same _ _ _ Hm1) as (Hf1 & Hd1 & Hwf1).
  (* key *)
  destruct (print_string_spec (string_ e) p1) as (p2 & -> & Hp2);
    [done|apply (moved_room _ _ _ _ _ Hm1 Hr); rewrite !length_app; lia|].
  destruct (printed_update _ _ _ Hwf1 Hp2) as (p3 & Hp3 & Hm3).
  rewrite Ok_bind, Hp3, Ok_bind. apply (moved_trans _ _ _ _ _ Hm1) in Hm3.
  destruct (moved_same _ _ _ Hm3) as (Hf3 & Hd3 & Hwf3).
  (* colon *)
  rewrite Hf3, Hf. set (colon := if f then ":"%char :: tabs 1 else B ":") in *.
  destruct (emit_spec p3 (Z.of_nat (length colon)) colon false) as (p4 & -> & Hm4);
    [done|lia|apply (moved_room _ _ _ _ _ Hm3 Hr); rewrite !length_app; lia|].
  rewrite Ok_bind. apply (moved_trans _ _ _ _ _ Hm3) in Hm4.
  destruct (moved_same _ _ _ Hm4) as (Hf4 & Hd4 & Hwf4).
  (* value *)
  destruct (He p4 se) as (p5 & -> & Hp5);
    [done|congruence|congruence|done|
     apply (moved_room _ _ _ _ _ Hm4 Hr); rewrite !length_app; lia|].
  destruct (printed_update _ _ _ Hwf4 Hp5) as (p6 & Hp6 & Hm6).
  rewrite Ok_bind, Hp6, Ok_bind. apply (moved_trans _ _ _ _ _ Hm4) in Hm6.
  destruct (moved_same _ _ _ Hm6) as (Hf6 & Hd6 & Hwf6).
  (* comma and newline *)
  rewrite Hf6, Hf. set (tail := (match next with [] => [] | _ => B "," end) ++ (if f then [chr 10] else [])).
  destruct (emit_spec p6 (Z.of_nat (length tail) + 1) tail true) as (p7 & -> & Hm7);
    [done|lia|apply (moved_room _ _ _ _ _ Hm6 Hr); unfold tail; rewrite !length_app; lia|].
  rewrite Ok_bind. pose proof (moved_trans _ _ _ _ _ Hm6 Hm7) as Hm8.
  destruct (moved_same _ _ _ Hm8) as (Hf8 & Hd8 & Hwf8).
  destruct (IH p7 sn) as (p8 & Hp8 & Hm9);
    [by apply (moved_refl p6 tail)|congruence|congruence|done|
     apply (moved_room _ _ _ _ _ Hm8 Hr); unfold tail; rewrite !length_app; lia|].
  exists p8. split; [done|]. apply (moved_trans _ _ _ _ _ Hm8) in Hm9.
  unfold tail in Hm9. by rewrite <- !app_assoc in Hm9.
Qed.
End ContainerSpecs.

(** The depth only matters to the indentation: a container changes it around
    its content. *)
Lemma moved_at_depth p s q d r u :
  moved p s q → moved (q <| pb_depth := d |>) r u →
  moved p (s ++ r) (u <| pb_depth := pb_depth p |>).
Proof.
  intros (Ht & Ho & Hd & Hf & Hwf) (Ht' & Ho' & Hd' & Hf' & [? ? ? ?]). cbn in *.
  unfold moved. cbn. rewrite length_app. split_and!; try done; try congruence; try lia.
  - rewrite Ht', Ht, Ho, app_assoc. f_equal.
    rewrite take_ge; [done|]. rewrite length_app, length_take. lia.
Qed.

Lemma printed_at_depth r t u d :
  printed r t u → printed (r <| pb_depth := d |>) t (u <| pb_depth := d |>).
Proof. intros [? ? ? ? ? ? ?]. by split. Qed.

Lemma leave_depth u d :
  pb_depth u = d + 1 → u <| pb_depth ::= Z.pred |> = u <| pb_depth := d |>.
Proof. intros E. unfold update_field. cbn. rewrite E. f_equal. lia. Qed.

Lemma enter_depth q d :
  pb_depth q = d → q <| pb_depth ::= Z.succ |> = q <| pb_depth := d + 1 |>.
Proof. intros <-. done. Qed.

(** An opening bracket, the content one level deeper, a closing bracket. *)
Lemma print_container p op s cl q r :
  moved p op q → moved (q <| pb_depth := pb_depth p + 1 |>) s r →
  ∀ needed, Z.of_nat (length cl) ≤ needed ≤ Z.of_nat (length cl) + 3 →
  room p (length (op ++ s ++ cl)) →
  ∃ p', (r ← ensure r needed; r ← put cl true r; Ok (r <| pb_depth ::= Z.pred |>)) = Ok p'
        ∧ printed p (op ++ s ++ cl) p'.
Proof.
  intros Hq Hr needed Hn Hroom.
  pose proof (moved_at_depth _ _ _ _ _ _ Hq Hr) as Hm.
  destruct (moved_same _ _ _ Hr) as (_ & Hd & Hwf). cbn in Hd.
  destruct (ensure_put_nul r needed cl) as (u & Hu & Hp); [done|done| |].
  { apply (moved_room _ _ _ _ (length cl) Hm Hroom). rewrite !length_app. lia. }
  exists (u <| pb_depth ::= Z.pred |>). split.
  - destruct (ensure r needed); cbn in *; [|done..]. destruct (put cl true a); cbn in *; congruence.
  - rewrite app_assoc. eapply moved_printed; [exact Hm|].
    pose proof (printed_depth _ _ _ Hp) as Hdu.
    apply printed_at_depth with (d := pb_depth p) in Hp.
    by rewrite (leave_depth u (pb_depth p)) by congruence.
Qed.

Lemma print_number_spec item p :
  pb_wf p → room p (length (number_text item)) → (25 <? Z.of_nat (length (number_text item))) = false →
  ∃ p', print_number item p = Ok p' ∧ printed p (number_text item) p'.
Proof.
  unfold room, print_number. intros Hwf Hr ->. set (s := number_text item) in *.
  destruct (ensure_ok p (Z.of_nat (length s) + 1)) as (L & -> & HL & ?); [done|lia|lia|].
  rewrite Ok_bind, put_ok by (cbn; lia). cbn. eexists. split; [done|].
  destruct Hwf. split; cbn; try done; lia.
Qed.

Lemma print_value_spec item :
  ∀ f d, 0 ≤ d → prints print_value (render f d) f d item.
Proof.
  induction item as [t vs vi vd nm children IH] using cJSON_rect'.
  intros f d Hd p s Hwf Hf Hdp Hs Hr.
  cbn [print_value render] in *. cbv zeta in *.
  destruct (Z.land t 255 =? cJSON_NULL).
  { injection Hs as <-. apply ensure_put_nul; [done|lia|done]. }
  destruct (Z.land t 255 =? cJSON_False).
  { injection Hs as <-. apply ensure_put_nul; [done|lia|done]. }
  destruct (Z.land t 255 =? cJSON_True).
  { injection Hs as <-. apply ensure_put_nul; [done|lia|done]. }
  destruct (Z.land t 255 =? cJSON_Number).
  { case_match eqn:E; [done|]. injection Hs as <-. by apply print_number_spec. }
  destruct (Z.land t 255 =? cJSON_Raw).
  { destruct vs as [raw|]; [|done]. injection Hs as <-. apply ensure_put_nul; [done|lia|done]. }
  destruct (Z.land t 255 =? cJSON_String).
  { injection Hs as <-. by apply print_string_spec. }
  assert (Forall (prints print_value (render f (d + 1)) f (d + 1)) children) as HIH.
  { eapply Forall_impl; [exact IH|]. intros e He. apply He. lia. }
  destruct (Z.land t 255 =? cJSON_Array).
  { apply bind_Some in Hs as (se & Hse & Hs). apply (inj Some) in Hs. subst s. unfold print_array.
    destruct (emit_spec p 1 (B "[") false) as (q & -> & Hq);
      [done|done|unfold room in *; rewrite !length_app in Hr; lia|].
    destruct (moved_same _ _ _ Hq) as (Hfq & Hdq & _).
    rewrite Ok_bind. rewrite (enter_depth q _ Hdq).
    destruct (print_elements_spec print_value (render f (d + 1)) f (d + 1) children
                (q <| pb_depth := pb_depth p + 1 |>) se) as (r & -> & Hr'); try done; try (cbn; congruence).
    { apply moved_refl in Hq; [|done]. destruct Hq as (? & ? & ? & ? & [? ? ? ?]).
      unfold moved. cbn. split_and!; by try split. }
    { apply (moved_room _ _ _ _ (length se) Hq Hr). rewrite !length_app. lia. }
    rewrite Ok_bind. by apply (print_container _ _ _ _ _ _ Hq Hr'). }
  destruct (Z.land t 255 =? cJSON_Object); [|done].
  apply bind_Some in Hs as (se & Hse & Hs). apply (inj Some) in Hs. subst s.
  unfold print_object. cbv zeta. rewrite Hf.
  set (open := B "{" ++ (if f then [chr 10] else [])).
  destruct (emit_spec p (Z.of_nat (length open) + 1) open false) as (q & -> & Hq);
    [done|lia|unfold room, open in *; rewrite !length_app in *; lia|].
  destruct (moved_same _ _ _ Hq) as (Hfq & Hdq & _).
  rewrite Ok_bind. rewrite (enter_depth q _ Hdq).
  destruct (print_members_spec print_value (render f (d + 1)) f (d + 1) ltac:(lia) children
                (q <| pb_depth := pb_depth p + 1 |>) se) as (r & -> & Hr'); try done; try (cbn; congruence).
  { apply moved_refl in Hq; [|done]. destruct Hq as (? & ? & ? & ? & [? ? ? ?]).
      unfold moved. cbn. split_and!; by try split. }
  { apply (moved_room _ _ _ _ (length se) Hq Hr). unfold open. rewrite !length_app. lia. }
  rewrite Ok_bind.
  destruct (moved_same _ _ _ Hr') as (Hfr & Hdr & _). cbn in Hfr, Hdr.
  rewrite Hfr, Hdr, Hfq, Hf, Hdp. cbv zeta. replace (d + 1 - 1) with d by lia.
  set (cl := (if f then tabs d else []) ++ B "}") in *.
  rewrite (app_assoc (B "{")) in Hr |- *. fold open in Hr |- *.
  apply (print_container _ _ _ _ _ _ Hq Hr'); [|done].
  assert (Z.of_nat (length cl) = (if f then d else 0) + 1) as ->.
  { unfold cl, tabs. rewrite length_app. change (length (B "}")) with 1%nat.
    destruct f; rewrite ?length_replicate; cbn; lia. }
  destruct f; lia.
Qed.

#[local] Transparent render_string.

(** [print] returns the rendered text, for every item whose text fits the
    address space: it neither refuses nor touches memory outside its buffer. *)
Lemma print_spec item format s :
  render format 0 item = Some s → Z.of_nat (length s) + 8 < 2 ^ 64 →
  print item format = Ok (c_str s).
Proof.
  intros Hs Hr. unfold print.
  set (p0 := mk_pb [] false 256 0 0 false format).
  assert (pb_wf p0) as Hwf by (split; cbn; (done || lia)).
  destruct (print_value_spec item format 0 ltac:(lia) p0 s) as (p1 & -> & Hp1); try done.
  destruct (printed_update _ _ _ Hwf Hp1) as (p2 & Hp2 & Ht & Ho & _).
  rewrite Ok_bind, Hp2, Ok_bind, Ho, Ht. cbn. by rewrite firstn_all.
Qed.

(** ** Properties *)

(** C39: printing into the growing buffer produces exactly the reference text:
    for every item that has one (below the size of the address space) the
    offsets, the requests for space and the doublings of the buffer agree, so
    that no byte is written outside the allocation and none is lost. *)
Theorem print_renders item format s :
  render format 0 item = Some s → Z.of_nat (length s) + 8 < 2 ^ 64 →
  print item format = Ok (c_str s).
Proof. apply print_spec. Qed.

Lemma print_renders_witness :
  print (cJSON_AddNumberToObject cJSON_CreateObject (B "time") (D_of_Z 10)) false
  = Ok (B "{" ++ quoted (B "time") ++ B ":10}").
Proof. apply (print_renders _ false (B "{" ++ quoted (B "time") ++ B ":10}")); vm_compute; reflexivity. Defined.
