(* ===== verification/JsonParse.v ===== *)
(** * Parsing cJSON text ([src/cjson.c]: [parse_value] and its helpers)

    A position in the text is the suffix of the buffer that starts there, so
    that the bytes left to read are the length of the suffix: an unchecked read
    at the end of the buffer is [Undef].  A failed parse ([Fail]) does not
    return the offset the library keeps for [cJSON_GetErrorPtr].  The nesting
    limit is the code's; [fuel] bounds the recursion of the model only, and
    [parse_value_fuel] shows that [parse_fuel] is always enough. *)

From S2P Require Import Prelude CInt CDouble CStdio Json.

Definition CJSON_NESTING_LIMIT : Z := 1000.

(** [buffer_skip_whitespace]: a buffer that ends in white space is left at its
    last byte. *)
Fixpoint skip_spaces (l : bytes) : bytes :=
  match l with
  | c :: l' => if u8 c <=? 32 then skip_spaces l' else l
  | [] => []
  end.

Definition buffer_skip_whitespace (l : bytes) : bytes :=
  match l with
  | [] => []
  | c :: _ => match skip_spaces l with [] => [default c (last l)] | r => r end
  end.

Definition skip_utf8_bom (l : bytes) : bytes :=
  if (4 <? Z.of_nat (length l)) && bool_decide (take 3 l = [chr 239; chr 187; chr 191])
  then drop 3 l else l.

(** ** Numbers *)

Definition is_number_char (c : ascii) : bool :=
  is_digit c || bool_decide (c ∈ B "+-eE.").

(** The bytes copied to [number_c_string], at most [n]. *)
Fixpoint number_chars (n : nat) (l : bytes) : bytes :=
  match n, l with
  | S n', c :: l' => if is_number_char c then c :: number_chars n' l' else []
  | _, _ => []
  end.

Definition parse_number (l : bytes) : outcome (cJSON * bytes) :=
  match strtod (number_chars 63 l) with
  | None => Fail
  | Some (number, consumed) => Ok (cJSON_CreateNumber number, drop consumed l)
  end.

(** ** Strings *)

Definition hex_digit_val (c : ascii) : option Z :=
  let v := u8 c in
  if (48 <=? v) && (v <=? 57) then Some (v - 48)
  else if (65 <=? v) && (v <=? 70) then Some (10 + v - 65)
  else if (97 <=? v) && (v <=? 102) then Some (10 + v - 97)
  else None.

(** Four hexadecimal digits; anything else reads as 0. *)
Fixpoint hex4_loop (n : nat) (h : Z) (l : bytes) : Z :=
  match n, l with
  | O, _ => h
  | S n', c :: l' =>
      match hex_digit_val c with
      | Some v => hex4_loop n' (if decide (n' = 0%nat) then h + v else Z.shiftl (h + v) 4) l'
      | None => 0
      end
  | S _, [] => 0
  end.

Definition parse_hex4 (l : bytes) : Z := hex4_loop 4 0 l.

Definition utf8_encode (codepoint : Z) : option bytes :=
  let tail6 (k : Z) := chr (Z.land (Z.lor (Z.shiftr codepoint k) 128) 191) in
  if codepoint <? 128 then Some [chr (Z.land codepoint 127)]
  else if codepoint <? 2048 then
    Some [chr (Z.land (Z.lor (Z.shiftr codepoint 6) 192) 255); tail6 0]
  else if codepoint <? 65536 then
    Some [chr (Z.land (Z.lor (Z.shiftr codepoint 12) 224) 255); tail6 6; tail6 0]
  else if codepoint <=? 1114111 then
    Some [chr (Z.land (Z.lor (Z.shiftr codepoint 18) 240) 255); tail6 12; tail6 6; tail6 0]
  else None.

(** [utf16_literal_to_utf8] at a position with [n] bytes before the closing
    quote: the UTF-8 bytes and the length of the literal. *)
Definition utf16_literal_to_utf8 (l : bytes) (n : nat) : option (bytes * nat) :=
  if decide (n < 6)%nat then None
  else
    let first_code := parse_hex4 (drop 2 l) in
    if (56320 <=? first_code) && (first_code <=? 57343) then None
    else if (55296 <=? first_code) && (first_code <=? 56319) then
      if decide (n < 12)%nat then None
      else if negb (bool_decide (take 2 (drop 6 l) = B "\u")) then None
      else
        let second_code := parse_hex4 (drop 8 l) in
        if (second_code <? 56320) || (57343 <? second_code) then None
        else
          let codepoint := 65536 + Z.lor (Z.shiftl (Z.land first_code 1023) 10)
                                         (Z.land second_code 1023) in
          out ← utf8_encode codepoint; Some (out, 12%nat)
    else out ← utf8_encode first_code; Some (out, 6%nat).

(** The first loop: the bytes before the closing quote and the escapes in them. *)
Fixpoint scan_string (l : bytes) : option (nat * nat) :=
  match l with
  | [] => None
  | c :: l' =>
      if decide (c = chr 34) then Some (0, 0)%nat
      else if decide (c = "\"%char) then
        match l' with
        | [] => None
        | _ :: l'' => '(n, k) ← scan_string l''; Some (S (S n), S k)
        end
      else '(n, k) ← scan_string l'; Some (S n, k)
  end.

Definition simple_escape (c : ascii) : option ascii :=
  if decide (c = "b"%char) then Some (chr 8)
  else if decide (c = "f"%char) then Some (chr 12)
  else if decide (c = "n"%char) then Some (chr 10)
  else if decide (c = "r"%char) then Some (chr 13)
  else if decide (c = "t"%char) then Some (chr 9)
  else if bool_decide (c ∈ [chr 34; "\"%char; "/"%char]) then Some c
  else None.

(** The second loop, [n] bytes before the closing quote. *)
Fixpoint unescape (fuel n : nat) (l : bytes) : outcome bytes :=
  match fuel, n, l with
  | O, _, _ | _, O, _ => Ok []
  | S fuel', _, c :: l' =>
      if decide (c = "\"%char) then
        match l' with
        | [] => Undef
        | e :: _ =>
            match (if decide (e = "u"%char) then utf16_literal_to_utf8 l n
                   else x ← simple_escape e; Some ([x], 2%nat)) with
            | None => Fail
            | Some (out, sequence_length) =>
                rest ← unescape fuel' (n - sequence_length) (drop sequence_length l);
                Ok (out ++ rest)
            end
        end
      else rest ← unescape fuel' (n - 1) l'; Ok (c :: rest)
  | _, _, [] => Undef
  end.

(** The output buffer holds what the first loop allocated. *)
Definition parse_string (l : bytes) : outcome (bytes * bytes) :=
  match l with
  | [] => Undef
  | q :: l1 =>
      if decide (q = chr 34) then
        match scan_string l1 with
        | None => Fail
        | Some (n, skipped_bytes) =>
            let allocation_length := (n + 1 - skipped_bytes)%nat in
            out ← unescape n n l1;
            if decide (length out ≤ allocation_length)%nat
            then Ok (c_str out, drop (S n) l1) else Undef
        end
      else Fail
  end.

(** ** Values *)

Definition literal (s : string) (t v : Z) (l : bytes) : option (cJSON * bytes) :=
  if bool_decide (take (String.length s) l = B s)
  then Some (cJSON_New_Item <| type := t |> <| valueint := v |>, drop (String.length s) l)
  else None.

Definition starts_number (c : ascii) : bool := bool_decide (c = "-"%char) || is_digit c.

Fixpoint parse_value (fuel : nat) (depth : Z) (l : bytes) {struct fuel} : outcome (cJSON * bytes) :=
  match fuel with
  | O => NoFuel
  | S fuel' =>
      match literal "null" cJSON_NULL 0 l with Some r => Ok r | None =>
      match literal "false" cJSON_False 0 l with Some r => Ok r | None =>
      match literal "true" cJSON_True 1 l with Some r => Ok r | None =>
      match l with
      | [] => Fail
      | c :: l1 =>
          if decide (c = chr 34) then
            '(s, r) ← parse_string l; Ok (cJSON_CreateString s, r)
          else if starts_number c then parse_number l
          else if decide (c = "["%char) then
            (* parse_array *)
            if CJSON_NESTING_LIMIT <=? depth then Fail
            else match buffer_skip_whitespace l1 with
                 | [] => Fail
                 | d :: r =>
                     if decide (d = "]"%char) then Ok (cJSON_CreateArray, r)
                     else '(items, r) ← parse_elements fuel' (depth + 1) l1;
                          Ok (cJSON_CreateArray <| child := items |>, r)
                 end
          else if decide (c = "{"%char) then
            (* parse_object *)
            if CJSON_NESTING_LIMIT <=? depth then Fail
            else match buffer_skip_whitespace l1 with
                 | [] => Fail
                 | d :: r =>
                     if decide (d = "}"%char) then Ok (cJSON_CreateObject, r)
                     else '(items, r) ← parse_members fuel' (depth + 1) l1;
                          Ok (cJSON_CreateObject <| child := items |>, r)
                 end
          else Fail
      end end end end
  end

(** The loop of [parse_array], from the byte after a bracket or a comma. *)
with parse_elements (fuel : nat) (depth : Z) (l : bytes) {struct fuel} : outcome (list cJSON * bytes) :=
  match fuel with
  | O => NoFuel
  | S fuel' =>
      '(item, l) ← parse_value fuel' depth (buffer_skip_whitespace l);
      match buffer_skip_whitespace l with
      | c :: r =>
          if decide (c = ","%char) then
            '(items, r) ← parse_elements fuel' depth r; Ok (item :: items, r)
          else if decide (c = "]"%char) then Ok ([item], r) else Fail
      | [] => Fail
      end
  end

(** The loop of [parse_object]. *)
with parse_members (fuel : nat) (depth : Z) (l : bytes) {struct fuel} : outcome (list cJSON * bytes) :=
  match fuel with
  | O => NoFuel
  | S fuel' =>
      '(name, l) ← parse_string (buffer_skip_whitespace l);
      match buffer_skip_whitespace l with
      | c :: l =>
          if decide (c = ":"%char) then
            '(item, l) ← parse_value fuel' depth (buffer_skip_whitespace l);
            let item := item <| string_ := Some name |> in
            match buffer_skip_whitespace l with
            | c :: r =>
                if decide (c = ","%char) then
                  '(items, r) ← parse_members fuel' depth r; Ok (item :: items, r)
                else if decide (c = "}"%char) then Ok ([item], r) else Fail
            | [] => Fail
            end
          else Fail
      | [] => Fail
      end
  end.

Definition parse_fuel (l : bytes) : nat := S (2 * length l).

(** [cJSON_ParseWithLengthOpts] on the bytes of a buffer: the item and the
    position of the parse end. *)
Definition cJSON_ParseWithLengthOpts (content : bytes) (require_null_terminated : bool)
  : outcome (cJSON * bytes) :=
  match content with
  | [] => Fail
  | _ =>
      let l := buffer_skip_whitespace (skip_utf8_bom content) in
      '(item, l) ← parse_value (parse_fuel content) 0 l;
      if require_null_terminated then
        match buffer_skip_whitespace l with
        | c :: _ => if decide (c = NUL) then Ok (item, buffer_skip_whitespace l) else Fail
        | [] => Fail
        end
      else Ok (item, l)
  end.

Definition cJSON_ParseWithLength (value : bytes) : outcome cJSON :=
  '(item, _) ← cJSON_ParseWithLengthOpts value false; Ok item.

(** [cJSON_Parse] reads the string up to and including its terminator. *)
Definition cJSON_Parse (value : bytes) : outcome cJSON :=
  cJSON_ParseWithLength (c_str value ++ [NUL]).

(** ** Memory safety and termination

    On a buffer that ends in a NUL, which is what [cJSON_Parse] passes, no read
    leaves the buffer, the unescaped string fits what was allocated for it, and
    the fuel suffices. *)

Definition nul_ended (l : bytes) : Prop := last l = Some NUL.

Lemma nul_ended_tail c l : c ≠ NUL → nul_ended (c :: l) → nul_ended l.
Proof. unfold nul_ended. destruct l; [|done]. intros ? [= ->]. done. Qed.

Lemma nul_ended_app l k : k ≠ [] → nul_ended (l ++ k) → nul_ended k.
Proof.
  unfold nul_ended. intros Hk. rewrite last_app. by destruct (last k) eqn:E; [|apply last_None in E].
Qed.

Lemma skip_spaces_suffix l : ∃ k, l = k ++ skip_spaces l.
Proof.
  induction l as [|c l [k IH]]; [by exists []|]. cbn. case_match; [|by exists []].
  exists (c :: k). cbn. by f_equal.
Qed.

Lemma skip_whitespace_suffix l : ∃ k, l = k ++ buffer_skip_whitespace l.
Proof.
  destruct l as [|c l]; [by exists []|]. unfold buffer_skip_whitespace.
  destruct (skip_spaces_suffix (c :: l)) as [k Hk].
  destruct (skip_spaces (c :: l)); [|by eauto].
  destruct (last (c :: l)) as [x|] eqn:E; [|by apply last_None in E].
  apply last_Some in E as [k' ->]. by exists k'.
Qed.

Lemma skip_whitespace_length l : (length (buffer_skip_whitespace l) ≤ length l)%nat.
Proof.
  destruct (skip_whitespace_suffix l) as [k Hk]. rewrite Hk at 2. rewrite length_app. lia.
Qed.

Lemma skip_whitespace_nil l : buffer_skip_whitespace l = [] → l = [].
Proof. destruct l; [done|]. unfold buffer_skip_whitespace. by case_match. Qed.

Lemma skip_whitespace_nul l : nul_ended l → nul_ended (buffer_skip_whitespace l).
Proof.
  intros Hl. destruct (skip_whitespace_suffix l) as [k Hk].
  apply (nul_ended_app k); [|by rewrite <- Hk].
  intros E. apply skip_whitespace_nil in E. by subst.
Qed.

(** Where the second loop may stand with respect to the escapes the first loop
    saw: at the start of one of its steps, or inside an escape it stepped over. *)
Inductive aligned : bytes → nat → nat → Prop :=
| at_step l n k : scan_string l = Some (n, k) → aligned l n k
| in_escape c l n k : scan_string l = Some (n, k) → aligned (c :: l) (S n) k
| past_end l : aligned l 0 0.

Lemma scan_step c l n k :
  scan_string (c :: l) = Some (n, k) → n ≠ 0%nat →
  (c ≠ "\"%char ∧ scan_string l = Some (n - 1, k)%nat) ∨
  (c = "\"%char ∧ ∃ d l', l = d :: l' ∧ (2 ≤ n)%nat ∧ (1 ≤ k)%nat ∧
     scan_string l' = Some (n - 2, k - 1)%nat).
Proof.
  cbn. intros H Hn. destruct (decide (c = chr 34)) as [_|Hq]; [congruence|].
  destruct (decide (c = "\"%char)) as [->|Hb].
  - right. destruct l as [|d l']; [done|].
    destruct (scan_string l') as [[n' k']|] eqn:E; cbn in H; [|done].
    injection H as <- <-. split; [done|]. exists d, l'.
    rewrite E. split_and!; try done; try lia. f_equal. f_equal; lia.
  - left. destruct (scan_string l) as [[n' k']|]; cbn in H; [|done].
    injection H as <- <-. split; [done|]. f_equal. f_equal. lia.
Qed.

(** A plain byte keeps the count of escapes; two bytes take at most one. *)
Lemma aligned_plain c l n k :
  aligned (c :: l) n k → n ≠ 0%nat → c ≠ "\"%char → aligned l (n - 1) k.
Proof.
  inversion 1; subst; intros; [| |lia].
  - destruct (scan_step c l n k) as [[_ ?]|[? _]]; [done..|by apply at_step|done].
  - rewrite Nat.sub_succ, Nat.sub_0_r. by apply at_step.
Qed.

Lemma scan_zero l k : scan_string l = Some (0%nat, k) → k = 0%nat.
Proof.
  destruct l as [|c l]; [done|]. cbn. intros H.
  destruct (decide (c = chr 34)); [congruence|].
  destruct (decide (c = "\"%char)); [destruct l as [|d l]; [done|]|];
    destruct (scan_string l) as [[??]|]; cbn in H; congruence.
Qed.

Lemma aligned_two l n k :
  aligned l n k → (n ≠ 0)%nat →
  ∃ k', aligned (drop 2 l) (n - 2) k' ∧ (k ≤ S k')%nat ∧ (n = 1 → k = 0)%nat.
Proof.
  intros Ha Hn. destruct Ha as [l n k Hs|c l n k Hs|]; [| |done].
  - destruct l as [|c l]; [done|].
    destruct (scan_step c l n k Hs Hn) as [[_ Hs']|(_ & d & l' & -> & ? & ? & Hs')].
    + destruct (decide (n = 1)%nat) as [->|].
      { apply scan_zero in Hs' as ->. exists 0%nat. split; [apply past_end|lia]. }
      destruct l as [|d l]; [done|].
      destruct (scan_step d l (n - 1) k Hs') as [[_ Hs'']|(_ & e & l' & -> & ? & ? & Hs'')]; [lia|..].
      * exists k. split; [|lia]. cbn. rewrite ?drop_0. apply at_step. rewrite Hs''. f_equal. f_equal. lia.
      * exists (k - 1)%nat. split; [|lia]. cbn. rewrite ?drop_0.
        replace (n - 2)%nat with (S (n - 1 - 2)) by lia. by apply in_escape.
    + exists (k - 1)%nat. split; [|lia]. cbn. rewrite ?drop_0. by apply at_step.
  - cbn. rewrite ?drop_0. destruct n as [|n].
    { apply scan_zero in Hs as ->. exists 0%nat. split; [apply past_end|lia]. }
    destruct l as [|d l]; [done|].
    destruct (scan_step d l (S n) k Hs) as [[_ Hs']|(_ & e & l' & -> & ? & ? & Hs')]; [lia|..].
    + exists k. split; [|lia]. cbn in *. rewrite ?drop_0, ?Nat.sub_0_r in *. by apply at_step.
    + exists (k - 1)%nat. split; [|lia]. cbn. rewrite ?drop_0.
      replace (n - 0)%nat with (S (S n - 2)) by lia. by apply in_escape.
Qed.

Lemma aligned_drop j l n k :
  aligned l n k → (2 * j ≤ n)%nat →
  ∃ k', aligned (drop (2 * j) l) (n - 2 * j) k' ∧ (k ≤ j + k')%nat.
Proof.
  revert l n k. induction j as [|j IH]; intros l n k Ha Hj.
  - exists k. cbn. rewrite drop_0, Nat.sub_0_r. split; [done|lia].
  - destruct (aligned_two l n k Ha) as (k1 & H1 & ? & _); [lia|].
    destruct (IH _ _ _ H1) as (k2 & H2 & ?); [lia|].
    exists k2. rewrite drop_drop in H2. split; [|lia].
    replace (2 * S j)%nat with (2 + 2 * j)%nat by lia.
    by replace (n - (2 + 2 * j))%nat with (n - 2 - 2 * j)%nat by lia.
Qed.

Lemma scan_length l n k : scan_string l = Some (n, k) → (n < length l)%nat.
Proof.
  revert n k. induction l as [l IH] using (induction_ltof1 _ length).
  unfold ltof in IH. destruct l as [|c l]; [done|]. intros n k. cbn [scan_string length].
  destruct (decide (c = chr 34)); [intros [= <- <-]; cbn; lia|].
  destruct (decide (c = "\"%char)).
  - destruct l as [|d l]; [done|].
    destruct (scan_string l) as [[n' k']|] eqn:E; cbn; intros [= <- <-].
    apply IH in E; cbn in *; lia.
  - destruct (scan_string l) as [[n' k']|] eqn:E; cbn; intros [= <- <-].
    apply IH in E; cbn in *; lia.
Qed.

Lemma aligned_length l n k : aligned l n k → n ≠ 0%nat → (n < length l)%nat.
Proof. intros [? ? ? H|? ? ? ? H|] ?; [|cbn|done]; apply scan_length in H; lia. Qed.

Lemma hex_digit_range c v : hex_digit_val c = Some v → 0 ≤ v < 16.
Proof.
  unfold hex_digit_val. repeat case_match; intros [= <-]; bool_to_prop; lia.
Qed.

Lemma hex4_loop_range n h l :
  (n ≤ 4)%nat → 0 ≤ h →
  (if decide (n = 0%nat) then h < 16 ^ 4 else h + 16 ≤ 16 ^ (5 - Z.of_nat n)) →
  0 ≤ hex4_loop n h l < 16 ^ 4.
Proof.
  revert h l. induction n as [|n IH]; intros h l Hn Hh Hb; [by cbn in *|].
  rewrite decide_False in Hb by done.
  destruct l as [|c l]; [by cbn|]. cbn [hex4_loop].
  destruct (hex_digit_val c) as [v|] eqn:Hv; [|by cbn]. apply hex_digit_range in Hv.
  apply IH; [lia|case_decide; [|rewrite Z.shiftl_mul_pow2 by lia]; lia|].
  case_decide as Hn0; [subst; cbn in Hb; lia|].
  rewrite Z.shiftl_mul_pow2 by lia.
  replace (5 - Z.of_nat n) with (5 - Z.of_nat (S n) + 1) by lia.
  rewrite Z.pow_add_r by lia. lia.
Qed.

Lemma parse_hex4_range l : 0 ≤ parse_hex4 l < 65536.
Proof. apply (hex4_loop_range 4 0 l); [lia..|by rewrite decide_False]. Qed.

Lemma utf8_encode_length z out :
  utf8_encode z = Some out → (length out ≤ (if (z <? 65536)%Z then 3 else 4))%nat.
Proof.
  unfold utf8_encode. repeat case_match; intros [= <-]; bool_to_prop; cbn; lia.
Qed.

Lemma utf16_bound l n out s :
  utf16_literal_to_utf8 l n = Some (out, s) →
  (s ≤ n)%nat ∧ ∃ j, s = (2 * j)%nat ∧ (length out ≤ j)%nat ∧ (j ≠ 0)%nat.
Proof.
  unfold utf16_literal_to_utf8. pose proof (parse_hex4_range (drop 2 l)) as Hr.
  repeat case_match; try done.
  - destruct (utf8_encode _) as [o|] eqn:E; cbn; intros [= <- <-].
    apply utf8_encode_length in E. split; [lia|]. exists 6%nat.
    destruct (_ <? _) in E; lia.
  - destruct (utf8_encode _) as [o|] eqn:E; cbn; intros [= <- <-].
    apply utf8_encode_length in E. split; [lia|]. exists 3%nat.
    rewrite (proj2 (Z.ltb_lt _ _)) in E by lia. lia.
Qed.

(** The output of the second loop fits the allocation of the first. *)
Lemma unescape_bound fuel n l k :
  aligned l n k → (n ≤ fuel)%nat →
  defined (unescape fuel n l) ∧
  ∀ out, unescape fuel n l = Ok out → (length out + k ≤ n)%nat.
Proof.
  revert n l k. induction fuel as [|fuel IH]; intros n l k Ha Hn.
  { replace n with 0%nat in * by lia. cbn. split; [done|]. intros ? [= <-].
    inversion Ha as [? ? ? H| |]; subst; [apply scan_zero in H|]; cbn; lia. }
  destruct n as [|n].
  { cbn. split; [done|]. intros ? [= <-].
    inversion Ha as [? ? ? H| |]; subst; [apply scan_zero in H|]; cbn; lia. }
  pose proof (aligned_length _ _ _ Ha ltac:(lia)) as Hl.
  destruct l as [|c [|e l]]; [cbn in Hl; lia..|]. cbn [unescape].
  destruct (decide (c = "\"%char)) as [Hc|Hc].
  - set (step := if decide (e = "u"%char) then _ else _).
    assert (Hstep : ∀ o s, step = Some (o, s) →
      (s ≤ S n ∨ s = 2)%nat ∧ ∃ j, s = (2 * j)%nat ∧ (length o ≤ j)%nat ∧ (j ≠ 0)%nat).
    { intros o s. subst step. case_decide; intros Hout.
      - apply utf16_bound in Hout as [? ?]. auto.
      - destruct (simple_escape e) as [x|]; cbn in Hout; [|done]. injection Hout as <- <-.
        split; [by right|]. exists 1%nat. cbn. lia. }
    destruct step as [[o s]|]; [|done].
    destruct (Hstep o s eq_refl) as [Hs (j & -> & Ho & Hj)].
    assert (∃ k', aligned (drop (2 * j) (c :: e :: l)) (S n - 2 * j) k' ∧
                  (length o + (S n - 2 * j) + k ≤ S n + k')%nat) as (k' & Ha' & Hk).
    { destruct (decide (n = 0)%nat) as [->|].
      - destruct (aligned_two _ _ _ Ha) as (k' & ? & ? & ?); [lia|].
        replace j with 1%nat in * by lia. exists k'. split; [done|lia].
      - destruct (aligned_drop j _ _ _ Ha) as (k' & ? & ?); [lia|].
        exists k'. split; [done|lia]. }
    destruct (IH _ _ _ Ha') as [Hd Hout]; [lia|].
    split; [by apply defined_bind|].
    intros out (rest & Hr & [= <-])%bind_Ok. apply Hout in Hr. rewrite length_app.
    lia.
  - apply aligned_plain in Ha; [|done..]. rewrite Nat.sub_succ, Nat.sub_0_r in *.
    destruct (IH _ _ _ Ha) as [Hd Hout]; [lia|]. split; [by apply defined_bind|].
    intros out (rest & Hr & [= <-])%bind_Ok. apply Hout in Hr. cbn. lia.
Qed.

(** What a parser of one construct leaves: a shorter suffix that still ends in NUL. *)
Definition leaves {A} (l : bytes) (m : outcome (A * bytes)) : Prop :=
  defined m ∧ ∀ a r, m = Ok (a, r) → nul_ended r ∧ (length r < length l)%nat.

Lemma scan_rest l n k : scan_string l = Some (n, k) →
  ∃ a r, l = a ++ chr 34 :: r ∧ length a = n.
Proof.
  revert n k. induction l as [l IH] using (induction_ltof1 _ length).
  unfold ltof in IH. destruct l as [|c l]; [done|]. intros n k. cbn [scan_string].
  destruct (decide (c = chr 34)) as [->|]; [intros [= <- <-]; by exists [], l|].
  destruct (decide (c = "\"%char)).
  - destruct l as [|d l]; [done|].
    destruct (scan_string l) as [[n' k']|] eqn:E; cbn; intros [= <- <-].
    apply IH in E as (a & r & -> & Hn); [|cbn; lia]. exists (c :: d :: a), r. cbn. by rewrite Hn.
  - destruct (scan_string l) as [[n' k']|] eqn:E; cbn; intros [= <- <-].
    apply IH in E as (a & r & -> & Hn); [|cbn; lia]. exists (c :: a), r. cbn. by rewrite Hn.
Qed.

Lemma parse_string_leaves l : nul_ended l → leaves l (parse_string l).
Proof.
  intros Hl. destruct l as [|q l]; [done|]. unfold leaves, parse_string.
  destruct (decide (q = chr 34)) as [->|]; [|done].
  destruct (scan_string l) as [[n k]|] eqn:Hs; [|done].
  destruct (unescape_bound n n l k (at_step _ _ _ Hs)) as [Hd Hb]; [done|].
  destruct (scan_rest _ _ _ Hs) as (a & r & -> & Hn).
  apply nul_ended_tail in Hl; [|done]. apply nul_ended_app in Hl; [|done].
  apply nul_ended_tail in Hl; [|done].
  split.
  - apply defined_bind; [done|]. intros out Hout. apply Hb in Hout.
    rewrite decide_True by lia. done.
  - intros s r' (out & Hout & Hr)%bind_Ok. case_decide; [|done]. injection Hr as _ <-.
    assert (drop (S n) (a ++ chr 34 :: r) = r) as ->.
    { change (chr 34 :: r) with ([chr 34] ++ r). rewrite app_assoc.
      apply drop_length_app. rewrite length_app. cbn. lia. }
    split; [done|]. cbn. rewrite length_app. cbn. lia.
Qed.

Lemma number_chars_spec n l :
  ∃ r, l = number_chars n l ++ r ∧ no_nul (number_chars n l).
Proof.
  revert l. induction n as [|n IH]; intros l; [by exists l; split; [|apply not_elem_of_nil]|].
  destruct l as [|c l]; [by exists []; split; [|apply not_elem_of_nil]|]. cbn.
  destruct (is_number_char c) eqn:Hc; [|by exists (c :: l); split; [|apply not_elem_of_nil]].
  destruct (IH l) as (r & Hr & Hn). exists r. split; [cbn; by f_equal|].
  apply no_nul_cons. split; [|done]. by intros ->.
Qed.

Lemma parse_number_leaves l : nul_ended l → leaves l (parse_number l).
Proof.
  intros Hl. unfold leaves, parse_number.
  destruct (strtod _) as [[v k]|] eqn:E; [|done]. split; [done|]. intros a r [= <- <-].
  apply strtod_consumed in E. destruct (number_chars_spec 63 l) as (r' & Hr & Hn).
  split; [|apply (f_equal length) in Hr; rewrite length_app in Hr; rewrite length_drop; lia].
  rewrite <- (take_drop k l) in Hl. apply nul_ended_app in Hl; [done|].
  intros Hd. apply (f_equal length) in Hd. rewrite length_drop in Hd. cbn in Hd.
  pose proof (f_equal length Hr) as Hlen. rewrite length_app in Hlen.
  destruct r'; [|cbn [length] in Hlen; lia].
  rewrite app_nil_r in Hr. rewrite take_drop in Hl. unfold nul_ended in Hl.
  apply last_Some_elem_of in Hl. rewrite Hr in Hl. done.
Qed.

Lemma leaves_bind {A C} l (m : outcome (A * bytes)) (f : A * bytes → outcome (C * bytes)) :
  leaves l m →
  (∀ a r, nul_ended r → (length r < length l)%nat → leaves l (f (a, r))) →
  leaves l (m ≫= f).
Proof.
  intros [Hd Hm] Hf. destruct m as [[a r]| | |]; [|done|by destruct Hd..].
  cbn. destruct (Hm a r eq_refl). by apply Hf.
Qed.

Lemma leaves_Ok {A} l (a : A) r :
  nul_ended r → (length r < length l)%nat → leaves l (Ok (a, r)).
Proof. intros. split; [done|]. by intros ? ? [= <- <-]. Qed.

Lemma leaves_Fail {A} l : leaves (A := A) l Fail.
Proof. done. Qed.

Lemma leaves_le {A} l l' (m : outcome (A * bytes)) :
  leaves l m → (length l ≤ length l')%nat → leaves l' m.
Proof. intros [Hd Hm] Hl. split; [done|]. intros a r Hr. apply Hm in Hr as [? ?]. split; [done|lia]. Qed.

Lemma literal_leaves s t v l i r :
  nul_ended l → B s ≠ [] → no_nul (B s) → literal s t v l = Some (i, r) →
  nul_ended r ∧ (length r < length l)%nat.
Proof.
  unfold literal. intros Hl Hs Hn. case_bool_decide as Ht; [|done]. intros [= <- <-].
  pose proof (take_drop (String.length s) l) as Hl'. rewrite Ht in Hl'.
  set (r := drop _ l) in *. rewrite <- Hl' in *.
  split; [|rewrite length_app; destruct (B s); [done|cbn; lia]].
  apply nul_ended_app in Hl; [done|]. intros Hr. rewrite Hr, app_nil_r in Hl.
  by apply last_Some_elem_of in Hl.
Qed.

Lemma skip_ws_cons l c r :
  nul_ended l → buffer_skip_whitespace l = c :: r → c ≠ NUL →
  nul_ended r ∧ (length r < length l)%nat.
Proof.
  intros Hl Hs Hc. pose proof (skip_whitespace_length l) as Hlen.
  apply skip_whitespace_nul in Hl. rewrite Hs in Hl, Hlen.
  apply nul_ended_tail in Hl; [|done]. cbn in Hlen. split; [done|lia].
Qed.

(** The fuel suffices and every read stays inside, for the value and for the two
    loops at once. *)
Lemma parse_leaves fuel :
  ∀ depth l, nul_ended l →
  ((2 * length l < fuel)%nat → leaves l (parse_value fuel depth l)) ∧
  ((2 * length l + 1 < fuel)%nat → leaves l (parse_elements fuel depth l)) ∧
  ((2 * length l + 1 < fuel)%nat → leaves l (parse_members fuel depth l)).
Proof.
  induction fuel as [|fuel IH]; intros depth l Hl; [split_and!; lia|].
  split_and!; intros Hf.
  - cbn [parse_value].
    destruct (literal "null" _ _ l) as [[i r]|] eqn:E1.
    { apply literal_leaves in E1 as [??]; [by apply leaves_Ok|done|done|compute_done]. }
    destruct (literal "false" _ _ l) as [[i r]|] eqn:E2.
    { apply literal_leaves in E2 as [??]; [by apply leaves_Ok|done|done|compute_done]. }
    destruct (literal "true" _ _ l) as [[i r]|] eqn:E3.
    { apply literal_leaves in E3 as [??]; [by apply leaves_Ok|done|done|compute_done]. }
    destruct l as [|c l]; [done|].
    destruct (decide (c = chr 34)) as [->|].
    { apply leaves_bind; [by apply parse_string_leaves|]. intros. by apply leaves_Ok. }
    destruct (starts_number c); [by apply parse_number_leaves|].
    cbn in Hf.
    destruct (decide (c = "["%char)) as [->|];
      [|destruct (decide (c = "{"%char)) as [->|]; [|apply leaves_Fail]];
      (destruct (_ <=? _); [apply leaves_Fail|]);
      (apply nul_ended_tail in Hl; [|done]);
      (destruct (buffer_skip_whitespace l) as [|d r] eqn:Ews; [apply leaves_Fail|]);
      case_decide as Hd;
      try (destruct (skip_ws_cons _ _ _ Hl Ews) as [??]; [by subst|];
           apply leaves_Ok; [done|cbn; lia]).
    + apply leaves_bind; [eapply leaves_le; [apply IH; [done|lia]|cbn; lia]|].
      intros. by apply leaves_Ok.
    + apply leaves_bind; [eapply leaves_le; [apply IH; [done|lia]|cbn; lia]|].
      intros. by apply leaves_Ok.
  - cbn [parse_elements]. pose proof (skip_whitespace_length l).
    apply leaves_bind.
    { eapply leaves_le; [apply IH; [by apply skip_whitespace_nul|lia]|done]. }
    intros item r Hr Hlr. destruct (buffer_skip_whitespace r) as [|c r'] eqn:Ews; [done|].
    destruct (decide (c = ","%char)) as [->|].
    { destruct (skip_ws_cons _ _ _ Hr Ews) as [??]; [done|].
      apply leaves_bind; [eapply leaves_le; [apply IH; [done|lia]|lia]|].
      intros. by apply leaves_Ok. }
    destruct (decide (c = "]"%char)) as [->|]; [|done].
    destruct (skip_ws_cons _ _ _ Hr Ews) as [??]; [done|]. apply leaves_Ok; [done|lia].
  - cbn [parse_members]. pose proof (skip_whitespace_length l).
    apply leaves_bind.
    { eapply leaves_le; [apply parse_string_leaves; by apply skip_whitespace_nul|done]. }
    intros name r Hr Hlr. destruct (buffer_skip_whitespace r) as [|c r'] eqn:Ews; [done|].
    destruct (decide (c = ":"%char)) as [->|]; [|done].
    destruct (skip_ws_cons _ _ _ Hr Ews) as [Hr' ?]; [done|].
    pose proof (skip_whitespace_length r').
    apply leaves_bind.
    { eapply leaves_le; [apply IH; [by apply skip_whitespace_nul|lia]|lia]. }
    intros item r1 Hr1 Hlr1. destruct (buffer_skip_whitespace r1) as [|c r1'] eqn:Ews1; [done|].
    destruct (decide (c = ","%char)) as [->|].
    { destruct (skip_ws_cons _ _ _ Hr1 Ews1) as [??]; [done|].
      apply leaves_bind; [eapply leaves_le; [apply IH; [done|lia]|lia]|].
      intros. by apply leaves_Ok. }
    destruct (decide (c = "}"%char)) as [->|]; [|done].
    destruct (skip_ws_cons _ _ _ Hr1 Ews1) as [??]; [done|]. apply leaves_Ok; [done|lia].
Qed.

Lemma skip_bom_nul l : nul_ended l → nul_ended (skip_utf8_bom l).
Proof.
  intros Hl. unfold skip_utf8_bom. case_match eqn:E; [|done]. bool_to_prop.
  rewrite <- (take_drop 3 l) in Hl. apply nul_ended_app in Hl; [done|].
  intros Hd. apply (f_equal length) in Hd. rewrite length_drop in Hd. cbn in Hd. lia.
Qed.

Lemma skip_bom_length l : (length (skip_utf8_bom l) ≤ length l)%nat.
Proof. unfold skip_utf8_bom. case_match; [rewrite length_drop|]; lia. Qed.

(** Whatever the text is, [cJSON_Parse] returns: it reads no byte past the
    terminator, writes no string past its allocation, and the recursion ends. *)
Lemma cJSON_Parse_defined s : defined (cJSON_Parse s).
Proof.
  unfold cJSON_Parse, cJSON_ParseWithLength, cJSON_ParseWithLengthOpts.
  set (l := c_str s ++ [NUL]).
  assert (nul_ended l) as Hl by (unfold nul_ended, l; by rewrite last_snoc).
  destruct l as [|c l'] eqn:E; [done|]. rewrite <- E in *.
  pose proof (skip_bom_length l). pose proof (skip_whitespace_length (skip_utf8_bom l)).
  apply skip_bom_nul, skip_whitespace_nul in Hl.
  assert (leaves (buffer_skip_whitespace (skip_utf8_bom l))
            (parse_value (parse_fuel l) 0 (buffer_skip_whitespace (skip_utf8_bom l)))) as [Hd _].
  { apply parse_leaves; [done|]. unfold parse_fuel. lia. }
  apply defined_bind; [|by intros [] _].
  apply defined_bind; [done|]. by intros [] _.
Qed.

(** ** Properties *)

(** C11: whatever bytes a peer sends, [cJSON_Parse] either refuses the text or
    returns an item.  It reads no byte past the terminating NUL, writes no
    string past the size it allocated for it, and the recursion over nested
    arrays and objects ends; no input leads to undefined behaviour. *)
Theorem parse_total s : cJSON_Parse s = Fail ∨ ∃ item, cJSON_Parse s = Ok item.
Proof.
  destruct (cJSON_Parse_defined s). destruct (cJSON_Parse s); [right; by eexists|by left|done..].
Qed.

(** Without the terminator the bound is off by one: on a buffer that ends
    in the comma of an unfinished object, [cJSON_ParseWithLength] reads the
    byte after the buffer. *)
Theorem parse_with_length_overreads :
  cJSON_ParseWithLength (B "{" ++ chr 34 :: B "a" ++ chr 34 :: B ":1,") = Undef ∧
  cJSON_Parse (B "{" ++ chr 34 :: B "a" ++ chr 34 :: B ":1,") = Fail.
Proof. split; vm_compute; reflexivity. Qed.
