(* ===== verification/JsonRoundtrip.v ===== *)
(** * Printing then parsing ([src/cjson.c])

    The text [print] gives for an item whose strings hold no NUL, whose numbers
    are finite and whose nesting is within the parser's limit is read
    back by [cJSON_Parse] as the item [parsed] describes: the same tree, in the
    form the parser builds.  [small_int] numbers, the only ones iperf3's control
    messages rely on being exact, satisfy the condition. *)

From S2P Require Import Prelude CInt CDouble CStdio Json JsonPrint JsonParse.

(** ** Which items, and what is read back *)

Definition num_ok (d : double) : bool :=
  let t := number_text (cJSON_CreateNumber d) in
  (length t <=? 25)%nat && forallb is_number_char t &&
  match t with c :: _ => starts_number c | [] => false end &&
  match strtod t with Some (_, n) => (n =? length t)%nat | None => false end.

(** The double that the printed digits denote.  The printer settles for fifteen
    digits when they give the double up to one unit in the last place. *)
Definition reread (d : double) : double :=
  match strtod (number_text (cJSON_CreateNumber d)) with Some (d', _) => d' | None => d end.

Definition key_ok (e : cJSON) : bool := bool_decide (no_nul (default [] (string_ e))).

Fixpoint json_wf (depth : Z) (item : cJSON) : bool :=
  match item with
  | mk_cJSON t vs vi vd _ children =>
      let t := Z.land t 255 in
      if (t =? cJSON_NULL) || (t =? cJSON_False) || (t =? cJSON_True) then true
      else if t =? cJSON_Number then (vi =? saturate_int vd) && num_ok vd
      else if t =? cJSON_String then bool_decide (no_nul (default [] vs))
      else if t =? cJSON_Array then
        (depth <? CJSON_NESTING_LIMIT) && forallb (json_wf (depth + 1)) children
      else if t =? cJSON_Object then
        (depth <? CJSON_NESTING_LIMIT) && forallb (json_wf (depth + 1)) children
        && forallb key_ok children
      else false
  end.

Definition with_key (e e' : cJSON) : cJSON := e' <| string_ := Some (default [] (string_ e)) |>.

Fixpoint parsed (item : cJSON) : cJSON :=
  match item with
  | mk_cJSON t vs vi vd _ children =>
      let t := Z.land t 255 in
      if t =? cJSON_NULL then cJSON_CreateNull
      else if t =? cJSON_False then cJSON_CreateFalse
      else if t =? cJSON_True then cJSON_CreateTrue <| valueint := 1 |>
      else if t =? cJSON_Number then cJSON_CreateNumber (reread vd)
      else if t =? cJSON_String then cJSON_CreateString (default [] vs)
      else if t =? cJSON_Array then cJSON_CreateArray <| child := map parsed children |>
      else cJSON_CreateObject <| child := map (fun e => with_key e (parsed e)) children |>
  end.

(** ** Strings *)

Lemma parse_hex4_pad c l : u8 c < 32 → parse_hex4 (hex_pad 4 (u8 c) ++ l) = u8 c.
Proof.
  intros Hc.
  assert (Hf : ∀ c, u8 c < 32 → length (hex_pad 4 (u8 c)) = 4%nat ∧ parse_hex4 (hex_pad 4 (u8 c)) = u8 c).
  { clear. all_bytes (fun c => negb (u8 c <? 32) ||
      ((length (hex_pad 4 (u8 c)) =? 4)%nat && (parse_hex4 (hex_pad 4 (u8 c)) =? u8 c))).
    intros c H Hc. apply orb_true_iff in H as [H|H]; bool_to_prop; [lia|].
    split; [by apply Nat.eqb_eq|done]. }
  destruct (Hf c Hc) as [Hl Hp].
  destruct (hex_pad 4 (u8 c)) as [|h1 [|h2 [|h3 [|h4 [|]]]]]; try done.
Qed.

Lemma hex_pad_chars c : u8 c < 32 →
  length (hex_pad 4 (u8 c)) = 4%nat ∧ Forall (fun x => x ≠ chr 34 ∧ x ≠ "\"%char) (hex_pad 4 (u8 c)).
Proof.
  revert c. all_bytes (fun c => negb (u8 c <? 32) ||
    ((length (hex_pad 4 (u8 c)) =? 4)%nat &&
     bool_decide (Forall (fun x => x ≠ chr 34 ∧ x ≠ "\"%char) (hex_pad 4 (u8 c))))).
  intros c H Hc. apply orb_true_iff in H as [H|H]; bool_to_prop; [lia|].
  split; [by apply Nat.eqb_eq|by eapply bool_decide_eq_true].
Qed.

(** The three forms of an escaped byte. *)
Lemma escape_shape c :
  (escape_char c = [c] ∧ c ≠ chr 34 ∧ c ≠ "\"%char) ∨
  (∃ x, escape_char c = ["\"%char; x] ∧ simple_escape x = Some c ∧ x ≠ "u"%char) ∨
  (escape_char c = "\"%char :: "u"%char :: hex_pad 4 (u8 c) ∧ u8 c < 32).
Proof.
  unfold escape_char. destruct (_ && _) eqn:E.
  { left. bool_to_prop. split_and!; [done|by intros ->..]. }
  assert (Hchr : ∀ z, u8 c = z → c = chr z) by (intros z <-; by rewrite chr_u8).
  right. repeat (destruct (u8 c =? _) eqn:? ; bool_to_prop;
    [left; match goal with H : u8 c = _ |- _ => apply Hchr in H as -> end;
     by eexists; split_and!|]).
  right. split; [done|]. apply andb_false_iff in E as [E|E]; [|lia].
  apply andb_false_iff in E as [E|E]; bool_to_prop; lia.
Qed.

(** The two loops of [parse_string] on one escaped byte. *)
Lemma scan_escape c l n k :
  scan_string l = Some (n, k) →
  ∃ k', scan_string (escape_char c ++ l) = Some (length (escape_char c) + n, k')%nat.
Proof.
  intros Hl. destruct (escape_shape c) as [(-> & H1 & H2)|[(x & -> & _)|(-> & Hc)]].
  - exists k. cbn. rewrite !decide_False by done. by rewrite Hl.
  - exists (S k). cbn. by rewrite Hl.
  - exists (S k). destruct (hex_pad_chars c Hc) as [Hlen Hf].
    destruct (hex_pad 4 (u8 c)) as [|h1 [|h2 [|h3 [|h4 [|]]]]]; try done.
    rewrite !Forall_cons in Hf. destruct Hf as ([? ?] & [? ?] & [? ?] & [? ?] & _).
    cbn. rewrite (decide_False (P := "\"%char = chr 34)) by done.
    rewrite (decide_True (P := "\"%char = "\"%char)) by done.
    rewrite !decide_False by done. by rewrite Hl.
Qed.

Lemma unescape_escape c l fuel n :
  (length (escape_char c) + n ≤ S fuel)%nat →
  unescape (S fuel) (length (escape_char c) + n) (escape_char c ++ l)
  = (rest ← unescape fuel n l; Ok (c :: rest)).
Proof.
  intros Hf. destruct (escape_shape c) as [(-> & H1 & H2)|[(x & -> & Hx & Hu)|(-> & Hc)]].
  - cbn. rewrite decide_False by done. by rewrite Nat.sub_0_r.
  - cbn. rewrite (decide_False _ _ Hu). rewrite Hx. cbn. by rewrite Nat.sub_0_r, drop_0.
  - destruct (hex_pad_chars c Hc) as [Hlen _]. pose proof (parse_hex4_pad c l Hc) as Hp.
    pose proof (u8_range c).
    generalize dependent (hex_pad 4 (u8 c)). intros h Hlen Hp. cbn [length app] in *. rewrite Hlen. cbn [unescape Nat.add].
    rewrite decide_True by done.
    assert (utf16_literal_to_utf8 ("\"%char :: "u"%char :: h ++ l) (S (S (4 + n)))
            = Some ([c], 6%nat)) as Hu.
    { unfold utf16_literal_to_utf8. rewrite decide_False by lia. cbn [drop]. rewrite drop_0, Hp.
      ztest. cbn. unfold utf8_encode. ztest. cbn. do 3 f_equal.
      change 127 with (Z.ones 7). rewrite Z.land_ones, Z.mod_small by (cbn; lia). apply chr_u8. }
    cbn in Hu. cbn. rewrite Hu. cbn.
    rewrite (decide_True (P := "u"%char = "u"%char)) by done.
    replace (S (S (S (S (S (S n))))) - 6)%nat with n by lia.
    replace (drop 6 ("\"%char :: "u"%char :: h ++ l)) with l by (cbn [drop]; by rewrite drop_length_app).
    done.
Qed.

Lemma scan_escaped s l :
  ∃ k, scan_string (concat (map escape_char s) ++ chr 34 :: l)
       = Some (length (concat (map escape_char s)), k).
Proof.
  induction s as [|c s [k IH]]; [by exists 0%nat|]. cbn [map concat]. rewrite <- app_assoc.
  destruct (scan_escape c _ _ _ IH) as [k' Hk]. exists k'. by rewrite Hk, length_app.
Qed.

Lemma length_escape_pos c : (1 ≤ length (escape_char c))%nat.
Proof. rewrite length_escape_char. lia. Qed.

Lemma unescape_escaped s l fuel :
  (length (concat (map escape_char s)) ≤ fuel)%nat →
  unescape fuel (length (concat (map escape_char s))) (concat (map escape_char s) ++ l) = Ok s.
Proof.
  revert fuel. induction s as [|c s IH]; intros fuel Hf; [by destruct fuel|].
  cbn [map concat] in *. rewrite length_app in *. pose proof (length_escape_pos c).
  destruct fuel as [|fuel]; [lia|]. rewrite <- app_assoc, unescape_escape by lia.
  by rewrite IH by lia.
Qed.

(** [parse_string] reads back the text of a string. *)
Lemma parse_string_render s l :
  no_nul s → parse_string (render_string (Some s) ++ l) = Ok (s, l).
Proof.
  intros Hs. unfold render_string, quoted. cbn [default from_option app id].
  set (e := concat (map escape_char s)). rewrite <- app_assoc. cbn [app].
  unfold parse_string. rewrite decide_True by done.
  destruct (scan_escaped s l) as [k Hk]. fold e in Hk. rewrite Hk.
  assert (He : unescape (length e) (length e) (e ++ chr 34 :: l) = Ok s)
    by (by apply unescape_escaped).
  destruct (unescape_bound _ _ _ _ (at_step _ _ _ Hk) (le_n _)) as [_ Hb].
  pose proof (Hb _ He). rewrite He, Ok_bind, decide_True by lia.
  rewrite c_str_no_nul by done. do 2 f_equal.
  change (chr 34 :: l) with ([chr 34] ++ l). rewrite app_assoc.
  apply drop_length_app. rewrite length_app. cbn. lia.
Qed.

(** ** Numbers *)

Lemma number_chars_stop n t r :
  forallb is_number_char t = true → (length t ≤ n)%nat →
  (∀ c, head r = Some c → is_number_char c = false) →
  number_chars n (t ++ r) = t.
Proof.
  revert t. induction n as [|n IH]; intros [|c t] Ht Hn Hr; cbn in *; try done; [lia|..].
  - destruct r as [|c r]; [done|]. by rewrite (Hr c).
  - apply andb_true_iff in Ht as [Hc Ht]. rewrite Hc. rewrite IH; [done|done|lia|done].
Qed.

Definition stops_number (r : bytes) : Prop := ∀ c, head r = Some c → is_number_char c = false.

Lemma parse_number_text d r :
  num_ok d = true → stops_number r →
  parse_number (number_text (cJSON_CreateNumber d) ++ r) = Ok (cJSON_CreateNumber (reread d), r).
Proof.
  unfold num_ok. intros H Hr. bool_to_prop.
  match goal with H : (_ <=? _)%nat = true |- _ => apply Nat.leb_le in H end.
  unfold parse_number, reread. rewrite number_chars_stop by (done || lia).
  destruct (strtod _) as [[d' n]|]; [|done].
  match goal with H : (_ =? _)%nat = true |- _ => apply Nat.eqb_eq in H as -> end.
  by rewrite drop_app_length.
Qed.

Lemma is_digit_number c : is_digit c = true → is_number_char c = true.
Proof. unfold is_number_char. by intros ->. Qed.

(** Integers of magnitude below 2^53 are read back exactly. *)
Lemma number_text_small z :
  small_int z → number_text (cJSON_CreateNumber (D_of_Z z)) = dec_Z z.
Proof.
  intros Hz. unfold number_text. cbn. rewrite saturate_int_of_Z by done.
  destruct (D_of_Z_finite z Hz) as [-> ->]. rewrite Deqb_of_Z by done. by rewrite Z.eqb_refl.
Qed.

Lemma dec_Z_chars z :
  forallb is_number_char (dec_Z z) = true ∧
  match dec_Z z with c :: _ => starts_number c | [] => false end = true.
Proof.
  assert (Hu : ∀ n, 0 ≤ n → forallb is_number_char (dec_U n) = true ∧
    match dec_U n with c :: _ => starts_number c | [] => false end = true).
  { intros n Hn. destruct (dec_U_spec n Hn) as (Hd & Hne & _). split.
    - apply forallb_forall. intros c Hc. rewrite Forall_forall in Hd.
      apply is_digit_number, Hd. by apply list_elem_of_In.
    - destruct (dec_U n) as [|c l]; [done|]. apply Forall_cons in Hd as [Hc _].
      unfold starts_number. rewrite Hc. apply orb_true_r. }
  unfold dec_Z. case_match; bool_to_prop; [|by apply Hu].
  destruct (Hu (- z)) as [H1 H2]; [lia|]. split; [|done].
  rewrite forallb_app. by rewrite H1.
Qed.

Lemma num_ok_small z : small_int z → num_ok (D_of_Z z) = true.
Proof.
  intros Hz. unfold num_ok. rewrite number_text_small by done.
  destruct (dec_Z_chars z) as [-> ->].
  pose proof (strtod_dec_Z z [] Hz I) as Hs. rewrite app_nil_r in Hs. rewrite Hs.
  rewrite Nat.eqb_refl.
  assert (length (dec_Z z) ≤ 1 + Nat.max 1 16)%nat.
  { apply dec_Z_length. unfold small_int in *. lia. }
  destruct (Nat.leb_spec (length (dec_Z z)) 25); [done|lia].
Qed.

Lemma reread_small z : small_int z → reread (D_of_Z z) = D_of_Z z.
Proof.
  intros Hz. unfold reread. rewrite number_text_small by done.
  pose proof (strtod_dec_Z z [] Hz I) as Hs. rewrite app_nil_r in Hs. by rewrite Hs.
Qed.

(** ** Values *)

Definition white (w : bytes) : Prop := Forall (fun c => u8 c <= 32) w.
Definition starts_black (s : bytes) : Prop := 
  match s with c :: _ => 32 < u8 c < 128 ∧ c ≠ "]"%char | [] => False end.

Lemma skip_white w s : white w → starts_black s → buffer_skip_whitespace (w ++ s) = s.
Proof.
  intros Hw Hs. assert (skip_spaces (w ++ s) = s) as E.
  { induction Hw as [|c w Hc Hw IH]; cbn.
    - destruct s as [|c s]; [done|]. destruct Hs as [[Hs _] _]. cbn. by ztest.
    - ztest. done. }
  unfold buffer_skip_whitespace. destruct (w ++ s) as [|c l] eqn:Ews.
  - by destruct w, s.
  - rewrite E. by destruct s.
Qed.

Lemma skip_black s : starts_black s → buffer_skip_whitespace s = s.
Proof. intros. apply (skip_white []); [constructor|done]. Qed.

Lemma white_tabs n : white (tabs n).
Proof. unfold tabs. apply Forall_replicate. by vm_compute. Qed.

Lemma literal_mismatch s t v c l x s' :
  B s = x :: s' → c ≠ x → literal s t v (c :: l) = None.
Proof.
  intros Hs Hc. unfold literal. destruct s as [|y s]; [done|]. cbn.
  rewrite bool_decide_false; [done|]. rewrite Hs. congruence.
Qed.

Lemma starts_number_black c : starts_number c = true →
  32 < u8 c < 128 ∧ c ≠ "]"%char ∧ c ≠ "["%char ∧ c ≠ "{"%char ∧ c ≠ "n"%char ∧ c ≠ "f"%char ∧ c ≠ "t"%char ∧ c ≠ chr 34.
Proof.
  revert c. all_bytes (fun c => negb (starts_number c) ||
    ((32 <? u8 c) && (u8 c <? 128) && bool_decide (c ∉ [ "]"; "["; "{"; "n"; "f"; "t"; chr 34]%char))).
  intros c H Hc. rewrite Hc in H. cbn in H. bool_to_prop.
  match goal with H : bool_decide _ = true |- _ => apply bool_decide_eq_true in H as Hn end.
  rewrite !not_elem_of_cons in Hn. naive_solver.
Qed.

(** What the theorem says of one item at a depth, for the text that follows. *)
Definition reads_back (format : bool) (d : Z) (item : cJSON) : Prop :=
  ∀ s, json_wf d item = true → render format d item = Some s →
  starts_black s ∧ no_nul s ∧
  ∀ fuel r, (2 * length s < fuel)%nat → stops_number r →
    parse_value fuel d (s ++ r) = Ok (parsed item, r).

Lemma string_reads_back v : no_nul v →
  no_nul (render_string (Some v)).
Proof.
  intros Hv. unfold render_string, quoted. cbn [default from_option id].
  apply no_nul_cons. split; [done|]. apply no_nul_app. split; [|compute_done].
  induction v as [|c v IH]; [apply not_elem_of_nil|]. apply no_nul_cons in Hv as [Hc Hv].
  cbn. apply no_nul_app. split; [|by apply IH].
  revert c Hc. all_bytes (fun c => bool_decide (c = NUL) || bool_decide (no_nul (escape_char c))).
  intros c [H|H]%orb_true_iff Hc; [by apply bool_decide_eq_true in H|by apply bool_decide_eq_true in H].
Qed.

Lemma string_black v : starts_black (render_string v).
Proof. by destruct v. Qed.

Lemma string_head v : ∃ l, render_string v = chr 34 :: l.
Proof. by eexists. Qed.

#[local] Opaque render_string.

Lemma starts_black_app s r : starts_black s → starts_black (s ++ r).
Proof. by destruct s. Qed.

Lemma stops_white w c r : white w → is_number_char c = false → stops_number (w ++ c :: r).
Proof.
  intros Hw Hc x. destruct w as [|y w]; cbn; [by intros [= <-]|]. intros [= <-].
  apply Forall_cons in Hw as [Hy _]. revert y Hy.
  all_bytes (fun y => negb (u8 y <=? 32) || negb (is_number_char y)).
  intros y H Hy. apply Z.leb_le in Hy. rewrite Hy in H. by apply negb_true_iff in H.
Qed.

Lemma stops_at c r : is_number_char c = false → stops_number (c :: r).
Proof. intros. apply (stops_white []); [constructor|done]. Qed.

Section ContainersBack.
Context (f : bool) (d : Z).

Lemma elements_shape l s :
  Forall (reads_back f d) l → forallb (json_wf d) l = true →
  render_elements (render f d) f l = Some s →
  no_nul s ∧ (l ≠ [] → starts_black s).
Proof.
  intros Hl. revert s. induction Hl as [|e l He Hl IH]; intros s Hw Hs; cbn in Hs.
  { injection Hs as <-. split; [apply not_elem_of_nil|done]. }
  apply andb_true_iff in Hw as [Hwe Hw].
  apply bind_Some in Hs as (se & Hse & Hs). apply bind_Some in Hs as (sn & Hsn & [= <-]).
  destruct (He se Hwe Hse) as (Hb & Hn & _). destruct (IH sn Hw Hsn) as [Hn' _].
  split; [|intros _; by apply starts_black_app].
  apply no_nul_app. split; [done|]. apply no_nul_app. split; [|done].
  destruct l, f; compute_done.
Qed.

Lemma parse_elements_back l s w r fuel :
  Forall (reads_back f d) l → l ≠ [] → forallb (json_wf d) l = true →
  render_elements (render f d) f l = Some s → white w →
  (2 * length s + 1 < fuel)%nat →
  parse_elements fuel d (w ++ s ++ "]"%char :: r) = Ok (map parsed l, r).
Proof.
  intros Hl. revert s w fuel. induction Hl as [|e l He Hl IH]; intros s w fuel Hne Hw Hs Hwh Hf;
    [done|]. destruct fuel as [|fuel]; [lia|].
  pose proof (elements_shape (e :: l) s (List.Forall_cons _ _ _ He Hl) Hw Hs) as [_ Hb].
  cbn in Hs. apply andb_true_iff in Hw as [Hwe Hw].
  apply bind_Some in Hs as (se & Hse & Hs). apply bind_Some in Hs as (sn & Hsn & [= <-]).
  destruct (He se Hwe Hse) as (Hbe & _ & Hrd). rewrite !length_app in Hf.
  cbn [parse_elements]. rewrite skip_white by (done || by apply starts_black_app, Hb).
  rewrite <- !app_assoc. destruct l as [|e' l'].
  - injection Hsn as <-. cbn [app]. rewrite Hrd by (lia || by apply stops_at).
    cbn. done.
  - set (sep := if f then B ", " else B ",").
    assert (∃ w', sep = ","%char :: w' ∧ white w') as (w' & Hsep & Hw').
    { unfold sep. destruct f; eexists; (split; [reflexivity|]); compute_done. }
    change (B ",") with [","%char] in *. cbn [length] in Hf.
    assert (1 ≤ length sep)%nat by (rewrite Hsep; cbn; lia). fold sep in Hf.
    rewrite Hsep. cbn [app]. rewrite Hrd by (lia || by apply stops_at).
    rewrite Ok_bind. change (","%char :: w' ++ sn ++ "]"%char :: r) with ([] ++ (","%char :: w' ++ sn ++ "]"%char :: r)).
    rewrite skip_white by (done || by constructor). rewrite decide_True by done.
    rewrite IH by (done || lia). done.
Qed.

Lemma members_no_nul l s k :
  Forall (reads_back f d) l → forallb (json_wf d) l = true → forallb key_ok l = true →
  render_members (render f d) f k l = Some s → no_nul s.
Proof.
  intros Hl. revert s. induction Hl as [|e l He Hl IH]; intros s Hw Hk Hs; cbn in Hs.
  { injection Hs as <-. apply not_elem_of_nil. }
  apply andb_true_iff in Hw as [Hwe Hw], Hk as [Hke Hk].
  apply bind_Some in Hs as (se & Hse & Hs). apply bind_Some in Hs as (sn & Hsn & [= <-]).
  destruct (He se Hwe Hse) as (_ & Hn & _). apply bool_decide_eq_true in Hke.
  change (render_string (string_ e)) with (render_string (Some (default [] (string_ e)))).
  repeat (apply no_nul_app; split); [|by apply string_reads_back| |done| | |by apply IH].
  - destruct f; [|by apply not_elem_of_nil]. unfold no_nul, tabs. rewrite elem_of_replicate. by intros [].
  - destruct f; compute_done.
  - destruct l; compute_done.
  - destruct f; compute_done.
Qed.

(** The loop of [parse_object] on the text of members; [e] is the white space
    the formatted form puts before the closing brace. *)
Lemma parse_members_back l s w t r fuel k :
  Forall (reads_back f d) l → l ≠ [] → forallb (json_wf d) l = true → forallb key_ok l = true →
  render_members (render f d) f k l = Some s → white w → white t →
  (2 * length s + 1 < fuel)%nat →
  parse_members fuel d (w ++ s ++ t ++ "}"%char :: r)
  = Ok (map (fun e => with_key e (parsed e)) l, r).
Proof.
  intros Hl. revert s w fuel.
  induction Hl as [|e l He Hl IH]; intros s w fuel Hne Hw Hk Hs Hwh Hwt Hf; [done|].
  destruct fuel as [|fuel]; [lia|]. cbn in Hs.
  apply andb_true_iff in Hw as [Hwe Hw], Hk as [Hke Hk].
  apply bind_Some in Hs as (se & Hse & Hs). apply bind_Some in Hs as (sn & Hsn & [= <-]).
  destruct (He se Hwe Hse) as (Hbe & _ & Hrd). apply bool_decide_eq_true in Hke.
  change (render_string (string_ e)) with (render_string (Some (default [] (string_ e)))) in *.
  rewrite !length_app in Hf.
  set (indent := if f then tabs k else []) in *.
  set (colon := if f then ":"%char :: tabs 1 else B ":") in *.
  set (nl := if f then [chr 10] else []) in *.
  assert (white indent) as Hwi by (unfold indent; destruct f; [apply white_tabs|constructor]).
  assert (white nl) as Hwnl by (unfold nl; destruct f; compute_done).
  assert (∃ w', colon = ":"%char :: w' ∧ white w') as (w' & Hcolon & Hw').
  { unfold colon. destruct f; eexists; (split; [reflexivity|]); compute_done. }
  cbn [parse_members]. rewrite <- !app_assoc, (app_assoc w).
  rewrite skip_white; [|by apply Forall_app|apply starts_black_app, string_black].
  rewrite parse_string_render by done. rewrite Ok_bind. cbv beta iota.
  rewrite Hcolon. cbn [app]. rewrite skip_black by done. rewrite decide_True by done.
  rewrite skip_white by (done || by apply starts_black_app).
  destruct l as [|e' l'].
  - injection Hsn as <-. cbn [app]. rewrite (app_assoc nl).
    assert (white (nl ++ t)) by (by apply Forall_app).
    rewrite Hrd by (lia || by apply stops_white). rewrite Ok_bind. cbv beta iota.
    by rewrite skip_white.
  - change (B ",") with [","%char] in *. cbn [app length] in *.
    rewrite Hrd by (lia || by apply stops_at). rewrite Ok_bind. cbv beta iota.
    rewrite skip_black, decide_True by done. by rewrite IH by (done || lia).
Qed.
End ContainersBack.

(** [parse_value] on the text of each kind of item. *)

Lemma parse_literal_back fuel d s i r :
  (s = B "null" ∧ i = cJSON_CreateNull) ∨ (s = B "false" ∧ i = cJSON_CreateFalse) ∨
  (s = B "true" ∧ i = cJSON_CreateTrue <| valueint := 1 |>) →
  parse_value (S fuel) d (s ++ r) = Ok (i, r).
Proof.
  unfold B. by intros [[-> ->]|[[-> ->]|[-> ->]]]; cbn; rewrite ?drop_0.
Qed.

(** A text that starts like no literal. *)
Lemma parse_value_other fuel d c l :
  c ≠ "n"%char → c ≠ "f"%char → c ≠ "t"%char →
  parse_value (S fuel) d (c :: l) =
    (if decide (c = chr 34) then '(s, r) ← parse_string (c :: l); Ok (cJSON_CreateString s, r)
     else if starts_number c then parse_number (c :: l)
     else if decide (c = "["%char) then
       if CJSON_NESTING_LIMIT <=? d then Fail
       else match buffer_skip_whitespace l with
            | [] => Fail
            | e :: r => if decide (e = "]"%char) then Ok (cJSON_CreateArray, r)
                        else '(items, r) ← parse_elements fuel (d + 1) l;
                             Ok (cJSON_CreateArray <| child := items |>, r)
            end
     else if decide (c = "{"%char) then
       if CJSON_NESTING_LIMIT <=? d then Fail
       else match buffer_skip_whitespace l with
            | [] => Fail
            | e :: r => if decide (e = "}"%char) then Ok (cJSON_CreateObject, r)
                        else '(items, r) ← parse_members fuel (d + 1) l;
                             Ok (cJSON_CreateObject <| child := items |>, r)
            end
     else Fail).
Proof.
  intros. cbn [parse_value].
  rewrite (literal_mismatch "null" _ _ c l "n"%char (B "ull")) by done.
  rewrite (literal_mismatch "false" _ _ c l "f"%char (B "alse")) by done.
  by rewrite (literal_mismatch "true" _ _ c l "t"%char (B "rue")) by done.
Qed.

Lemma string_value_back d fuel v r :
  no_nul v → parse_value (S fuel) d (render_string (Some v) ++ r) = Ok (cJSON_CreateString v, r).
Proof.
  intros Hv. pose proof (parse_string_render v r Hv) as Hp.
  destruct (string_head (Some v)) as [l Hl].
  rewrite Hl in *. cbn [app] in *. rewrite parse_value_other, decide_True by done.
  by rewrite Hp.
Qed.

Lemma parse_array_back f d l s fuel r :
  Forall (reads_back f (d + 1)) l → forallb (json_wf (d + 1)) l = true → d < CJSON_NESTING_LIMIT →
  render_elements (render f (d + 1)) f l = Some s → (2 * length s + 1 < fuel)%nat →
  parse_value (S fuel) d (("["%char :: s ++ B "]") ++ r)
  = Ok (cJSON_CreateArray <| child := map parsed l |>, r).
Proof.
  intros Hl Hw Hd Hs Hf. cbn [app]. rewrite <- app_assoc. change (B "]" ++ r) with ("]"%char :: r).
  rewrite parse_value_other by done. cbn [starts_number].
  rewrite (decide_False (P := "["%char = chr 34)) by done.
  change (starts_number "[") with false. cbv iota. rewrite decide_True by done. ztest.
  destruct (elements_shape _ _ _ _ Hl Hw Hs) as [_ Hb].
  destruct l as [|e l]; [by injection Hs as <-|]. specialize (Hb ltac:(done)).
  rewrite skip_black by by apply starts_black_app.
  pose proof (parse_elements_back f (d + 1) (e :: l) s [] r fuel Hl ltac:(done) Hw Hs
                (List.Forall_nil _) Hf) as Hp. cbn [app] in Hp. rewrite Hp.
  destruct s as [|c s]; [done|]. destruct Hb as [_ Hb]. cbn [app].
  by rewrite (decide_False _ _ Hb).
Qed.

Lemma parse_object_back f d l s fuel r :
  Forall (reads_back f (d + 1)) l → forallb (json_wf (d + 1)) l = true → forallb key_ok l = true →
  d < CJSON_NESTING_LIMIT →
  render_members (render f (d + 1)) f (d + 1) l = Some s → (2 * length s + 1 < fuel)%nat →
  parse_value (S fuel) d
    (("{"%char :: (if f then [chr 10] else []) ++ s ++ (if f then tabs d else []) ++ B "}") ++ r)
  = Ok (cJSON_CreateObject <| child := map (fun e => with_key e (parsed e)) l |>, r).
Proof.
  intros Hl Hw Hk Hd Hs Hf. cbn [app]. rewrite <- !app_assoc.
  change (B "}" ++ r) with ("}"%char :: r).
  set (nl := if f then [chr 10] else []). set (t := if f then tabs d else []).
  assert (white nl) as Hwnl by (unfold nl; destruct f; compute_done).
  assert (white t) as Hwt by (unfold t; destruct f; [apply white_tabs|constructor]).
  rewrite parse_value_other by done.
  rewrite (decide_False (P := "{"%char = chr 34)) by done.
  change (starts_number "{") with false. cbv iota.
  rewrite (decide_False (P := "{"%char = "["%char)), decide_True by done. ztest.
  destruct l as [|e l].
  - injection Hs as <-. cbn [app]. rewrite app_assoc.
    by rewrite skip_white by (done || by apply Forall_app).
  - rewrite (parse_members_back f (d + 1) (e :: l) s nl t r fuel (d + 1)) by done.
    cbn in Hs. apply bind_Some in Hs as (se & Hse & Hs). apply bind_Some in Hs as (sn & Hsn & [= <-]).
    set (indent := if f then tabs (d + 1) else []).
    assert (white indent) by (unfold indent; destruct f; [apply white_tabs|constructor]).
    rewrite <- !app_assoc, (app_assoc nl).
    rewrite skip_white; [|by apply Forall_app|apply starts_black_app, string_black].
    destruct (string_ e); done.
Qed.

Lemma number_value_back d fuel n r :
  num_ok n = true → stops_number r →
  parse_value (S fuel) d (number_text (cJSON_CreateNumber n) ++ r) = Ok (cJSON_CreateNumber (reread n), r).
Proof.
  intros Hn Hr. pose proof Hn as Hn'. unfold num_ok in Hn'. bool_to_prop.
  rewrite <- (parse_number_text n r) by done. set (t := number_text _) in *.
  destruct t as [|c t]; [done|].
  destruct (starts_number_black c) as (_ & _ & ? & ? & ? & ? & ? & ?); [done|].
  cbn [app]. rewrite parse_value_other by done. rewrite decide_False by done.
  match goal with H : starts_number c = true |- _ => by rewrite H end.
Qed.

Lemma number_shape n :
  num_ok n = true →
  starts_black (number_text (cJSON_CreateNumber n)) ∧ no_nul (number_text (cJSON_CreateNumber n)).
Proof.
  intros Hn. unfold num_ok in Hn. bool_to_prop. set (t := number_text _) in *. split.
  - destruct t as [|c t]; [done|]. destruct (starts_number_black c) as (? & ? & _); done.
  - intros Hin%list_elem_of_In.
    match goal with H : forallb _ _ = true |- _ => rewrite forallb_forall in H; by apply H in Hin end.
Qed.

Lemma value_reads_back f item : ∀ d, reads_back f d item.
Proof.
  induction item as [t vs vi vd k children IH] using cJSON_rect'. intros d s Hw Hs.
  cbn in Hw, Hs. cbn [parsed]. set (ty := Z.land t 255) in *.
  assert (Hc : Forall (reads_back f (d + 1)) children) by (eapply Forall_impl; [exact IH|auto]).
  destruct (ty =? cJSON_NULL) eqn:?; cbn in Hw.
  { injection Hs as <-. split_and!; [by vm_compute|compute_done|].
    intros [|fuel] r Hf _; [lia|]. apply parse_literal_back. auto. }
  destruct (ty =? cJSON_False) eqn:?; cbn in Hw.
  { injection Hs as <-. split_and!; [by vm_compute|compute_done|].
    intros [|fuel] r Hf _; [lia|]. apply parse_literal_back. auto. }
  destruct (ty =? cJSON_True) eqn:?; cbn in Hw.
  { injection Hs as <-. split_and!; [by vm_compute|compute_done|].
    intros [|fuel] r Hf _; [lia|]. apply parse_literal_back. auto. }
  destruct (ty =? cJSON_Number) eqn:?; cbn in Hw.
  { apply andb_true_iff in Hw as [->%Z.eqb_eq Hn].
    change (number_text _) with (number_text (cJSON_CreateNumber vd)) in Hs.
    case_match; [done|]. injection Hs as <-.
    destruct (number_shape _ Hn). split_and!; [done..|].
    intros [|fuel] r Hf Hr; [lia|]. by apply number_value_back. }
  destruct (ty =? cJSON_String) eqn:Est; cbn in Hw.
  { rewrite (proj2 (Z.eqb_neq ty cJSON_Raw)) in Hs by (apply Z.eqb_eq in Est; rewrite Est; done).
    injection Hs as <-. apply bool_decide_eq_true in Hw.
    change (render_string vs) with (render_string (Some (default [] vs))).
    split_and!; [apply string_black|by apply string_reads_back|].
    intros [|fuel] r Hf Hr; [lia|]. by apply string_value_back. }
  rewrite (proj2 (Z.eqb_neq ty cJSON_Raw)) in Hs by (intros E; rewrite E in *; done).
  destruct (ty =? cJSON_Array) eqn:?; cbn in Hw.
  { apply andb_true_iff in Hw as [Hd Hw]. apply bind_Some in Hs as (se & Hse & [= <-]).
    destruct (elements_shape _ _ _ _ Hc Hw Hse) as [Hn _].
    split_and!; [done| |].
    - apply no_nul_cons. split; [done|]. apply no_nul_app. split; [done|compute_done].
    - intros [|fuel] r Hf Hr; [lia|]. cbn in Hf. rewrite length_app in Hf.
      apply (parse_array_back f); (done || lia). }
  destruct (ty =? cJSON_Object) eqn:?; [|done].
  apply andb_true_iff in Hw as [Hw Hk]. apply andb_true_iff in Hw as [Hd Hw].
  apply bind_Some in Hs as (se & Hse & [= <-]).
  pose proof (members_no_nul _ _ _ _ _ Hc Hw Hk Hse) as Hn.
  split_and!; [done| |].
  - apply no_nul_cons. split; [done|]. repeat (apply no_nul_app; split); [|done| |compute_done].
    + destruct f; compute_done.
    + destruct f; [|by apply not_elem_of_nil]. unfold no_nul, tabs. rewrite elem_of_replicate. by intros [].
  - intros [|fuel] r Hf Hr; [lia|]. cbn in Hf. rewrite !length_app in Hf.
    apply (parse_object_back f); (done || lia).
Qed.

(** ** The round trip *)

(** Every well-formed item has a text. *)
Lemma elements_wf f d l :
  Forall (fun e => json_wf d e = true → is_Some (render f d e)) l → forallb (json_wf d) l = true →
  is_Some (render_elements (render f d) f l).
Proof.
  intros Hl. induction Hl as [|e l He Hl IH]; intros Hw; [by eexists|].
  cbn in Hw. apply andb_true_iff in Hw as [Hwe Hw].
  destruct (He Hwe) as [se Hse], (IH Hw) as [sn Hsn]. cbn. rewrite Hse. cbn. rewrite Hsn. by eexists.
Qed.

Lemma members_wf f d k l :
  Forall (fun e => json_wf d e = true → is_Some (render f d e)) l → forallb (json_wf d) l = true →
  is_Some (render_members (render f d) f k l).
Proof.
  intros Hl. induction Hl as [|e l He Hl IH]; intros Hw; [by eexists|].
  cbn in Hw. apply andb_true_iff in Hw as [Hwe Hw].
  destruct (He Hwe) as [se Hse], (IH Hw) as [sn Hsn]. cbn. rewrite Hse. cbn. rewrite Hsn. by eexists.
Qed.

Lemma render_wf f item : ∀ d, json_wf d item = true → is_Some (render f d item).
Proof.
  induction item as [t vs vi vd k children IH] using cJSON_rect'. intros d Hw.
  cbn in Hw |- *. set (ty := Z.land t 255) in *.
  assert (Hc : Forall (fun e => json_wf (d + 1) e = true → is_Some (render f (d + 1) e)) children)
    by (eapply Forall_impl; [exact IH|auto]).
  destruct (ty =? cJSON_NULL) eqn:?; [by eexists|].
  destruct (ty =? cJSON_False) eqn:?; [by eexists|].
  destruct (ty =? cJSON_True) eqn:?; [by eexists|]. cbn in Hw.
  destruct (ty =? cJSON_Number) eqn:?.
  { apply andb_true_iff in Hw as [->%Z.eqb_eq Hn].
    change (number_text _) with (number_text (cJSON_CreateNumber vd)).
    unfold num_ok in Hn. bool_to_prop.
    match goal with H : (_ <=? _)%nat = true |- _ => apply Nat.leb_le in H end.
    rewrite (proj2 (Z.ltb_ge _ _)) by lia. by eexists. }
  destruct (ty =? cJSON_String) eqn:?.
  { rewrite (proj2 (Z.eqb_neq ty cJSON_Raw)) by (intros E; rewrite E in *; done). by eexists. }
  rewrite (proj2 (Z.eqb_neq ty cJSON_Raw)) by (intros E; rewrite E in *; done).
  destruct (ty =? cJSON_Array) eqn:?.
  { apply andb_true_iff in Hw as [_ Hw].
    destruct (elements_wf _ _ _ Hc Hw) as [s Hs]. cbn. rewrite Hs. by eexists. }
  destruct (ty =? cJSON_Object) eqn:?; [|done].
  apply andb_true_iff in Hw as [Hw _]. apply andb_true_iff in Hw as [_ Hw].
  destruct (members_wf f _ (d + 1) _ Hc Hw) as [s Hs]. cbn. rewrite Hs. by eexists.
Qed.

(** A text within the address space is printed and read back. *)
Lemma print_parse format item s :
  json_wf 0 item = true → render format 0 item = Some s → Z.of_nat (length s) + 8 < 2 ^ 64 →
  print item format = Ok s ∧ cJSON_Parse s = Ok (parsed item).
Proof.
  intros Hw Hs Hl. destruct (value_reads_back format item 0 s Hw Hs) as (Hb & Hn & Hp).
  split; [by rewrite (print_spec item format s), c_str_no_nul|].
  unfold cJSON_Parse, cJSON_ParseWithLength, cJSON_ParseWithLengthOpts.
  rewrite c_str_no_nul by done.
  destruct (s ++ [NUL]) as [|c l] eqn:E; [by destruct s|]. rewrite <- E.
  assert (skip_utf8_bom (s ++ [NUL]) = s ++ [NUL]) as ->.
  { destruct s as [|c' s']; [done|]. destruct Hb as [[_ Hb] _]. unfold skip_utf8_bom.
    rewrite bool_decide_false; [by rewrite andb_false_r|]. cbn. intros [= -> _]. done. }
  rewrite skip_black by by apply starts_black_app.
  rewrite Hp; [done| |by apply stops_at].
  unfold parse_fuel. rewrite length_app. cbn. lia.
Qed.

(** ** Lookups in what was read back *)

Definition is_object (o : cJSON) : bool := is_type cJSON_Object o.
Definition named (e : cJSON) : bool := match string_ e with Some _ => true | None => false end.

Lemma find_element_parsed cs name l :
  forallb named l = true →
  find_element cs name (map (fun e => with_key e (parsed e)) l)
  = (fun e => with_key e (parsed e)) <$> find_element cs name l.
Proof.
  induction l as [|e l IH]; intros Hn; [done|]. apply andb_true_iff in Hn as [He Hn].
  cbn [map find_element].
  assert (passes cs name (with_key e (parsed e)) = passes cs name e) as ->.
  { unfold passes, named in *. cbn. by destruct (string_ e). }
  case_match; [by apply IH|done].
Qed.

(** The member found after a round trip is the member's own round trip. *)
Lemma GetObjectItem_parsed o name :
  is_object o = true → forallb named (child o) = true →
  cJSON_GetObjectItem (parsed o) name
  = (fun e => with_key e (parsed e)) <$> cJSON_GetObjectItem o name.
Proof.
  destruct o as [t vs vi vd k l]. unfold is_object, is_type. cbn. intros ->%Z.eqb_eq Hn. cbn.
  unfold cJSON_GetObjectItem, get_object_item. cbn. rewrite find_element_parsed by done.
  destruct (find_element false name l) as [e|] eqn:E; [|done]. cbn.
  assert (named e = true) as He.
  { rewrite forallb_forall in Hn. apply Hn. clear Hn. revert E.
    induction l as [|x l IH]; cbn; [done|]. case_match; [|by intros [= ->]; left].
    intros. right. auto. }
  unfold named in He. by destruct (string_ e).
Qed.

(** ** Properties *)

(** C10: printing and parsing are inverse: for every well-formed item (depth
    within the parser's limit, strings without NUL, numbers with digits), formatted
    or not, the text printed parses back to the item, each number as the double
    its digits denote, which for integers below 2^53 is the number itself. *)
Theorem json_roundtrip f item :
  json_wf 0 item = true →
  (∀ text, render f 0 item = Some text → Z.of_nat (length text) + 8 < 2 ^ 64) →
  (∃ text, print item f = Ok text ∧ cJSON_Parse text = Ok (parsed item)) ∧
  ∀ z, small_int z → reread (D_of_Z z) = D_of_Z z.
Proof.
  intros Hw Hl. split; [|apply reread_small]. destruct (render_wf f item 0 Hw) as [text Ht]. exists text.
  by apply print_parse; [| |apply Hl].
Qed.

Lemma json_roundtrip_witness :
  let item := cJSON_AddItemToObject (cJSON_AddStringToObject cJSON_CreateObject (B "title") [chr 34; chr 10; chr 7])
                (B "streams") (cJSON_AddItemToArray cJSON_CreateArray (cJSON_CreateNumber (D_of_Z (-12)))) in
  ∃ text, print item true = Ok text ∧ cJSON_Parse text = Ok (parsed item).
Proof.
  intros item. refine (proj1 (json_roundtrip true item _ _)); [vm_compute; reflexivity|].
  intros text Ht. vm_compute in Ht. injection Ht as <-. vm_compute. reflexivity.
Defined.
