(* ===== verification/JsonBuild.v ===== *)
(** * Building and reading flat JSON objects

    Control messages are built by a sequence of conditional
    [cJSON_Add...ToObject] calls and read by [iperf_cJSON_GetObjectItemType].
    [add_members] is such a sequence; the lemmas say what a lookup finds in the
    object built, before and after it was printed and parsed. *)

From S2P Require Import Prelude CInt CDouble CStdio Json JsonPrint JsonParse JsonRoundtrip.

(** A member: the condition of the call, the name, the item added. *)
Definition member : Type := bool * (bytes * cJSON).

Definition add_members (j : cJSON) (l : list member) : cJSON :=
  foldl (fun j (m : member) => let '(c, (name, item)) := m in
           if c then cJSON_AddItemToObject j name item else j) j l.

(** The numbers and strings of the messages. *)
Definition num (z : Z) : cJSON := cJSON_CreateNumber (D_of_Z z).
Definition dbl (d : double) : cJSON := cJSON_CreateNumber d.
Definition str (o : option bytes) : cJSON := cJSON_CreateString (default [] o).

(** ** What was added *)

Definition keyed (name : bytes) (item : cJSON) : cJSON :=
  item <| string_ := Some name |>
       <| type := Z.land (type item) (Z.lnot cJSON_StringIsConst) |>.

Fixpoint added (l : list member) : list cJSON :=
  match l with
  | [] => []
  | (c, (name, item)) :: l' => if c then keyed name item :: added l' else added l'
  end.

(** The first member of a name among those added. *)
Fixpoint find_member (k : bytes) (l : list member) : option cJSON :=
  match l with
  | [] => None
  | (c, (name, item)) :: l' =>
      if case_insensitive_strcmp k name =? 0
      then if c then Some (keyed name item) else find_member k l'
      else find_member k l'
  end.

Lemma add_members_child j l : child (add_members j l) = child j ++ added l.
Proof.
  revert j. induction l as [|[c [name item]] l IH]; intros j; cbn; [by rewrite app_nil_r|].
  unfold add_members in IH. rewrite IH. destruct c; [|done].
  cbn. by rewrite <- app_assoc.
Qed.

Lemma add_members_type j l : type (add_members j l) = type j.
Proof.
  revert j. induction l as [|[c [name item]] l IH]; intros j; cbn; [done|].
  unfold add_members in IH. rewrite IH. by destruct c.
Qed.

Definition object_of (l : list member) : cJSON := add_members cJSON_CreateObject l.

Lemma added_named l : forallb named (added l) = true.
Proof. induction l as [|[[] [name item]] l IH]; cbn; [done|by rewrite IH|done]. Qed.

Lemma find_added k l : find_element false k (added l) = find_member k l.
Proof.
  induction l as [|[c [name item]] l IH]; [done|]. cbn.
  destruct c; cbn; [|by rewrite IH; case_match].
  unfold passes. cbn. destruct (case_insensitive_strcmp k name =? 0); cbn; [done|by rewrite IH].
Qed.

Lemma find_member_named k l e : find_member k l = Some e → string_ e ≠ None.
Proof.
  induction l as [|[c [name item]] l IH]; [done|]. cbn.
  repeat case_match; try done. by intros [= <-].
Qed.

Lemma object_lookup l k : cJSON_GetObjectItem (object_of l) k = find_member k l.
Proof.
  unfold cJSON_GetObjectItem, get_object_item, object_of. rewrite add_members_child.
  change (child cJSON_CreateObject ++ added l) with (added l). rewrite find_added.
  destruct (find_member k l) as [e|] eqn:E; [|done]. cbn.
  apply find_member_named in E. by destruct (string_ e).
Qed.

(** A name that occurs once, at an index: the lookup reduces to its member. *)
Definition names (l : list member) : list bytes := map (fun m => fst (snd m)) l.
Definition same_key (k n : bytes) : bool := case_insensitive_strcmp k n =? 0.

Fixpoint only_at (k : bytes) (ns : list bytes) (i : nat) : bool :=
  match ns, i with
  | n :: ns', O => same_key k n && forallb (fun n => negb (same_key k n)) ns'
  | n :: ns', S i' => negb (same_key k n) && only_at k ns' i'
  | [], _ => false
  end.

Lemma find_member_none k l :
  forallb (fun n => negb (same_key k n)) (names l) = true → find_member k l = None.
Proof.
  induction l as [|[c [name item]] l IH]; [done|]. cbn. unfold same_key at 1.
  intros [Hn Hl]%andb_true_iff. apply negb_true_iff in Hn. rewrite Hn. by apply IH.
Qed.

Lemma find_member_at k l ns i (c : bool) name item :
  names l = ns → only_at k ns i = true → l !! i = Some ((c, (name, item)) : member) →
  find_member k l = (if c then Some (keyed name item) else None).
Proof.
  intros <-. revert i. induction l as [|[c' [name' item']] l IH]; intros i; [done|].
  destruct i as [|i]; cbn; unfold same_key at 1.
  - intros [-> Hl]%andb_true_iff [= -> -> ->]. destruct c; [done|]. by apply find_member_none.
  - intros [Hn Ho]%andb_true_iff Hi. apply negb_true_iff in Hn. rewrite Hn. by apply (IH i).
Qed.

Fixpoint index_of (k : bytes) (ns : list bytes) : nat :=
  match ns with
  | n :: ns' => if same_key k n then 0%nat else S (index_of k ns')
  | [] => 0%nat
  end.

(** Find a member of a list whose names are [ns]; the conditions and the items
    stay symbolic. *)
Ltac find_member_in ns :=
  lazymatch goal with
  | |- find_member ?k ?l = _ =>
      let i := eval vm_compute in (index_of k ns) in
      first [apply (find_member_at k l ns i) | apply (find_member_at k l ns i true)];
      [reflexivity|vm_compute; reflexivity|reflexivity]
  end.

(** The lookup in the object that was sent over. *)
Lemma parsed_lookup l k :
  cJSON_GetObjectItem (parsed (object_of l)) k
  = (fun e => with_key e (parsed e)) <$> find_member k l.
Proof.
  rewrite GetObjectItem_parsed.
  - by rewrite object_lookup.
  - unfold is_object, is_type, object_of. by rewrite add_members_type.
  - unfold object_of. rewrite add_members_child. cbn. apply added_named.
Qed.

(** ** Well-formed messages *)

Definition member_ok (d : Z) (m : member) : bool :=
  let '(c, (name, item)) := m in
  implb c (json_wf d item && bool_decide (no_nul name)).

Lemma keyed_wf d name item : json_wf d (keyed name item) = json_wf d item.
Proof.
  destruct item as [t vs vi vd k ch]. cbn.
  assert (Z.land (Z.land t (Z.lnot cJSON_StringIsConst)) 255 = Z.land t 255) as ->; [|done].
  rewrite <- Z.land_assoc. f_equal.
Qed.

Lemma added_wf d l :
  forallb (member_ok d) l = true →
  forallb (json_wf d) (added l) = true ∧ forallb key_ok (added l) = true.
Proof.
  induction l as [|[c [name item]] l IH]; intros Hl; [done|].
  cbn [forallb] in Hl. apply andb_true_iff in Hl as [Hm Hl]. destruct (IH Hl) as [H1 H2].
  destruct c; cbn [added]; [|done]. cbn in Hm. apply andb_true_iff in Hm as [Hi Hn].
  cbn [forallb]. rewrite keyed_wf, Hi, H1, H2. split; [done|]. unfold key_ok. cbn.
  by rewrite Hn.
Qed.

Lemma object_wf d l :
  d < CJSON_NESTING_LIMIT → forallb (member_ok (d + 1)) l = true → json_wf d (object_of l) = true.
Proof.
  intros Hd Hl. destruct (added_wf _ _ Hl) as [H1 H2].
  pose proof (add_members_type cJSON_CreateObject l) as Ht.
  pose proof (add_members_child cJSON_CreateObject l) as Hc.
  fold (object_of l) in Ht, Hc. destruct (object_of l) as [t vs vi vd k ch].
  cbn in Ht, Hc. subst. cbn. rewrite H1, H2. by ztest.
Qed.

Lemma num_wf d z : small_int z → json_wf d (num z) = true.
Proof.
  intros Hz.
  change (json_wf d (num z))
    with ((saturate_int (D_of_Z z) =? saturate_int (D_of_Z z)) && num_ok (D_of_Z z)).
  by rewrite Z.eqb_refl, num_ok_small.
Qed.

Lemma str_wf d o : no_nul (default [] o) → json_wf d (str o) = true.
Proof. intros Hn. cbn. by apply bool_decide_eq_true. Qed.

(** ** Typed lookups of sent members *)

Lemma type_lookup l k c i ty :
  find_member k l = (if c : bool then Some i else None) →
  iperf_cJSON_GetObjectItemType (parsed (object_of l)) k ty
  = if c then
      let r := with_key i (parsed i) in
      if (if ty =? cJSON_True then cJSON_IsBool r
          else if ty =? cJSON_String then cJSON_IsString r
          else if ty =? cJSON_Number then cJSON_IsNumber r
          else if ty =? cJSON_Array then cJSON_IsArray r else false)
      then Some r else None
    else None.
Proof.
  intros H. unfold iperf_cJSON_GetObjectItemType. rewrite parsed_lookup, H. destruct c; [|done].
  cbn [fmap option_fmap option_map mbind option_bind]. repeat case_match; done.
Qed.

Lemma num_lookup l k c name z :
  find_member k l = (if c : bool then Some (keyed name (num z)) else None) → small_int z →
  (fun j => valueint j) <$> iperf_cJSON_GetObjectItemType (parsed (object_of l)) k cJSON_Number
  = if c then Some z else None.
Proof.
  intros H Hz. rewrite (type_lookup _ _ _ _ _ H). destruct c; [|done].
  change (Some (saturate_int (reread (D_of_Z z))) = Some z).
  by rewrite reread_small, saturate_int_of_Z.
Qed.

Lemma dbl_lookup l k c name d :
  find_member k l = (if c : bool then Some (keyed name (dbl d)) else None) →
  (fun j => valuedouble j) <$> iperf_cJSON_GetObjectItemType (parsed (object_of l)) k cJSON_Number
  = if c then Some (reread d) else None.
Proof. intros H. rewrite (type_lookup _ _ _ _ _ H). by destruct c. Qed.

Lemma true_lookup l k c name :
  find_member k l = (if c : bool then Some (keyed name cJSON_CreateTrue) else None) →
  is_Some (iperf_cJSON_GetObjectItemType (parsed (object_of l)) k cJSON_True) ↔ c = true.
Proof.
  intros H. rewrite (type_lookup _ _ _ _ _ H). destruct c; split; intros Hc; (done || by eexists || by destruct Hc).
Qed.

Lemma str_lookup l k c name o :
  find_member k l = (if c : bool then Some (keyed name (str o)) else None) →
  (fun j => valuestring j) <$> iperf_cJSON_GetObjectItemType (parsed (object_of l)) k cJSON_String
  = if c then Some (Some (default [] o)) else None.
Proof. intros H. rewrite (type_lookup _ _ _ _ _ H). by destruct c. Qed.
