(* ===== verification/Net.v ===== *)
(** * Socket transfers ([src/net.c])

    [Nrecv], [Nrecv_no_select], [Nwrite] and [Nsendfile] over the answers the
    kernel gives: an [os] holds, for each system call, the answers still to
    come.  The theorems hold for every such script.  A script that has run out
    stands for a connection that is gone: reads return 0, writes fail, [select]
    times out; the clock stands still. *)

From S2P Require Import Prelude CInt IperfTime.

Definition EINTR : Z := 4.
Definition EAGAIN : Z := 11.
Definition EWOULDBLOCK : Z := EAGAIN.
Definition ENOMEM : Z := 12.
Definition EPIPE : Z := 32.
Definition ENOBUFS : Z := 105.

Definition NET_SOFTERROR : Z := -1.
Definition NET_HARDERROR : Z := -2.

Definition nread_read_timeout : Z := 10.
Definition nread_overall_timeout : Z := 30.

Definition MSG_TRUNC : Z := 32.

(** ** The kernel side *)

Inductive read_answer :=
| Data (l : bytes)
| Eof
| Read_error (errno : Z).

Inductive write_answer :=
| Accept (k : nat)
| Write_error (errno : Z).

Record os := mk_os {
  dgram : bool;
  reads : list read_answer;
  writes : list write_answer;
  selects : list Z;
  clock : list iperf_time;
  sent : bytes
}.
#[export] Instance eta_os : Settable os := fun w =>
  mk_os (dgram w) (reads w) (writes w) (selects w) (clock w) (sent w).

(** What a call returned, with the data it left in the buffer. *)
Inductive read_result :=
| Rd (r : Z) (data : bytes)
| Rd_error (errno : Z).

(** [recv(fd, buf, n, flags)], and [read] when [flags] is 0.  A stream socket
    keeps the bytes that were not asked for, a datagram socket drops them; with
    [MSG_TRUNC] a datagram reports its full length and a stream discards the
    bytes instead of copying them. *)
Definition os_recv (w : os) (n : nat) (flags : Z) : read_result * os :=
  let trunc := negb (Z.land flags MSG_TRUNC =? 0) in
  match reads w with
  | [] => (Rd 0 [], w)
  | Eof :: rest => (Rd 0 [], w <| reads := rest |>)
  | Read_error e :: rest => (Rd_error e, w <| reads := rest |>)
  | Data l :: rest =>
      if dgram w then
        (Rd (if trunc then Z.of_nat (length l) else Z.of_nat (length (take n l))) (take n l),
         w <| reads := rest |>)
      else
        (Rd (Z.of_nat (length (take n l))) (if trunc then [] else take n l),
         w <| reads := match drop n l with [] => rest | l' => Data l' :: rest end |>)
  end.

Definition os_write (w : os) (buf : bytes) : sum nat Z * os :=
  match writes w with
  | [] => (inr EPIPE, w)
  | Write_error e :: rest => (inr e, w <| writes := rest |>)
  | Accept k :: rest =>
      (inl (length (take k buf)), w <| writes := rest |> <| sent := sent w ++ take k buf |>)
  end.

Definition os_select (w : os) : Z * os :=
  match selects w with [] => (0, w) | r :: rest => (r, w <| selects := rest |>) end.

(** [iperf_time_now] *)
Definition os_now (w : os) : iperf_time * os :=
  match clock w with
  | [] => (mk_time 0 0, w)
  | [t] => (t, w)
  | t :: rest => (t, w <| clock := rest |>)
  end.

Definition transient (errno : Z) : bool :=
  (errno =? EINTR) || (errno =? EAGAIN) || (errno =? EWOULDBLOCK).

(** ** Reading *)

(** What a reading loop returns: the value, and the bytes it put in the buffer. *)
Record received := mk_received { ret : Z; filled : bytes }.

(** The bytes the loop counts for a result [r] of one call. *)
Definition counted (sock_opt r : Z) (nleft : nat) : nat :=
  if negb (Z.land sock_opt MSG_TRUNC =? 0)
  then Nat.min (Z.to_nat r) nleft
  else Z.to_nat r.

(** The wait after a partial read: the deadline and, if the loop goes on, the
    world after [select]. *)
Inductive waited := Go_on (ftimeout : iperf_time) | Stop | Broken.

Definition wait_more (ftimeout : iperf_time) (w : os) : waited * os :=
  let '(now, w) := os_now w in
  let ftimeout :=
    if secs ftimeout =? 0 then iperf_time_add_usecs now (nread_overall_timeout * 1000000)
    else ftimeout in
  if iperf_time_compare ftimeout now <? 0 then (Stop, w)
  else
    let '(r, w) := os_select w in
    if r <? 0 then (Broken, w) else if r =? 0 then (Stop, w) else (Go_on ftimeout, w).

Fixpoint Nrecv_loop (fuel : nat) (count nleft : nat) (sock_opt : Z) (ftimeout : iperf_time)
    (got : bytes) (w : os) : outcome (received * os) :=
  let done_ w := Ok (mk_received (i32 (Z.of_nat (count - nleft))) got, w) in
  match nleft, fuel with
  | O, _ => done_ w
  | _, O => NoFuel
  | _, S fuel' =>
      let '(res, w) := os_recv w nleft sock_opt in
      match res with
      | Rd_error errno =>
          if transient errno then done_ w else Ok (mk_received NET_HARDERROR got, w)
      | Rd r data =>
          if r =? 0 then done_ w
          else
            let got := got ++ data in
            match (nleft - counted sock_opt r nleft)%nat with
            | O => Ok (mk_received (i32 (Z.of_nat count)) got, w)
            | nleft' =>
                match wait_more ftimeout w with
                | (Broken, w) => Ok (mk_received NET_HARDERROR got, w)
                | (Stop, w) => Ok (mk_received (i32 (Z.of_nat (count - nleft'))) got, w)
                | (Go_on ftimeout, w) => Nrecv_loop fuel' count nleft' sock_opt ftimeout got w
                end
            end
      end
  end.

Definition Nrecv (w : os) (count : nat) (sock_opt : Z) : outcome (received * os) :=
  let '(r, w) := os_select w in
  if r <? 0 then Ok (mk_received NET_HARDERROR [], w)
  else if r =? 0 then Ok (mk_received 0 [], w)
  else Nrecv_loop count count count sock_opt (mk_time 0 0) [] w.

Definition Nread (w : os) (count : nat) : outcome (received * os) := Nrecv w count 0.

Fixpoint Nrecv_no_select_loop (fuel : nat) (count nleft : nat) (sock_opt : Z)
    (got : bytes) (w : os) : outcome (received * os) :=
  let done_ w := Ok (mk_received (i32 (Z.of_nat (count - nleft))) got, w) in
  match nleft, fuel with
  | O, _ => done_ w
  | _, O => NoFuel
  | _, S fuel' =>
      let '(res, w) := os_recv w nleft sock_opt in
      match res with
      | Rd_error errno =>
          if transient errno then done_ w else Ok (mk_received NET_HARDERROR got, w)
      | Rd r data =>
          if r =? 0 then done_ w
          else Nrecv_no_select_loop fuel' count (nleft - counted sock_opt r nleft) sock_opt
                 (got ++ data) w
      end
  end.

Definition Nrecv_no_select (w : os) (count : nat) (sock_opt : Z) : outcome (received * os) :=
  Nrecv_no_select_loop count count count sock_opt [] w.

Definition Nread_no_select (w : os) (count : nat) : outcome (received * os) :=
  Nrecv_no_select w count 0.

(** ** Writing *)

Fixpoint Nwrite_loop (fuel : nat) (count : nat) (buf : bytes) (w : os) : outcome (Z * os) :=
  match buf, fuel with
  | [], _ => Ok (i32 (Z.of_nat count), w)
  | _, O => NoFuel
  | _, S fuel' =>
      let nleft := length buf in
      let '(res, w) := os_write w buf in
      match res with
      | inr errno =>
          if transient errno then
            if decide (count = nleft) then Ok (NET_SOFTERROR, w)
            else Ok (i32 (Z.of_nat (count - nleft)), w)
          else if errno =? ENOBUFS then Ok (NET_SOFTERROR, w)
          else Ok (NET_HARDERROR, w)
      | inl r =>
          if decide (r = 0%nat) then Ok (NET_SOFTERROR, w)
          else Nwrite_loop fuel' count (drop r buf) w
      end
  end.

Definition Nwrite (w : os) (buf : bytes) : outcome (Z * os) :=
  Nwrite_loop (length buf) (length buf) buf w.

(** [Nsendfile] on Linux: [file] is the content of the open file, and each call
    passes the offset explicitly. *)
Definition os_sendfile (w : os) (file : bytes) (offset nleft : nat) : sum nat Z * os :=
  os_write w (take nleft (drop offset file)).

Fixpoint Nsendfile_loop (fuel : nat) (file : bytes) (count nleft : nat) (w : os)
  : outcome (Z * os) :=
  match nleft, fuel with
  | O, _ => Ok (i32 (Z.of_nat count), w)
  | _, O => NoFuel
  | _, S fuel' =>
      let '(res, w) := os_sendfile w file (count - nleft) nleft in
      match res with
      | inr errno =>
          if transient errno then
            if decide (count = nleft) then Ok (NET_SOFTERROR, w)
            else Ok (i32 (Z.of_nat (count - nleft)), w)
          else if (errno =? ENOBUFS) || (errno =? ENOMEM) then Ok (NET_SOFTERROR, w)
          else Ok (NET_HARDERROR, w)
      | inl r =>
          if decide (r = 0%nat) then Ok (NET_SOFTERROR, w)
          else Nsendfile_loop fuel' file count (nleft - r) w
      end
  end.

Definition Nsendfile (w : os) (file : bytes) (count : nat) : outcome (Z * os) :=
  Nsendfile_loop count file count count w.

(** ** What the reading loops do *)

(** All the data of the answers to come. *)
Fixpoint flat (l : list read_answer) : bytes :=
  match l with
  | [] => []
  | Data d :: l' => d ++ flat l'
  | _ :: l' => flat l'
  end.

Lemma os_recv_stream w n res w' :
  dgram w = false → os_recv w n 0 = (res, w') →
  dgram w' = false ∧ selects w' = selects w ∧ clock w' = clock w ∧
  match res with
  | Rd r d => r = Z.of_nat (length d) ∧ (length d ≤ n)%nat ∧ flat (reads w) = d ++ flat (reads w')
  | Rd_error _ => flat (reads w) = flat (reads w')
  end.
Proof.
  unfold os_recv. intros Hd. rewrite Hd. change (Z.land 0 MSG_TRUNC) with 0. cbn.
  destruct (reads w) as [|[l| |e] rest] eqn:E; cbn; intros [= <- <-]; cbn; rewrite ?E;
    split_and!; try done; try (rewrite ?length_take; lia).
  rewrite <- (take_drop n l) at 1. rewrite <- app_assoc. f_equal.
  by destruct (drop n l) eqn:E'.
Qed.

Lemma wait_more_same ft w x w' :
  wait_more ft w = (x, w') → dgram w' = dgram w ∧ reads w' = reads w.
Proof.
  unfold wait_more, os_now, os_select.
  destruct (clock w) as [|t [|t' c]]; repeat case_match; intros [= <- <-]; simplify_eq; done.
Qed.

(** What a reading routine promises about a stream: it returns; no byte is lost,
    repeated or reordered; the value is the number of bytes placed in the
    buffer, unless the call failed hard. *)
Definition reads_stream (w : os) (count : nat) (m : outcome (received * os)) : Prop :=
  ∃ res w', m = Ok (res, w') ∧ dgram w' = false ∧
    flat (reads w) = filled res ++ flat (reads w') ∧
    (length (filled res) ≤ count)%nat ∧
    (ret res = NET_HARDERROR ∨ ret res = Z.of_nat (length (filled res))).

Lemma reads_stream_ok w count got w' r :
  dgram w' = false → flat (reads w) = got ++ flat (reads w') → (length got ≤ count)%nat →
  r = NET_HARDERROR ∨ r = Z.of_nat (length got) →
  reads_stream w count (Ok (mk_received r got, w')).
Proof. intros. by exists (mk_received r got), w'. Qed.

Section ReadingLoops.
Context (count : nat) (Hcount : Z.of_nat count < 2 ^ 31) (w0 : os).

Lemma ret_count n : (n ≤ count)%nat → i32 (Z.of_nat n) = Z.of_nat n.
Proof. intros. apply wraps_id; [lia|]. unfold in_s. lia. Qed.

Lemma Nrecv_loop_stream fuel nleft ft got w :
  (nleft ≤ fuel)%nat → (nleft ≤ count)%nat → length got = (count - nleft)%nat →
  dgram w = false → flat (reads w0) = got ++ flat (reads w) →
  reads_stream w0 count (Nrecv_loop fuel count nleft 0 ft got w).
Proof.
  revert nleft ft got w. induction fuel as [|fuel IH]; intros [|nleft] ft got w Hf Hc Hg Hd Hfl;
    cbn [Nrecv_loop]; [|lia| |].
  1-2: apply reads_stream_ok; [done..|lia|right; rewrite ret_count; lia].
  destruct (os_recv w (S nleft) 0) as [res w1] eqn:Er.
  destruct (os_recv_stream _ _ _ _ Hd Er) as (Hd1 & _ & _ & Hres).
  destruct res as [r d|e].
  - destruct Hres as (-> & Hl & Hfl1). rewrite Hfl1, app_assoc in Hfl.
    unfold counted. change (Z.land 0 MSG_TRUNC) with 0. cbn [negb Z.eqb].
    rewrite Nat2Z.id. destruct (Z.eqb_spec (Z.of_nat (length d)) 0) as [E|E].
    + destruct d; [|done]. rewrite app_nil_r in Hfl. cbn in Hfl1.
      apply reads_stream_ok; [done..|lia|right; rewrite ret_count; lia].
    + assert (length (got ++ d) = (count - (S nleft - length d))%nat) by (rewrite length_app; lia).
      destruct (S nleft - length d)%nat as [|nleft'] eqn:En.
      { apply reads_stream_ok; [done..|lia|right; rewrite ret_count; lia]. }
      destruct (wait_more ft w1) as [[ft'| |] w2] eqn:Ew;
        apply wait_more_same in Ew as [Hd2 Hr2].
      * apply IH; [lia..| |congruence|by rewrite Hr2]. done.
      * apply reads_stream_ok; [congruence|by rewrite Hr2|lia|right; rewrite ret_count; lia].
      * apply reads_stream_ok; [congruence|by rewrite Hr2|lia|by left].
  - rewrite Hres in Hfl. case_match.
    + apply reads_stream_ok; [done..|lia|right; rewrite ret_count; lia].
    + apply reads_stream_ok; [done..|lia|by left].
Qed.

Lemma Nrecv_no_select_loop_stream fuel nleft got w :
  (nleft ≤ fuel)%nat → (nleft ≤ count)%nat → length got = (count - nleft)%nat →
  dgram w = false → flat (reads w0) = got ++ flat (reads w) →
  reads_stream w0 count (Nrecv_no_select_loop fuel count nleft 0 got w).
Proof.
  revert nleft got w. induction fuel as [|fuel IH]; intros [|nleft] got w Hf Hc Hg Hd Hfl;
    cbn [Nrecv_no_select_loop]; [|lia| |].
  1-2: apply reads_stream_ok; [done..|lia|right; rewrite ret_count; lia].
  destruct (os_recv w (S nleft) 0) as [res w1] eqn:Er.
  destruct (os_recv_stream _ _ _ _ Hd Er) as (Hd1 & _ & _ & Hres).
  destruct res as [r d|e].
  - destruct Hres as (-> & Hl & Hfl1). rewrite Hfl1, app_assoc in Hfl.
    unfold counted. change (Z.land 0 MSG_TRUNC) with 0. cbn [negb Z.eqb].
    rewrite Nat2Z.id. destruct (Z.eqb_spec (Z.of_nat (length d)) 0) as [E|E].
    + destruct d; [|done]. rewrite app_nil_r in Hfl. cbn in Hfl1.
      apply reads_stream_ok; [done..|lia|right; rewrite ret_count; lia].
    + apply IH; [lia..| |done|done]. rewrite length_app. lia.
  - rewrite Hres in Hfl. case_match.
    + apply reads_stream_ok; [done..|lia|right; rewrite ret_count; lia].
    + apply reads_stream_ok; [done..|lia|by left].
Qed.
End ReadingLoops.

Lemma os_select_same w r w' : os_select w = (r, w') → dgram w' = dgram w ∧ reads w' = reads w.
Proof. unfold os_select. case_match; by intros [= <- <-]. Qed.

Lemma Nrecv_reads_stream w count :
  Z.of_nat count < 2 ^ 31 → dgram w = false → reads_stream w count (Nrecv w count 0).
Proof.
  intros Hc Hd. unfold Nrecv. destruct (os_select w) as [r w1] eqn:E.
  apply os_select_same in E as [Hd1 Hr1].
  case_match; [|case_match].
  - apply reads_stream_ok; [congruence|by rewrite Hr1|cbn; lia|by left].
  - apply reads_stream_ok; [congruence|by rewrite Hr1|cbn; lia|by right].
  - apply Nrecv_loop_stream; [lia..|cbn; lia|congruence|by rewrite Hr1].
Qed.

Lemma Nrecv_no_select_reads_stream w count :
  Z.of_nat count < 2 ^ 31 → dgram w = false → reads_stream w count (Nrecv_no_select w count 0).
Proof.
  intros Hc Hd. unfold Nrecv_no_select. apply Nrecv_no_select_loop_stream; [lia..|cbn; lia|done|done].
Qed.

(** ** A prompt peer

    The bytes are on their way in chunks of any size, [select] never times out,
    and the clock stays within the overall timeout: then the whole count
    arrives. *)

Definition is_chunk (a : read_answer) : Prop := match a with Data (_ :: _) => True | _ => False end.

Definition on_time (v : Z) (t : iperf_time) : Prop :=
  normalized t ∧ v ≤ value t ≤ v + nread_overall_timeout * 1000000.

#[export] Instance on_time_dec v t : Decision (on_time v t).
Proof. unfold on_time. apply _. Defined.

Record prompt (v : Z) (n : nat) (w : os) : Prop := {
  prompt_stream : dgram w = false;
  prompt_chunks : Forall is_chunk (reads w);
  prompt_time : clock w ≠ [] ∧ Forall (on_time v) (clock w);
  prompt_horizon : 0 ≤ v ∧ v + 2 * nread_overall_timeout * 1000000 < 2 ^ 32 * 1000000;
  prompt_selects : Forall (λ r, 0 < r) (selects w) ∧ (n ≤ length (selects w))%nat
}.

Lemma prompt_le v n m w : prompt v n w → (m ≤ n)%nat → prompt v m w.
Proof. intros [????[??]] ?. split; try done. split; [done|lia]. Qed.

Lemma os_recv_prompt v n w k :
  prompt v n w → flat (reads w) ≠ [] → (0 < k)%nat →
  ∃ d w', os_recv w k 0 = (Rd (Z.of_nat (length d)) d, w') ∧ d ≠ [] ∧ prompt v n w'.
Proof.
  intros [Hd Hc Ht Hh Hs] Hf Hk. unfold os_recv. rewrite Hd.
  change (Z.land 0 MSG_TRUNC) with 0. cbn.
  destruct (reads w) as [|[l| |e] rest] eqn:E; [done| |by apply Forall_cons in Hc as [??]..].
  apply Forall_cons in Hc as [Hl Hc]. eexists (take k l), _. split; [reflexivity|].
  destruct l as [|c l]; [done|]. destruct k as [|k]; [lia|]. split; [done|]. split; try done.
  cbn. by destruct (drop k l); [|constructor].
Qed.

Lemma os_select_prompt v n w :
  prompt v (S n) w → ∃ r w', os_select w = (r, w') ∧ 0 < r ∧ reads w' = reads w ∧ prompt v n w'.
Proof.
  intros [Hd Hc Ht Hh [Hs Hl]]. unfold os_select.
  destruct (selects w) as [|r rest] eqn:E; [cbn in Hl; lia|]. apply Forall_cons in Hs as [Hr Hs].
  exists r, (w <| selects := rest |>). split_and!; try done. split; try done. cbn in *.
  split; [done|lia].
Qed.

Lemma os_now_prompt v n w :
  prompt v n w → ∃ t w', os_now w = (t, w') ∧ on_time v t ∧ reads w' = reads w ∧ prompt v n w'.
Proof.
  intros [Hd Hc [Hne Ht] Hh Hs]. unfold os_now.
  destruct (clock w) as [|t [|t' rest]] eqn:E; [done|..]; apply Forall_cons in Ht as [Ht Hr].
  - exists t, w. split_and!; [done..|]. split; try done. rewrite E. split; [done|by constructor].
  - exists t, (w <| clock := t' :: rest |>). split_and!; try done.
Qed.

(** The deadline is either unset or no earlier than any time of the script. *)
Definition deadline_ok (v : Z) (ft : iperf_time) : Prop :=
  secs ft = 0 ∨ normalized ft ∧ v + nread_overall_timeout * 1000000 ≤ value ft.

Lemma wait_more_prompt v n ft w :
  prompt v (S n) w → deadline_ok v ft →
  ∃ ft' w', wait_more ft w = (Go_on ft', w') ∧ deadline_ok v ft' ∧ reads w' = reads w ∧ prompt v n w'.
Proof.
  intros Hp Hft. unfold wait_more.
  destruct (os_now_prompt _ _ _ Hp) as (t & w1 & -> & [Hn Ht] & Hr1 & Hp1).
  set (ft' := if secs ft =? 0 then _ else _).
  assert (normalized ft' ∧ v + nread_overall_timeout * 1000000 ≤ value ft') as [Hn' Hv'].
  { unfold ft'. destruct Hft as [->|[Hn' Hv']].
    - cbn. split; [apply add_usecs_normalized|].
      destruct Hp as [_ _ _ Hh _]. unfold nread_overall_timeout in *.
      rewrite add_usecs_value by (done || lia). lia.
    - case_match; [|done]. bool_to_prop. unfold normalized, value, nread_overall_timeout in *.
      destruct Hp as [_ _ _ Hh _]. lia. }
  rewrite compare_lt by done. rewrite bool_decide_false by lia.
  destruct (os_select_prompt _ _ _ Hp1) as (r & w2 & -> & Hr & Hr2 & Hp2). ztest.
  exists ft', w2. split_and!; [done|by right|congruence|done].
Qed.

Lemma Nrecv_loop_complete v m (count : nat) (Hcount : Z.of_nat count < 2 ^ 31) fuel nleft ft got w :
  (nleft ≤ fuel)%nat → (nleft ≤ count)%nat → length got = (count - nleft)%nat →
  prompt v (nleft + m) w → deadline_ok v ft → (nleft ≤ length (flat (reads w)))%nat →
  ∃ w', Nrecv_loop fuel count nleft 0 ft got w
        = Ok (mk_received (Z.of_nat count) (got ++ take nleft (flat (reads w))), w') ∧
        prompt v m w' ∧ flat (reads w') = drop nleft (flat (reads w)).
Proof.
  revert nleft ft got w. induction fuel as [|fuel IH]; intros [|nleft] ft got w Hf Hc Hg Hp Hft Hl;
    cbn [Nrecv_loop]; [|lia| |].
  1-2: exists w; rewrite ret_count with (count := count) by lia;
       rewrite take_0, app_nil_r, drop_0, Nat.sub_0_r; done.
  destruct (os_recv_prompt v (S nleft + m) w (S nleft) Hp) as (d & w1 & Er & Hne & Hp1);
    [intros E; rewrite E in Hl; cbn in Hl; lia|lia|].
  destruct (os_recv_stream _ _ _ _ (prompt_stream _ _ _ Hp) Er) as (_ & _ & _ & _ & Hdl & Hfl).
  rewrite Er. unfold counted. change (Z.land 0 MSG_TRUNC) with 0. cbn [negb Z.eqb].
  assert (length d ≠ 0)%nat by (by destruct d).
  rewrite Nat2Z.id, (proj2 (Z.eqb_neq _ _)) by lia.
  rewrite Hfl. destruct (S nleft - length d)%nat as [|nleft'] eqn:En.
  - exists w1. replace (S nleft) with (length d) by lia.
    rewrite ret_count with (count := count), take_app_length, drop_app_length by lia.
    split_and!; [done| |done]. eapply prompt_le; [exact Hp1|lia].
  - destruct (wait_more_prompt v (S nleft' + m) ft w1) as (ft' & w2 & -> & Hft' & Hr2 & Hp2);
      [eapply prompt_le; [exact Hp1|lia]|done|].
    rewrite Hfl, length_app in Hl.
    destruct (IH (S nleft') ft' (got ++ d) w2) as (w3 & -> & Hp3 & Hf3);
      [lia..|rewrite length_app; lia|done|done|rewrite Hr2; lia|].
    exists w3. rewrite Hr2 in *. split_and!; [|done|].
    + do 3 f_equal. rewrite <- app_assoc. f_equal.
      rewrite take_app_ge by lia. do 2 f_equal. lia.
    + rewrite Hf3, drop_app_ge by lia. f_equal. lia.
Qed.

Lemma Nread_complete v m w count :
  Z.of_nat count < 2 ^ 31 → prompt v (S count + m) w → (count ≤ length (flat (reads w)))%nat →
  ∃ w', Nread w count = Ok (mk_received (Z.of_nat count) (take count (flat (reads w))), w') ∧
        prompt v m w' ∧ flat (reads w') = drop count (flat (reads w)).
Proof.
  intros Hc Hp Hl. unfold Nread, Nrecv.
  destruct (os_select_prompt _ _ _ Hp) as (r & w1 & -> & Hr & Hr1 & Hp1). ztest.
  rewrite <- Hr1 in *. 
  destruct (Nrecv_loop_complete v m count Hc count count (mk_time 0 0) [] w1) as (w2 & Hw2 & ?);
    [lia..|cbn; lia|done|by left|done|]. by exists w2.
Qed.

(** ** What the writing loops do *)

(** The bytes that left the process are a prefix of the buffer; the value is
    their number, or an error. *)
Definition writes_prefix (w : os) (buf : bytes) (m : outcome (Z * os)) : Prop :=
  ∃ r w' k, m = Ok (r, w') ∧ sent w' = sent w ++ take k buf ∧ (k ≤ length buf)%nat ∧
    reads w' = reads w ∧ selects w' = selects w ∧ clock w' = clock w ∧ dgram w' = dgram w ∧
    (r = Z.of_nat k ∧ (k = 0 → buf = [])%nat ∨ r = NET_SOFTERROR ∨ r = NET_HARDERROR).

Lemma os_write_spec w buf res w' :
  os_write w buf = (res, w') →
  reads w' = reads w ∧ selects w' = selects w ∧ clock w' = clock w ∧ dgram w' = dgram w ∧
  match res with
  | inl r => (r ≤ length buf)%nat ∧ sent w' = sent w ++ take r buf
  | inr _ => sent w' = sent w
  end.
Proof.
  unfold os_write. destruct (writes w) as [|[k|e] rest]; intros [= <- <-]; cbn; split_and!; try done.
  - rewrite length_take. lia.
  - rewrite length_take. f_equal. destruct (decide (k ≤ length buf)%nat).
    + by rewrite Nat.min_l.
    + rewrite Nat.min_r by lia. by rewrite firstn_all, take_ge by lia.
Qed.

Section WritingLoops.
Context (w0 : os) (all : bytes) (Hall : Z.of_nat (length all) < 2 ^ 31).

Lemma Nwrite_loop_prefix fuel buf pre w :
  (length buf ≤ fuel)%nat → all = pre ++ buf → sent w = sent w0 ++ pre →
  reads w = reads w0 → selects w = selects w0 → clock w = clock w0 → dgram w = dgram w0 →
  writes_prefix w0 all (Nwrite_loop fuel (length all) buf w).
Proof.
  revert buf pre w. induction fuel as [|fuel IH]; intros [|c buf] pre w Hf Ha Hs Hr Hsl Hck Hdg;
    cbn [Nwrite_loop]; [|cbn in Hf; lia| |].
  1-2: rewrite app_nil_r in Ha; subst pre; exists (Z.of_nat (length all)), w, (length all);
       rewrite ret_count with (count := length all), firstn_all by lia;
       split_and!; try done; left; split; [done|]; intros E; by apply length_zero_iff_nil.
  destruct (os_write w (c :: buf)) as [res w1] eqn:E.
  destruct (os_write_spec _ _ _ _ E) as (E1 & E2 & E3 & E4 & Hres).
  assert (Hpre : take (length pre) all = pre) by (by rewrite Ha, take_app_length).
  assert (Hlen : length all = (length pre + length (c :: buf))%nat) by (by rewrite Ha, length_app).
  destruct res as [r|e].
  - destruct Hres as [Hk Hs1]. case_decide.
    { exists NET_SOFTERROR, w1, (length pre). rewrite Hpre. subst r.
      rewrite take_0, app_nil_r in Hs1. split_and!; try congruence; [lia|auto]. }
    apply (IH _ (pre ++ take r (c :: buf))); try congruence.
    + rewrite length_drop. cbn [length] in *. lia.
    + by rewrite <- app_assoc, take_drop.
    + by rewrite Hs1, Hs, app_assoc.
  - assert (∀ r, (r = Z.of_nat (length pre) ∧ pre ≠ [] ∨ r = NET_SOFTERROR ∨ r = NET_HARDERROR) →
              writes_prefix w0 all (Ok (r, w1))) as Hgen.
    { intros r Hr'. exists r, w1, (length pre). rewrite Hpre. split_and!; try congruence; [lia|].
      destruct Hr' as [[? Hp]|]; [|auto]. left. split; [done|].
      intros E0. by apply length_zero_iff_nil in E0. }
    repeat case_match; apply Hgen; auto. left.
    rewrite ret_count with (count := length all) by lia. rewrite Hlen. split; [lia|].
    intros ->. cbn in *. lia.
Qed.
End WritingLoops.

Lemma Nwrite_prefix w buf :
  Z.of_nat (length buf) < 2 ^ 31 → writes_prefix w buf (Nwrite w buf).
Proof.
  intros. unfold Nwrite. apply (Nwrite_loop_prefix w buf) with (pre := []); try done.
  by rewrite app_nil_r.
Qed.

(** [Nsendfile] sends a prefix of the file, whatever the offsets of the calls. *)
Lemma Nsendfile_loop_prefix w0 file count (Hall : Z.of_nat count < 2 ^ 31) fuel nleft w :
  (nleft ≤ fuel)%nat → (nleft ≤ count ≤ length file)%nat →
  sent w = sent w0 ++ take (count - nleft) file →
  ∃ r w' k, Nsendfile_loop fuel file count nleft w = Ok (r, w') ∧
    sent w' = sent w0 ++ take k file ∧ (k ≤ count)%nat ∧
    (r = Z.of_nat k ∨ r = NET_SOFTERROR ∨ r = NET_HARDERROR).
Proof.
  revert nleft w. induction fuel as [|fuel IH]; intros [|nleft] w Hf Hc Hs;
    cbn [Nsendfile_loop]; [|lia| |].
  1-2: exists (Z.of_nat count), w, count; rewrite ret_count with (count := count) by lia;
       rewrite Nat.sub_0_r in Hs; auto.
  unfold os_sendfile. destruct (os_write w _) as [res w1] eqn:E.
  destruct (os_write_spec _ _ _ _ E) as (_ & _ & _ & _ & Hres).
  destruct res as [r|e].
  - destruct Hres as [Hk Hs1]. rewrite length_take, length_drop in Hk.
    assert (sent w1 = sent w0 ++ take (count - (S nleft - r)) file) as Hs2.
    { rewrite Hs1, Hs, <- app_assoc. f_equal.
      rewrite take_take, Nat.min_l by lia.
      replace (count - (S nleft - r))%nat with ((count - S nleft) + r)%nat by lia.
      by rewrite <- take_take_drop. }
    case_decide; [|apply IH; (lia || done)].
    subst r. exists NET_SOFTERROR, w1, (count - (S nleft - 0))%nat. split_and!; [done|done|lia|auto].
  - assert (∀ r, (r = Z.of_nat (count - S nleft) ∨ r = NET_SOFTERROR ∨ r = NET_HARDERROR) →
      ∃ r' w' k, Ok (r, w1) = Ok (r', w') ∧ sent w' = sent w0 ++ take k file ∧ (k ≤ count)%nat ∧
        (r' = Z.of_nat k ∨ r' = NET_SOFTERROR ∨ r' = NET_HARDERROR)) as Hgen.
    { intros r Hr. exists r, w1, (count - S nleft)%nat. rewrite Hres. split_and!; [done|done|lia|done]. }
    repeat case_match; apply Hgen; auto.
    rewrite ret_count with (count := count) by lia. auto.
Qed.

Lemma Nsendfile_prefix w file count :
  Z.of_nat count < 2 ^ 31 → (count ≤ length file)%nat →
  ∃ r w' k, Nsendfile w file count = Ok (r, w') ∧
    sent w' = sent w ++ take k file ∧ (k ≤ count)%nat ∧
    (r = Z.of_nat k ∨ r = NET_SOFTERROR ∨ r = NET_HARDERROR).
Proof.
  intros. unfold Nsendfile. apply Nsendfile_loop_prefix; [done|lia..|].
  by rewrite Nat.sub_diag, take_0, app_nil_r.
Qed.

(** ** Properties *)

(** Reading from a stream is exact for every behaviour of the kernel (short
    reads, interruptions, timeouts, errors, end of file): [Nrecv] and
    [Nrecv_no_select] return, the bytes in the buffer are the next bytes of
    the stream, none lost, repeated or reordered, never more than asked for,
    and the value is their number unless it is the hard error. *)
Theorem Nrecv_exact w count :
  Z.of_nat count < 2 ^ 31 → dgram w = false →
  reads_stream w count (Nrecv w count 0) ∧ reads_stream w count (Nrecv_no_select w count 0).
Proof. intros. split; [by apply Nrecv_reads_stream|by apply Nrecv_no_select_reads_stream]. Qed.

Lemma Nrecv_exact_witness :
  let w := mk_os false [Data (B "ab"); Read_error EINTR; Data (B "cde"); Eof] [] [1; 1; 1] [mk_time 5 0] [] in
  reads_stream w 4 (Nrecv w 4 0) ∧ reads_stream w 4 (Nrecv_no_select w 4 0).
Proof. intros w. apply (Nrecv_exact w 4); done. Defined.

(** C38: from a peer that keeps sending (data before the timeouts expire, no
    error), [Nread] returns the whole count that was asked for, in however
    many pieces it comes, and leaves the rest of the stream in place. *)
Theorem Nread_prompt v w count :
  Z.of_nat count < 2 ^ 31 → prompt v (S count) w → (count ≤ length (flat (reads w)))%nat →
  ∃ w', Nread w count = Ok (mk_received (Z.of_nat count) (take count (flat (reads w))), w') ∧
        flat (reads w') = drop count (flat (reads w)).
Proof.
  intros Hc Hp Hl. destruct (Nread_complete v 0 w count) as (w' & ? & _ & ?);
    [done|by rewrite Nat.add_0_r|done|by exists w'].
Qed.

Lemma Nread_prompt_witness :
  let w := mk_os false [Data (B "ab"); Data (B "cd"); Data (B "e")] [] [1; 1; 1; 1; 1] [mk_time 5 0; mk_time 6 0] [] in
  ∃ w', Nread w 4 = Ok (mk_received 4 (B "abcd"), w') ∧ flat (reads w') = B "e".
Proof.
  intros w. apply (Nread_prompt 5000000 w 4); [done| |vm_compute; lia].
  split; [done|by repeat constructor| |vm_compute; split; congruence|].
  - split; [done|decided].
  - split; [repeat constructor; lia|cbn; lia].
Defined.

(** writing is exact: whatever the kernel accepts at each call, the bytes
    that leave the process are a prefix of the buffer, in order and each once,
    and the value is their number or an error.  In particular a value equal to
    the length means that everything was sent. *)
Theorem Nwrite_exact w buf :
  Z.of_nat (length buf) < 2 ^ 31 → writes_prefix w buf (Nwrite w buf).
Proof. apply Nwrite_prefix. Qed.

Lemma Nwrite_exact_witness :
  let w := mk_os false [] [Accept 2; Write_error EAGAIN; Accept 9] [] [] [] in
  writes_prefix w (B "hello") (Nwrite w (B "hello")).
Proof. intros w. by apply (Nwrite_exact w (B "hello")). Defined.

(** [Nsendfile] sends a prefix of the first [count] bytes of the file,
    whatever part of it each [sendfile] call transfers: the offsets it passes
    continue where the last call stopped. *)
Theorem Nsendfile_exact w file count :
  Z.of_nat count < 2 ^ 31 → (count ≤ length file)%nat →
  ∃ r w' k, Nsendfile w file count = Ok (r, w') ∧
    sent w' = sent w ++ take k file ∧ (k ≤ count)%nat ∧
    (r = Z.of_nat k ∨ r = NET_SOFTERROR ∨ r = NET_HARDERROR).
Proof. apply Nsendfile_prefix. Qed.

Lemma Nsendfile_exact_witness :
  let w := mk_os false [] [Accept 2; Accept 1; Accept 9] [] [] [] in
  ∃ r w' k, Nsendfile w (B "hello") 4 = Ok (r, w') ∧
    sent w' = sent w ++ take k (B "hello") ∧ (k ≤ 4)%nat ∧
    (r = Z.of_nat k ∨ r = NET_SOFTERROR ∨ r = NET_HARDERROR).
Proof. intros w. apply (Nsendfile_exact w (B "hello") 4); [done|vm_compute; lia]. Defined.
