(* ===== verification/Control.v ===== *)
(** * The control channel ([src/iperf_api.c]: [JSON_write], [JSON_read])

    A message is the unformatted text of a JSON item behind a four-byte length
    in network order.  Both ends run on the transfer loops of [Net.v]; the
    receiving side allocates what the length says, reads, and parses. *)

From S2P Require Import Prelude CInt CDouble CStdio Json JsonPrint JsonParse JsonRoundtrip IperfTime Net.

Definition MAX_PARAMS_JSON_STRING : Z := 8 * 1024.

(** [JSON_write]: 0, or -1 when the item cannot be printed or a write fails. *)
Definition JSON_write (w : os) (json : cJSON) : outcome (Z * os) :=
  match cJSON_PrintUnformatted json with
  | Fail => Ok (-1, w)
  | Undef => Undef
  | NoFuel => NoFuel
  | Ok str =>
      let hsize := u32 (Z.of_nat (length str)) in
      '(r, w) ← Nwrite w (be_split 4 hsize);
      if r <? 0 then Ok (-1, w)
      else
        '(r, w) ← Nwrite w (take (Z.to_nat hsize) str);
        Ok ((if r <? 0 then -1 else 0), w)
  end.

(** [JSON_read]: the parsed item, or [None] for a null pointer.  The comparisons
    of the length with [max_size] and with the result of the read are unsigned;
    the buffer is zeroed, one byte longer than the text. *)
Definition JSON_read (w : os) (max_size : Z) : outcome (option cJSON * os) :=
  '(rc, w) ← Nread w 4;
  if ret rc =? 4 then
    let hsize := be_combine (filled rc) in
    if (0 <? hsize) && ((max_size =? 0) || (hsize <=? u32 max_size)) then
      let strsize := u32 (hsize + 1) in
      if strsize =? 0 then Ok (None, w)
      else
        '(rc, w) ← Nread w (Z.to_nat hsize);
        if (0 <=? ret rc) && (u32 (ret rc) =? hsize) then
          let str := filled rc ++ replicate (Z.to_nat strsize - length (filled rc)) NUL in
          match cJSON_Parse str with
          | Ok json => Ok (Some json, w)
          | Fail => Ok (None, w)
          | Undef => Undef
          | NoFuel => NoFuel
          end
        else Ok (None, w)
    else Ok (None, w)
  else Ok (None, w).

(** ** Reading is safe on every connection *)

Lemma Nrecv_loop_total fuel count nleft so ft got w :
  (nleft ≤ fuel)%nat → is_ok (Nrecv_loop fuel count nleft so ft got w).
Proof.
  revert nleft ft got w. induction fuel as [|fuel IH]; intros [|nleft] ft got w Hf;
    cbn [Nrecv_loop]; [by eexists|lia|by eexists|].
  destruct (os_recv w (S nleft) so) as [[r d|e] w1] eqn:Er.
  - destruct (Z.eqb_spec r 0) as [|Hr]; [by eexists|].
    destruct (S nleft - counted so r (S nleft))%nat as [|nleft'] eqn:En; [by eexists|].
    destruct (wait_more ft w1) as [[ft'| |] w2]; [|by eexists..].
    apply IH. assert (0 < counted so r (S nleft))%nat; [|lia].
    assert (0 ≤ r).
    { unfold os_recv in Er. repeat case_match; simplify_eq; lia. }
    unfold counted. case_match; lia.
  - case_match; by eexists.
Qed.

Lemma Nread_total w count : is_ok (Nread w count).
Proof.
  unfold Nread, Nrecv. destruct (os_select w) as [r w1].
  repeat case_match; try by eexists. by apply Nrecv_loop_total.
Qed.

(** Whatever the peer sends and however the kernel answers, [JSON_read] returns. *)
Lemma JSON_read_total w max_size : is_ok (JSON_read w max_size).
Proof.
  unfold JSON_read. destruct (Nread_total w 4) as [[rc w1] ->]. rewrite Ok_bind. cbv beta iota zeta.
  repeat (case_match; [|by eexists]). case_match; [by eexists|].
  match goal with |- context [Nread w1 ?n] => destruct (Nread_total w1 n) as [[rc2 w2] ->] end.
  rewrite Ok_bind. cbv beta iota zeta. case_match; [|by eexists].
  match goal with |- context [cJSON_Parse ?s] => destruct (cJSON_Parse_defined s) as [? ?];
    destruct (cJSON_Parse s) end; try done; by eexists.
Qed.

(** ** A reliable connection *)

Definition accepts (a : write_answer) : Prop := match a with Accept (S _) => True | _ => False end.

(** The kernel accepts at least one byte at each of the next [n] writes. *)
Definition steady (n : nat) (w : os) : Prop := Forall accepts (writes w) ∧ (n ≤ length (writes w))%nat.

Lemma Nwrite_loop_steady count (Hc : Z.of_nat count < 2 ^ 31) fuel n buf w :
  (length buf ≤ fuel)%nat → steady (length buf + n) w → (length buf ≤ count)%nat →
  ∃ w', Nwrite_loop fuel count buf w = Ok (Z.of_nat count, w') ∧
        sent w' = sent w ++ buf ∧ steady n w'.
Proof.
  revert buf w. induction fuel as [|fuel IH]; intros [|c buf] w Hf Hs Hl;
    cbn [Nwrite_loop]; [|cbn in Hf; lia| |].
  1-2: exists w; rewrite ret_count with (count := count), app_nil_r by lia; done.
  destruct Hs as [Ha Hn]. unfold os_write.
  destruct (writes w) as [|[[|k]|e] rest] eqn:E; [cbn in Hn; lia|by apply Forall_cons in Ha as [??]| |by apply Forall_cons in Ha as [??]].
  apply Forall_cons in Ha as [_ Ha]. cbn [length] in *.
  rewrite decide_False by (cbn; lia).
  set (b1 := take (S k) (c :: buf)).
  replace (drop (length b1) (c :: buf)) with (drop (S k) (c :: buf)).
  2: { unfold b1. rewrite length_take. destruct (decide (S k ≤ length (c :: buf))%nat).
       - by rewrite Nat.min_l.
       - rewrite Nat.min_r by lia. by rewrite !drop_ge by lia. }
  destruct (IH (drop (S k) (c :: buf)) (w <| writes := rest |> <| sent := sent w ++ b1 |>)) as (w' & Hw' & Hs & Hst).
  - rewrite length_drop. cbn [length]. lia.
  - split; [done|]. cbn. rewrite length_drop. cbn in Hn. lia.
  - rewrite length_drop. cbn [length]. lia.
  - exists w'. split_and!; [done| |done]. rewrite Hs.
    change (sent (w <| writes := rest |> <| sent := sent w ++ b1 |>)) with (sent w ++ b1).
    rewrite <- app_assoc. unfold b1. by rewrite take_drop.
Qed.

Lemma Nwrite_steady w buf n :
  Z.of_nat (length buf) < 2 ^ 31 → steady (length buf + n) w →
  ∃ w', Nwrite w buf = Ok (Z.of_nat (length buf), w') ∧ sent w' = sent w ++ buf ∧ steady n w'.
Proof. intros. unfold Nwrite. by apply Nwrite_loop_steady. Qed.

(** The bytes of a message. *)
Definition frame (text : bytes) : bytes := be_split 4 (Z.of_nat (length text)) ++ text.

Lemma JSON_write_steady_rest n w json text :
  json_wf 0 json = true → render false 0 json = Some text →
  Z.of_nat (length text) + 8 < 2 ^ 31 → steady (length (frame text) + n) w →
  ∃ w', JSON_write w json = Ok (0, w') ∧ sent w' = sent w ++ frame text ∧ steady n w'.
Proof.
  intros Hw Ht Hl Hs. unfold JSON_write, cJSON_PrintUnformatted.
  destruct (print_parse false json text Hw Ht) as [-> _]; [lia|].
  rewrite wrapu_id by (unfold in_u; lia). unfold frame in Hs. rewrite length_app in Hs.
  destruct (Nwrite_steady w (be_split 4 (Z.of_nat (length text))) (length text + n)) as (w1 & -> & Hs1 & Hst1);
    [by rewrite length_be_split|by rewrite Nat.add_assoc|].
  rewrite Ok_bind. cbv beta iota. rewrite length_be_split. cbn [Z.of_nat Z.ltb Z.compare Pos.of_succ_nat].
  rewrite Nat2Z.id, firstn_all.
  destruct (Nwrite_steady w1 text n) as (w2 & -> & Hs2 & Hst2); [lia|done|].
  rewrite Ok_bind. cbv beta iota. ztest. exists w2. split; [done|]. split; [|done].
  rewrite Hs2, Hs1. by rewrite <- app_assoc.
Qed.

Lemma JSON_write_steady w json text :
  json_wf 0 json = true → render false 0 json = Some text →
  Z.of_nat (length text) + 8 < 2 ^ 31 → steady (length (frame text)) w →
  ∃ w', JSON_write w json = Ok (0, w') ∧ sent w' = sent w ++ frame text.
Proof.
  intros Hw Ht Hl Hs. destruct (JSON_write_steady_rest 0 w json text) as (w' & ? & ? & _); [done..| |].
  - by rewrite Nat.add_0_r.
  - by exists w'.
Qed.

(** What a prompt peer wrote is read back, and the bytes after it are left. *)
Lemma JSON_read_frame_rest n v w json text rest max_size :
  json_wf 0 json = true → render false 0 json = Some text →
  Z.of_nat (length text) + 8 < 2 ^ 31 →
  max_size = 0 ∨ Z.of_nat (length text) ≤ max_size < 2 ^ 31 →
  flat (reads w) = frame text ++ rest →
  prompt v (6 + length text + n) w →
  ∃ w', JSON_read w max_size = Ok (Some (parsed json), w') ∧ flat (reads w') = rest ∧ prompt v n w'.
Proof.
  intros Hw Ht Hl Hm Hf Hp. pose proof (value_reads_back false json 0 text Hw Ht) as (Hb & Hn & _).
  destruct (print_parse false json text Hw Ht) as [_ Hparse]; [lia|].
  set (hdr := be_split 4 (Z.of_nat (length text))).
  assert (length hdr = 4)%nat as Hh by apply length_be_split.
  assert (be_combine hdr = Z.of_nat (length text)) as Hc.
  { apply be_combine_split_id. cbn. lia. }
  assert (length text ≠ 0)%nat by (by destruct text).
  unfold frame in Hf. rewrite <- app_assoc in Hf. fold hdr in Hf.
  unfold JSON_read.
  destruct (Nread_complete v (S (length text + n)) w 4) as (w1 & -> & Hp1 & Hf1);
    [done|exact Hp|rewrite Hf, length_app; lia|].
  rewrite Ok_bind. cbv beta iota zeta. cbn [ret filled].
  rewrite Hf, take_length_app by done. rewrite Hf, drop_length_app in Hf1 by done.
  change (Z.of_nat 4 =? 4) with true. cbv iota. rewrite Hc.
  assert ((max_size =? 0) || (Z.of_nat (length text) <=? u32 max_size) = true) as ->.
  { destruct Hm as [->|Hm]; [done|]. rewrite wrapu_id by (unfold in_u; lia). ztest. by rewrite orb_true_r. }
  rewrite wrapu_id by (unfold in_u; lia). ztest. cbn [andb]. rewrite Nat2Z.id.
  destruct (Nread_complete v n w1 (length text)) as (w2 & -> & Hp2 & Hf2);
    [lia|done|rewrite Hf1, length_app; lia|].
  rewrite Ok_bind. cbv beta iota zeta. cbn [ret filled].
  rewrite Hf1, take_app_length, drop_app_length in *.
  rewrite wrapu_id by (unfold in_u; lia). rewrite Z.eqb_refl. ztest. cbn [andb].
  replace (Z.to_nat (Z.of_nat (length text) + 1) - length text)%nat with 1%nat by lia.
  assert (cJSON_Parse (text ++ replicate 1 NUL) = cJSON_Parse text) as ->.
  { unfold cJSON_Parse. cbn [replicate]. by rewrite c_str_app_nul, c_str_no_nul. }
  rewrite Hparse. by exists w2.
Qed.

Lemma JSON_read_frame v w json text rest max_size :
  json_wf 0 json = true → render false 0 json = Some text →
  Z.of_nat (length text) + 8 < 2 ^ 31 →
  max_size = 0 ∨ Z.of_nat (length text) ≤ max_size < 2 ^ 31 →
  flat (reads w) = frame text ++ rest →
  prompt v (6 + length text) w →
  ∃ w', JSON_read w max_size = Ok (Some (parsed json), w') ∧ flat (reads w') = rest.
Proof.
  intros Hw Ht Hl Hm Hf Hp.
  destruct (JSON_read_frame_rest 0 v w json text rest max_size) as (w' & ? & ? & _); [done..| |].
  - by rewrite Nat.add_0_r.
  - by exists w'.
Qed.

(** ** Writing leaves what is to be read, reading what is to be written *)

Definition same_input (w w' : os) : Prop :=
  dgram w' = dgram w ∧ reads w' = reads w ∧ selects w' = selects w ∧ clock w' = clock w.
Definition same_output (w w' : os) : Prop := writes w' = writes w ∧ sent w' = sent w.

Lemma same_input_prompt v n w w' : same_input w w' → prompt v n w → prompt v n w'.
Proof. intros (E1 & E2 & E3 & E4) []. split; by rewrite ?E1, ?E2, ?E3, ?E4. Qed.

Lemma same_output_steady n w w' : same_output w w' → steady n w → steady n w'.
Proof. intros [E _]. unfold steady. by rewrite E. Qed.

Lemma Nwrite_same_input w buf r w' : Nwrite w buf = Ok (r, w') → same_input w w'.
Proof.
  unfold Nwrite. generalize (length buf) at 1. generalize (length buf). intros n fuel.
  revert buf w. induction fuel as [|fuel IH]; intros [|c buf] w; cbn [Nwrite_loop];
    try (by intros [= <- <-]).
  destruct (os_write w (c :: buf)) as [[k|e] w1] eqn:Ew.
  - assert (same_input w w1) as (E1 & E2 & E3 & E4).
    { unfold os_write in Ew. repeat case_match; simplify_eq; done. }
    case_decide; [by intros [= <- <-]|]. intros (F1 & F2 & F3 & F4)%IH.
    unfold same_input. by rewrite F1, F2, F3, F4.
  - assert (same_input w w1).
    { unfold os_write in Ew. repeat case_match; simplify_eq; done. }
    repeat case_match; by intros [= <- <-].
Qed.

Lemma JSON_write_same_input w json r w' : JSON_write w json = Ok (r, w') → same_input w w'.
Proof.
  unfold JSON_write. destruct (cJSON_PrintUnformatted json) as [s| | |]; try done; [|by intros [= _ <-]].
  destruct (Nwrite w _) as [[r1 w1]| | |] eqn:E1; try done. cbn [mbind outcome_bind].
  apply Nwrite_same_input in E1 as (A1 & A2 & A3 & A4).
  case_match; [by intros [= _ <-]|].
  destruct (Nwrite w1 _) as [[r2 w2]| | |] eqn:E2; try done. cbn [mbind outcome_bind].
  apply Nwrite_same_input in E2 as (B1 & B2 & B3 & B4). intros [= _ <-].
  unfold same_input. by rewrite B1, B2, B3, B4.
Qed.

Lemma os_now_output w t w' : os_now w = (t, w') → same_output w w'.
Proof. unfold os_now. repeat case_match; by intros [= _ <-]. Qed.
Lemma os_select_output w t w' : os_select w = (t, w') → same_output w w'.
Proof. unfold os_select. repeat case_match; by intros [= _ <-]. Qed.
Lemma os_recv_output w n f r w' : os_recv w n f = (r, w') → same_output w w'.
Proof. unfold os_recv. repeat case_match; intros; simplify_eq; done. Qed.
Lemma same_output_trans w1 w2 w3 : same_output w1 w2 → same_output w2 w3 → same_output w1 w3.
Proof. intros [A1 A2] [B1 B2]. unfold same_output. by rewrite B1, B2. Qed.

Lemma wait_more_output ft w x w' : wait_more ft w = (x, w') → same_output w w'.
Proof.
  unfold wait_more. destruct (os_now w) as [t w1] eqn:E1. apply os_now_output in E1.
  destruct (os_select w1) as [r w2] eqn:E2. apply os_select_output in E2.
  repeat case_match; intros [= _ <-]; (done || by eapply same_output_trans).
Qed.

Lemma Nrecv_loop_output fuel count nleft so ft got w rc w' :
  Nrecv_loop fuel count nleft so ft got w = Ok (rc, w') → same_output w w'.
Proof.
  revert nleft ft got w. induction fuel as [|fuel IH]; intros [|nleft] ft got w; cbn [Nrecv_loop];
    try (by intros [= _ <-]).
  destruct (os_recv w (S nleft) so) as [[r d|e] w1] eqn:E1; apply os_recv_output in E1.
  2: { case_match; by intros [= _ <-]. }
  destruct (r =? 0); [by intros [= _ <-]|].
  destruct (S nleft - counted so r (S nleft))%nat as [|nleft']; [by intros [= _ <-]|].
  destruct (wait_more ft w1) as [x w2] eqn:E2. apply wait_more_output in E2.
  pose proof (same_output_trans _ _ _ E1 E2). destruct x; try (by intros [= _ <-]).
  intros H'%IH. by eapply same_output_trans.
Qed.

Lemma Nread_output w n rc w' : Nread w n = Ok (rc, w') → same_output w w'.
Proof.
  unfold Nread, Nrecv. destruct (os_select w) as [r w1] eqn:E1. apply os_select_output in E1.
  repeat case_match; try (by intros [= _ <-]).
  intros H2%Nrecv_loop_output. by eapply same_output_trans.
Qed.

Lemma JSON_read_output w m o w' : JSON_read w m = Ok (o, w') → same_output w w'.
Proof.
  unfold JSON_read. destruct (Nread w 4) as [[rc w1]| | |] eqn:E1; try done. apply Nread_output in E1.
  cbn [mbind outcome_bind]. repeat (case_match; [|by intros [= _ <-]]).
  case_match; [by intros [= _ <-]|].
  match goal with |- context [Nread w1 ?n] => destruct (Nread w1 n) as [[rc2 w2]| | |] eqn:E2 end; try done.
  apply Nread_output in E2. pose proof (same_output_trans _ _ _ E1 E2). cbn [mbind outcome_bind].
  case_match; [|by intros [= _ <-]].
  match goal with |- context [cJSON_Parse ?s] => destruct (cJSON_Parse s) end; try done;
    by intros [= _ <-].
Qed.

(** ** Properties *)

(** Whatever the peer sends and however the kernel answers, [JSON_read]
    returns (a parsed item or a null pointer): no length field, short read or
    malformed text leads to undefined behaviour. *)
Theorem JSON_read_safe w max_size : ∃ o w', JSON_read w max_size = Ok (o, w').
Proof. destruct (JSON_read_total w max_size) as [[o w'] ->]. by exists o, w'. Qed.

(** C12: a control message is delivered.  When the kernel accepts the writes,
    [JSON_write] sends the length and the text of the item, and from a prompt
    peer whose stream holds those bytes [JSON_read], with a limit the text
    respects, returns the item and leaves what follows the message unread. *)
Theorem message_delivered v ww wr json text rest max_size :
  json_wf 0 json = true → render false 0 json = Some text →
  Z.of_nat (length text) + 8 < 2 ^ 31 →
  max_size = 0 ∨ Z.of_nat (length text) ≤ max_size < 2 ^ 31 →
  steady (length (frame text)) ww →
  flat (reads wr) = frame text ++ rest → prompt v (6 + length text) wr →
  ∃ ww' wr', JSON_write ww json = Ok (0, ww') ∧ sent ww' = sent ww ++ frame text ∧
             JSON_read wr max_size = Ok (Some (parsed json), wr') ∧ flat (reads wr') = rest.
Proof.
  intros Hw Ht Hl Hm Hs Hf Hp.
  destruct (JSON_write_steady ww json text) as (ww' & ? & ?); [done..|].
  destruct (JSON_read_frame v wr json text rest max_size) as (wr' & ? & ?); [done..|].
  by exists ww', wr'.
Qed.

Lemma message_delivered_witness :
  let json := cJSON_AddNumberToObject cJSON_CreateObject (B "time") (D_of_Z 10) in
  let text := B "{" ++ quoted (B "time") ++ B ":10}" in
  let ww := mk_os false [] (replicate 20 (Accept 3)) [] [] [] in
  let wr := mk_os false [Data (take 3 (frame text)); Data (drop 3 (frame text) ++ B "x")] []
              (replicate 20 1) [mk_time 5 0] [] in
  ∃ ww' wr', JSON_write ww json = Ok (0, ww') ∧ sent ww' = sent ww ++ frame text ∧
             JSON_read wr 8192 = Ok (Some (parsed json), wr') ∧ flat (reads wr') = B "x".
Proof.
  intros json text ww wr.
  apply (message_delivered 5000000 ww wr json text (B "x") 8192);
    [vm_compute; reflexivity|vm_compute; reflexivity|vm_compute; reflexivity|right; vm_compute; split; congruence|
     |vm_compute; reflexivity|].
  - split; [by repeat constructor|vm_compute; lia].
  - split; [done|by repeat constructor|split; [done|decided]|vm_compute; split; congruence|].
    split; [apply Forall_replicate; lia|vm_compute; lia].
Defined.

(** A partial write is not noticed: when the kernel interrupts the write of
    the text after some bytes, [Nwrite] reports the bytes it sent and
    [JSON_write] reports success, although the message on the wire is cut. *)
Theorem JSON_write_short_write :
  let w := mk_os false [] [Accept 4; Accept 2; Write_error EAGAIN] [] [] [] in
  ∃ w', JSON_write w cJSON_CreateTrue = Ok (0, w') ∧ sent w' = take 6 (frame (B "true")).
Proof. intros w. eexists. split; vm_compute; reflexivity. Qed.
