(* ===== verification/Timer.v ===== *)
(** * Timers ([src/timer.c])

    The static pointers [timers] and [free_timers] and the [Timer] structures
    they reach are a heap of records linked by [prev] and [next]; following a
    pointer to no structure is [Undef].  The component promises a queue sorted
    by time ([insert_timer] is its insertion), and every operation is shown to
    implement the operation on the queue. *)

From S2P Require Import Prelude CInt IperfTime.
From Stdlib Require Import Sorting.Sorted.

Abbreviation loc := positive.

Record Timer := mk_Timer {
  timer_proc : Z;
  client_data : Z;
  t_usecs : Z;
  periodic : bool;
  time : iperf_time;
  t_prev : option loc;
  t_next : option loc
}.
#[export] Instance eta_Timer : Settable Timer := fun t =>
  mk_Timer (timer_proc t) (client_data t) (t_usecs t) (periodic t) (time t) (t_prev t) (t_next t).

Record tmr := mk_tmr {
  heap : gmap loc Timer;
  timers : option loc;
  free_timers : option loc
}.
#[export] Instance eta_tmr : Settable tmr := fun s =>
  mk_tmr (heap s) (timers s) (free_timers s).

Definition tmr_empty : tmr := mk_tmr ∅ None None.

(** ** Pointers *)

Definition deref (l : loc) (s : tmr) : outcome Timer :=
  match heap s !! l with Some t => Ok t | None => Undef end.

(** [l->field = v], as an update of the record [l] points to. *)
Definition store (l : loc) (f : Timer → Timer) (s : tmr) : outcome tmr :=
  match heap s !! l with
  | Some t => Ok (s <| heap := <[l := f t]> (heap s) |>)
  | None => Undef
  end.

Definition set_prev (p : option loc) (t : Timer) : Timer := t <| t_prev := p |>.
Definition set_next (n : option loc) (t : Timer) : Timer := t <| t_next := n |>.

(** ** The active list *)

(** The walk of [list_add]: the neighbours between which the timer belongs.
    The active list has at most one node per allocated timer. *)
Fixpoint find_place (fuel : nat) (key : iperf_time) (t2prev : loc) (t2 : option loc) (s : tmr)
  : outcome (loc * option loc) :=
  match t2 with
  | None => Ok (t2prev, None)
  | Some l2 =>
      match fuel with
      | O => NoFuel
      | S fuel' =>
          r ← deref l2 s;
          if iperf_time_compare key (time r) <? 0 then Ok (t2prev, Some l2)
          else find_place fuel' key l2 (t_next r) s
      end
  end.

Definition list_add (t : loc) (s : tmr) : outcome tmr :=
  match timers s with
  | None => store t (fun r => set_prev None (set_next None r)) (s <| timers := Some t |>)
  | Some head =>
      r ← deref t s;
      h ← deref head s;
      if iperf_time_compare (time r) (time h) <? 0 then
        s ← store t (set_prev None) s;
        s ← store t (set_next (Some head)) s;
        s ← store head (set_prev (Some t)) s;
        Ok (s <| timers := Some t |>)
      else
        '(t2prev, t2) ← find_place (size (heap s)) (time r) head (t_next h) s;
        s ← store t2prev (set_next (Some t)) s;
        s ← store t (set_prev (Some t2prev)) s;
        s ← store t (set_next t2) s;
        match t2 with
        | None => Ok s
        | Some l2 => store l2 (set_prev (Some t)) s
        end
  end.

Definition list_remove (t : loc) (s : tmr) : outcome tmr :=
  r ← deref t s;
  s ← match t_prev r with
      | None => Ok (s <| timers := t_next r |>)
      | Some p => store p (set_next (t_next r)) s
      end;
  r ← deref t s;
  match t_next r with
  | None => Ok s
  | Some n => store n (set_prev (t_prev r)) s
  end.

Definition list_resort (t : loc) (s : tmr) : outcome tmr :=
  s ← list_remove t s; list_add t s.

(** ** The interface *)

Definition fill (proc data us : Z) (per : bool) (now : iperf_time) (t : Timer) : Timer :=
  t <| timer_proc := proc |> <| client_data := data |> <| t_usecs := us |>
    <| periodic := per |> <| time := iperf_time_add_usecs now us |>.

Definition new_timer : Timer := mk_Timer 0 0 0 false (mk_time 0 0) None None.

(** The first part of [tmr_create]: a timer off the free list, or a new one. *)
Definition take_timer (s : tmr) : outcome (loc * tmr) :=
  match free_timers s with
  | Some t => r ← deref t s; Ok (t, s <| free_timers := t_next r |>)
  | None => let t := fresh (dom (heap s)) in
            Ok (t, s <| heap := <[t := new_timer]> (heap s) |>)
  end.

Definition tmr_create (now : iperf_time) (proc data us : Z) (per : bool) (s : tmr)
  : outcome (loc * tmr) :=
  '(t, s) ← take_timer s;
  s ← store t (fill proc data us per now) s;
  s ← list_add t s;
  Ok (t, s).

(** Microseconds until the first timer, or [None] when there is none. *)
Definition tmr_timeout (now : iperf_time) (s : tmr) : outcome (option (Z * Z)) :=
  match timers s with
  | None => Ok None
  | Some l =>
      r ← deref l s;
      let '(past, diff) := iperf_time_diff (time r) now in
      let us := if past =? 0 then i64 (iperf_time_in_usecs diff) else 0 in
      Ok (Some (us ÷ 1000000, Z.rem us 1000000))
  end.

Definition tmr_cancel (t : loc) (s : tmr) : outcome tmr :=
  s ← list_remove t s;
  s ← store t (set_next (free_timers s)) s;
  let s := s <| free_timers := Some t |> in
  store t (set_prev None) s.

Definition tmr_reset (now : iperf_time) (t : loc) (s : tmr) : outcome tmr :=
  s ← store t (fun r => r <| time := iperf_time_add_usecs now (t_usecs r) |>) s;
  list_resort t s.

(** [proc] is the call through [timer_proc]: it gets the timer's data and the
    time, and may change the world and the timers. *)
Section TmrRun.
Context {W : Type} (proc : Z → Z → iperf_time → W → tmr → outcome (W * tmr)).

Fixpoint tmr_run_from (fuel : nat) (now : iperf_time) (t : option loc) (w : W) (s : tmr)
  : outcome (W * tmr) :=
  match t, fuel with
  | None, _ => Ok (w, s)
  | _, O => NoFuel
  | Some t, S fuel' =>
      r ← deref t s;
      let next := t_next r in
      if iperf_time_compare (time r) now >? 0 then Ok (w, s)
      else
        '(w, s) ← proc (timer_proc r) (client_data r) now w s;
        r ← deref t s;
        s ← (if periodic r then
               s ← store t (fun r => r <| time := iperf_time_add_usecs (time r) (t_usecs r) |>) s;
               list_resort t s
             else tmr_cancel t s);
        tmr_run_from fuel' now next w s
  end.

Definition tmr_run (fuel : nat) (now : iperf_time) (w : W) (s : tmr) : outcome (W * tmr) :=
  tmr_run_from fuel now (timers s) w s.
End TmrRun.

Fixpoint tmr_cleanup_loop (fuel : nat) (s : tmr) : outcome tmr :=
  match free_timers s, fuel with
  | None, _ => Ok s
  | _, O => NoFuel
  | Some t, S fuel' =>
      r ← deref t s;
      tmr_cleanup_loop fuel' (s <| free_timers := t_next r |> <| heap := delete t (heap s) |>)
  end.
Definition tmr_cleanup (s : tmr) : outcome tmr := tmr_cleanup_loop (size (heap s)) s.

Fixpoint tmr_cancel_all (fuel : nat) (s : tmr) : outcome tmr :=
  match timers s, fuel with
  | None, _ => Ok s
  | _, O => NoFuel
  | Some t, S fuel' => s ← tmr_cancel t s; tmr_cancel_all fuel' s
  end.
Definition tmr_destroy (s : tmr) : outcome tmr :=
  s ← tmr_cancel_all (size (heap s)) s; tmr_cleanup s.

(** ** Linked segments

    [dseg h p xs n]: the records of [xs] are linked in this order in [h], the
    first one back to [p], the last one forward to [n]. *)

Definition first_of (xs : list loc) (n : option loc) : option loc :=
  match xs with [] => n | x :: _ => Some x end.

Definition last_of (p : option loc) (xs : list loc) : option loc :=
  match last xs with None => p | Some x => Some x end.

Fixpoint dseg (h : gmap loc Timer) (p : option loc) (xs : list loc) (n : option loc) : Prop :=
  match xs with
  | [] => True
  | x :: xs' => ∃ t, h !! x = Some t ∧ t_prev t = p ∧ t_next t = first_of xs' n ∧
                     dseg h (Some x) xs' n
  end.

Lemma last_of_cons p x xs : last_of p (x :: xs) = last_of (Some x) xs.
Proof. unfold last_of. rewrite last_cons. by destruct (last xs). Qed.

Lemma last_of_app p xs ys : last_of p (xs ++ ys) = last_of (last_of p xs) ys.
Proof. unfold last_of. rewrite last_app. by destruct (last ys), (last xs). Qed.

Lemma first_of_app xs ys n : first_of (xs ++ ys) n = first_of xs (first_of ys n).
Proof. by destruct xs. Qed.

Lemma dseg_app h p xs ys n :
  dseg h p (xs ++ ys) n ↔ dseg h p xs (first_of ys n) ∧ dseg h (last_of p xs) ys n.
Proof.
  revert p. induction xs as [|x xs IH]; intros p; cbn.
  - unfold last_of. cbn. naive_solver.
  - rewrite last_of_cons. setoid_rewrite IH. rewrite first_of_app. naive_solver.
Qed.

Lemma dseg_frame h h' p xs n :
  (∀ x, x ∈ xs → h' !! x = h !! x) → dseg h p xs n → dseg h' p xs n.
Proof.
  revert p. induction xs as [|x xs IH]; intros p Hh; [done|]. cbn. intros (t & Hx & ? & ? & Hs).
  exists t. split_and!; try done; [rewrite Hh; [done|left]|].
  apply IH; [|done]. intros y Hy. apply Hh. by right.
Qed.

Lemma dseg_insert h l t p xs n : l ∉ xs → dseg h p xs n → dseg (<[l := t]> h) p xs n.
Proof.
  intros Hl. apply dseg_frame. intros x Hx. rewrite lookup_insert_ne; [done|by intros ->].
Qed.

Lemma dseg_lookup h p xs n x : dseg h p xs n → x ∈ xs → is_Some (h !! x).
Proof.
  revert p. induction xs as [|y xs IH]; intros p; [by intros _ ?%elem_of_nil|].
  intros (t & Hy & _ & _ & Hs) [->|Hx]%elem_of_cons; [by eexists|by eapply IH].
Qed.

(** The first record may be linked back to another place, the last one forward. *)
Lemma dseg_set_prev h p p' x xs n t :
  NoDup (x :: xs) → dseg h p (x :: xs) n → h !! x = Some t →
  dseg (<[x := set_prev p' t]> h) p' (x :: xs) n.
Proof.
  intros [Hx _]%NoDup_cons (t' & Ht & _ & Hn & Hs) Ht'.
  assert (t' = t) as -> by congruence.
  exists (set_prev p' t). rewrite lookup_insert_eq. split_and!; try done. by apply dseg_insert.
Qed.

Lemma dseg_set_next h p xs x n n' t :
  NoDup (xs ++ [x]) → dseg h p (xs ++ [x]) n → h !! x = Some t →
  dseg (<[x := set_next n' t]> h) p (xs ++ [x]) n'.
Proof.
  intros Hnd Hs Hx. apply NoDup_app in Hnd as (_ & Hnd & _).
  apply dseg_app in Hs as [Hs (t' & Ht & Hp & _ & _)].
  assert (t' = t) as -> by congruence.
  apply dseg_app. split.
  - apply dseg_insert; [|done]. intros Hin. apply (Hnd x Hin). by left.
  - exists (set_next n' t). by rewrite lookup_insert_eq.
Qed.

(** Everything in a record but its links. *)
Definition core (t : Timer) : Timer := set_next None (set_prev None t).

Definition same_core (h h' : gmap loc Timer) : Prop := ∀ x, core <$> h' !! x = core <$> h !! x.

#[export] Instance same_core_equiv : Equivalence same_core.
Proof.
  split; [done|by intros h h' H x|intros h1 h2 h3 H1 H2 x]. by rewrite (H2 x), (H1 x).
Qed.

Lemma same_core_insert h x t t' :
  h !! x = Some t → core t' = core t → same_core h (<[x := t']> h).
Proof.
  intros Hx Hc y. destruct (decide (x = y)) as [<-|].
  - rewrite lookup_insert_eq, Hx. cbn. by rewrite Hc.
  - by rewrite lookup_insert_ne.
Qed.

Lemma same_core_step h0 h x t t' :
  same_core h0 h → h !! x = Some t → core t' = core t → same_core h0 (<[x := t']> h).
Proof. intros H ??. etransitivity; [exact H|by eapply same_core_insert]. Qed.

Lemma same_core_dom h h' : same_core h h' → dom h' = dom h.
Proof.
  intros H. apply set_eq. intros x. rewrite !elem_of_dom. specialize (H x).
  destruct (h !! x), (h' !! x); cbn in H; (done || by split; intros []).
Qed.

Lemma same_core_time h h' x t : same_core h h' → h' !! x = Some t →
  ∃ t0, h !! x = Some t0 ∧ core t = core t0.
Proof.
  intros H Hx. specialize (H x). rewrite Hx in H.
  destruct (h !! x) as [t0|]; cbn in H; [apply (inj Some) in H; by exists t0|done].
Qed.

(** ** The queue *)

(** The active timers of a state: their links form one list. *)
Definition active (s : tmr) (xs : list loc) : Prop :=
  timers s = first_of xs None ∧ NoDup xs ∧ dseg (heap s) None xs None.

Fixpoint sseg (h : gmap loc Timer) (xs : list loc) : Prop :=
  match xs with
  | [] => True
  | x :: xs' => ∃ t, h !! x = Some t ∧ t_next t = first_of xs' None ∧ sseg h xs'
  end.

(** The free list, linked by [next] only. *)
Definition idle (s : tmr) (fs : list loc) : Prop :=
  free_timers s = first_of fs None ∧ NoDup fs ∧ sseg (heap s) fs.

(** The time of a timer, for the queue order. *)
Definition time_of (h : gmap loc Timer) (x : loc) : iperf_time :=
  match h !! x with Some t => time t | None => mk_time 0 0 end.

Definition before (a b : iperf_time) : bool := iperf_time_compare a b <? 0.

(** Insertion before the first later timer: timers of the same time keep their
    order. *)
Fixpoint insert_timer (tm : loc → iperf_time) (x : loc) (xs : list loc) : list loc :=
  match xs with
  | [] => [x]
  | y :: ys => if before (tm x) (tm y) then x :: xs else y :: insert_timer tm x ys
  end.

Lemma same_core_time_of h h' : same_core h h' → ∀ x, time_of h' x = time_of h x.
Proof.
  intros H x. specialize (H x). unfold time_of.
  destruct (h !! x) as [t|], (h' !! x) as [t'|]; cbn in H; try done.
  destruct t, t'; cbn in *. by simplify_eq.
Qed.

Lemma insert_timer_perm tm x xs : insert_timer tm x xs ≡ₚ x :: xs.
Proof.
  induction xs as [|y ys IH]; [done|]. cbn. case_match; [done|]. rewrite IH. constructor.
Qed.

Lemma insert_timer_ext tm tm' x xs :
  (∀ y, y = x ∨ y ∈ xs → tm y = tm' y) → insert_timer tm x xs = insert_timer tm' x xs.
Proof.
  intros H. induction xs as [|y ys IH]; [done|]. cbn.
  rewrite (H x), (H y) by set_solver. rewrite IH; [done|]. intros z Hz. apply H. set_solver.
Qed.

Lemma store_ok l f s t : heap s !! l = Some t →
  store l f s = Ok (s <| heap := <[l := f t]> (heap s) |>).
Proof. unfold store. by intros ->. Qed.

Lemma deref_ok l s t : heap s !! l = Some t → deref l s = Ok t.
Proof. unfold deref. by intros ->. Qed.

(** The timers that stay in front of a new one, and those that go behind it. *)
Fixpoint span_before (tm : loc → iperf_time) (key : iperf_time) (xs : list loc) : list loc * list loc :=
  match xs with
  | [] => ([], [])
  | y :: ys => if before key (tm y) then ([], xs)
               else let '(us, vs) := span_before tm key ys in (y :: us, vs)
  end.

Lemma span_before_app tm key xs us vs : span_before tm key xs = (us, vs) → xs = us ++ vs.
Proof.
  revert us. induction xs as [|y ys IH]; intros us; cbn; [by intros [= <- <-]|].
  case_match; [by intros [= <- <-]|]. destruct (span_before tm key ys) as [us' vs'].
  intros [= <- <-]. cbn. f_equal. by apply IH.
Qed.

Lemma insert_timer_span tm x xs us vs :
  span_before tm (tm x) xs = (us, vs) → insert_timer tm x xs = us ++ x :: vs.
Proof.
  revert us. induction xs as [|y ys IH]; intros us; cbn; [by intros [= <- <-]|].
  case_match; [by intros [= <- <-]|]. destruct (span_before tm (tm x) ys) as [us' vs'].
  intros [= <- <-]. cbn. f_equal. by apply IH.
Qed.

(** The walk ends at the insertion point. *)
Lemma find_place_spec fuel key x ys s p us vs :
  dseg (heap s) p ys None → (length ys ≤ fuel)%nat →
  span_before (time_of (heap s)) key ys = (us, vs) →
  find_place fuel key x (first_of ys None) s = Ok (default x (last us), first_of vs None).
Proof.
  revert p x ys us. induction fuel as [|fuel IH]; intros p x [|y ys] us Hs Hf; cbn.
  1,3: by intros [= <- <-].
  { cbn in Hf. lia. }
  destruct Hs as (t & Hy & _ & Hn & Hs). rewrite (deref_ok _ _ _ Hy), Ok_bind.
  assert (time_of (heap s) y = time t) as -> by (unfold time_of; by rewrite Hy).
  unfold before. case_match; [by intros [= <- <-]|].
  destruct (span_before _ key ys) as [us' vs'] eqn:E. intros [= <- <-].
  rewrite Hn, (IH (Some y) y ys us'); [|done|cbn in Hf; lia|done].
  rewrite last_cons. by destruct (last us').
Qed.

(** Linking a record between two segments. *)
Lemma dseg_splice h us y vs x ty tx :
  NoDup (us ++ y :: vs) → x ∉ us ++ y :: vs →
  dseg h None (us ++ y :: vs) None → h !! y = Some ty → h !! x = Some tx →
  let h1 := <[y := set_next (Some x) ty]> h in
  let h2 := <[x := set_next (first_of vs None) (set_prev (Some y) tx)]> h1 in
  let h3 := match vs with
            | [] => h2
            | z :: _ => match h2 !! z with Some tz => <[z := set_prev (Some x) tz]> h2 | None => h2 end
            end in
  dseg h3 None (us ++ y :: x :: vs) None.
Proof.
  intros Hnd Hx Hs Hy Htx h1 h2 h3.
  assert (Hneq : x ≠ y) by set_solver.
  apply dseg_app in Hs as [Hus Hs]. cbn in Hs. destruct Hs as (t' & Hy' & Hp & Hn & Hvs).
  assert (t' = ty) as -> by congruence. clear Hy'.
  assert (Hh3 : ∀ w, w ∉ vs → h3 !! w = h2 !! w).
  { intros w Hw. subst h3. destruct vs as [|z vs']; [done|].
    destruct (h2 !! z); [|done]. rewrite lookup_insert_ne; [done|]. intros ->. apply Hw. by left. }
  apply NoDup_app in Hnd as (Hndu & Hd & [Hyv Hndv]%NoDup_cons).
  apply dseg_app. split; [|cbn].
  { eapply dseg_frame; [|exact Hus]. intros w Hw. rewrite Hh3 by (intros ?; apply (Hd w Hw); by right).
    subst h2 h1. rewrite !lookup_insert_ne; [done|intros ->; by apply (Hd w Hw); left|set_solver]. }
  exists (set_next (Some x) ty). split_and!; [|done|done|].
  { rewrite Hh3 by done. subst h2 h1. by rewrite lookup_insert_ne, lookup_insert_eq. }
  exists (set_next (first_of vs None) (set_prev (Some y) tx)). split_and!; [|done|done|].
  { rewrite Hh3 by set_solver. subst h2. by rewrite lookup_insert_eq. }
  destruct vs as [|z vs']; [done|]. subst h3.
  destruct Hvs as (tz & Hz & Hpz & Hnz & Hvs).
  assert (h2 !! z = Some tz) as Hz2.
  { subst h2 h1. rewrite !lookup_insert_ne; [done|set_solver|set_solver]. }
  rewrite Hz2. apply dseg_set_prev with (p := Some y); [done| |done].
  exists tz. split_and!; try done. subst h2 h1. apply dseg_insert; [set_solver|].
  apply dseg_insert; [set_solver|done].
Qed.

Lemma dseg_size h p xs n : NoDup xs → dseg h p xs n → (length xs ≤ size h)%nat.
Proof.
  intros Hnd Hs. rewrite <- (size_dom h), <- (size_list_to_set (C := gset loc) xs) by done.
  apply subseteq_size. intros x Hx%elem_of_list_to_set. apply elem_of_dom. by eapply dseg_lookup.
Qed.

(** What an operation leaves alone: the data of every timer, the free list, and
    the links of the timers outside [xs]. *)
Record touches (s s' : tmr) (xs : list loc) : Prop := {
  touches_core : same_core (heap s) (heap s');
  touches_free : free_timers s' = free_timers s;
  touches_frame : ∀ y, y ∉ xs → heap s' !! y = heap s !! y
}.

Lemma set_prev_next p n t : set_prev p (set_next n t) = set_next n (set_prev p t).
Proof. done. Qed.

Lemma same_core_store h x t f :
  h !! x = Some t → core (f t) = core t → same_core h (<[x := f t]> h).
Proof. intros. by eapply same_core_insert. Qed.

Lemma frame_insert (h : gmap loc Timer) x t y : y ≠ x → <[x := t]> h !! y = h !! y.
Proof. intros. by rewrite lookup_insert_ne. Qed.

Lemma last_default_app {A} (x : A) us : ∃ us', x :: us = us' ++ [default x (last us)].
Proof.
  destruct us as [|u us] using rev_ind; [by exists []|].
  exists (x :: us). by rewrite last_snoc.
Qed.

(** [list_add] inserts the timer behind the timers that are not later. *)
Lemma list_add_spec s xs x tx :
  active s xs → x ∉ xs → heap s !! x = Some tx →
  ∃ s', list_add x s = Ok s' ∧ active s' (insert_timer (time_of (heap s)) x xs) ∧
        touches s s' (x :: xs).
Proof.
  intros (Ht & Hnd & Hs) Hx Htx. unfold list_add. rewrite Ht.
  destruct xs as [|y ys]; cbn [first_of].
  { rewrite (store_ok x _ (s <| timers := Some x |>) tx) by done. eexists. split; [done|]. split.
    - split_and!; [done|by apply NoDup_singleton|]. cbn. eexists. by rewrite lookup_insert_eq.
    - split; [by eapply same_core_insert|done|]. intros z Hz. apply frame_insert. set_solver. }
  pose proof Hs as (ty & Hy & Hpy & Hny & Hys).
  rewrite (deref_ok _ _ _ Htx), Ok_bind, (deref_ok _ _ _ Hy), Ok_bind.
  assert (time_of (heap s) x = time tx) as Etx by (unfold time_of; by rewrite Htx).
  assert (time_of (heap s) y = time ty) as Ety by (unfold time_of; by rewrite Hy).
  cbn [insert_timer]. rewrite Etx, Ety. unfold before at 1.
  destruct (iperf_time_compare (time tx) (time ty) <? 0) eqn:Ecmp.
  - (* at the head *)
    assert (x ≠ y) by set_solver.
    rewrite (store_ok _ _ _ _ Htx), Ok_bind.
    rewrite (store_ok x _ _ (set_prev None tx)) by apply lookup_insert_eq. rewrite Ok_bind.
    rewrite (store_ok y _ _ ty) by (cbn; by rewrite !lookup_insert_ne). rewrite Ok_bind.
    eexists. split; [done|]. cbn. split; [split_and!; [done|by apply NoDup_cons|]|split].
    + cbn. exists (set_next (Some y) (set_prev None tx)).
      rewrite lookup_insert_ne, lookup_insert_eq by done. split_and!; try done.
      apply dseg_set_prev with (p := None); [done| |by rewrite !lookup_insert_ne].
      do 2 (apply dseg_insert; [done|]). done.
    + cbn. apply (same_core_step _ _ _ ty); [|by rewrite !lookup_insert_ne|done].
      apply (same_core_step _ _ _ (set_prev None tx)); [|by rewrite lookup_insert_eq|done].
      by apply (same_core_insert _ _ tx).
    + done.
    + intros z Hz. cbn. rewrite !lookup_insert_ne; [done|set_solver..].
  - destruct (span_before (time_of (heap s)) (time tx) ys) as [us vs] eqn:Esp.
    rewrite <- Etx in Esp. pose proof (insert_timer_span _ _ _ _ _ Esp) as ->. rewrite Etx in Esp.
    pose proof (span_before_app _ _ _ _ _ Esp) as ->.
    rewrite Hny, (find_place_spec (size (heap s)) (time tx) y (us ++ vs) s (Some y) us vs Hys);
      [|pose proof (dseg_size _ _ _ _ Hnd Hs); cbn in *; lia|done].
    rewrite Ok_bind.
    destruct (last_default_app y us) as [us' Eus]. set (z := default y (last us)) in *.
    assert (y :: us ++ vs = us' ++ z :: vs) as Eall.
    { change (y :: us ++ vs) with ((y :: us) ++ vs). rewrite Eus. by rewrite <- app_assoc. }
    rewrite Eall in *. destruct (dseg_lookup _ _ _ _ z Hs) as [tz Hz]; [set_solver|].
    assert (x ≠ z) by set_solver.
    rewrite (store_ok _ _ _ _ Hz), Ok_bind.
    rewrite (store_ok x _ _ tx) by (cbn; by rewrite lookup_insert_ne). rewrite Ok_bind.
    rewrite (store_ok x _ _ (set_prev (Some z) tx)) by apply lookup_insert_eq. rewrite Ok_bind.
    pose proof (dseg_splice _ _ _ _ _ _ _ Hnd Hx Hs Hz Htx) as Hsp. cbv zeta in Hsp.
    set (h2 := <[x := set_next (first_of vs None) (set_prev (Some z) tx)]>
                 (<[z := set_next (Some x) tz]> (heap s))) in *.
    match goal with |- context [Ok ?S] =>
      replace S with (mk_tmr h2 (timers s) (free_timers s))
        by (unfold update_field; cbn; unfold h2; by rewrite insert_insert_eq) end.
    assert (Hc2 : same_core (heap s) h2).
    { apply (same_core_step _ _ _ tx); [|by rewrite lookup_insert_ne|done].
      by apply (same_core_insert _ _ tz). }
    assert (Hf2 : ∀ w, w ∉ x :: us' ++ z :: vs → h2 !! w = heap s !! w).
    { intros w Hw. unfold h2. rewrite !lookup_insert_ne; [done|set_solver..]. }
    assert (Ex : y :: us ++ x :: vs = us' ++ z :: x :: vs).
    { change (y :: us ++ x :: vs) with ((y :: us) ++ x :: vs). rewrite Eus. by rewrite <- app_assoc. }
    assert (Hnd' : NoDup (us' ++ z :: x :: vs)).
    { rewrite (Permutation_swap x z vs), <- Permutation_middle. by apply NoDup_cons. }
    rewrite Ex. assert (first_of (us' ++ z :: vs) None = first_of (us' ++ z :: x :: vs) None) as Eh
      by (by destruct us').
    destruct vs as [|v vs']; cbn [first_of].
    + eexists. split; [done|]. split; [|done]. split_and!; [by rewrite <- Eh|done|exact Hsp].
    + destruct (h2 !! v) as [tv|] eqn:Ev.
      2: { assert (is_Some (h2 !! v)) as [? ?]; [|congruence].
           eapply dseg_lookup; [exact Hsp|]. set_solver. }
      rewrite (store_ok v _ _ tv) by done. eexists. split; [done|].
      split; [split_and!; [by rewrite <- Eh|done|exact Hsp]|]. split; [|done|].
      * cbn. by apply (same_core_step _ _ _ tv).
      * intros w Hw. cbn. rewrite lookup_insert_ne by set_solver. by apply Hf2.
Qed.

(** Unlinking a record from between two segments. *)
Lemma dseg_unlink h us x vs t :
  NoDup (us ++ x :: vs) → dseg h None (us ++ x :: vs) None → h !! x = Some t →
  t_prev t = last_of None us ∧ t_next t = first_of vs None ∧
  (let h1 := match last us with
             | None => h
             | Some p => match h !! p with
                         | Some tp => <[p := set_next (t_next t) tp]> h | None => h end
             end in
   let h2 := match vs with
             | [] => h1
             | n :: _ => match h1 !! n with
                         | Some tn => <[n := set_prev (t_prev t) tn]> h1 | None => h1 end
             end in
   dseg h2 None (us ++ vs) None ∧ h1 !! x = Some t ∧ h2 !! x = Some t ∧
   (∀ p, last us = Some p → is_Some (h !! p)) ∧ (∀ n, first_of vs None = Some n → is_Some (h1 !! n))).
Proof.
  intros Hnd Hs Hx. apply dseg_app in Hs as [Hus (t' & Hx' & Hp & Hn & Hvs)].
  assert (t' = t) as -> by congruence. clear Hx'. cbv zeta.
  apply NoDup_app in Hnd as (Hndu & Hd & [Hxv Hndv]%NoDup_cons).
  assert (Hxu : x ∉ us) by (intros ?; apply (Hd x); [done|by left]).
  set (h1 := match last us with None => h | Some p => _ end).
  assert (H1 : dseg h1 None us (first_of vs None) ∧ h1 !! x = Some t ∧ dseg h1 (Some x) vs None ∧
               (∀ p, last us = Some p → is_Some (h !! p))).
  { subst h1. destruct us as [|p us'] using rev_ind; [done|]. rewrite last_snoc.
    destruct (dseg_lookup _ _ _ _ p Hus) as [tp Htp]; [set_solver|]. rewrite Htp.
    split_and!.
    - rewrite Hn. by eapply dseg_set_next.
    - rewrite lookup_insert_ne; [done|set_solver].
    - apply dseg_insert; [|done]. intros Hin. apply (Hd p); [set_solver|by right].
    - intros ? [= <-]. by eexists. }
  destruct H1 as (Hus1 & Hx1 & Hvs1 & Hl). clearbody h1.
  split_and!; [done|done| |done| |done|].
  - apply dseg_app. destruct vs as [|n vs']; [done|].
    destruct (dseg_lookup _ _ _ _ n Hvs1) as [tn Htn]; [by left|]. rewrite Htn. split.
    + apply dseg_insert; [|done]. intros Hin. apply (Hd n Hin). right. by left.
    + rewrite Hp. by eapply dseg_set_prev.
  - destruct vs as [|n vs']; [done|]. destruct (h1 !! n); [|done].
    rewrite lookup_insert_ne; [done|set_solver].
  - intros n Hn'. destruct vs as [|n' vs']; [done|]. cbn in Hn'. simplify_eq.
    eapply dseg_lookup; [exact Hvs1|by left].
Qed.

Lemma list_remove_spec s us x vs :
  active s (us ++ x :: vs) →
  ∃ s', list_remove x s = Ok s' ∧ active s' (us ++ vs) ∧ touches s s' (us ++ vs).
Proof.
  intros (Ht & Hnd & Hs). destruct (dseg_lookup _ _ _ _ x Hs) as [t Hx]; [set_solver|].
  destruct (dseg_unlink _ _ _ _ _ Hnd Hs Hx) as (Hp & Hn & Hs2 & Hx1 & Hx2 & Hl & Hf).
  unfold list_remove. rewrite (deref_ok _ _ _ Hx), Ok_bind.
  assert (NoDup (us ++ vs)) as Hnd'.
  { apply NoDup_app in Hnd as (? & Hd & [? ?]%NoDup_cons). apply NoDup_app.
    split_and!; [done| |done]. intros y Hy Hy'. apply (Hd y Hy). by right. }
  set (h1 := match last us with None => heap s | Some p => _ end) in *.
  assert (∃ s1, match t_prev t with
            | None => Ok (s <| timers := t_next t |>)
            | Some p => store p (set_next (t_next t)) s end = Ok s1 ∧
          heap s1 = h1 ∧ timers s1 = first_of (us ++ vs) None ∧ free_timers s1 = free_timers s ∧
          same_core (heap s) h1 ∧ (∀ y, y ∉ us ++ vs → h1 !! y = heap s !! y))
    as (s1 & -> & Hh1 & Ht1 & Hf1 & Hc1 & Hfr1).
  { rewrite Hp. unfold last_of. subst h1. destruct us as [|p us'] using rev_ind.
    - eexists. cbn. split_and!; try done.
    - rewrite last_snoc in *. destruct (Hl p eq_refl) as [tp Htp]. rewrite Htp.
      rewrite (store_ok _ _ _ _ Htp). eexists. split_and!; try done.
      + cbn. rewrite Ht, <- app_assoc. by destruct us'.
      + by eapply same_core_insert.
      + intros y Hy. rewrite lookup_insert_ne; [done|set_solver]. }
  rewrite Ok_bind. rewrite <- Hh1 in *. rewrite (deref_ok _ _ _ Hx1), Ok_bind, Hn.
  destruct vs as [|n vs']; cbn [first_of].
  - exists s1. split; [done|]. split; [by split_and!|by split].
  - destruct (Hf n eq_refl) as [tn Htn]. rewrite Htn in *. rewrite (store_ok _ _ _ _ Htn).
    eexists. split; [done|]. split; [by split_and!|]. split; [|done|].
    + cbn. by apply (same_core_step _ _ _ tn).
    + intros y Hy. cbn. rewrite lookup_insert_ne by set_solver. by apply Hfr1.
Qed.

Lemma touches_le s s' xs ys : touches s s' xs → (∀ x, x ∈ xs → x ∈ ys) → touches s s' ys.
Proof. intros [? ? Hf] H. split; [done|done|]. intros y Hy. apply Hf. auto. Qed.

Lemma touches_trans s1 s2 s3 xs : touches s1 s2 xs → touches s2 s3 xs → touches s1 s3 xs.
Proof.
  intros [C1 F1 H1] [C2 F2 H2]. split; [by etransitivity|congruence|].
  intros y Hy. by rewrite H2, H1.
Qed.

Lemma list_resort_spec s us x vs :
  active s (us ++ x :: vs) →
  ∃ s', list_resort x s = Ok s' ∧ active s' (insert_timer (time_of (heap s)) x (us ++ vs)) ∧
        touches s s' (us ++ x :: vs).
Proof.
  intros Ha. pose proof Ha as (_ & Hnd & Hs).
  destruct (dseg_lookup _ _ _ _ x Hs) as [t Hx]; [set_solver|].
  destruct (list_remove_spec _ _ _ _ Ha) as (s1 & Hr & Ha1 & Ht1).
  unfold list_resort. rewrite Hr, Ok_bind.
  assert (Hx' : x ∉ us ++ vs).
  { apply NoDup_app in Hnd as (? & Hd & [? ?]%NoDup_cons). intros [Hin|Hin]%elem_of_app; [|done].
    apply (Hd x Hin). by left. }
  destruct (list_add_spec s1 (us ++ vs) x t) as (s2 & Hr2 & Ha2 & Ht2); [done|done| |].
  { by rewrite (touches_frame _ _ _ Ht1). }
  exists s2. split; [done|]. split.
  - erewrite insert_timer_ext; [exact Ha2|]. intros y _. symmetry.
    apply same_core_time_of, Ht1.
  - eapply touches_trans; eapply touches_le; [exact Ht1| |exact Ht2|]; set_solver.
Qed.

(** ** Order *)

Lemma before_trans a b c : before b a = false → before c b = false → before c a = false.
Proof.
  unfold before, iperf_time_compare. intros H1 H2. revert H1 H2.
  repeat case_goal; intros; bool_to_prop; try done; lia.
Qed.

Lemma before_total a b : before a b = true → before b a = false.
Proof.
  unfold before, iperf_time_compare. intros H1. revert H1.
  repeat case_goal; intros; bool_to_prop; try done; lia.
Qed.

Definition in_order (tm : loc → iperf_time) (xs : list loc) : Prop :=
  StronglySorted (fun x y => before (tm y) (tm x) = false) xs.

Lemma insert_in_order tm x xs : in_order tm xs → in_order tm (insert_timer tm x xs).
Proof.
  unfold in_order. induction 1 as [|y ys Hs IH Hf]; cbn; [by repeat constructor|].
  destruct (before (tm x) (tm y)) eqn:E.
  - constructor; [by constructor|]. constructor; [by apply before_total|].
    eapply Forall_impl; [exact Hf|]. intros z Hz. cbn in *. eapply before_trans; [|exact Hz].
    by apply before_total.
  - constructor; [done|]. apply Forall_forall. intros z Hz.
    rewrite insert_timer_perm in Hz. apply elem_of_cons in Hz as [->|Hz]; [done|].
    by eapply Forall_forall in Hf.
Qed.

Lemma in_order_ext tm tm' xs :
  (∀ x, x ∈ xs → tm x = tm' x) → in_order tm xs → in_order tm' xs.
Proof.
  unfold in_order. intros He Hs. induction Hs as [|x xs Hs IH Hf]; [constructor|].
  constructor; [apply IH; intros; apply He; by right|].
  apply Forall_forall. intros y Hy. rewrite <- !He by (by constructor; try done; right).
  by eapply Forall_forall in Hf.
Qed.

Lemma in_order_remove tm us x vs : in_order tm (us ++ x :: vs) → in_order tm (us ++ vs).
Proof.
  unfold in_order. induction us as [|u us IH]; cbn; intros Hs; inversion Hs as [|?? Hs' Hf]; subst; [done|].
  constructor; [by apply IH|]. rewrite Forall_app, Forall_cons in Hf. apply Forall_app. naive_solver.
Qed.

(** ** The invariant

    The active list is [xs], in order of time; the free list is [fs]; together
    they are all the timers ever allocated and not freed. *)
Record wf (s : tmr) (xs fs : list loc) : Prop := {
  wf_active : active s xs;
  wf_order : in_order (time_of (heap s)) xs;
  wf_idle : idle s fs;
  wf_nodup : NoDup (xs ++ fs);
  wf_dom : dom (heap s) = list_to_set (xs ++ fs)
}.

Lemma sseg_frame h h' fs : (∀ x, x ∈ fs → h' !! x = h !! x) → sseg h fs → sseg h' fs.
Proof.
  induction fs as [|x fs IH]; intros Hh; [done|]. intros (t & Hx & ? & ?). exists t.
  split_and!; [rewrite Hh; [done|by left]|done|]. apply IH; [|done]. intros. apply Hh. by right.
Qed.

Lemma idle_touches s s' xs fs :
  touches s s' xs → (∀ x, x ∈ fs → x ∉ xs) → idle s fs → idle s' fs.
Proof.
  intros [Hc Hf Hfr] Hd (Hh & Hnd & Hs). split_and!; [congruence|done|].
  eapply sseg_frame; [|done]. auto.
Qed.

Lemma in_order_core h h' xs :
  same_core h h' → in_order (time_of h) xs → in_order (time_of h') xs.
Proof. intros H. apply in_order_ext. intros x _. symmetry. by apply same_core_time_of. Qed.

Lemma insert_timer_core h h' x xs :
  same_core h h' → insert_timer (time_of h') x xs = insert_timer (time_of h) x xs.
Proof. intros H. apply insert_timer_ext. intros y _. by apply same_core_time_of. Qed.

Lemma wf_empty : wf tmr_empty [] [].
Proof. split; try done; repeat constructor. Qed.

(** [tmr_cancel] moves a timer from the queue to the free list. *)
Lemma tmr_cancel_spec s us x vs fs :
  wf s (us ++ x :: vs) fs →
  ∃ s', tmr_cancel x s = Ok s' ∧ wf s' (us ++ vs) (x :: fs) ∧ same_core (heap s) (heap s').
Proof.
  intros [Ha Ho Hi Hnd Hdom]. destruct (list_remove_spec _ _ _ _ Ha) as (s1 & Hr & Ha1 & Ht1).
  unfold tmr_cancel. rewrite Hr, Ok_bind. pose proof Ht1 as [Hc1 Hf1 Hfr1].
  assert (Hnd' : NoDup ((us ++ vs) ++ x :: fs)).
  { assert ((us ++ vs) ++ x :: fs ≡ₚ (us ++ x :: vs) ++ fs) as ->; [|done].
    rewrite <- !app_assoc. apply Permutation_app_head. cbn. symmetry. apply Permutation_middle. }
  apply NoDup_app in Hnd' as Hnd''. destruct Hnd'' as (_ & Hd & [Hxf _]%NoDup_cons).
  assert (Hxu : x ∉ us ++ vs) by (intros Hin; apply (Hd x Hin); by left).
  pose proof Ha as (_ & _ & Hs). destruct (dseg_lookup _ _ _ _ x Hs) as [t Hx]; [set_solver|].
  assert (heap s1 !! x = Some t) as Hx1 by (by rewrite Hfr1).
  rewrite (store_ok _ _ _ _ Hx1), Ok_bind.
  rewrite (store_ok x _ _ (set_next (free_timers s1) t)) by (cbn; apply lookup_insert_eq).
  eexists. split; [done|]. cbn. rewrite insert_insert_eq.
  set (t' := set_prev None (set_next (free_timers s1) t)).
  assert (Hc : same_core (heap s) (<[x := t']> (heap s1))) by (by apply (same_core_step _ _ _ t)).
  split; [|done]. split.
  - destruct Ha1 as (? & ? & ?). split_and!; [done|done|]. cbn. by apply dseg_insert.
  - cbn. eapply in_order_core; [exact Hc|]. by eapply in_order_remove.
  - destruct Hi as (Hh & Hndf & Hsf). split_and!; [done|by apply NoDup_cons|].
    exists t'. cbn. rewrite lookup_insert_eq. split_and!; [done|by rewrite <- Hh, <- Hf1|].
    eapply sseg_frame; [|exact Hsf]. intros y Hy. rewrite lookup_insert_ne by set_solver.
    apply Hfr1. intros Hin. apply (Hd y Hin). by right.
  - done.
  - cbn. rewrite (same_core_dom _ _ Hc), Hdom. set_solver.
Qed.

Lemma time_of_insert h x t y : time_of (<[x := t]> h) y = if decide (y = x) then time t else time_of h y.
Proof.
  unfold time_of. case_decide; subst; [by rewrite lookup_insert_eq|by rewrite lookup_insert_ne].
Qed.

(** A change of a timer's data, its links kept. *)
Definition keeps_links (f : Timer → Timer) : Prop :=
  ∀ t, t_prev (f t) = t_prev t ∧ t_next (f t) = t_next t.

Lemma dseg_keep h p xs n x t f :
  keeps_links f → h !! x = Some t → dseg h p xs n → dseg (<[x := f t]> h) p xs n.
Proof.
  intros Hf Hx. revert p. induction xs as [|y xs IH]; intros p; [done|]. cbn.
  intros (ty & Hy & Hp & Hn & Hs). destruct (decide (y = x)) as [->|].
  - exists (f t). rewrite lookup_insert_eq. assert (ty = t) as -> by congruence.
    destruct (Hf t) as [-> ->]. split_and!; auto.
  - exists ty. rewrite lookup_insert_ne by done. split_and!; auto.
Qed.

Lemma sseg_keep h xs x t f :
  keeps_links f → h !! x = Some t → sseg h xs → sseg (<[x := f t]> h) xs.
Proof.
  intros Hf Hx. induction xs as [|y xs IH]; [done|]. cbn.
  intros (ty & Hy & Hn & Hs). destruct (decide (y = x)) as [->|].
  - exists (f t). rewrite lookup_insert_eq. assert (ty = t) as -> by congruence.
    destruct (Hf t) as [_ ->]. split_and!; auto.
  - exists ty. rewrite lookup_insert_ne by done. split_and!; auto.
Qed.

(** Changing a timer's data and sorting it in again keeps the invariant. *)
Lemma resort_spec s us x vs fs f t :
  wf s (us ++ x :: vs) fs → keeps_links f → heap s !! x = Some t →
  ∃ s', (s ← store x f s; list_resort x s) = Ok s' ∧
    wf s' (insert_timer (time_of (heap s')) x (us ++ vs)) fs ∧
    same_core (<[x := f t]> (heap s)) (heap s').
Proof.
  intros [Ha Ho Hi Hnd Hdom] Hf Hx. rewrite (store_ok _ _ _ _ Hx), Ok_bind.
  set (s1 := s <| heap := <[x := f t]> (heap s) |>).
  assert (Ha1 : active s1 (us ++ x :: vs)).
  { destruct Ha as (? & ? & ?). split_and!; [done|done|]. by apply dseg_keep. }
  destruct (list_resort_spec _ _ _ _ Ha1) as (s2 & Hr & Ha2 & Ht2). exists s2. split; [done|].
  pose proof Ht2 as [Hc2 _ _]. rewrite (insert_timer_core _ _ _ _ Hc2). split; [|done].
  assert (Hxuv : x ∉ us ++ vs).
  { destruct Ha as (_ & Hn & _). apply NoDup_app in Hn as (? & Hd & [? ?]%NoDup_cons).
    intros [Hin|Hin]%elem_of_app; [|done]. apply (Hd x Hin). by left. }
  split; [done| | | |].
  - eapply in_order_core; [exact Hc2|]. apply insert_in_order.
    eapply in_order_ext; [|by eapply in_order_remove].
    intros y Hy. cbn. rewrite time_of_insert, decide_False; [done|by intros ->].
  - eapply idle_touches; [exact Ht2| |].
    + intros y Hy. apply NoDup_app in Hnd as (_ & Hd & _). intros Hin. by apply (Hd y Hin).
    + destruct Hi as (? & ? & ?). split_and!; [done|done|]. by apply sseg_keep.
  - by rewrite insert_timer_perm, Permutation_middle.
  - rewrite (same_core_dom _ _ Hc2). cbn. rewrite dom_insert_L, Hdom.
    apply set_eq. intros y. rewrite elem_of_union, elem_of_singleton, !elem_of_list_to_set, !elem_of_app.
    rewrite insert_timer_perm. set_solver.
Qed.

(** [tmr_reset] restarts a timer at the current time. *)
Lemma tmr_reset_spec s us x vs fs now t :
  wf s (us ++ x :: vs) fs → heap s !! x = Some t →
  ∃ s', tmr_reset now x s = Ok s' ∧
    wf s' (insert_timer (time_of (heap s')) x (us ++ vs)) fs ∧
    same_core (<[x := t <| time := iperf_time_add_usecs now (t_usecs t) |>]> (heap s)) (heap s').
Proof.
  intros Hwf Hx. unfold tmr_reset.
  apply (resort_spec s us x vs fs (fun r => r <| time := iperf_time_add_usecs now (t_usecs r) |>)); done.
Qed.

(** The timer [tmr_create] takes: the head of the free list, or a new one. *)
Definition next_free (fs : list loc) (s : tmr) : loc :=
  match fs with [] => fresh (dom (heap s)) | f :: _ => f end.

Lemma take_timer_spec s xs fs :
  wf s xs fs →
  let x := next_free fs s in
  ∃ s1 t1, take_timer s = Ok (x, s1) ∧ heap s1 !! x = Some t1 ∧ x ∉ xs ∧ x ∉ tail fs ∧
    active s1 xs ∧ idle s1 (tail fs) ∧ (∀ y, y ≠ x → heap s1 !! y = heap s !! y) ∧
    dom (heap s1) = {[x]} ∪ list_to_set (xs ++ tail fs) ∧ NoDup (xs ++ tail fs).
Proof.
  intros [Ha Ho (Hh & Hndf & Hsf) Hnd Hdom] x. unfold take_timer.
  rewrite Hh. subst x. destruct fs as [|f fs']; cbn [first_of next_free tail].
  - pose proof (is_fresh (dom (heap s))) as Hfresh. set (x := fresh (dom (heap s))) in *.
    exists (s <| heap := <[x := new_timer]> (heap s) |>), new_timer.
    rewrite Hdom in Hfresh. rewrite app_nil_r in *.
    split_and!; [done|cbn; by rewrite lookup_insert_eq|set_solver|set_solver| | | | |done].
    + destruct Ha as (? & ? & ?). split_and!; [done|done|]. cbn. apply dseg_insert; [set_solver|done].
    + by split_and!.
    + intros y Hy. cbn. by rewrite lookup_insert_ne.
    + cbn. by rewrite dom_insert_L, Hdom.
  - destruct Hsf as (t & Hft & Hn & Hsf). rewrite (deref_ok _ _ _ Hft), Ok_bind.
    apply NoDup_app in Hnd as (Hn1 & Hd & Hn2). pose proof Hn2 as [Hff Hn3]%NoDup_cons.
    exists (s <| free_timers := t_next t |>), t. split_and!; try done.
    + intros Hin. apply (Hd f Hin). by left.
    + cbn. rewrite Hdom. set_solver.
    + apply NoDup_app. split_and!; [done| |done]. intros y Hy Hy'. apply (Hd y Hy). by right.
Qed.

Lemma tmr_create_spec s xs fs now proc data us per :
  wf s xs fs →
  let x := next_free fs s in
  ∃ s', tmr_create now proc data us per s = Ok (x, s') ∧ x ∉ xs ∧
    wf s' (insert_timer (time_of (heap s')) x xs) (tail fs) ∧
    core <$> heap s' !! x
    = Some (mk_Timer proc data us per (iperf_time_add_usecs now us) None None) ∧
    ∀ y, y ≠ x → core <$> heap s' !! y = core <$> heap s !! y.
Proof.
  intros Hwf x. destruct (take_timer_spec _ _ _ Hwf)
    as (s1 & t1 & Htake & Hx & Hxx & Hxf & Ha1 & Hi1 & Hfr & Hdom1 & Hnd1).
  fold x in Htake, Hx, Hxx, Hxf, Hfr, Hdom1. pose proof (wf_order _ _ _ Hwf) as Ho.
  unfold tmr_create. rewrite Htake.
  rewrite Ok_bind. cbv beta iota.
  rewrite (store_ok _ _ _ _ Hx), Ok_bind.
  set (t2 := fill proc data us per now t1). set (s2 := s1 <| heap := <[x := t2]> (heap s1) |>).
  assert (Ha2 : active s2 xs).
  { destruct Ha1 as (? & ? & ?). split_and!; [done|done|]. by apply dseg_insert. }
  destruct (list_add_spec s2 xs x t2) as (s3 & Hr & Ha3 & Ht3);
    [done|done|apply lookup_insert_eq|].
  rewrite Hr, Ok_bind. exists s3. pose proof Ht3 as [Hc3 Hf3 Hfr3].
  rewrite (insert_timer_core _ _ _ _ Hc3).
  split_and!; [done|done| | |].
  - split; [done| | | |].
    + eapply in_order_core; [exact Hc3|]. apply insert_in_order.
      eapply in_order_ext; [|exact Ho]. intros y Hy. cbn. rewrite time_of_insert.
      rewrite decide_False by (by intros ->). unfold time_of. rewrite Hfr; [done|by intros ->].
    + eapply idle_touches; [exact Ht3| |].
      * intros y Hy [->|Hin]%elem_of_cons; [done|]. apply NoDup_app in Hnd1 as (_ & Hd & _).
        by apply (Hd y Hin).
      * destruct Hi1 as (? & ? & Hs1). split_and!; [done|done|]. eapply sseg_frame; [|exact Hs1].
        intros y Hy. cbn. rewrite lookup_insert_ne; [done|by intros ->].
    + rewrite insert_timer_perm. cbn. apply NoDup_cons. split; [|done]. set_solver.
    + rewrite (same_core_dom _ _ Hc3). cbn. rewrite dom_insert_L, Hdom1.
      apply set_eq. intros y. rewrite !elem_of_union, elem_of_singleton, !elem_of_list_to_set, !elem_of_app.
      rewrite insert_timer_perm. set_solver.
  - rewrite (Hc3 x). cbn. by rewrite lookup_insert_eq.
  - intros y Hy. rewrite (Hc3 y). cbn. rewrite lookup_insert_ne by done. by rewrite Hfr.
Qed.

(** [tmr_timeout] gives the time until the earliest timer, 0 if it is due. *)
Lemma tmr_timeout_spec s x xs fs now :
  wf s (x :: xs) fs → normalized now → normalized (time_of (heap s) x) →
  tmr_timeout now s =
    let us := Z.max 0 (value (time_of (heap s) x) - value now) in
    Ok (Some (us / 1000000, us mod 1000000)).
Proof.
  intros [(Ht & _ & t & Hx & _) _ _ _ _] Hn Hx'. unfold tmr_timeout. rewrite Ht.
  cbn [first_of]. rewrite (deref_ok _ _ _ Hx), Ok_bind.
  assert (time_of (heap s) x = time t) as E by (unfold time_of; by rewrite Hx). rewrite E in *.
  pose proof (iperf_time_diff_value (time t) now Hx' Hn) as Hd.
  destruct (iperf_time_diff (time t) now) as [past d]. destruct Hd as (_ & Hd & ->).
  pose proof (value_range _ Hn). pose proof (value_range _ Hx'). rewrite Hd. cbv zeta.
  case_bool_decide.
  - change (1 =? 0) with false. cbv iota. rewrite Z.max_l by lia. done.
  - change (0 =? 0) with true. cbv iota. rewrite wraps_id by (unfold in_s; lia).
    rewrite Z.max_r, Z.abs_eq, Z.quot_div_nonneg, Z.rem_mod_nonneg by lia. done.
Qed.

Lemma tmr_cancel_all_spec fuel s xs fs :
  wf s xs fs → (length xs ≤ fuel)%nat →
  ∃ s' fs', tmr_cancel_all fuel s = Ok s' ∧ wf s' [] fs' ∧ length fs' = length (xs ++ fs).
Proof.
  revert s xs fs. induction fuel as [|fuel IH]; intros s [|x xs] fs Hwf Hf; cbn [tmr_cancel_all];
    pose proof (wf_active _ _ _ Hwf) as (-> & _); cbn [first_of].
  1,3: by eauto.
  { cbn in Hf. lia. }
  destruct (tmr_cancel_spec s [] x xs fs Hwf) as (s1 & -> & Hwf1 & _). rewrite Ok_bind.
  destruct (IH s1 xs (x :: fs) Hwf1) as (s2 & fs2 & ? & ? & Hl); [cbn in Hf; lia|].
  exists s2, fs2. split_and!; [done|done|]. rewrite Hl, !length_app. cbn. lia.
Qed.

Lemma tmr_cleanup_loop_spec fuel s fs :
  wf s [] fs → (length fs ≤ fuel)%nat → tmr_cleanup_loop fuel s = Ok tmr_empty.
Proof.
  revert s fs. induction fuel as [|fuel IH]; intros s [|f fs] Hwf Hf; cbn [tmr_cleanup_loop];
    pose proof Hwf as [(Ht & _) _ (-> & Hndf & Hsf) Hnd Hdom]; cbn [first_of].
  1,3: f_equal; destruct s as [h t f']; cbn in *; apply dom_empty_inv_L in Hdom;
       pose proof (wf_idle _ _ _ Hwf) as (E & _); cbn in E; by subst.
  { cbn in Hf. lia. }
  destruct Hsf as (t & Hft & Hn & Hsf). rewrite (deref_ok _ _ _ Hft), Ok_bind.
  apply NoDup_cons in Hndf as [Hff Hndf]. apply (IH _ fs); [|cbn in Hf; lia].
  split; [split_and!; [done|constructor|done]|constructor| | |].
  - split_and!; [done|done|]. cbn. eapply sseg_frame; [|exact Hsf]. intros y Hy.
    rewrite lookup_delete_ne; [done|by intros ->].
  - done.
  - cbn. rewrite dom_delete_L, Hdom. cbn. set_solver.
Qed.

Lemma wf_size s xs fs : wf s xs fs → size (heap s) = length (xs ++ fs).
Proof.
  intros [_ _ _ Hnd Hdom]. by rewrite <- size_dom, Hdom, size_list_to_set.
Qed.

(** [tmr_destroy] leaves nothing allocated. *)
Lemma tmr_destroy_spec s xs fs : wf s xs fs → tmr_destroy s = Ok tmr_empty.
Proof.
  intros Hwf. unfold tmr_destroy. pose proof (wf_size _ _ _ Hwf) as Hsz.
  destruct (tmr_cancel_all_spec (size (heap s)) s xs fs Hwf) as (s1 & fs1 & -> & Hwf1 & Hl).
  { rewrite Hsz, length_app. lia. }
  rewrite Ok_bind. unfold tmr_cleanup. apply (tmr_cleanup_loop_spec _ _ fs1 Hwf1).
  rewrite (wf_size _ _ _ Hwf1). done.
Qed.

(** ** Running the due timers

    The callbacks of iperf3 change the test, never the timers: [eff] is what
    they do to the world.  [due] is the test of the loop. *)
Definition due (now : iperf_time) (h : gmap loc Timer) (x : loc) : bool :=
  negb (iperf_time_compare (time_of h x) now >? 0).

Definition oneshot (h : gmap loc Timer) (x : loc) : bool :=
  match h !! x with Some t => negb (periodic t) | None => false end.

(** The fields no operation on the queue changes. *)
Definition static (t : Timer) : Z * Z * Z * bool :=
  (timer_proc t, client_data t, t_usecs t, periodic t).

Lemma insert_app_before tm x ps y rs :
  before (tm x) (tm y) = true → insert_timer tm x (ps ++ y :: rs) = insert_timer tm x ps ++ y :: rs.
Proof.
  intros H. induction ps as [|p ps IH]; cbn; [by rewrite H|]. case_match; [done|]. by rewrite IH.
Qed.

Lemma insert_app_behind tm x ps rs :
  Forall (fun p => before (tm x) (tm p) = false) ps →
  insert_timer tm x (ps ++ rs) = ps ++ insert_timer tm x rs.
Proof. induction 1 as [|p ps Hp _ IH]; cbn; [done|]. by rewrite Hp, IH. Qed.

Lemma in_order_app tm ps rs :
  in_order tm (ps ++ rs) → ∀ p r, p ∈ ps → r ∈ rs → before (tm r) (tm p) = false.
Proof.
  unfold in_order. induction ps as [|q ps IH]; cbn; intros Hs p r Hp Hr; [by apply elem_of_nil in Hp|].
  inversion Hs as [|?? Hs' Hf]; subst. apply elem_of_cons in Hp as [->|Hp]; [|by apply IH].
  rewrite Forall_forall in Hf. apply Hf. set_solver.
Qed.

(** Where the loop stands after a periodic timer was sorted in again: the timers
    before the saved [next] pointer, and those from it on. *)
Lemma insert_around_next tm x ps rs :
  in_order tm (ps ++ rs) →
  ∃ ps' rs', insert_timer tm x (ps ++ rs) = ps' ++ rs' ∧ first_of rs' None = first_of rs None ∧
    (∀ y, y ∈ ps' → y = x ∨ y ∈ ps) ∧ (rs' = rs ∨ rs' = insert_timer tm x rs ∧ rs ≠ []).
Proof.
  intros Ho. destruct rs as [|y rs].
  { exists (insert_timer tm x ps), []. rewrite !app_nil_r. split_and!; [done|done| |auto].
    intros z Hz. rewrite insert_timer_perm in Hz. by apply elem_of_cons in Hz. }
  destruct (before (tm x) (tm y)) eqn:E.
  - exists (insert_timer tm x ps), (y :: rs). rewrite insert_app_before by done.
    split_and!; [done|done| |auto]. intros z Hz. rewrite insert_timer_perm in Hz.
    by apply elem_of_cons in Hz.
  - exists ps, (insert_timer tm x (y :: rs)). split_and!; [|cbn; by rewrite E|auto|auto].
    apply insert_app_behind, Forall_forall. intros p Hp. eapply before_trans; [|exact E].
    eapply in_order_app; [exact Ho|done|by left].
Qed.

Section TmrRunSpec.
Context {W : Type} (proc : Z → Z → iperf_time → W → tmr → outcome (W * tmr)).
Context (eff : Z → Z → W → W) (now : iperf_time).
Hypothesis proc_passive : ∀ p d w s, proc p d now w s = Ok (eff p d w, s).
Context (horizon : Z).
Hypothesis now_normalized : normalized now.
Hypothesis horizon_ok : value now + horizon < 2 ^ 32 * 1000000.

Definition timer_ok (h : gmap loc Timer) (x : loc) : Prop :=
  ∃ t, h !! x = Some t ∧ normalized (time t) ∧ (periodic t = true → 0 < t_usecs t ≤ horizon).

(** The microseconds the timers still to visit may catch up. *)
Definition lag (h : gmap loc Timer) (x : loc) : nat :=
  Z.to_nat (value now - value (time_of h x) + 1).
Definition total_lag (h : gmap loc Timer) (xs : list loc) : nat := sum_list (map (lag h) xs).

Definition call (h : gmap loc Timer) (w : W) (x : loc) : W :=
  match h !! x with Some t => eff (timer_proc t) (client_data t) w | None => w end.

(** Two heaps with the same data apart from times. *)
Definition same_static (h h' : gmap loc Timer) : Prop :=
  ∀ x, static <$> h' !! x = static <$> h !! x.

Lemma same_core_static h h' : same_core h h' → same_static h h'.
Proof.
  intros H x. specialize (H x). destruct (h !! x) as [t|], (h' !! x) as [t'|]; try done.
  cbn in *. f_equal. unfold static. destruct t, t'. unfold core, set_next, set_prev, update_field in H. cbn in H. cbn. congruence.
Qed.

Lemma oneshot_static h h' x : same_static h h' → oneshot h' x = oneshot h x.
Proof.
  intros H. specialize (H x). unfold oneshot.
  destruct (h !! x) as [t|], (h' !! x) as [t'|]; try done. cbn in H. unfold static in H.
  congruence.
Qed.

Lemma call_static h h' w x : same_static h h' → call h' w x = call h w x.
Proof.
  intros H. specialize (H x). unfold call.
  destruct (h !! x) as [t|], (h' !! x) as [t'|]; try done. cbn in H. unfold static in H.
  congruence.
Qed.

Lemma calls_static h h' w xs : same_static h h' → foldl (call h') w xs = foldl (call h) w xs.
Proof.
  intros H. revert w. induction xs as [|x xs IH]; intros w; [done|]. cbn. by rewrite IH, (call_static h).
Qed.

Lemma filter_oneshot_static h h' (xs : list loc) : same_static h h' →
  filter (fun x => oneshot h' x = true) xs = filter (fun x => oneshot h x = true) xs.
Proof. intros H. apply list_filter_iff. intros x. by rewrite (oneshot_static h). Qed.

Lemma timer_ok_core h h' x : same_core h h' → timer_ok h x → timer_ok h' x.
Proof.
  intros H (t & Hx & Hn & Hp). specialize (H x). rewrite Hx in H.
  destruct (h' !! x) as [t'|] eqn:E; [|done]. cbn in H. apply (inj Some) in H. exists t'.
  destruct t, t'. cbn in *. simplify_eq. done.
Qed.

Lemma due_before h x : due now h x = negb (before now (time_of h x)).
Proof.
  unfold due, before. f_equal. unfold iperf_time_compare. repeat case_goal; bool_to_prop; (done || lia).
Qed.

(** A run visits each timer no later than [now], in order, and what it leaves
    in the queue are the timers that are periodic or not yet due. *)
Definition ran (s : tmr) (rs fs : list loc) (w w' : W) (s' : tmr) (fired queue : list loc) : Prop :=
  w' = foldl (call (heap s)) w fired ∧
  wf s' queue (reverse (filter (fun x => oneshot (heap s) x = true) fired) ++ fs) ∧
  same_static (heap s) (heap s') ∧
  (∀ x, x ∈ fired → x ∈ rs ∧ due now (heap s) x = true) ∧
  (∀ x, x ∈ queue → due now (heap s') x = true → oneshot (heap s) x = false) ∧
  (∀ x, x ∉ fired → time_of (heap s') x = time_of (heap s) x).

Lemma tmr_run_stop s ps rs fs w :
  wf s (ps ++ rs) fs →
  (∀ p, p ∈ ps → due now (heap s) p = true → oneshot (heap s) p = false) →
  (∀ x, x ∈ rs → due now (heap s) x = false) →
  ran s rs fs w w s [] (ps ++ rs).
Proof.
  intros Hwf Hps Hrs. split_and!; try done; [by intros x ?%elem_of_nil|].
  intros x [Hx|Hx]%elem_of_app; [by apply Hps|]. by rewrite Hrs.
Qed.

Lemma tmr_run_oneshot s ps x rs fs w t :
  wf s (ps ++ x :: rs) fs → heap s !! x = Some t → periodic t = false →
  due now (heap s) x = true →
  ∃ s1, tmr_cancel x s = Ok s1 ∧ wf s1 (ps ++ rs) (x :: fs) ∧ same_core (heap s) (heap s1) ∧
    ∀ w' s' fired queue, ran s1 rs (x :: fs) (eff (timer_proc t) (client_data t) w) w' s' fired queue →
      ran s (x :: rs) fs w w' s' (x :: fired) queue.
Proof.
  intros Hwf Hx Hp Hd. destruct (tmr_cancel_spec _ _ _ _ _ Hwf) as (s1 & Hc & Hwf1 & Hcore).
  exists s1. split_and!; [done..|]. intros w' s' fired queue (Hw & Hq & Hst & Hf & Hl & Ho).
  pose proof (same_core_static _ _ Hcore) as Hs1.
  assert (oneshot (heap s) x = true) as Hos by (unfold oneshot; by rewrite Hx, Hp).
  split_and!.
  - rewrite Hw, (calls_static (heap s)) by done. cbn. unfold call at 3. by rewrite Hx.
  - rewrite filter_cons_True by done. rewrite reverse_cons, <- app_assoc.
    by rewrite (filter_oneshot_static (heap s)) in Hq.
  - intros y. by rewrite (Hst y).
  - intros y [->|Hy]%elem_of_cons; [split; [by left|done]|].
    destruct (Hf y Hy) as [? Hdy]. split; [by right|].
    rewrite due_before in *. by rewrite <- (same_core_time_of _ _ Hcore).
  - intros y Hy Hdy. rewrite <- (oneshot_static (heap s) (heap s1)) by done. by apply Hl.
  - intros y Hy. rewrite Ho by set_solver. by apply same_core_time_of.
Qed.

(** One iteration on a periodic timer, up to the recursive call. *)
Lemma tmr_run_periodic s ps x rs fs w t :
  wf s (ps ++ x :: rs) fs → heap s !! x = Some t → periodic t = true →
  Forall (timer_ok (heap s)) (ps ++ x :: rs) →
  (∀ p, p ∈ ps → due now (heap s) p = true → oneshot (heap s) p = false) →
  due now (heap s) x = true →
  ∃ s1 ps1 rs1,
    (s ← store x (fun r => r <| time := iperf_time_add_usecs (time r) (t_usecs r) |>) s;
     list_resort x s) = Ok s1 ∧
    wf s1 (ps1 ++ rs1) fs ∧ first_of rs1 None = first_of rs None ∧
    Forall (timer_ok (heap s1)) (ps1 ++ rs1) ∧
    (∀ p, p ∈ ps1 → due now (heap s1) p = true → oneshot (heap s1) p = false) ∧
    (total_lag (heap s1) rs1 < total_lag (heap s) (x :: rs))%nat ∧
    ∀ w' s' fired queue, ran s1 rs1 fs (eff (timer_proc t) (client_data t) w) w' s' fired queue →
      ran s (x :: rs) fs w w' s' (x :: fired) queue.
Proof.
  intros Hwf Hx Hp Hok Hps Hd.
  set (f := fun r => r <| time := iperf_time_add_usecs (time r) (t_usecs r) |>).
  destruct (resort_spec s ps x rs fs f t Hwf ltac:(done) Hx) as (s1 & Hr & Hwf1 & Hcore).
  assert (Hxx : x ∉ ps ++ rs).
  { destruct Hwf as [(_ & Hn & _) _ _ _ _]. apply NoDup_app in Hn as (? & Hdj & [? ?]%NoDup_cons).
    intros [Hin|Hin]%elem_of_app; [|done]. apply (Hdj x Hin). by left. }
  assert (Hst : same_static (heap s) (heap s1)).
  { intros y. rewrite (same_core_static _ _ Hcore y).
    destruct (decide (y = x)) as [->|]; [by rewrite lookup_insert_eq, Hx|by rewrite lookup_insert_ne]. }
  assert (Htm : ∀ y, y ≠ x → time_of (heap s1) y = time_of (heap s) y).
  { intros y Hy. rewrite (same_core_time_of _ _ Hcore), time_of_insert. by rewrite decide_False. }
  assert (Htx : time_of (heap s1) x = iperf_time_add_usecs (time t) (t_usecs t)).
  { rewrite (same_core_time_of _ _ Hcore), time_of_insert. by rewrite decide_True. }
  assert (Hos : oneshot (heap s) x = false) by (unfold oneshot; by rewrite Hx, Hp).
  assert (Ho1 : in_order (time_of (heap s1)) (ps ++ rs)).
  { eapply in_order_ext; [|eapply in_order_remove, Hwf]. intros y Hy. symmetry. apply Htm. by intros ->. }
  destruct (insert_around_next _ x _ _ Ho1) as (ps1 & rs1 & Ei & Ef & Hps1 & Hrs1).
  assert (Hperm : ps1 ++ rs1 ≡ₚ ps ++ x :: rs) by (rewrite <- Ei, insert_timer_perm; apply Permutation_middle).
  rewrite Forall_forall in Hok. destruct (Hok x) as (t' & Hx' & Hnt & Hus); [set_solver|].
  assert (t' = t) as -> by congruence. specialize (Hus Hp).
  assert (Htv : value (time t) ≤ value now).
  { unfold due, time_of in Hd. rewrite Hx, compare_gt in Hd by done.
    apply negb_true_iff, bool_decide_eq_false in Hd. lia. }
  assert (Hvx : value (time_of (heap s1) x) = value (time t) + t_usecs t)
    by (rewrite Htx; apply add_usecs_value; [done|lia|lia]).
  exists s1, ps1, rs1. split_and!; [done| |done| | | |].
  - by rewrite <- Ei.
  - rewrite Hperm. apply Forall_forall. intros y Hy. eapply timer_ok_core; [exact Hcore|].
    destruct (decide (y = x)) as [->|].
    + exists (f t). rewrite lookup_insert_eq. split_and!; [done|apply add_usecs_normalized|done].
    + destruct (Hok y Hy) as (ty & Hty & ?). exists ty. by rewrite lookup_insert_ne.
  - intros y Hy Hdy. rewrite (oneshot_static (heap s)) by done.
    destruct (decide (y = x)) as [->|]; [done|]. destruct (Hps1 y Hy) as [?|Hy']; [done|].
    apply Hps; [done|]. rewrite due_before in *. by rewrite <- Htm.
  - assert (∀ ys, x ∉ ys → total_lag (heap s1) ys = total_lag (heap s) ys) as Hlag.
    { intros ys Hys. unfold total_lag. f_equal. apply map_ext_in. intros y Hy.
      unfold lag. rewrite Htm; [done|]. intros ->. by apply Hys, list_elem_of_In. }
    assert (lag (heap s1) x < lag (heap s) x)%nat.
    { unfold lag. rewrite Hvx. unfold time_of. rewrite Hx. lia. }
    destruct Hrs1 as [->|[-> _]].
    + rewrite Hlag by set_solver. unfold total_lag. cbn. lia.
    + assert (∀ ys, total_lag (heap s1) (insert_timer (time_of (heap s1)) x ys)
                    = (lag (heap s1) x + total_lag (heap s1) ys)%nat) as ->.
      { intros ys. unfold total_lag. by rewrite insert_timer_perm. }
      rewrite Hlag by set_solver. unfold total_lag. cbn. lia.
  - intros w' s' fired queue (Hw & Hq & Hst' & Hf & Hl & Ho). split_and!.
    + rewrite Hw, (calls_static (heap s)) by done. cbn. unfold call at 3. by rewrite Hx.
    + rewrite filter_cons_False by (by rewrite Hos).
      by rewrite (filter_oneshot_static (heap s)) in Hq.
    + intros y. by rewrite (Hst' y).
    + intros y [->|Hy]%elem_of_cons; [split; [by left|done]|].
      destruct (Hf y Hy) as [Hin Hdy].
      destruct (decide (y = x)) as [->|]; [split; [by left|done]|].
      split; [|rewrite due_before in *; by rewrite <- Htm].
      destruct Hrs1 as [->|[-> _]]; [by right|]. by rewrite insert_timer_perm in Hin.
    + intros y Hy Hdy. rewrite <- (oneshot_static (heap s) (heap s1)) by done. by apply Hl.
    + intros y Hy. rewrite Ho by set_solver. apply Htm. set_solver.
Qed.

Lemma tmr_run_loop fuel s ps rs fs w :
  wf s (ps ++ rs) fs → Forall (timer_ok (heap s)) (ps ++ rs) →
  (∀ p, p ∈ ps → due now (heap s) p = true → oneshot (heap s) p = false) →
  (total_lag (heap s) rs < fuel)%nat →
  ∃ w' s' fired queue, tmr_run_from proc fuel now (first_of rs None) w s = Ok (w', s') ∧
    ran s rs fs w w' s' fired queue.
Proof.
  revert s ps rs fs w. induction fuel as [|fuel IH]; intros s ps [|x rs] fs w Hwf Hok Hps Hf;
    cbn [first_of tmr_run_from]; [| lia | |].
  1-2: exists w, s, [], (ps ++ []); split; [done|]; apply tmr_run_stop; [done..|];
       by intros ? ?%elem_of_nil.
  rewrite Forall_forall in Hok. destruct (Hok x) as (t & Hx & Hnt & Hus); [set_solver|].
  rewrite (deref_ok _ _ _ Hx), Ok_bind.
  assert (time_of (heap s) x = time t) as Et by (unfold time_of; by rewrite Hx).
  assert (t_next t = first_of rs None) as Enext.
  { destruct Hwf as [(_ & _ & Hs) _ _ _ _]. apply dseg_app in Hs as [_ (t' & Hx' & _ & Hn & _)].
    congruence. }
  destruct (iperf_time_compare (time t) now >? 0) eqn:Ec.
  { exists w, s, [], (ps ++ x :: rs). split; [done|]. apply tmr_run_stop; [done..|].
    assert (due now (heap s) x = false) as Hx0 by (unfold due; by rewrite Et, Ec).
    intros y Hy. apply elem_of_cons in Hy as [->|Hy]; [done|].
    pose proof (wf_order _ _ _ Hwf) as Ho. unfold in_order in Ho.
    change (ps ++ x :: rs) with (ps ++ [x] ++ rs) in Ho. rewrite app_assoc in Ho.
    pose proof (in_order_app _ _ _ Ho x y ltac:(set_solver) Hy) as Hyx.
    rewrite due_before in *. apply negb_false_iff in Hx0. apply negb_false_iff.
    destruct (before now (time_of (heap s) y)) eqn:E; [done|].
    by rewrite (before_trans _ _ _ Hyx E) in Hx0. }
  assert (Hdue : due now (heap s) x = true) by (unfold due; by rewrite Et, Ec).
  rewrite proc_passive, Ok_bind. cbv beta iota. rewrite (deref_ok _ _ _ Hx), Ok_bind, Enext.
  destruct (periodic t) eqn:Ep.
  - destruct (tmr_run_periodic s ps x rs fs w t) as (s1 & ps1 & rs1 & -> & Hwf1 & <- & Hok1 & Hps1 & Hlag & Hran);
      [done..|by apply Forall_forall|done|done|].
    rewrite Ok_bind. destruct (IH s1 ps1 rs1 fs (eff (timer_proc t) (client_data t) w))
      as (w' & s' & fired & queue & Hr & Hrn); [done..|lia|].
    exists w', s', (x :: fired), queue. split; [done|]. by apply Hran.
  - destruct (tmr_run_oneshot s ps x rs fs w t) as (s1 & -> & Hwf1 & Hcore & Hran); [done..|].
    rewrite Ok_bind. destruct (IH s1 ps rs (x :: fs) (eff (timer_proc t) (client_data t) w))
      as (w' & s' & fired & queue & Hr & Hrn); [done| | | |].
    + apply Forall_forall. intros y Hy. eapply timer_ok_core; [exact Hcore|]. apply Hok. set_solver.
    + intros p Hp' Hdp. rewrite (oneshot_static (heap s)) by by apply same_core_static.
      apply Hps; [done|]. rewrite due_before in *. by rewrite <- (same_core_time_of _ _ Hcore).
    + unfold total_lag in *. cbn in Hf.
      assert (map (lag (heap s1)) rs = map (lag (heap s)) rs) as ->.
      { apply map_ext. intros y. unfold lag. by rewrite (same_core_time_of _ _ Hcore). }
      assert (0 < lag (heap s) x)%nat; [|lia].
      unfold lag. rewrite Et. unfold due in Hdue. rewrite Et, compare_gt in Hdue by done.
      apply negb_true_iff, bool_decide_eq_false in Hdue. lia.
    + exists w', s', (x :: fired), queue. split; [done|]. by apply Hran.
Qed.
End TmrRunSpec.

(** ** Properties *)

(** A queue of two timers: number 1, periodic, due at 3 s, behind number 2,
    one-shot, due a microsecond before. *)
Definition two_timers : tmr :=
  mk_tmr {[ 1%positive := mk_Timer 7 70 2000000 true (mk_time 3 0) (Some 2%positive) None;
            2%positive := mk_Timer 8 80 1000000 false (mk_time 2 999999) None (Some 1%positive) ]}
    (Some 2%positive) None.

Lemma two_timers_wf : wf two_timers [2%positive; 1%positive] [].
Proof.
  split.
  - split_and!; [done|decided|]. by repeat (eexists; split_and!; [reflexivity..|]).
  - repeat constructor.
  - split_and!; [done|constructor|done].
  - decided.
  - decided.
Qed.

(** [tmr_create] takes a timer that is not in use (the head of the free
    list, or a new one), fills it with the arguments and a deadline [us] after
    [now], and inserts it into the queue behind the timers that are not later;
    the queue stays sorted and correctly linked, no other timer changes. *)
Theorem tmr_create_inserts s xs fs now proc data us per :
  wf s xs fs →
  let x := next_free fs s in
  ∃ s', tmr_create now proc data us per s = Ok (x, s') ∧ x ∉ xs ∧
    wf s' (insert_timer (time_of (heap s')) x xs) (tail fs) ∧
    core <$> heap s' !! x
    = Some (mk_Timer proc data us per (iperf_time_add_usecs now us) None None) ∧
    ∀ y, y ≠ x → core <$> heap s' !! y = core <$> heap s !! y.
Proof. apply tmr_create_spec. Qed.

Lemma tmr_create_inserts_witness :
  ∃ s', tmr_create (mk_time 1 0) 9 90 1500000 false two_timers = Ok (3%positive, s') ∧
    wf s' (insert_timer (time_of (heap s')) 3%positive [2%positive; 1%positive]) [].
Proof.
  destruct (tmr_create_inserts two_timers [2%positive; 1%positive] [] (mk_time 1 0) 9 90 1500000 false
    two_timers_wf) as (s' & Hr & _ & Hw & _). exists s'. split; [exact Hr|exact Hw].
Defined.

(** [tmr_cancel] unlinks a timer from wherever it is in the queue and puts it
    on the free list; the other timers keep their order, data and deadlines. *)
Theorem tmr_cancel_removes s us x vs fs :
  wf s (us ++ x :: vs) fs →
  ∃ s', tmr_cancel x s = Ok s' ∧ wf s' (us ++ vs) (x :: fs) ∧ same_core (heap s) (heap s').
Proof. apply tmr_cancel_spec. Qed.

Lemma tmr_cancel_removes_witness :
  ∃ s', tmr_cancel 1%positive two_timers = Ok s' ∧ wf s' [2%positive] [1%positive] ∧
    same_core (heap two_timers) (heap s').
Proof. apply (tmr_cancel_removes two_timers [2%positive] 1%positive [] [] two_timers_wf). Defined.

(** [tmr_reset] moves a timer's deadline to its interval from now and sorts
    it into the queue again. *)
Theorem tmr_reset_restarts s us x vs fs now t :
  wf s (us ++ x :: vs) fs → heap s !! x = Some t →
  ∃ s', tmr_reset now x s = Ok s' ∧
    wf s' (insert_timer (time_of (heap s')) x (us ++ vs)) fs ∧
    same_core (<[x := t <| time := iperf_time_add_usecs now (t_usecs t) |>]> (heap s)) (heap s').
Proof. apply tmr_reset_spec. Qed.

Lemma tmr_reset_restarts_witness :
  ∃ s', tmr_reset (mk_time 9 0) 2%positive two_timers = Ok s' ∧
    wf s' (insert_timer (time_of (heap s')) 2%positive [1%positive]) [].
Proof.
  destruct (tmr_reset_restarts two_timers [] 2%positive [1%positive] [] (mk_time 9 0)
    (mk_Timer 8 80 1000000 false (mk_time 2 999999) None (Some 1%positive)) two_timers_wf eq_refl)
    as (s' & Hr & Hw & _). exists s'. split; [exact Hr|exact Hw].
Defined.

(** [tmr_timeout] returns the time until the earliest deadline, split into
    seconds and microseconds, and 0 when that deadline has passed. *)
Theorem tmr_timeout_earliest s x xs fs now :
  wf s (x :: xs) fs → normalized now → normalized (time_of (heap s) x) →
  tmr_timeout now s =
    let us := Z.max 0 (value (time_of (heap s) x) - value now) in
    Ok (Some (us / 1000000, us mod 1000000)).
Proof. apply tmr_timeout_spec. Qed.

Lemma tmr_timeout_earliest_witness : tmr_timeout (mk_time 0 250000) two_timers = Ok (Some (2, 749999)).
Proof.
  apply (tmr_timeout_earliest two_timers 2%positive [1%positive] [] (mk_time 0 250000) two_timers_wf); decided.
Defined.


(** The world of the witness is the list of calls. *)
Definition log_call (p d : Z) (now : iperf_time) (w : list (Z * Z)) (s : tmr)
  : outcome (list (Z * Z) * tmr) := Ok ((p, d) :: w, s).


(** [tmr_destroy] frees every timer, active or free, and leaves no timer
    reachable or allocated. *)
Theorem tmr_destroy_frees s xs fs : wf s xs fs → tmr_destroy s = Ok tmr_empty.
Proof. apply tmr_destroy_spec. Qed.

Lemma tmr_destroy_frees_witness : tmr_destroy two_timers = Ok tmr_empty.
Proof. exact (tmr_destroy_frees two_timers [2%positive; 1%positive] [] two_timers_wf). Defined.
