(* ===== verification/Test.v ===== *)
(** * The test record ([src/iperf.h]) and its setters ([src/iperf_api.c])

    [struct iperf_test] with its settings, streams and results, as far as the
    components of this development use them.  The field [i_errno] is the global
    of that name.  A pointer to a string is an [option]; a protocol is its id;
    fields that repeat between structures carry the structure's prefix
    ([rs_] for [iperf_stream_result], [ir_] for [iperf_interval_results],
    [sp_] for [iperf_stream]). *)

From S2P Require Import Prelude Errno CInt CDouble Json IperfTime.

(** ** Constants *)

Definition Ptcp : Z := 1.
Definition Pudp : Z := 2.
Definition Psctp : Z := 12.
Definition Pquic : Z := 256.

Definition SENDER : Z := 1.
Definition RECEIVER : Z := 0.
Definition BIDIRECTIONAL : Z := -1.

(** Address families on Linux *)
Definition AF_UNSPEC : Z := 0.
Definition AF_INET : Z := 2.
Definition AF_INET6 : Z := 10.

Definition OMIT : Z := 0.
Definition DURATION : Z := 10.
Definition PORT : Z := 5201.
Definition DEFAULT_TCP_BLKSIZE : Z := 128 * 1024.
Definition DEFAULT_PACING_TIMER : Z := 1000.
Definition DEFAULT_NO_MSG_RCVD_TIMEOUT : Z := 120000.
Definition SEC_TO_mS : Z := 1000.
Definition mS_TO_US : Z := 1000.
Definition MAX_INTERVAL : Z := 60.
Definition COOKIE_SIZE : nat := 37.

(** Control states *)
Definition TEST_START : Z := 1.
Definition TEST_RUNNING : Z := 2.
Definition TEST_END : Z := 4.
Definition PARAM_EXCHANGE : Z := 9.
Definition CREATE_STREAMS : Z := 10.
Definition SERVER_TERMINATE : Z := 11.
Definition CLIENT_TERMINATE : Z := 12.
Definition EXCHANGE_RESULTS : Z := 13.
Definition DISPLAY_RESULTS : Z := 14.
Definition IPERF_START : Z := 15.
Definition IPERF_DONE : Z := 16.
Definition ACCESS_DENIED : Z := -1.
Definition SERVER_ERROR : Z := -2.

(** Error numbers *)

(** ** Data *)

Record iperf_interval_results := mk_interval {
  ir_bytes_transferred : Z;
  ir_start_time : iperf_time;
  ir_end_time : iperf_time;
  ir_packet_count : Z;             (* interval_packet_count *)
  ir_outoforder_packets : Z;       (* interval_outoforder_packets *)
  ir_cnt_error : Z;                (* interval_cnt_error *)
  ir_total_packet_count : Z;       (* packet_count *)
  ir_jitter : double;
  ir_total_outoforder_packets : Z; (* outoforder_packets *)
  ir_total_cnt_error : Z;          (* cnt_error *)
  ir_omitted : Z;
  ir_interval_retrans : Z
}.
#[export] Instance eta_interval : Settable iperf_interval_results := fun r =>
  mk_interval (ir_bytes_transferred r) (ir_start_time r) (ir_end_time r) (ir_packet_count r)
    (ir_outoforder_packets r) (ir_cnt_error r) (ir_total_packet_count r) (ir_jitter r)
    (ir_total_outoforder_packets r) (ir_total_cnt_error r) (ir_omitted r) (ir_interval_retrans r).

Record iperf_stream_result := mk_result {
  rs_bytes_received : Z;
  rs_bytes_sent : Z;
  rs_bytes_received_this_interval : Z;
  rs_bytes_sent_this_interval : Z;
  rs_bytes_sent_omit : Z;
  rs_stream_prev_total_retrans : Z;
  rs_stream_retrans : Z;
  rs_start_time : iperf_time;
  rs_end_time : iperf_time;
  rs_start_time_fixed : iperf_time;
  rs_sender_time : double;
  rs_receiver_time : double;
  rs_interval_results : list iperf_interval_results
}.
#[export] Instance eta_result : Settable iperf_stream_result := fun r =>
  mk_result (rs_bytes_received r) (rs_bytes_sent r) (rs_bytes_received_this_interval r)
    (rs_bytes_sent_this_interval r) (rs_bytes_sent_omit r) (rs_stream_prev_total_retrans r)
    (rs_stream_retrans r) (rs_start_time r) (rs_end_time r) (rs_start_time_fixed r)
    (rs_sender_time r) (rs_receiver_time r) (rs_interval_results r).

Record iperf_settings := mk_settings {
  socket_bufsize : Z;
  blksize : Z;
  rate : Z;
  bitrate_limit : Z;
  bitrate_limit_interval : double;
  bitrate_limit_stats_per_interval : Z;
  fqrate : Z;
  pacing_timer : Z;
  burst : Z;
  mss : Z;
  tos : Z;
  flowlabel : Z;
  bytes_limit : Z;                 (* bytes *)
  blocks_limit : Z;                (* blocks *)
  unit_format : ascii;
  dont_fragment : Z;
  authtoken : option bytes;
  client_username : option bytes;
  client_password : option bytes;
  client_rsa_pubkey : option bytes;
  skip_rx_copy : Z;
  connect_timeout : Z;
  idle_timeout : Z;
  snd_timeout : Z;
  rcv_timeout : iperf_time
}.
#[export] Instance eta_settings : Settable iperf_settings := fun r =>
  mk_settings (socket_bufsize r) (blksize r) (rate r) (bitrate_limit r) (bitrate_limit_interval r)
    (bitrate_limit_stats_per_interval r) (fqrate r) (pacing_timer r) (burst r) (mss r) (tos r)
    (flowlabel r) (bytes_limit r) (blocks_limit r) (unit_format r) (dont_fragment r) (authtoken r)
    (client_username r) (client_password r) (client_rsa_pubkey r) (skip_rx_copy r)
    (connect_timeout r) (idle_timeout r) (snd_timeout r) (rcv_timeout r).

Record iperf_stream := mk_stream {
  sp_socket : Z;
  sp_id : Z;
  sp_sender : bool;
  sp_done : Z;
  sp_result : iperf_stream_result;
  sp_green_light : bool;
  sp_buffer : bytes;
  sp_pending_size : Z;
  sp_packet_count : Z;
  sp_peer_packet_count : Z;
  sp_peer_omitted_packet_count : Z;
  sp_omitted_packet_count : Z;
  sp_jitter : double;
  sp_prev_transit : double;
  sp_outoforder_packets : Z;
  sp_omitted_outoforder_packets : Z;
  sp_cnt_error : Z;
  sp_omitted_cnt_error : Z;
  sp_diskfile_left : Z
}.
#[export] Instance eta_stream : Settable iperf_stream := fun r =>
  mk_stream (sp_socket r) (sp_id r) (sp_sender r) (sp_done r) (sp_result r) (sp_green_light r)
    (sp_buffer r) (sp_pending_size r) (sp_packet_count r) (sp_peer_packet_count r)
    (sp_peer_omitted_packet_count r) (sp_omitted_packet_count r) (sp_jitter r) (sp_prev_transit r)
    (sp_outoforder_packets r) (sp_omitted_outoforder_packets r) (sp_cnt_error r)
    (sp_omitted_cnt_error r) (sp_diskfile_left r).

(** The fields of [struct iperf_test] and of its settings that only the command
    line sets. *)
Record iperf_cmdline := mk_cmdline {
  server_hostname : option bytes;
  bind_address : option bytes;
  bind_dev : option bytes;
  xbind_addrs : list bytes;
  pidfile : option bytes;
  logfile : option bytes;
  use_pkcs1_padding : Z;
  quic_cert_file : option bytes;
  quic_key_file : option bytes;
  quic_key_password : option bytes;
  quic_p12_file : option bytes;
  quic_p12_password : option bytes;
  quic_buf_size : Z;
  daemon : Z;
  verbose : Z;
  json_stream : Z;
  json_stream_full_output : Z;
  debug_level : Z;
  forceflush : Z;
  timestamps : Z;
  timestamp_format : option bytes;
  domain : Z;                      (* settings->domain *)
  num_ostreams : Z;                (* settings->num_ostreams *)
  cntl_ka : Z;                     (* settings->cntl_ka *)
  cntl_ka_keepidle : Z;            (* settings->cntl_ka_keepidle *)
  cntl_ka_interval : Z;            (* settings->cntl_ka_interval *)
  cntl_ka_count : Z                (* settings->cntl_ka_count *)
}.
#[export] Instance eta_cmdline : Settable iperf_cmdline := fun r =>
  mk_cmdline (server_hostname r) (bind_address r) (bind_dev r) (xbind_addrs r) (pidfile r)
    (logfile r) (use_pkcs1_padding r) (quic_cert_file r) (quic_key_file r) (quic_key_password r)
    (quic_p12_file r) (quic_p12_password r) (quic_buf_size r) (daemon r) (verbose r) (json_stream r)
    (json_stream_full_output r) (debug_level r) (forceflush r) (timestamps r) (timestamp_format r)
    (domain r) (num_ostreams r) (cntl_ka r) (cntl_ka_keepidle r) (cntl_ka_interval r)
    (cntl_ka_count r).

Record iperf_test := mk_test {
  role : ascii;
  mode : Z;
  sender_has_retransmits : Z;
  other_side_has_retransmits : Z;
  protocol : Z;
  state : Z;
  quic_port : Z;
  omit : Z;
  duration : Z;
  max_server_duration : Z;
  diskfile_name : option bytes;
  affinity : Z;
  server_affinity : Z;
  title : option bytes;
  extra_data : option bytes;
  congestion : option bytes;
  congestion_used : option bytes;
  remote_congestion_used : option bytes;
  server_port : Z;
  bind_port : Z;
  ctrl_sck : Z;
  mapped_v4 : Z;
  listener : Z;
  prot_listener : Z;
  server_authorized_users : option bytes;
  server_rsa_private_key : option bytes;
  server_skew_threshold : Z;
  one_off : Z;
  no_delay : Z;
  reverse : Z;
  bidirectional : Z;
  json_output : Z;
  zerocopy : Z;
  debug : Z;
  get_server_output : Z;
  udp_counters_64bit : Z;
  multisend : Z;
  repeating_payload : Z;
  mptcp : Z;
  summary_printed : Z;
  max_fd : Z;
  read_set : gset Z;
  write_set : gset Z;
  omitting : Z;
  stats_interval : double;
  reporter_interval : double;
  omit_timer : option positive;
  timer : option positive;
  stats_timer : option positive;
  reporter_timer : option positive;
  done : Z;
  cpu_util : double * double * double;
  remote_cpu_util : double * double * double;
  num_streams : Z;
  bytes_sent : Z;
  blocks_sent : Z;
  bytes_received : Z;
  blocks_received : Z;
  bitrate_limit_stats_count : Z;
  bitrate_limit_intervals_traffic_bytes : list Z;
  bitrate_limit_last_interval_index : Z;
  bitrate_limit_exceeded : Z;
  cookie : bytes;
  streams : list iperf_stream;
  settings : iperf_settings;
  cmdline : iperf_cmdline;
  protocols : list Z;
  json_top : option cJSON;
  json_start : option cJSON;
  json_server_output : option cJSON;
  server_output_text : option bytes;
  server_output_list : list bytes;
  i_errno : Z
}.
#[export] Instance eta_test : Settable iperf_test := fun r =>
  mk_test (role r) (mode r) (sender_has_retransmits r) (other_side_has_retransmits r) (protocol r)
    (state r) (quic_port r) (omit r) (duration r) (max_server_duration r) (diskfile_name r)
    (affinity r) (server_affinity r) (title r) (extra_data r) (congestion r) (congestion_used r)
    (remote_congestion_used r) (server_port r) (bind_port r) (ctrl_sck r) (mapped_v4 r) (listener r) (prot_listener r)
    (server_authorized_users r) (server_rsa_private_key r) (server_skew_threshold r) (one_off r)
    (no_delay r) (reverse r) (bidirectional r) (json_output r) (zerocopy r) (debug r)
    (get_server_output r) (udp_counters_64bit r) (multisend r) (repeating_payload r) (mptcp r)
    (summary_printed r) (max_fd r) (read_set r) (write_set r) (omitting r) (stats_interval r)
    (reporter_interval r) (omit_timer r) (timer r) (stats_timer r) (reporter_timer r) (done r)
    (cpu_util r) (remote_cpu_util r) (num_streams r) (bytes_sent r) (blocks_sent r)
    (bytes_received r) (blocks_received r) (bitrate_limit_stats_count r)
    (bitrate_limit_intervals_traffic_bytes r) (bitrate_limit_last_interval_index r)
    (bitrate_limit_exceeded r) (cookie r) (streams r) (settings r) (cmdline r) (protocols r) (json_top r)
    (json_start r) (json_server_output r) (server_output_text r) (server_output_list r)
    (i_errno r).

(** Updates inside the settings, the command line's fields and a stream's result. *)
Definition on_settings (f : iperf_settings → iperf_settings) (t : iperf_test) : iperf_test :=
  t <| settings ::= f |>.
Definition on_cmdline (f : iperf_cmdline → iperf_cmdline) (t : iperf_test) : iperf_test :=
  t <| cmdline ::= f |>.
Definition on_result (f : iperf_stream_result → iperf_stream_result) (sp : iperf_stream) : iperf_stream :=
  sp <| sp_result ::= f |>.

(** ** [src/tcp_info.c] on Linux *)
Definition has_tcpinfo : bool := true.
Definition has_tcpinfo_retransmits : bool := true.

(** ** Setters *)

Definition check_sender_has_retransmits (ipt : iperf_test) : iperf_test :=
  if negb (mode ipt =? RECEIVER) && (protocol ipt =? Ptcp) && has_tcpinfo_retransmits
  then ipt <| sender_has_retransmits := 1 |>
  else ipt <| sender_has_retransmits := 0 |>.

Definition iperf_set_test_role (ipt : iperf_test) (r : ascii) : iperf_test :=
  let ipt := ipt <| role := r |> in
  let ipt :=
    if reverse ipt =? 0 then
      if negb (bidirectional ipt =? 0) then ipt <| mode := BIDIRECTIONAL |>
      else if decide (r = "c"%char) then ipt <| mode := SENDER |>
      else if decide (r = "s"%char) then ipt <| mode := RECEIVER |>
      else ipt
    else if decide (r = "c"%char) then ipt <| mode := RECEIVER |>
    else if decide (r = "s"%char) then ipt <| mode := SENDER |>
    else ipt in
  check_sender_has_retransmits ipt.

Definition iperf_set_test_reverse (ipt : iperf_test) (r : Z) : iperf_test :=
  let ipt := ipt <| reverse := r |> in
  let ipt :=
    if reverse ipt =? 0 then
      if decide (role ipt = "c"%char) then ipt <| mode := SENDER |>
      else if decide (role ipt = "s"%char) then ipt <| mode := RECEIVER |>
      else ipt
    else if decide (role ipt = "c"%char) then ipt <| mode := RECEIVER |>
    else if decide (role ipt = "s"%char) then ipt <| mode := SENDER |>
    else ipt in
  check_sender_has_retransmits ipt.

Definition iperf_set_test_bidirectional (ipt : iperf_test) (b : Z) : iperf_test :=
  let ipt := ipt <| bidirectional := b |> in
  if negb (b =? 0) then ipt <| mode := BIDIRECTIONAL |>
  else iperf_set_test_reverse ipt (reverse ipt).

Definition iperf_set_test_state (ipt : iperf_test) (s : Z) : iperf_test := ipt <| state := s |>.

Definition iperf_set_test_get_server_output (ipt : iperf_test) (v : Z) : iperf_test :=
  ipt <| get_server_output := v |>.
Definition iperf_set_test_udp_counters_64bit (ipt : iperf_test) (v : Z) : iperf_test :=
  ipt <| udp_counters_64bit := v |>.

(** [get_protocol] and [set_protocol] walk the protocol list. *)
Definition get_protocol (ipt : iperf_test) (prot_id : Z) : option Z * iperf_test :=
  if bool_decide (prot_id ∈ protocols ipt) then (Some prot_id, ipt)
  else (None, ipt <| i_errno := IEPROTOCOL |>).

Definition set_protocol (ipt : iperf_test) (prot_id : Z) : Z * iperf_test :=
  if bool_decide (prot_id ∈ protocols ipt)
  then (0, check_sender_has_retransmits (ipt <| protocol := prot_id |>))
  else (-1, ipt <| i_errno := IEPROTOCOL |>).

(** ** [iperf_new_test], [iperf_defaults] *)

Definition zero_time : iperf_time := mk_time 0 0.

(** [memset] to zero of the settings and of the test. *)
Definition zero_settings : iperf_settings :=
  mk_settings 0 0 0 0 D0 0 0 0 0 0 0 0 0 0 NUL 0 None None None None 0 0 0 0 zero_time.

Definition zero_cmdline : iperf_cmdline :=
  mk_cmdline None None None [] None None 0 None None None None None 0 0 0 0 0 0 0 0 None 0 0 0 0 0 0.

Definition iperf_new_test : iperf_test :=
  {| role := NUL; mode := 0; sender_has_retransmits := 0; other_side_has_retransmits := 0;
     protocol := 0; state := 0; quic_port := 0; omit := 0; duration := 0; max_server_duration := 0;
     diskfile_name := None; affinity := 0; server_affinity := 0; title := None; extra_data := None;
     congestion := None; congestion_used := None; remote_congestion_used := None; server_port := 0; bind_port := 0;
     ctrl_sck := 0; mapped_v4 := 0; listener := 0; prot_listener := 0; server_authorized_users := None;
     server_rsa_private_key := None; server_skew_threshold := 0; one_off := 0; no_delay := 0;
     reverse := 0; bidirectional := 0; json_output := 0; zerocopy := 0; debug := 0;
     get_server_output := 0; udp_counters_64bit := 0; multisend := 0; repeating_payload := 0;
     mptcp := 0; summary_printed := 0; max_fd := 0; read_set := ∅; write_set := ∅; omitting := 0;
     stats_interval := D0; reporter_interval := D0; omit_timer := None; timer := None;
     stats_timer := None; reporter_timer := None; done := 0; cpu_util := (D0, D0, D0);
     remote_cpu_util := (D0, D0, D0); num_streams := 0; bytes_sent := 0; blocks_sent := 0;
     bytes_received := 0; blocks_received := 0; bitrate_limit_stats_count := 0;
     bitrate_limit_intervals_traffic_bytes := replicate (Z.to_nat MAX_INTERVAL) 0;
     bitrate_limit_last_interval_index := 0; bitrate_limit_exceeded := 0;
     cookie := replicate COOKIE_SIZE NUL; streams := []; settings := zero_settings;
     cmdline := zero_cmdline; protocols := []; json_top := None; json_start := None; json_server_output := None; server_output_text := None;
     server_output_list := []; i_errno := 0 |}.

(** [have_sctp] is the configuration test for SCTP support. *)
Definition iperf_defaults (have_sctp : bool) (testp : iperf_test) : iperf_test :=
  let testp := testp <| omit := OMIT |> <| duration := DURATION |> <| diskfile_name := None |>
    <| affinity := -1 |> <| server_affinity := -1 |> <| title := None |> <| extra_data := None |>
    <| congestion := None |> <| congestion_used := None |> <| remote_congestion_used := None |>
    <| server_port := PORT |> <| quic_port := 0 |> <| ctrl_sck := -1 |> <| listener := -1 |>
    <| prot_listener := -1 |> <| other_side_has_retransmits := 0 |>
    <| stats_interval := D_of_Z 1 |> <| reporter_interval := D_of_Z 1 |> <| num_streams := 1 |> in
  let testp := on_settings (fun s => s <| unit_format := "a"%char |> <| socket_bufsize := 0 |>
    <| blksize := DEFAULT_TCP_BLKSIZE |> <| rate := 0 |> <| bitrate_limit := 0 |>
    <| bitrate_limit_interval := D_of_Z 5 |> <| bitrate_limit_stats_per_interval := 0 |>
    <| fqrate := 0 |> <| pacing_timer := DEFAULT_PACING_TIMER |> <| burst := 0 |> <| mss := 0 |>
    <| bytes_limit := 0 |> <| blocks_limit := 0 |> <| connect_timeout := -1 |>
    <| rcv_timeout := mk_time (DEFAULT_NO_MSG_RCVD_TIMEOUT / SEC_TO_mS)
                              (DEFAULT_NO_MSG_RCVD_TIMEOUT mod SEC_TO_mS * mS_TO_US) |>
    <| skip_rx_copy := 0 |>) testp in
  let testp := on_cmdline (fun c => c <| domain := AF_UNSPEC |> <| xbind_addrs := [] |> <| cntl_ka := 0 |>
    <| cntl_ka_keepidle := 0 |> <| cntl_ka_interval := 0 |> <| cntl_ka_count := 0 |>
    <| quic_cert_file := None |> <| quic_key_file := None |> <| quic_key_password := None |>
    <| quic_p12_file := None |> <| quic_p12_password := None |> <| quic_buf_size := 0 |>) testp in
  let testp := testp <| zerocopy := 0 |> <| cookie := replicate COOKIE_SIZE NUL |>
    <| multisend := 10 |> <| streams := [] |> <| protocols := [Ptcp; Pudp; Pquic] |> in
  let testp := snd (set_protocol testp Ptcp) in
  if have_sctp then testp <| protocols := [Ptcp; Pudp; Pquic; Psctp] |> else testp.

(** [iperf_reset_test], after the streams are freed and the timers cancelled. *)
Definition reset_fields (test : iperf_test) : iperf_test :=
  let test := test <| streams := [] |> <| omit_timer := None |> <| timer := None |>
    <| stats_timer := None |> <| reporter_timer := None |> <| done := 0 |>
    <| congestion := None |> <| remote_congestion_used := None |> <| role := "s"%char |>
    <| mode := RECEIVER |> <| sender_has_retransmits := 0 |> in
  let test := snd (set_protocol test Ptcp) in
  let test := test <| omit := OMIT |> <| duration := DURATION |> <| server_affinity := -1 |>
    <| state := 0 |> <| summary_printed := 0 |> <| ctrl_sck := -1 |> <| listener := -1 |>
    <| prot_listener := -1 |> <| bytes_sent := 0 |> <| blocks_sent := 0 |>
    <| bytes_received := 0 |> <| blocks_received := 0 |> <| other_side_has_retransmits := 0 |>
    <| bitrate_limit_stats_count := 0 |> <| bitrate_limit_last_interval_index := 0 |>
    <| bitrate_limit_exceeded := 0 |>
    <| bitrate_limit_intervals_traffic_bytes := replicate (Z.to_nat MAX_INTERVAL) 0 |>
    <| reverse := 0 |> <| bidirectional := 0 |> <| no_delay := 0 |>
    <| read_set := ∅ |> <| write_set := ∅ |> <| num_streams := 1 |> in
  let test := on_settings (fun s => s <| socket_bufsize := 0 |> <| blksize := DEFAULT_TCP_BLKSIZE |>
    <| rate := 0 |> <| fqrate := 0 |> <| burst := 0 |> <| mss := 0 |> <| tos := 0 |>
    <| dont_fragment := 0 |> <| skip_rx_copy := 0 |> <| authtoken := None |>
    <| client_username := None |> <| client_password := None |> <| client_rsa_pubkey := None |>) test in
  test <| zerocopy := 0 |> <| cookie := replicate COOKIE_SIZE NUL |> <| multisend := 10 |>
    <| udp_counters_64bit := 0 |> <| title := None |> <| extra_data := None |>
    <| server_output_list := [] |>.

(** The options of [iperf_parse_arguments] that choose the role and the
    direction: [-s], [-c], [-R], [--bidir]. *)
Inductive dir_option := Opt_s | Opt_c | Opt_R | Opt_bidir.

Definition parse_option (test : iperf_test) (o : dir_option) : Z * iperf_test :=
  match o with
  | Opt_s =>
      if decide (role test = "c"%char) then (-1, test <| i_errno := IESERVCLIENT |>)
      else (0, iperf_set_test_role test "s")
  | Opt_c =>
      if decide (role test = "s"%char) then (-1, test <| i_errno := IESERVCLIENT |>)
      else (0, iperf_set_test_role test "c")
  | Opt_R =>
      if negb (bidirectional test =? 0) then (-1, test <| i_errno := IEREVERSEBIDIR |>)
      else (0, iperf_set_test_reverse test 1)
  | Opt_bidir =>
      if negb (reverse test =? 0) then (-1, test <| i_errno := IEREVERSEBIDIR |>)
      else (0, iperf_set_test_bidirectional test 1)
  end.

(** The loop over the options stops at the first error. *)
Fixpoint parse_options (test : iperf_test) (l : list dir_option) : Z * iperf_test :=
  match l with
  | [] => (0, test)
  | o :: l' => let '(r, test) := parse_option test o in
               if r <? 0 then (r, test) else parse_options test l'
  end.

(** ** Which side sends

    The mode a role and the two direction options determine. *)
Definition mode_of (r : ascii) (rev bidir : bool) : Z :=
  if bidir then BIDIRECTIONAL
  else if decide (r = "c"%char) then (if rev then RECEIVER else SENDER)
  else (if rev then SENDER else RECEIVER).

Definition is_role (r : ascii) : Prop := r = "c"%char ∨ r = "s"%char.

(** The mode agrees with the options. *)
Definition mode_ok (t : iperf_test) : Prop :=
  mode t = mode_of (role t) (negb (reverse t =? 0)) (negb (bidirectional t =? 0)).

Lemma check_sender_fields t :
  mode (check_sender_has_retransmits t) = mode t ∧ role (check_sender_has_retransmits t) = role t ∧
  reverse (check_sender_has_retransmits t) = reverse t ∧
  bidirectional (check_sender_has_retransmits t) = bidirectional t.
Proof. unfold check_sender_has_retransmits. by case_match. Qed.

(** Decide the comparisons of known characters. *)
Ltac decide_chars :=
  repeat match goal with
  | |- context [decide (?c = ?c)] => rewrite (decide_True (P := c = c)) by done
  | |- context [decide (?c = ?d)] => rewrite (decide_False (P := c = d)) by done
  end.

Lemma set_role_mode t r :
  is_role r → (reverse t = 0 ∨ bidirectional t = 0) → mode_ok (iperf_set_test_role t r).
Proof.
  intros Hr Hx. unfold mode_ok, iperf_set_test_role.
  match goal with |- context [check_sender_has_retransmits ?u] =>
    destruct (check_sender_fields u) as (-> & -> & -> & ->) end.
  destruct (reverse t =? 0) eqn:Er, (bidirectional t =? 0) eqn:Eb, Hr as [-> | ->];
    decide_chars; cbn; rewrite ?Er, ?Eb; unfold mode_of; cbn; decide_chars; rewrite ?Er, ?Eb; try done;
    bool_to_prop; by destruct Hx.
Qed.

Lemma set_reverse_mode t v :
  is_role (role t) → bidirectional t = 0 → mode_ok (iperf_set_test_reverse t v).
Proof.
  intros Hr Hb. unfold mode_ok, iperf_set_test_reverse.
  match goal with |- context [check_sender_has_retransmits ?u] =>
    destruct (check_sender_fields u) as (-> & -> & -> & ->) end.
  apply Z.eqb_eq in Hb. cbn.
  destruct (v =? 0) eqn:Ev, Hr as [Er | Er]; rewrite ?Er; decide_chars; cbn;
    rewrite ?Er, ?Ev, ?Hb; unfold mode_of; cbn; decide_chars; rewrite ?Er, ?Ev, ?Hb; done.
Qed.

Lemma set_bidirectional_mode t v :
  is_role (role t) → mode_ok (iperf_set_test_bidirectional t v).
Proof.
  intros Hr. unfold iperf_set_test_bidirectional. destruct (v =? 0) eqn:Ev; cbn.
  - apply set_reverse_mode; [done|]. by apply Z.eqb_eq.
  - unfold mode_ok, mode_of. cbn. by rewrite Ev.
Qed.

(** What the option loop maintains. *)
Definition dirs_ok (t : iperf_test) : Prop :=
  (reverse t = 0 ∨ bidirectional t = 0) ∧ (is_role (role t) → mode_ok t) ∧
  (role t = NUL ∨ is_role (role t)).

Lemma parse_option_ok t o t' : dirs_ok t → parse_option t o = (0, t') → dirs_ok t'.
Proof.
  intros (Hx & Hm & Hr). destruct o; cbn [parse_option]; case_match; intros E; simplify_eq.
  - assert (is_role "s") by by right. split_and!.
    + unfold iperf_set_test_role, check_sender_has_retransmits. by repeat case_match.
    + intros _. by apply set_role_mode.
    + right. unfold iperf_set_test_role, check_sender_has_retransmits. by repeat case_match.
  - assert (is_role "c") by by left. split_and!.
    + unfold iperf_set_test_role, check_sender_has_retransmits. by repeat case_match.
    + intros _. by apply set_role_mode.
    + right. unfold iperf_set_test_role, check_sender_has_retransmits. by repeat case_match.
  - bool_to_prop.
    assert (role (iperf_set_test_reverse t 1) = role t ∧
            bidirectional (iperf_set_test_reverse t 1) = bidirectional t) as [E1 E2].
    { unfold iperf_set_test_reverse, check_sender_has_retransmits. by repeat case_match. }
    split_and!; [by right; rewrite E2| |by rewrite E1]. rewrite E1. intros Hrole.
    by apply set_reverse_mode.
  - bool_to_prop. split_and!; [by left| |done]. intros Hrole. by apply set_bidirectional_mode.
Qed.

(** ** Properties *)

(** Whatever the order of the options [-s], [-c], [-R] and [--bidir] on the
    command line, when they are accepted the mode of the test is the one its
    role and direction determine (a client sends unless reversed, a server
    receives unless reversed, both do under [--bidir]), and the options were
    not both a server and a client, nor both reversed and bidirectional. *)
Theorem options_determine_mode sctp l t :
  parse_options (iperf_defaults sctp iperf_new_test) l = (0, t) → is_role (role t) →
  mode t = mode_of (role t) (negb (reverse t =? 0)) (negb (bidirectional t =? 0)) ∧
  (reverse t = 0 ∨ bidirectional t = 0).
Proof.
  intros H Hr. assert (dirs_ok t) as (Hx & Hm & _); [|split; [by apply Hm|done]].
  assert (dirs_ok (iperf_defaults sctp iperf_new_test)) as Hd.
  { destruct sctp; (split_and!; [by left|by intros [?|?]|by left]). }
  clear Hr. revert H Hd. generalize (iperf_defaults sctp iperf_new_test) as t0.
  induction l as [|o l IH]; intros t0; cbn [parse_options]; [by intros [= <-]|].
  destruct (parse_option t0 o) as [r t1] eqn:E. case_match; intros Hp Hd; bool_to_prop; simplify_eq.
  - lia.
  - assert (r = 0) as -> by (destruct o; cbn [parse_option] in E; case_match; simplify_eq; lia).
    eapply IH; [done|]. by eapply parse_option_ok.
Qed.

Lemma options_determine_mode_witness :
  mode (snd (parse_options (iperf_defaults false iperf_new_test) [Opt_R; Opt_c])) = RECEIVER.
Proof.
  refine (proj1 (options_determine_mode false [Opt_R; Opt_c]
    (snd (parse_options (iperf_defaults false iperf_new_test) [Opt_R; Opt_c])) _ _)).
  - vm_compute. reflexivity.
  - left. vm_compute. reflexivity.
Defined.

(** what a reset of the server does not clear: the options by which a client
    asked for the server's output, a repeating payload, MPTCP, a flow label, a
    pacing timer or a QUIC port are still set in the test the next client finds. *)
Theorem reset_keeps_options t :
  get_server_output (reset_fields t) = get_server_output t ∧
  repeating_payload (reset_fields t) = repeating_payload t ∧
  mptcp (reset_fields t) = mptcp t ∧ quic_port (reset_fields t) = quic_port t ∧
  flowlabel (settings (reset_fields t)) = flowlabel (settings t) ∧
  pacing_timer (settings (reset_fields t)) = pacing_timer (settings t).
Proof. unfold reset_fields, set_protocol, check_sender_has_retransmits. by repeat case_match. Qed.
