(* ===== verification/Params.v ===== *)
(** * The parameter exchange ([src/iperf_api.c]: [send_parameters], [get_parameters])

    The client describes its test in one JSON object; the server copies what it
    finds into its own test.  [params_members] lists the members in the order of
    the code, each with the condition under which it is added;
    [apply_parameters] is the sequence of lookups of [get_parameters].  The
    build is the Linux one: MPTCP, don't-fragment and SSL support present. *)

From S2P Require Import Prelude Errno CInt CDouble CStdio Json JsonPrint JsonParse JsonRoundtrip.
From S2P Require Import JsonBuild IperfTime Net Control Test.

(** ** Building the object *)

Definition set (z : Z) : bool := negb (z =? 0).
Definition is_set {A} (o : option A) : bool := match o with Some _ => true | None => false end.

Section SendParameters.
(** [IPERF_VERSION], a string the build configures. *)
Context (IPERF_VERSION : bytes).

Definition params_members (test : iperf_test) : list member :=
  let s := settings test in
  [ (protocol test =? Ptcp, (B "tcp", cJSON_CreateTrue));
    (negb (protocol test =? Ptcp) && (protocol test =? Pudp), (B "udp", cJSON_CreateTrue));
    (negb (protocol test =? Ptcp) && negb (protocol test =? Pudp) && (protocol test =? Psctp),
     (B "sctp", cJSON_CreateTrue));
    (negb (protocol test =? Ptcp) && negb (protocol test =? Pudp) &&
     negb (protocol test =? Psctp) && (protocol test =? Pquic), (B "quic", cJSON_CreateTrue));
    (0 <? quic_port test, (B "quic_port", num (quic_port test)));
    (true, (B "omit", num (omit test)));
    (negb (server_affinity test =? -1), (B "server_affinity", num (server_affinity test)));
    (true, (B "time", num (duration test)));
    (true, (B "num", num (bytes_limit s)));
    (true, (B "blockcount", num (blocks_limit s)));
    (set (mss s), (B "MSS", num (mss s)));
    (set (no_delay test), (B "nodelay", cJSON_CreateTrue));
    (true, (B "parallel", num (num_streams test)));
    (set (reverse test), (B "reverse", cJSON_CreateTrue));
    (set (bidirectional test), (B "bidirectional", cJSON_CreateTrue));
    (set (mptcp test), (B "mptcp", cJSON_CreateTrue));
    (set (socket_bufsize s), (B "window", num (socket_bufsize s)));
    (set (blksize s), (B "len", num (blksize s)));
    (set (rate s), (B "bandwidth", num (rate s)));
    (set (fqrate s), (B "fqrate", num (fqrate s)));
    (set (pacing_timer s), (B "pacing_timer", num (pacing_timer s)));
    (set (burst s), (B "burst", num (burst s)));
    (set (tos s), (B "TOS", num (tos s)));
    (set (flowlabel s), (B "flowlabel", num (flowlabel s)));
    (is_set (title test), (B "title", str (title test)));
    (is_set (extra_data test), (B "extra_data", str (extra_data test)));
    (is_set (congestion test), (B "congestion", str (congestion test)));
    (is_set (congestion_used test), (B "congestion_used", str (congestion_used test)));
    (set (get_server_output test), (B "get_server_output", num (get_server_output test)));
    (set (udp_counters_64bit test), (B "udp_counters_64bit", num (udp_counters_64bit test)));
    (set (repeating_payload test), (B "repeating_payload", num (repeating_payload test)));
    (set (zerocopy test), (B "zerocopy", num (zerocopy test)));
    (set (dont_fragment s), (B "dont_fragment", num (dont_fragment s)));
    (is_set (client_username s) && is_set (client_password s) && is_set (client_rsa_pubkey s),
     (B "authtoken", str (authtoken s)));
    (set (skip_rx_copy s), (B "skip_rx_copy", num (skip_rx_copy s)));
    (true, (B "client_version", cJSON_CreateString IPERF_VERSION)) ].

(** [encode_auth_setting] of [src/iperf_auth.c] encrypts the credentials with
    OpenSSL; it returns the token, or [None] for a failure. *)
Context (encode_auth_setting : bytes → bytes → bytes → option bytes).

Definition set_authtoken (test : iperf_test) : option iperf_test :=
  match client_username (settings test), client_password (settings test),
        client_rsa_pubkey (settings test) with
  | Some u, Some p, Some k =>
      match encode_auth_setting u p k with
      | Some tok => Some (on_settings (fun s => s <| authtoken := Some tok |>) test)
      | None => None
      end
  | _, _, _ => Some test
  end.

(** [send_parameters]: the value, the test and the connection. *)
Definition send_parameters (test : iperf_test) (w : os) : outcome (Z * iperf_test * os) :=
  match set_authtoken test with
  | None => Ok (-1, test <| i_errno := IESENDPARAMS |>, w)
  | Some test =>
      '(r, w) ← JSON_write w (object_of (params_members test));
      if r <? 0 then Ok (-1, test <| i_errno := IESENDPARAMS |>, w) else Ok (0, test, w)
  end.
End SendParameters.

(** ** Reading the object *)

(** [if ((j_p = iperf_cJSON_GetObjectItemType(j, name, type)) != NULL) ...] *)
Definition get_item (j : cJSON) (name : string) (ty : Z) (f : cJSON → iperf_test → iperf_test)
    (test : iperf_test) : iperf_test :=
  match iperf_cJSON_GetObjectItemType j (B name) ty with
  | Some j_p => f j_p test
  | None => test
  end.

Definition get_int (j : cJSON) (name : string) (f : Z → iperf_test → iperf_test) :=
  get_item j name cJSON_Number (fun j_p => f (i32 (valueint j_p))).
Definition get_u64 (j : cJSON) (name : string) (f : Z → iperf_test → iperf_test) :=
  get_item j name cJSON_Number (fun j_p => f (u64 (valueint j_p))).
Definition get_true (j : cJSON) (name : string) (f : iperf_test → iperf_test) :=
  get_item j name cJSON_True (fun _ => f).
Definition get_str (j : cJSON) (name : string) (f : option bytes → iperf_test → iperf_test) :=
  get_item j name cJSON_String (fun j_p => f (valuestring j_p)).

(** The one lookup without a type test. *)
Definition get_any (j : cJSON) (name : string) (f : Z → iperf_test → iperf_test) (test : iperf_test)
  : iperf_test :=
  match cJSON_GetObjectItem j (B name) with
  | Some j_p => f (i32 (valueint j_p)) test
  | None => test
  end.

(** The protocol members; the value is -1 for a UDP test of a file. *)
Definition get_udp (j : cJSON) (test : iperf_test) : Z * iperf_test :=
  match iperf_cJSON_GetObjectItemType j (B "udp") cJSON_True with
  | Some _ =>
      if is_set (diskfile_name test) then (-1, test <| i_errno := IEUDPFILETRANSFER |>)
      else (0, snd (set_protocol test Pudp))
  | None => (0, test)
  end.

Definition get_protocols (j : cJSON) (test : iperf_test) : Z * iperf_test :=
  let test := get_true j "tcp" (fun t => snd (set_protocol t Ptcp)) test in
  let '(r, test) := get_udp j test in
  let test := get_true j "sctp" (fun t => snd (set_protocol t Psctp)) test in
  let test := get_true j "quic" (fun t => snd (set_protocol t Pquic)) test in
  (r, test).

Definition get_numbers (j : cJSON) (test : iperf_test) : iperf_test :=
  let test := get_int j "quic_port" (fun v t => t <| quic_port := v |>) test in
  let test := get_int j "omit" (fun v t => t <| omit := v |>) test in
  let test := get_int j "server_affinity" (fun v t => t <| server_affinity := v |>) test in
  let test := get_int j "time" (fun v t => t <| duration := v |>) test in
  let test := on_settings (fun s => s <| bytes_limit := 0 |>) test in
  let test := get_u64 j "num" (fun v => on_settings (fun s => s <| bytes_limit := v |>)) test in
  let test := on_settings (fun s => s <| blocks_limit := 0 |>) test in
  let test := get_u64 j "blockcount" (fun v => on_settings (fun s => s <| blocks_limit := v |>)) test in
  let test := get_int j "MSS" (fun v => on_settings (fun s => s <| mss := v |>)) test in
  let test := get_true j "nodelay" (fun t => t <| no_delay := 1 |>) test in
  get_int j "parallel" (fun v t => t <| num_streams := v |>) test.

Definition get_directions (j : cJSON) (test : iperf_test) : iperf_test :=
  let test := get_true j "reverse" (fun t => iperf_set_test_reverse t 1) test in
  let test := get_true j "bidirectional" (fun t => iperf_set_test_bidirectional t 1) test in
  get_true j "mptcp" (fun t => t <| mptcp := 1 |>) test.

Definition get_settings (j : cJSON) (test : iperf_test) : iperf_test :=
  let test := get_int j "window" (fun v => on_settings (fun s => s <| socket_bufsize := v |>)) test in
  let test := get_int j "len" (fun v => on_settings (fun s => s <| blksize := v |>)) test in
  let test := get_u64 j "bandwidth" (fun v => on_settings (fun s => s <| rate := v |>)) test in
  let test := get_u64 j "fqrate" (fun v => on_settings (fun s => s <| fqrate := v |>)) test in
  let test := get_int j "pacing_timer" (fun v => on_settings (fun s => s <| pacing_timer := v |>)) test in
  let test := get_int j "burst" (fun v => on_settings (fun s => s <| burst := v |>)) test in
  let test := get_int j "TOS" (fun v => on_settings (fun s => s <| tos := v |>)) test in
  get_int j "flowlabel" (fun v => on_settings (fun s => s <| flowlabel := v |>)) test.

Definition get_strings (j : cJSON) (test : iperf_test) : iperf_test :=
  let test := get_str j "title" (fun v t => t <| title := v |>) test in
  let test := get_str j "extra_data" (fun v t => t <| extra_data := v |>) test in
  let test := get_str j "congestion" (fun v t => t <| congestion := v |>) test in
  get_str j "congestion_used" (fun v t => t <| congestion_used := v |>) test.

Definition get_flags (j : cJSON) (test : iperf_test) : iperf_test :=
  let test := get_int j "get_server_output" (fun _ t => iperf_set_test_get_server_output t 1) test in
  let test := get_int j "udp_counters_64bit" (fun _ t => iperf_set_test_udp_counters_64bit t 1) test in
  let test := get_int j "repeating_payload" (fun _ t => t <| repeating_payload := 1 |>) test in
  let test := get_int j "zerocopy" (fun v t => t <| zerocopy := v |>) test in
  let test := get_int j "dont_fragment" (fun v => on_settings (fun s => s <| dont_fragment := v |>)) test in
  let test := get_str j "authtoken" (fun v => on_settings (fun s => s <| authtoken := v |>)) test in
  get_any j "skip_rx_copy" (fun v => on_settings (fun s => s <| skip_rx_copy := v |>)) test.

(** What follows the lookups: the retransmit flag, the target rate of the
    report, and the limit on the duration. *)
Definition check_duration (r : Z) (test : iperf_test) : Z * iperf_test :=
  let test :=
    if negb (mode test =? 0) && (protocol test =? Ptcp) && has_tcpinfo_retransmits
    then test <| sender_has_retransmits := 1 |> else test in
  let test :=
    if set (rate (settings test))
    then test <| json_start ::= fun o =>
           match o with
           | Some js => Some (cJSON_AddNumberToObject js (B "target_bitrate") (D_of_Z (rate (settings test))))
           | None => None
           end |>
    else test in
  if (0 <? max_server_duration test) &&
     ((max_server_duration test <? i32 (duration test + omit test)) || (duration test =? 0))
  then (-1, test <| i_errno := IEMAXSERVERTESTDURATIONEXCEEDED |>)
  else (r, test).

(** All the lookups between the protocol and the duration check. *)
Definition get_members (j : cJSON) (test : iperf_test) : iperf_test :=
  get_flags j (get_strings j (get_settings j (get_directions j (get_numbers j test)))).

Definition apply_parameters (j : cJSON) (test : iperf_test) : Z * iperf_test :=
  let '(r, test) := get_protocols j test in check_duration r (get_members j test).

Definition get_parameters (test : iperf_test) (w : os) : outcome (Z * iperf_test * os) :=
  '(j, w) ← JSON_read w MAX_PARAMS_JSON_STRING;
  match j with
  | None => Ok (-1, test <| i_errno := IERECVPARAMS |>, w)
  | Some j => let '(r, test) := apply_parameters j test in Ok (r, test, w)
  end.

(** ** What the server ends up with *)

(** Tests whose parameters the exchange carries exactly: integers at the width
    of their field, sizes and rates below 2^53, strings without NUL. *)
Definition int_params (c : iperf_test) : list Z :=
  let s := settings c in
  [quic_port c; omit c; server_affinity c; duration c; mss s; num_streams c; socket_bufsize s;
   blksize s; pacing_timer s; burst s; tos s; flowlabel s; get_server_output c;
   udp_counters_64bit c; repeating_payload c; zerocopy c; dont_fragment s; skip_rx_copy s].
Definition size_params (c : iperf_test) : list Z :=
  [bytes_limit (settings c); blocks_limit (settings c); rate (settings c); fqrate (settings c)].
Definition str_params (c : iperf_test) : list (option bytes) :=
  [title c; extra_data c; congestion c; congestion_used c; authtoken (settings c)].

Definition exchangeable (c : iperf_test) : Prop :=
  Forall (in_s 32) (int_params c) ∧
  Forall (fun z => 0 ≤ z < 2 ^ 53) (size_params c) ∧
  Forall (fun o => no_nul (default [] o)) (str_params c).

#[export] Instance exchangeable_dec c : Decision (exchangeable c).
Proof. unfold exchangeable, in_s. apply _. Defined.

Lemma i32_small z : in_s 32 z → small_int z.
Proof. unfold in_s, small_int. lia. Qed.

(** A lookup that does not write a field leaves it. *)
Section OtherFields.
Context {A : Type} (π : iperf_test → A) (j : cJSON) (name : string).

Lemma get_item_other ty f t : (∀ i t, π (f i t) = π t) → π (get_item j name ty f t) = π t.
Proof. intros Hf. unfold get_item. case_match; [apply Hf|done]. Qed.
Lemma get_int_other f t : (∀ v t, π (f v t) = π t) → π (get_int j name f t) = π t.
Proof. intros Hf. apply get_item_other. auto. Qed.
Lemma get_u64_other f t : (∀ v t, π (f v t) = π t) → π (get_u64 j name f t) = π t.
Proof. intros Hf. apply get_item_other. auto. Qed.
Lemma get_true_other f t : (∀ t, π (f t) = π t) → π (get_true j name f t) = π t.
Proof. intros Hf. apply get_item_other. auto. Qed.
Lemma get_str_other f t : (∀ v t, π (f v t) = π t) → π (get_str j name f t) = π t.
Proof. intros Hf. apply get_item_other. auto. Qed.
Lemma get_any_other f t : (∀ v t, π (f v t) = π t) → π (get_any j name f t) = π t.
Proof. intros Hf. unfold get_any. case_match; [apply Hf|done]. Qed.
Lemma on_settings_other f t : (∀ t, π (on_settings f t) = π t) → π (on_settings f t) = π t.
Proof. auto. Qed.
End OtherFields.

Section Exchange.
Context (V : bytes) (HV : no_nul V) (c : iperf_test) (Hc : exchangeable c).
Let l := params_members V c.
Let j := parsed (object_of l).

Lemma params_wf : json_wf 0 (object_of l) = true.
Proof.
  destruct Hc as (Hi & Hs & Ht).
  unfold int_params, size_params, str_params in *.
  repeat (apply Forall_cons in Hi as [? Hi]). repeat (apply Forall_cons in Hs as [? Hs]).
  repeat (apply Forall_cons in Ht as [? Ht]).
  apply object_wf; [done|]. unfold l, params_members. cbn [forallb].
  assert (Hnum : ∀ b k z, small_int z → bool_decide (no_nul k) = true →
            member_ok (0 + 1) (b, (k, num z)) = true).
  { intros b k z Hz Hk. unfold member_ok. rewrite num_wf, Hk by done. by destruct b. }
  assert (Hstr : ∀ b k o, no_nul (default [] o) → bool_decide (no_nul k) = true →
            member_ok (0 + 1) (b, (k, str o)) = true).
  { intros b k o Ho Hk. unfold member_ok. rewrite str_wf, Hk by done. by destruct b. }
  assert (Htrue : ∀ b k, bool_decide (no_nul k) = true →
            member_ok (0 + 1) (b, (k, cJSON_CreateTrue)) = true).
  { intros b k Hk. unfold member_ok. rewrite Hk. by destruct b. }
  rewrite !Htrue by done. rewrite !Hstr by done.
  assert (Hsmall : ∀ z, 0 ≤ z < 2 ^ 53 → small_int z) by (unfold small_int; lia).
  repeat match goal with |- context [member_ok _ (?b, (?k, num ?z))] =>
    rewrite (Hnum b k z);
      [|first [apply i32_small; assumption | apply Hsmall; assumption]|done] end.
  change (cJSON_CreateString V) with (str (Some V)). by rewrite Hstr.
Qed.

(** Each lookup finds the member of its name, when it was sent. *)
Lemma get_int_sent name b z f t :
  find_member (B name) l = (if b : bool then Some (keyed (B name) (num z)) else None) →
  in_s 32 z → get_int j name f t = if b then f z t else t.
Proof.
  intros H Hz. pose proof (num_lookup _ _ _ _ _ H (i32_small _ Hz)) as Hl. fold j in Hl.
  unfold get_int, get_item. destruct (iperf_cJSON_GetObjectItemType j _ _), b; cbn in Hl; try done.
  apply (inj Some) in Hl as ->. by rewrite wraps_id.
Qed.

Lemma get_u64_sent name b z f t :
  find_member (B name) l = (if b : bool then Some (keyed (B name) (num z)) else None) →
  0 ≤ z < 2 ^ 53 → get_u64 j name f t = if b then f z t else t.
Proof.
  intros H Hz. pose proof (num_lookup _ _ _ _ _ H ltac:(unfold small_int; lia)) as Hl. fold j in Hl.
  unfold get_u64, get_item. destruct (iperf_cJSON_GetObjectItemType j _ _), b; cbn in Hl; try done.
  apply (inj Some) in Hl as ->. rewrite wrapu_id; [done|unfold in_u; lia].
Qed.

Lemma get_true_sent name b f t :
  find_member (B name) l = (if b : bool then Some (keyed (B name) cJSON_CreateTrue) else None) →
  get_true j name f t = if b then f t else t.
Proof.
  intros H. pose proof (true_lookup _ _ _ _ H) as Hl. fold j in Hl. unfold get_true, get_item.
  destruct (iperf_cJSON_GetObjectItemType j _ _), b; try done.
  - by destruct Hl as [Hl _]; discriminate Hl; eexists.
  - by destruct Hl as [_ Hl]; destruct Hl.
Qed.

Lemma get_str_sent name b o f t :
  find_member (B name) l = (if b : bool then Some (keyed (B name) (str o)) else None) →
  get_str j name f t = if b then f (Some (default [] o)) t else t.
Proof.
  intros H. pose proof (str_lookup _ _ _ _ _ H) as Hl. fold j in Hl. unfold get_str, get_item.
  destruct (iperf_cJSON_GetObjectItemType j _ _), b; cbn in Hl; try done.
  by apply (inj Some) in Hl as ->.
Qed.

Lemma get_any_sent name b z f t :
  find_member (B name) l = (if b : bool then Some (keyed (B name) (num z)) else None) →
  in_s 32 z → get_any j name f t = if b then f z t else t.
Proof.
  intros H Hz. unfold get_any. unfold j. rewrite parsed_lookup. fold l in H |- *. rewrite H.
  destruct b; [|done]. cbn [fmap option_fmap option_map].
  change (f (i32 (saturate_int (reread (D_of_Z z)))) t = f z t).
  rewrite reread_small by by apply i32_small.
  rewrite saturate_int_of_Z by by apply i32_small. by rewrite wraps_id.
Qed.

End Exchange.

(** Peel the lookups that do not write the field [π]. *)
Ltac same_field :=
  intros; first
    [ reflexivity
    | unfold iperf_set_test_bidirectional, iperf_set_test_reverse, check_sender_has_retransmits;
      cbv zeta; repeat case_match; reflexivity ].

Ltac peel π :=
  repeat first
    [ rewrite (get_int_other π) by same_field
    | rewrite (get_u64_other π) by same_field
    | rewrite (get_true_other π) by same_field
    | rewrite (get_str_other π) by same_field
    | rewrite (get_any_other π) by same_field
    | rewrite (on_settings_other π) by same_field ].

Definition param_names : list bytes :=
  Eval cbv [names map fst snd params_members] in names (params_members [] iperf_new_test).

Section Fields.
Context (V : bytes) (c : iperf_test) (Hc : exchangeable c) (s : iperf_test).
Let j := parsed (object_of (params_members V c)).
Let s' := get_members j s.

Lemma in_int_params z : z ∈ int_params c → in_s 32 z.
Proof. destruct Hc as (H & _). rewrite Forall_forall in H. apply H. Qed.

Lemma in_size_params z : z ∈ size_params c → 0 ≤ z < 2 ^ 53.
Proof. destruct Hc as (_ & H & _). rewrite Forall_forall in H. apply H. Qed.

Ltac start := unfold s', get_members, get_flags, get_strings, get_settings, get_directions, get_numbers;
  cbv zeta.
Ltac listed := repeat first [apply list_elem_of_here | apply list_elem_of_further].
Ltac width := first [ apply in_int_params; solve [unfold int_params; cbv zeta; listed]
                    | apply in_size_params; solve [unfold size_params; cbv zeta; listed] ].

Ltac find := find_member_in param_names.
Ltac field π := start; peel π.
(** The field [π] is written by one lookup, whose member was sent under [b]. *)
Ltac hit π := try (case_match; [|by peel π]); reflexivity.
Ltac int_field π b z := field π; rewrite (get_int_sent V c _ b z); [hit π|find|width].
Ltac u64_field π b z := field π; rewrite (get_u64_sent V c _ b z); [hit π|find|width].
Ltac any_field π b z := field π; rewrite (get_any_sent V c _ b z); [hit π|find|width].
Ltac true_field π b := field π; rewrite (get_true_sent V c _ b); [hit π|find].
Ltac flag_field π b z := field π; rewrite (get_int_sent V c _ b z); [hit π|find|width].
Ltac str_field π b o := field π; rewrite (get_str_sent V c _ b o); [hit π|find].

Lemma read_numbers :
  quic_port s' = (if 0 <? quic_port c then quic_port c else quic_port s) ∧ omit s' = omit c ∧
  server_affinity s' = (if negb (server_affinity c =? -1) then server_affinity c else server_affinity s) ∧
  duration s' = duration c ∧ num_streams s' = num_streams c ∧
  bytes_limit (settings s') = bytes_limit (settings c) ∧
  blocks_limit (settings s') = blocks_limit (settings c) ∧
  no_delay s' = (if set (no_delay c) then 1 else no_delay s) ∧
  mptcp s' = (if set (mptcp c) then 1 else mptcp s).
Proof.
  split_and!.
  - int_field quic_port (0 <? quic_port c) (quic_port c).
  - int_field omit true (omit c).
  - int_field server_affinity (negb (server_affinity c =? -1)) (server_affinity c).
  - int_field duration true (duration c).
  - int_field num_streams true (num_streams c).
  - u64_field (fun t => bytes_limit (settings t)) true (bytes_limit (settings c)).
  - u64_field (fun t => blocks_limit (settings t)) true (blocks_limit (settings c)).
  - true_field no_delay (set (no_delay c)).
  - true_field mptcp (set (mptcp c)).
Qed.

(** A setting the client did not give keeps the server's value. *)
Definition pick (x y : Z) : Z := if set x then x else y.

Lemma read_settings :
  let a := settings c in let b := settings s in let r := settings s' in
  mss r = pick (mss a) (mss b) ∧ socket_bufsize r = pick (socket_bufsize a) (socket_bufsize b) ∧
  blksize r = pick (blksize a) (blksize b) ∧ rate r = pick (rate a) (rate b) ∧
  fqrate r = pick (fqrate a) (fqrate b) ∧ pacing_timer r = pick (pacing_timer a) (pacing_timer b) ∧
  burst r = pick (burst a) (burst b) ∧ tos r = pick (tos a) (tos b) ∧
  flowlabel r = pick (flowlabel a) (flowlabel b) ∧
  dont_fragment r = pick (dont_fragment a) (dont_fragment b) ∧
  skip_rx_copy r = pick (skip_rx_copy a) (skip_rx_copy b).
Proof.
  cbv zeta. unfold pick. set (a := settings c). split_and!.
  - int_field (fun t => mss (settings t)) (set (mss a)) (mss a).
  - int_field (fun t => socket_bufsize (settings t)) (set (socket_bufsize a)) (socket_bufsize a).
  - int_field (fun t => blksize (settings t)) (set (blksize a)) (blksize a).
  - u64_field (fun t => rate (settings t)) (set (rate a)) (rate a).
  - u64_field (fun t => fqrate (settings t)) (set (fqrate a)) (fqrate a).
  - int_field (fun t => pacing_timer (settings t)) (set (pacing_timer a)) (pacing_timer a).
  - int_field (fun t => burst (settings t)) (set (burst a)) (burst a).
  - int_field (fun t => tos (settings t)) (set (tos a)) (tos a).
  - int_field (fun t => flowlabel (settings t)) (set (flowlabel a)) (flowlabel a).
  - int_field (fun t => dont_fragment (settings t)) (set (dont_fragment a)) (dont_fragment a).
  - any_field (fun t => skip_rx_copy (settings t)) (set (skip_rx_copy a)) (skip_rx_copy a).
Qed.

Definition pick_str (x y : option bytes) : option bytes := match x with Some _ => x | None => y end.

Lemma pick_str_if x y : (if is_set x then Some (default [] x) else y) = pick_str x y.
Proof. by destruct x. Qed.

Lemma read_strings :
  title s' = pick_str (title c) (title s) ∧
  extra_data s' = pick_str (extra_data c) (extra_data s) ∧
  congestion s' = pick_str (congestion c) (congestion s) ∧
  congestion_used s' = pick_str (congestion_used c) (congestion_used s).
Proof.
  rewrite <- !pick_str_if. split_and!.
  - str_field title (is_set (title c)) (title c).
  - str_field extra_data (is_set (extra_data c)) (extra_data c).
  - str_field congestion (is_set (congestion c)) (congestion c).
  - str_field congestion_used (is_set (congestion_used c)) (congestion_used c).
Qed.

Lemma read_flags :
  get_server_output s' = (if set (get_server_output c) then 1 else get_server_output s) ∧
  udp_counters_64bit s' = (if set (udp_counters_64bit c) then 1 else udp_counters_64bit s) ∧
  repeating_payload s' = (if set (repeating_payload c) then 1 else repeating_payload s) ∧
  zerocopy s' = pick (zerocopy c) (zerocopy s).
Proof.
  unfold pick. split_and!.
  - int_field get_server_output (set (get_server_output c)) (get_server_output c).
  - int_field udp_counters_64bit (set (udp_counters_64bit c)) (udp_counters_64bit c).
  - int_field repeating_payload (set (repeating_payload c)) (repeating_payload c).
  - int_field zerocopy (set (zerocopy c)) (zerocopy c).
Qed.

Lemma read_same :
  role s' = role s ∧ protocol s' = protocol s ∧ max_server_duration s' = max_server_duration s ∧
  diskfile_name s' = diskfile_name s ∧ protocols s' = protocols s ∧ i_errno s' = i_errno s.
Proof.
  split_and!; [field role|field protocol|field max_server_duration|field diskfile_name|
               field protocols|field i_errno]; reflexivity.
Qed.

(** The server takes the complementary direction. *)
Lemma read_mode :
  role s = "s"%char → reverse s = 0 → bidirectional s = 0 → mode s = RECEIVER →
  mode s' = mode_of "s" (set (reverse c)) (set (bidirectional c)).
Proof.
  intros Hrole Hrev Hbi Hm. field mode.
  rewrite (get_true_sent V c _ (set (bidirectional c))); [|find].
  unfold mode_of. destruct (set (bidirectional c)); [reflexivity|].
  rewrite (get_true_sent V c _ (set (reverse c))); [|find].
  destruct (set (reverse c)).
  - match goal with |- mode (iperf_set_test_reverse ?t 1) = _ =>
      assert (role t = "s"%char) as Hr by (by peel role); revert Hr; generalize t end.
    intros u Hr.
    unfold iperf_set_test_reverse.
    match goal with |- mode (check_sender_has_retransmits ?u) = _ =>
      destruct (check_sender_fields u) as (-> & _) end.
    cbn. rewrite Hr. decide_chars. reflexivity.
  - peel mode. by rewrite Hm.
Qed.

Lemma get_udp_sent t :
  get_udp j t = if negb (protocol c =? Ptcp) && (protocol c =? Pudp) then
                  if is_set (diskfile_name t) then (-1, t <| i_errno := IEUDPFILETRANSFER |>)
                  else (0, snd (set_protocol t Pudp))
                else (0, t).
Proof.
  pose proof (true_lookup (params_members V c) (B "udp")
    (negb (protocol c =? Ptcp) && (protocol c =? Pudp)) (B "udp") ltac:(find)) as Hl.
  unfold get_udp. fold j in Hl. destruct (iperf_cJSON_GetObjectItemType j (B "udp") cJSON_True).
  - by rewrite (proj1 Hl) by (by eexists).
  - destruct (_ && _); [|done]. by destruct (proj2 Hl eq_refl).
Qed.

(** The protocol members select the client's protocol. *)
Lemma read_protocol :
  protocol c ∈ [Ptcp; Pudp; Psctp; Pquic] → protocol c ∈ protocols s → diskfile_name s = None →
  get_protocols j s = (0, check_sender_has_retransmits (s <| protocol := protocol c |>)).
Proof.
  intros Hp Hin Hd.
  assert (Hset : snd (set_protocol s (protocol c)) = check_sender_has_retransmits (s <| protocol := protocol c |>)).
  { unfold set_protocol. by rewrite bool_decide_true. }
  unfold get_protocols.
  rewrite (get_true_sent V c "tcp" (protocol c =? Ptcp)) by find.
  cbv zeta. rewrite get_udp_sent.
  set (t1 := if protocol c =? Ptcp then _ else s).
  assert (Ht1 : t1 = if protocol c =? Ptcp then check_sender_has_retransmits (s <| protocol := protocol c |>) else s).
  { unfold t1. destruct (Z.eqb_spec (protocol c) Ptcp) as [E|]; [|done]. by rewrite <- E, <- Hset. }
  clearbody t1. subst t1.
  destruct (Z.eqb_spec (protocol c) Ptcp) as [E1|N1]; cbn [negb andb].
  { rewrite (get_true_sent V c "sctp" _) by find. rewrite (get_true_sent V c "quic" _) by find.
    rewrite E1. reflexivity. }
  destruct (Z.eqb_spec (protocol c) Pudp) as [E2|N2].
  { rewrite Hd. cbn [is_set]. rewrite <- E2, Hset.
    rewrite (get_true_sent V c "sctp" _) by find. rewrite (get_true_sent V c "quic" _) by find.
    rewrite E2. reflexivity. }
  rewrite (get_true_sent V c "sctp" _) by find. rewrite (get_true_sent V c "quic" _) by find.
  rewrite (proj2 (Z.eqb_neq _ _) N1), (proj2 (Z.eqb_neq _ _) N2). cbn [negb andb].
  destruct (Z.eqb_spec (protocol c) Psctp) as [E3|N3]; cbn [negb andb]; [by rewrite <- E3, Hset|].
  destruct (Z.eqb_spec (protocol c) Pquic) as [E4|N4]; [by rewrite <- E4, Hset|].
  rewrite !elem_of_cons in Hp. exfalso. destruct Hp as [E|[E|[E|[E|Hp]]]]; [done..|by apply elem_of_nil in Hp].
Qed.
End Fields.

(** ** The exchange *)

(** A server test as [iperf_defaults] or [iperf_reset_test] leaves it, able to
    run the client's protocol, and a duration within its limit. *)
Record ready_for (c s : iperf_test) : Prop := {
  ready_role : role s = "s"%char ∧ mode s = RECEIVER ∧ reverse s = 0 ∧ bidirectional s = 0;
  ready_protocol : protocol c ∈ [Ptcp; Pudp; Psctp; Pquic] ∧ protocol c ∈ protocols s;
  ready_file : diskfile_name s = None;
  ready_duration : max_server_duration s ≤ 0 ∨
    duration c ≠ 0 ∧ 0 ≤ omit c + duration c ≤ max_server_duration s
}.

(** The server's test describes the client's: the same protocol, amounts and
    times; the direction seen from the server; each optional setting that was
    given, and the server's own value otherwise. *)
Record agreed (c s s' : iperf_test) : Prop := {
  agreed_protocol : protocol s' = protocol c;
  agreed_mode : mode s' = mode_of "s" (set (reverse c)) (set (bidirectional c));
  agreed_role : role s' = role s;
  agreed_numbers : omit s' = omit c ∧ duration s' = duration c ∧ num_streams s' = num_streams c ∧
    bytes_limit (settings s') = bytes_limit (settings c) ∧
    blocks_limit (settings s') = blocks_limit (settings c);
  agreed_settings : let a := settings c in let b := settings s in let r := settings s' in
    mss r = pick (mss a) (mss b) ∧ socket_bufsize r = pick (socket_bufsize a) (socket_bufsize b) ∧
    blksize r = pick (blksize a) (blksize b) ∧ rate r = pick (rate a) (rate b) ∧
    fqrate r = pick (fqrate a) (fqrate b) ∧ pacing_timer r = pick (pacing_timer a) (pacing_timer b) ∧
    burst r = pick (burst a) (burst b) ∧ tos r = pick (tos a) (tos b) ∧
    flowlabel r = pick (flowlabel a) (flowlabel b) ∧
    dont_fragment r = pick (dont_fragment a) (dont_fragment b) ∧
    skip_rx_copy r = pick (skip_rx_copy a) (skip_rx_copy b);
  agreed_strings : title s' = pick_str (title c) (title s) ∧
    extra_data s' = pick_str (extra_data c) (extra_data s) ∧
    congestion s' = pick_str (congestion c) (congestion s) ∧
    congestion_used s' = pick_str (congestion_used c) (congestion_used s);
  agreed_flags : get_server_output s' = (if set (get_server_output c) then 1 else get_server_output s) ∧
    udp_counters_64bit s' = (if set (udp_counters_64bit c) then 1 else udp_counters_64bit s) ∧
    repeating_payload s' = (if set (repeating_payload c) then 1 else repeating_payload s) ∧
    zerocopy s' = pick (zerocopy c) (zerocopy s)
}.

Lemma check_duration_ok r t :
  max_server_duration t ≤ 0 ∨
    duration t ≠ 0 ∧ 0 ≤ omit t + duration t ≤ max_server_duration t ∧ max_server_duration t < 2 ^ 31 →
  ∃ a b, check_duration r t = (r, t <| sender_has_retransmits := a |> <| json_start := b |>).
Proof.
  intros H. unfold check_duration.
  set (t1 := if negb (mode t =? 0) && _ && _ then _ else t).
  assert (∃ a, t1 = t <| sender_has_retransmits := a |>) as [a ->].
  { unfold t1. case_match; [by eexists|]. exists (sender_has_retransmits t). by destruct t. }
  set (t2 := if set _ then _ else _).
  assert (∃ b, t2 = t <| sender_has_retransmits := a |> <| json_start := b |>) as [b ->].
  { unfold t2. case_match; [by eexists|]. exists (json_start t). by destruct t. }
  exists a, b.
  change (max_server_duration (t <| sender_has_retransmits := a |> <| json_start := b |>)) with (max_server_duration t).
  change (duration (t <| sender_has_retransmits := a |> <| json_start := b |>)) with (duration t).
  change (omit (t <| sender_has_retransmits := a |> <| json_start := b |>)) with (omit t).
  destruct H as [H|(Hd & [H0 H1] & H2)]; [by ztest|].
  rewrite wraps_id by (unfold in_s; lia). ztest. by rewrite orb_false_r, andb_false_r.
Qed.

(** Selecting the protocol changes no other parameter. *)
Definition same_params (s s0 : iperf_test) : Prop :=
  settings s0 = settings s ∧ max_server_duration s0 = max_server_duration s ∧ title s0 = title s ∧
  extra_data s0 = extra_data s ∧ congestion s0 = congestion s ∧ congestion_used s0 = congestion_used s ∧
  get_server_output s0 = get_server_output s ∧ udp_counters_64bit s0 = udp_counters_64bit s ∧
  repeating_payload s0 = repeating_payload s ∧ zerocopy s0 = zerocopy s ∧
  role s0 = role s ∧ mode s0 = mode s ∧ reverse s0 = reverse s ∧ bidirectional s0 = bidirectional s.

Lemma protocol_same_params s p : same_params s (check_sender_has_retransmits (s <| protocol := p |>)).
Proof. unfold same_params, check_sender_has_retransmits. by case_match. Qed.

Lemma members_agreed V c s s0 :
  exchangeable c → role s = "s"%char ∧ mode s = RECEIVER ∧ reverse s = 0 ∧ bidirectional s = 0 →
  protocol s0 = protocol c → same_params s s0 →
  agreed c s (get_members (parsed (object_of (params_members V c))) s0) ∧
  max_server_duration (get_members (parsed (object_of (params_members V c))) s0) = max_server_duration s.
Proof.
  intros Hc (Hr & Hm & Hrev & Hbi) Ep (E1 & E2 & E3 & E4 & E5 & E6 & E7 & E8 & E9 & E10 & E11 & E12 & E13 & E14).
  destruct (read_numbers V c Hc s0) as (_ & N1 & _ & N2 & N3 & N4 & N5 & _ & _).
  pose proof (read_settings V c Hc s0) as Hs. pose proof (read_strings V c s0) as Ht.
  pose proof (read_flags V c Hc s0) as Hf.
  destruct (read_same V c s0) as (S1 & S2 & S3 & _).
  pose proof (read_mode V c s0 ltac:(congruence) ltac:(congruence) ltac:(congruence) ltac:(congruence)) as Hmode.
  cbv zeta in *. set (s1 := get_members _ s0) in *. clearbody s1.
  rewrite ?E1, ?E2, ?E3, ?E4, ?E5, ?E6, ?E7, ?E8, ?E9, ?E10 in *.
  split; [|done]. split; [congruence|done|congruence|done|exact Hs|exact Ht|exact Hf].
Qed.

(** The flag and the report that [check_duration] sets are not parameters. *)
Lemma agreed_report c s s1 a b :
  agreed c s s1 → agreed c s (s1 <| sender_has_retransmits := a |> <| json_start := b |>).
Proof. intros []. by constructor. Qed.

Lemma apply_parameters_agreed V c s :
  exchangeable c → ready_for c s → max_server_duration s < 2 ^ 31 →
  ∃ s', apply_parameters (parsed (object_of (params_members V c))) s = (0, s') ∧ agreed c s s'.
Proof.
  intros Hc [Hready [Hp Hin] Hfile Hdur] Hmax.
  destruct (members_agreed V c s (check_sender_has_retransmits (s <| protocol := protocol c |>)) Hc Hready)
    as [Ha Hd]; [unfold check_sender_has_retransmits; by case_match|apply protocol_same_params|].
  unfold apply_parameters. rewrite (read_protocol V c s) by done.
  revert Ha Hd. generalize (get_members (parsed (object_of (params_members V c)))
    (check_sender_has_retransmits (s <| protocol := protocol c |>))).
  intros s1 Ha Hd. pose proof (agreed_numbers _ _ _ Ha) as (Eo & Et & _).
  destruct (check_duration_ok 0 s1) as (a & b & ->).
  { rewrite Eo, Et, Hd. destruct Hdur as [?|[? ?]]; [by left|by right]. }
  eexists. split; [done|]. by apply agreed_report.
Qed.

(** A server between two tests is ready for a client whose protocol it has. *)
Lemma reset_ready c t :
  Ptcp ∈ protocols t → protocol c ∈ [Ptcp; Pudp; Psctp; Pquic] → protocol c ∈ protocols t →
  diskfile_name t = None → max_server_duration t ≤ 0 → ready_for c (reset_fields t).
Proof.
  intros Ht Hc Hp Hd Hm.
  unfold reset_fields, set_protocol. rewrite bool_decide_true by done.
  unfold check_sender_has_retransmits. cbn. split; try done. by left.
Qed.

(** ** What the parameters leave alone *)

(** The fields of the session itself. *)
Definition session_fields (t : iperf_test) :=
  (ctrl_sck t, streams t, role t, listener t, prot_listener t, debug t, omitting t, done t, state t,
   (stats_interval t, reporter_interval t), (bitrate_limit (settings t), rcv_timeout (settings t)), protocols t,
   (server_authorized_users t, server_rsa_private_key t), (blocks_received t, bitrate_limit_exceeded t)).

Lemma get_item_session j name ty f t :
  (∀ p t, session_fields (f p t) = session_fields t) →
  session_fields (get_item j name ty f t) = session_fields t.
Proof. intros Hf. unfold get_item. destruct (iperf_cJSON_GetObjectItemType _ _ _); [apply Hf|done]. Qed.

Lemma get_any_session j name f t :
  (∀ v t, session_fields (f v t) = session_fields t) →
  session_fields (get_any j name f t) = session_fields t.
Proof. intros Hf. unfold get_any. destruct (cJSON_GetObjectItem _ _); [apply Hf|done]. Qed.

Lemma check_retransmits_session t : session_fields (check_sender_has_retransmits t) = session_fields t.
Proof. unfold check_sender_has_retransmits. by case_match. Qed.

Lemma set_protocol_session t p : session_fields (set_protocol t p).2 = session_fields t.
Proof. unfold set_protocol. case_match; cbn [snd]; by rewrite ?check_retransmits_session. Qed.

Lemma set_reverse_session t r : session_fields (iperf_set_test_reverse t r) = session_fields t.
Proof. unfold iperf_set_test_reverse. rewrite check_retransmits_session. by repeat case_goal. Qed.

Lemma set_bidirectional_session t b : session_fields (iperf_set_test_bidirectional t b) = session_fields t.
Proof. unfold iperf_set_test_bidirectional. case_goal; [done|by rewrite set_reverse_session]. Qed.

Ltac session_step :=
  first [ rewrite get_item_session; [|by intros]
        | rewrite get_any_session; [|by intros]
        | rewrite get_item_session; [|by intros; rewrite ?set_protocol_session, ?set_reverse_session, ?set_bidirectional_session]
        | match goal with |- context [session_fields (on_settings ?f ?t)] =>
            change (session_fields (on_settings f t)) with (session_fields t) end ].

Lemma get_members_session j t : session_fields (get_members j t) = session_fields t.
Proof.
  unfold get_members, get_flags, get_strings, get_settings, get_directions, get_numbers.
  unfold get_true, get_int, get_u64, get_str. cbv zeta. by repeat session_step.
Qed.

Lemma get_protocols_session j t : session_fields (get_protocols j t).2 = session_fields t.
Proof.
  unfold get_protocols, get_udp, get_true. cbv zeta.
  assert (∀ t', session_fields t' = session_fields t →
    session_fields (let '(r, t) := match iperf_cJSON_GetObjectItemType j (B "udp") cJSON_True with
      | Some _ => if is_set (diskfile_name t') then (-1, t' <| i_errno := IEUDPFILETRANSFER |>)
                  else (0, (set_protocol t' Pudp).2)
      | None => (0, t') end in
      (r, get_item j "quic" cJSON_True (fun _ t => (set_protocol t Pquic).2)
            (get_item j "sctp" cJSON_True (fun _ t => (set_protocol t Psctp).2) t))).2 = session_fields t) as H.
  { intros t' <-. destruct (iperf_cJSON_GetObjectItemType _ _ _); [destruct (is_set _)|]; cbn [snd];
      repeat session_step; rewrite ?set_protocol_session; done. }
  apply H. by repeat session_step.
Qed.

Lemma apply_parameters_session j t : session_fields (apply_parameters j t).2 = session_fields t.
Proof.
  unfold apply_parameters. pose proof (get_protocols_session j t) as Hp.
  destruct (get_protocols j t) as [r t']. cbn [snd] in Hp. rewrite <- Hp, <- (get_members_session j t').
  generalize (get_members j t'). intros t1. unfold check_duration.
  repeat case_goal; cbn [snd]; done.
Qed.

(** ** Properties *)


(** A client that reverses a UDP test of four streams at 10 Mbit/s. *)
Definition sample_client : iperf_test :=
  let t := snd (parse_options (iperf_defaults false iperf_new_test) [Opt_c; Opt_R]) in
  on_settings (fun s => s <| rate := 10000000 |>)
    (snd (set_protocol (t <| num_streams := 4 |> <| title := Some (B "lab") |>) Pudp)).
Definition sample_server : iperf_test :=
  snd (parse_options (iperf_defaults false iperf_new_test) [Opt_s]).
Definition sample_text : bytes :=
  default [] (render false 0 (object_of (params_members (B "3.18") sample_client))).

