(* ===== verification/Udp.v ===== *)
(** * UDP streams ([src/iperf_udp.c])

    The packet header (time of sending and sequence number), the accounting of
    lost and reordered packets and of jitter, the check of the socket buffers
    and the handshake that stands for a connection.  The test supplies the
    settings; [sp_buffer] is the mapped block of [blksize] bytes. *)

From S2P Require Import Prelude Errno CInt CDouble Json IperfTime Net Test.

Definition UDP_CONNECT_MSG : Z := 0x36373839.
Definition UDP_CONNECT_REPLY : Z := 0x39383736.
Definition LEGACY_UDP_CONNECT_REPLY : Z := 987654321.
Definition MAX_REVERSE_OUT_OF_ORDER_PACKETS : Z := 2.

(** ** Receiving *)

(** [memcpy] of [n] bytes at [off], in network order. *)
Definition be_at (off n : nat) (buf : bytes) : outcome Z :=
  if decide (off + n ≤ length buf)%nat then Ok (be_combine (take n (drop off buf))) else Undef.

(** The time and the sequence number in the header. *)
Definition read_header (counters_64bit : bool) (buf : bytes) : outcome (iperf_time * Z) :=
  sec ← be_at 0 4 buf;
  usec ← be_at 4 4 buf;
  pcount ← be_at 8 (if counters_64bit then 8 else 4) buf;
  Ok (mk_time sec usec, pcount).

(** Loss and reordering.  [packet_count] is a signed field that the comparisons
    convert to [uint64_t]. *)
Definition count_packet (pcount : Z) (sp : iperf_stream) : iperf_stream :=
  let expected := u64 (sp_packet_count sp + 1) in
  if expected <=? pcount then
    let sp := if expected <? pcount
              then sp <| sp_cnt_error ::=
                     fun e => i64 (e + u64 (u64 (pcount - 1) - sp_packet_count sp)) |>
              else sp in
    sp <| sp_packet_count := i64 pcount |>
  else
    let sp := sp <| sp_outoforder_packets ::= fun n => i64 (n + 1) |> in
    if 0 <? sp_cnt_error sp then sp <| sp_cnt_error ::= fun e => i64 (e - 1) |> else sp.

(** The jitter filter of RFC 1889. *)
Definition measure_jitter (first_packet : bool) (arrival_time sent_time : iperf_time)
    (sp : iperf_stream) : iperf_stream :=
  let '(_, temp_time) := iperf_time_diff arrival_time sent_time in
  let transit := iperf_time_in_secs temp_time in
  let sp := if first_packet then sp <| sp_prev_transit := transit |> else sp in
  let d := Dsub transit (sp_prev_transit sp) in
  let d := if Dltb d D0 then Dneg d else d in
  sp <| sp_prev_transit := transit |>
     <| sp_jitter ::= fun j => Dadd j (Ddiv (Dsub d j) (D_of_Z 16)) |>.

(** The block starts with the bytes just received; behind them is what it held. *)
Definition overlay (new buf : bytes) : bytes := new ++ drop (length new) buf.

Definition iperf_udp_recv (test : iperf_test) (sp : iperf_stream) (w : os)
  : outcome (Z * iperf_stream * os) :=
  let skip := negb (skip_rx_copy (settings test) =? 0) in
  let size := if skip then 16 else blksize (settings test) in
  let sock_opt := if skip then MSG_TRUNC else 0 in
  if decide (Z.of_nat (length (sp_buffer sp)) < size) then Undef
  else
    '(rc, w) ← Nrecv_no_select w (Z.to_nat size) sock_opt;
    let sp := sp <| sp_buffer ::= overlay (filled rc) |> in
    let r := ret rc in
    if r <=? 0 then Ok (r, sp, w)
    else if state test =? TEST_RUNNING then
      let first_packet := rs_bytes_received (sp_result sp) =? 0 in
      let sp := on_result (fun x =>
                  x <| rs_bytes_received ::= fun b => u64 (b + r) |>
                    <| rs_bytes_received_this_interval ::= fun b => u64 (b + r) |>) sp in
      '(sent_time, pcount) ← read_header (negb (udp_counters_64bit test =? 0)) (sp_buffer sp);
      let sp := count_packet pcount sp in
      let '(arrival_time, w) := os_now w in
      Ok (r, measure_jitter first_packet arrival_time sent_time sp, w)
    else Ok (r, sp, w).

(** ** Sending *)

Definition header (counters_64bit : bool) (before : iperf_time) (packet_count : Z) : bytes :=
  be_split 4 (secs before) ++ be_split 4 (usecs before) ++
  be_split (if counters_64bit then 8 else 4) packet_count.

Definition iperf_udp_send (test : iperf_test) (sp : iperf_stream) (w : os)
  : outcome (Z * iperf_stream * os) :=
  let size := blksize (settings test) in
  let '(before, w) := os_now w in
  let sp := sp <| sp_packet_count ::= fun c => i64 (c + 1) |> in
  let h := header (negb (udp_counters_64bit test =? 0)) before (sp_packet_count sp) in
  if decide (length (sp_buffer sp) < length h)%nat then Undef
  else
    let sp := sp <| sp_buffer ::= overlay h |> in
    if decide (Z.of_nat (length (sp_buffer sp)) < size) then Undef
    else
      '(r, w) ← Nwrite w (take (Z.to_nat size) (sp_buffer sp));
      let sp := if r <=? 0 then sp <| sp_packet_count ::= fun c => i64 (c - 1) |> else sp in
      if r <? 0 then Ok (r, sp, w)
      else
        Ok (r, on_result (fun x => x <| rs_bytes_sent ::= fun b => u64 (b + r) |>
                                     <| rs_bytes_sent_this_interval ::= fun b => u64 (b + r) |>) sp, w).

(** ** Socket buffers *)

(** The answers of the system calls: whether each [setsockopt] succeeds, and the
    sizes the two [getsockopt] calls report ([None] for a failure). *)
Record buffer_answers := mk_buffers {
  set_rcvbuf : bool;
  set_sndbuf : bool;
  get_sndbuf : option Z;
  get_rcvbuf : option Z
}.

(** The members of the report that are added once. *)
Definition add_once (name : bytes) (v : Z) (js : cJSON) : cJSON :=
  match cJSON_GetObjectItem js name with
  | Some _ => js
  | None => cJSON_AddNumberToObject js name (D_of_Z v)
  end.

Definition iperf_udp_buffercheck (test : iperf_test) (a : buffer_answers) : Z * iperf_test :=
  let want := socket_bufsize (settings test) in
  let size := blksize (settings test) in
  let fail e := (-1, test <| i_errno := e |>) in
  if negb (want =? 0) && negb (set_rcvbuf a && set_sndbuf a) then fail IESETBUF
  else match get_sndbuf a with
  | None => fail IESETBUF
  | Some sndbuf_actual =>
      if negb (want =? 0) && (sndbuf_actual <? want) then fail IESETBUF2
      else match get_rcvbuf a with
      | None => fail IESETBUF
      | Some rcvbuf_actual =>
          if negb (want =? 0) && (rcvbuf_actual <? want) then fail IESETBUF2
          else
            let rc := if (sndbuf_actual <? size) || (rcvbuf_actual <? size) then 1 else 0 in
            let test :=
              if negb (json_output test =? 0)
              then test <| json_start ::= fmap (fun js =>
                     add_once (B "rcvbuf_actual") rcvbuf_actual
                       (add_once (B "sndbuf_actual") sndbuf_actual
                          (add_once (B "sock_bufsize") want js))) |>
              else test in
            (rc, test)
      end
  end.

(** [UDP_BUFFER_EXTRA] and the second attempt that [iperf_udp_accept] and
    [iperf_udp_connect] make when the default buffers are too small. *)
Definition UDP_BUFFER_EXTRA : Z := 1024.

Definition grow_buffers (test : iperf_test) (a1 a2 : buffer_answers) : Z * iperf_test :=
  let '(rc, test) := iperf_udp_buffercheck test a1 in
  if rc <? 0 then (rc, test)
  else if (0 <? rc) && (socket_bufsize (settings test) =? 0) then
    let test := on_settings (fun s => s <| socket_bufsize := i32 (blksize s + UDP_BUFFER_EXTRA) |>) test in
    iperf_udp_buffercheck test a2
  else (rc, test).

(** ** The handshake *)

(** The word in the buffer, in the order of the (little endian) host. *)
Definition host_word (buf : bytes) : Z := be_combine (List.rev buf).

Definition is_reply (buf : bytes) : bool :=
  (host_word buf =? UDP_CONNECT_REPLY) || (host_word buf =? LEGACY_UDP_CONNECT_REPLY).

(** The loop of [iperf_udp_connect] that waits for the reply: [l] are the
    datagrams [recv] returns, cut to the four bytes asked for; when there are
    no more, [recv] fails after its timeout. *)
Fixpoint wait_for_reply (l : list bytes) (buf : bytes) (i max_len_wait_for_reply : Z) : Z :=
  match l with
  | [] => -1
  | d :: l' =>
      let got := take 4 d in
      let buf := overlay got buf in
      let i := i32 (i + Z.of_nat (length got)) in
      if negb (is_reply buf) && (i <? max_len_wait_for_reply)
      then wait_for_reply l' buf i max_len_wait_for_reply
      else if is_reply buf then 0 else -1
  end.

(** The end of [iperf_udp_connect], from the connect message on. *)
Definition udp_handshake (test : iperf_test) (l : list bytes) : Z * iperf_test :=
  let max_len := if negb (reverse test =? 0)
                 then i32 (4 + MAX_REVERSE_OUT_OF_ORDER_PACKETS * blksize (settings test)) else 4 in
  if wait_for_reply l (List.rev (be_split 4 UDP_CONNECT_MSG)) 0 max_len <? 0
  then (-1, test <| i_errno := IESTREAMREAD |>) else (0, test).

(** ** Sequence numbers

    The highest number of a list, the packets that arrive behind a higher one,
    and the packets up to the highest that have not arrived. *)
Definition highest (l : list Z) : Z := foldr Z.max 0 l.

Fixpoint late (m : Z) (l : list Z) : Z :=
  match l with
  | [] => 0
  | p :: l' => if p <=? m then 1 + late m l' else late p l'
  end.

Definition missing (l : list Z) : list Z := filter (fun p => p ∉ l) (seqZ 1 (highest l)).

Lemma highest_snoc l p : 0 ≤ p → highest (l ++ [p]) = Z.max (highest l) p.
Proof. intros Hp. unfold highest. induction l as [|q l IH]; cbn; lia. Qed.

Lemma highest_nonneg l : 0 ≤ highest l.
Proof. unfold highest. induction l; cbn; lia. Qed.

Lemma highest_bound l p : p ∈ l → p ≤ highest l.
Proof. unfold highest. induction 1; cbn; lia. Qed.

Lemma highest_lt l b : 0 < b → Forall (fun p => p < b) l → highest l < b.
Proof. intros Hb. induction 1; cbn; [done|]. unfold highest in *. lia. Qed.

Lemma late_snoc m l p :
  0 ≤ m → late m (l ++ [p]) = late m l + (if p <=? Z.max m (highest l) then 1 else 0).
Proof.
  revert m. induction l as [|q l IH]; intros m Hm; cbn.
  - repeat case_match; bool_to_prop; lia.
  - pose proof (highest_nonneg l). unfold highest in *.
    case_match; bool_to_prop; rewrite IH by lia; repeat case_match; bool_to_prop; lia.
Qed.

(** Distinct numbers from 1 to [m] are at most [m]. *)
Lemma distinct_length l m :
  NoDup l → 0 ≤ m → Forall (fun p => 1 ≤ p ≤ m) l → Z.of_nat (length l) ≤ m.
Proof.
  intros Hnd Hm Hl. rewrite Forall_forall in Hl.
  assert (l ⊆+ seqZ 1 m) as Hs.
  { apply NoDup_submseteq; [done|]. intros p Hp. apply elem_of_seqZ. specialize (Hl p Hp). lia. }
  apply submseteq_length in Hs. rewrite length_seqZ in Hs. lia.
Qed.

Lemma missing_length l :
  NoDup l → Forall (fun p => 1 ≤ p) l →
  Z.of_nat (length (missing l)) = highest l - Z.of_nat (length l).
Proof.
  intros Hnd Hl. unfold missing. pose proof (highest_nonneg l).
  assert (seqZ 1 (highest l) ≡ₚ l ++ filter (fun p => p ∉ l) (seqZ 1 (highest l))) as Hp.
  { apply NoDup_Permutation; [apply NoDup_seqZ| |].
    - apply NoDup_app. split_and!; [done| |apply NoDup_filter, NoDup_seqZ].
      intros p Hp. rewrite list_elem_of_filter. tauto.
    - intros p. rewrite elem_of_app, list_elem_of_filter, elem_of_seqZ.
      rewrite Forall_forall in Hl. pose proof (highest_bound l p) as Hb.
      specialize (Hl p). destruct (decide (p ∈ l)); [split; [by left|]|tauto].
      intros _. specialize (Hl ltac:(done)). specialize (Hb ltac:(done)). lia. }
  apply Permutation_length in Hp. rewrite length_app, length_seqZ in Hp. lia.
Qed.

Lemma count_packet_next pcount sp :
  0 ≤ sp_packet_count sp < pcount → pcount < 2 ^ 63 →
  0 ≤ sp_cnt_error sp ≤ sp_packet_count sp →
  let sp' := count_packet pcount sp in
  sp_packet_count sp' = pcount ∧
  sp_cnt_error sp' = sp_cnt_error sp + (pcount - 1 - sp_packet_count sp) ∧
  sp_outoforder_packets sp' = sp_outoforder_packets sp ∧ sp_result sp' = sp_result sp ∧
  sp_buffer sp' = sp_buffer sp.
Proof.
  intros Hp Hb He. unfold count_packet. cbv zeta.
  rewrite (wrapu_id 64 (sp_packet_count sp + 1)) by (unfold in_u; lia). ztest.
  case_match; bool_to_prop; cbn.
  - rewrite (wrapu_id 64 (pcount - 1)) by (unfold in_u; lia).
    rewrite (wrapu_id 64) by (unfold in_u; lia). rewrite !wraps_id by (unfold in_s; lia). done.
  - rewrite wraps_id by (unfold in_s; lia). split_and!; (done || lia).
Qed.

Lemma count_packet_late pcount sp :
  pcount ≤ sp_packet_count sp < 2 ^ 63 → 0 ≤ pcount →
  0 < sp_cnt_error sp ≤ sp_packet_count sp →
  0 ≤ sp_outoforder_packets sp < 2 ^ 63 - 1 →
  let sp' := count_packet pcount sp in
  sp_packet_count sp' = sp_packet_count sp ∧ sp_cnt_error sp' = sp_cnt_error sp - 1 ∧
  sp_outoforder_packets sp' = sp_outoforder_packets sp + 1 ∧ sp_result sp' = sp_result sp ∧
  sp_buffer sp' = sp_buffer sp.
Proof.
  intros Hp H0 He Ho. unfold count_packet. cbv zeta.
  rewrite (wrapu_id 64 (sp_packet_count sp + 1)) by (unfold in_u; lia). ztest. cbn.
  ztest. cbn. rewrite !wraps_id by (unfold in_s; lia). done.
Qed.

(** The counters after the packets [l], which started at zero. *)
Definition counted_packets (l : list Z) (sp : iperf_stream) : Prop :=
  sp_packet_count sp = highest l ∧ sp_cnt_error sp = highest l - Z.of_nat (length l) ∧
  sp_outoforder_packets sp = late 0 l.

Lemma late_bound m l : 0 ≤ late m l ≤ Z.of_nat (length l).
Proof. revert m. induction l as [|p l IH]; intros m; cbn; [lia|]. pose proof (IH m). pose proof (IH p). case_match; lia. Qed.

Lemma count_packet_step l p sp :
  NoDup (l ++ [p]) → Forall (fun p => 1 ≤ p < 2 ^ 63) (l ++ [p]) → counted_packets l sp →
  counted_packets (l ++ [p]) (count_packet p sp) ∧
  sp_result (count_packet p sp) = sp_result sp ∧ sp_buffer (count_packet p sp) = sp_buffer sp.
Proof.
  intros Hnd Hl (Hc & He & Ho). pose proof (highest_nonneg l).
  apply Forall_app in Hl as [Hl Hp]. rewrite Forall_singleton in Hp. cbv beta in Hp.
  assert (highest l < 2 ^ 63) as Hh.
  { apply highest_lt; [done|]. eapply Forall_impl; [exact Hl|]. cbn. lia. }
  pose proof (late_bound 0 l) as Hlate.
  unfold counted_packets. rewrite late_snoc, highest_snoc by lia.
  rewrite length_app, (Z.max_r 0 (highest l)) by lia. cbn [length].
  destruct (Z.leb_spec p (highest l)).
  - assert (Z.of_nat (length (l ++ [p])) ≤ highest l) as Hlen.
    { apply distinct_length; [done|done|]. apply Forall_app. split; [|apply Forall_singleton; lia].
      rewrite Forall_forall in Hl |- *. intros q Hq. pose proof (highest_bound l q Hq).
      specialize (Hl q Hq). cbn in Hl. lia. }
    rewrite length_app in Hlen. cbn [length] in Hlen.
    destruct (count_packet_late p sp) as (-> & -> & -> & -> & ->); [lia..|].
    split_and!; (done || lia).
  - assert (Z.of_nat (length l) ≤ highest l) as Hlen.
    { apply distinct_length; [by apply NoDup_app in Hnd as [? _]|done|].
      rewrite Forall_forall in Hl |- *. intros q Hq. pose proof (highest_bound l q Hq).
      specialize (Hl q Hq). cbn in Hl. lia. }
    destruct (count_packet_next p sp) as (-> & -> & -> & -> & ->); [lia..|].
    split_and!; (done || lia).
Qed.

(** ** Datagrams *)

Record packet := mk_packet { pk_time : iperf_time; pk_number : Z; pk_rest : bytes }.

Definition datagram (counters_64bit : bool) (p : packet) : bytes :=
  header counters_64bit (pk_time p) (pk_number p) ++ pk_rest p.

(** The numbers a header of either format carries. *)
Definition number_bound (counters_64bit : bool) : Z := if counters_64bit then 2 ^ 63 else 2 ^ 32.

Definition packet_ok (counters_64bit : bool) (size : nat) (p : packet) : Prop :=
  in_u 32 (secs (pk_time p)) ∧ in_u 32 (usecs (pk_time p)) ∧
  1 ≤ pk_number p < number_bound counters_64bit ∧ length (datagram counters_64bit p) = size.

#[export] Instance packet_ok_dec c size p : Decision (packet_ok c size p).
Proof. unfold packet_ok. apply _. Defined.

Lemma be_at_app i n (a x b : bytes) :
  i = length a → length x = n → be_at i n (a ++ x ++ b) = Ok (be_combine x).
Proof.
  intros -> Hx. unfold be_at. rewrite decide_True by (rewrite !length_app; lia).
  by rewrite drop_app_length, take_length_app.
Qed.

Lemma read_header_datagram c size p :
  packet_ok c size p → read_header c (datagram c p) = Ok (pk_time p, pk_number p).
Proof.
  intros (Hs & Hu & Hn & _). unfold read_header, datagram, header.
  set (n := if c then 8%nat else 4%nat).
  set (hs := be_split 4 (secs (pk_time p))). set (hu := be_split 4 (usecs (pk_time p))).
  set (hn := be_split n (pk_number p)).
  assert (E1 : length hs = 4%nat) by apply length_be_split.
  assert (E2 : length hu = 4%nat) by apply length_be_split.
  rewrite <- !app_assoc.
  pose proof (be_at_app 0 4 [] hs (hu ++ hn ++ pk_rest p) eq_refl E1) as H1.
  rewrite app_nil_l in H1. rewrite H1, Ok_bind.
  rewrite (be_at_app 4 4 hs hu (hn ++ pk_rest p)), Ok_bind by done.
  rewrite (app_assoc hs), (be_at_app 8 n (hs ++ hu) hn (pk_rest p)), Ok_bind
    by (rewrite ?length_app, ?E1, ?E2; (done || apply length_be_split)).
  unfold hs, hu, hn.
  rewrite !be_combine_split_id; [by destruct (pk_time p)| | |].
  - unfold n, number_bound in *. destruct c; cbn in *; lia.
  - unfold in_u in Hu. cbn in *. lia.
  - unfold in_u in Hs. cbn in *. lia.
Qed.

(** A block of sixteen bytes holds a header of either format. *)
Lemma read_header_defined c buf : (16 ≤ length buf)%nat → is_ok (read_header c buf).
Proof.
  intros Hl. unfold read_header, be_at.
  rewrite (decide_True (P := (0 + 4 ≤ length buf)%nat)) by lia. rewrite Ok_bind.
  rewrite (decide_True (P := (4 + 4 ≤ length buf)%nat)) by lia. rewrite Ok_bind.
  destruct (decide _) as [|Hn]; [rewrite Ok_bind; by eexists|].
  destruct Hn. destruct c; lia.
Qed.

Lemma Nrecv_no_select_datagram w d rest size :
  dgram w = true → reads w = Data d :: rest → length d = size → (0 < size)%nat →
  Z.of_nat size < 2 ^ 31 →
  Nrecv_no_select w size 0 = Ok (mk_received (Z.of_nat size) d, w <| reads := rest |>).
Proof.
  intros Hd Hr Hl Hs Hb. unfold Nrecv_no_select. destruct size as [|size]; [lia|].
  cbn [Nrecv_no_select_loop]. unfold os_recv. rewrite Hr, Hd. change (Z.land 0 MSG_TRUNC) with 0. cbn [negb Z.eqb].
  rewrite take_ge by lia. rewrite Hl. rewrite (proj2 (Z.eqb_neq _ _)) by lia.
  unfold counted. change (Z.land 0 MSG_TRUNC) with 0. cbn [negb Z.eqb].
  rewrite Nat2Z.id, Nat.sub_diag. 
  destruct size; cbn [Nrecv_no_select_loop]; rewrite Nat.sub_0_r, wraps_id by (unfold in_s; lia); done.
Qed.

Fixpoint recv_packets (n : nat) (test : iperf_test) (sp : iperf_stream) (w : os)
  : outcome (iperf_stream * os) :=
  match n with
  | O => Ok (sp, w)
  | S n' => '(_, sp, w) ← iperf_udp_recv test sp w; recv_packets n' test sp w
  end.

(** A running UDP test that copies what it receives. *)
Record receiving (test : iperf_test) (size : nat) : Prop := {
  receiving_size : blksize (settings test) = Z.of_nat size ∧ (0 < size)%nat ∧ Z.of_nat size < 2 ^ 31;
  receiving_state : state test = TEST_RUNNING;
  receiving_copy : skip_rx_copy (settings test) = 0
}.

Lemma measure_jitter_fields first a s sp :
  let sp' := measure_jitter first a s sp in
  sp_packet_count sp' = sp_packet_count sp ∧ sp_cnt_error sp' = sp_cnt_error sp ∧
  sp_outoforder_packets sp' = sp_outoforder_packets sp ∧ sp_result sp' = sp_result sp ∧
  sp_buffer sp' = sp_buffer sp.
Proof. unfold measure_jitter. destruct (iperf_time_diff a s). by destruct first. Qed.

Lemma recv_datagram test size sp w p rest l :
  receiving test size → length (sp_buffer sp) = size →
  packet_ok (negb (udp_counters_64bit test =? 0)) size p →
  dgram w = true → reads w = Data (datagram (negb (udp_counters_64bit test =? 0)) p) :: rest →
  NoDup (l ++ [pk_number p]) → Forall (fun n => 1 ≤ n < 2 ^ 63) l → counted_packets l sp →
  ∃ sp' w', iperf_udp_recv test sp w = Ok (Z.of_nat size, sp', w') ∧
    dgram w' = true ∧ reads w' = rest ∧ length (sp_buffer sp') = size ∧
    counted_packets (l ++ [pk_number p]) sp' ∧
    rs_bytes_received (sp_result sp') = u64 (rs_bytes_received (sp_result sp) + Z.of_nat size).
Proof.
  intros [(Hb & H0 & Hsz) Hst Hsk] Hlb Hp Hd Hr Hnd Hl Hc.
  set (c := negb (udp_counters_64bit test =? 0)) in *.
  unfold iperf_udp_recv. rewrite Hsk. cbn [negb Z.eqb]. cbv zeta. rewrite Hb.
  rewrite decide_False by lia. rewrite Nat2Z.id.
  pose proof Hp as (_ & _ & Hn & Hlen).
  rewrite (Nrecv_no_select_datagram w _ rest size Hd Hr Hlen H0 Hsz), Ok_bind. cbn [ret filled].
  ztest. fold c.
  set (sp1 := on_result _ _).
  assert (sp_buffer sp1 = datagram c p) as ->.
  { change (sp_buffer sp1) with (overlay (datagram c p) (sp_buffer sp)).
    unfold overlay. rewrite drop_ge, app_nil_r; (done || lia). }
  rewrite (read_header_datagram c size p Hp), Ok_bind. cbv beta iota zeta.
  assert (counted_packets l sp1) as Hc1 by done.
  destruct (count_packet_step l (pk_number p) sp1) as (Hc2 & Hres & Hbuf); [done| |done|].
  { apply Forall_app. split; [done|]. apply Forall_singleton. unfold number_bound in Hn. case_match; lia. }
  destruct (os_now (w <| reads := rest |>)) as [now w1] eqn:En.
  assert (dgram w1 = true ∧ reads w1 = rest) as [? ?].
  { unfold os_now in En. cbn in En. repeat case_match; injection En as <- <-; done. }
  destruct (measure_jitter_fields (rs_bytes_received (sp_result (sp <| sp_buffer ::= overlay (datagram c p) |>)) =? 0)
    now (pk_time p) (count_packet (pk_number p) sp1)) as (E1 & E2 & E3 & E4 & E5).
  eexists _, w1. split_and!; [reflexivity|done|done| | |].
  - rewrite E5, Hbuf. change (sp_buffer sp1) with (overlay (datagram c p) (sp_buffer sp)).
    unfold overlay. rewrite length_app, length_drop. lia.
  - destruct Hc2 as (? & ? & ?). unfold counted_packets. by rewrite E1, E2, E3.
  - rewrite E4, Hres. done.
Qed.

(** The receiver's stream before the first packet. *)
Definition fresh_counters (sp : iperf_stream) : Prop :=
  counted_packets [] sp ∧ rs_bytes_received (sp_result sp) = 0.

Lemma recv_packets_run test size ps l sp w rest :
  receiving test size → length (sp_buffer sp) = size →
  Forall (packet_ok (negb (udp_counters_64bit test =? 0)) size) ps →
  NoDup (l ++ map pk_number ps) → Forall (fun n => 1 ≤ n < 2 ^ 63) l → counted_packets l sp →
  dgram w = true →
  reads w = map (fun p => Data (datagram (negb (udp_counters_64bit test =? 0)) p)) ps ++ rest →
  ∃ sp' w', recv_packets (length ps) test sp w = Ok (sp', w') ∧ reads w' = rest ∧
    counted_packets (l ++ map pk_number ps) sp' ∧
    u64 (rs_bytes_received (sp_result sp'))
    = u64 (rs_bytes_received (sp_result sp) + Z.of_nat (length ps * size)).
Proof.
  intros Ht. revert l sp w. induction ps as [|p ps IH]; intros l sp w Hlb Hps Hnd Hl Hc Hd Hr.
  - exists sp, w. rewrite app_nil_r in *. cbn [length Nat.mul]. rewrite Z.add_0_r. done.
  - apply Forall_cons in Hps as [Hp Hps]. cbn [length recv_packets map] in *.
    change (pk_number p :: map pk_number ps) with ([pk_number p] ++ map pk_number ps) in *.
    rewrite app_assoc in *.
    destruct (recv_datagram test size sp w p _ l Ht Hlb Hp Hd Hr) as (sp1 & w1 & -> & Hd1 & Hr1 & Hlb1 & Hc1 & Hb1);
      [by apply NoDup_app in Hnd as [? _]|done|done|].
    rewrite Ok_bind. cbv beta iota.
    destruct (IH (l ++ [pk_number p]) sp1 w1) as (sp2 & w2 & -> & Hr2 & Hc2 & Hb2); try done.
    { apply Forall_app. split; [done|]. apply Forall_singleton.
      destruct Hp as (_ & _ & Hn & _). unfold number_bound in Hn. case_match; lia. }
    exists sp2, w2. split_and!; [done..|].
    rewrite Hb2, Hb1, wrapu_add_l. f_equal. cbn [Nat.mul]. lia.
Qed.

(** What the sender's script may do with a datagram: take it or fail. *)
Definition whole_datagrams (size : nat) (w : os) : Prop :=
  Forall (fun a => match a with Accept k => (size ≤ k)%nat | Write_error _ => True end) (writes w).

Lemma Nwrite_datagram w buf :
  (0 < length buf)%nat → Z.of_nat (length buf) < 2 ^ 31 → whole_datagrams (length buf) w →
  ∃ r w', Nwrite w buf = Ok (r, w') ∧ whole_datagrams (length buf) w' ∧ clock w' = clock w ∧
    (r = Z.of_nat (length buf) ∧ sent w' = sent w ++ buf ∨ r < 0 ∧ sent w' = sent w).
Proof.
  intros H0 Hl Hw. unfold Nwrite, whole_datagrams in *. destruct buf as [|c buf]; [cbn in H0; lia|].
  cbn [length Nwrite_loop] in *. unfold os_write.
  destruct (writes w) as [|[k|e] rest] eqn:E; [|apply Forall_cons in Hw as [Hk Hw]..].
  - exists NET_HARDERROR, w. split_and!; [done|by rewrite E|done|by right].
  - rewrite (take_ge (c :: buf)) by (cbn [length]; lia). cbn [length].
    rewrite decide_False by lia. rewrite drop_ge by done.
    exists (Z.of_nat (S (length buf))), (w <| writes := rest |> <| sent := sent w ++ c :: buf |>).
    split_and!; [|done|done|by left].
    destruct (length buf); cbn [Nwrite_loop]; by rewrite wraps_id by (unfold in_s; lia).
  - rewrite decide_True by done.
    exists (if transient e then NET_SOFTERROR else if e =? ENOBUFS then NET_SOFTERROR else NET_HARDERROR),
      (w <| writes := rest |>).
    split_and!; [by repeat case_match|done|done|]. right. split; [by repeat case_match|done].
Qed.

Fixpoint send_packets (n : nat) (test : iperf_test) (sp : iperf_stream) (w : os)
  : outcome (iperf_stream * os) :=
  match n with
  | O => Ok (sp, w)
  | S n' => '(_, sp, w) ← iperf_udp_send test sp w; send_packets n' test sp w
  end.

Definition clock_ok (w : os) : Prop :=
  Forall (fun t => in_u 32 (secs t) ∧ in_u 32 (usecs t)) (clock w).

(** A sender's block and the packets numbered after [k]. *)
Definition numbered (k : Z) (ps : list packet) : Prop := map pk_number ps = seqZ (k + 1) (Z.of_nat (length ps)).

Lemma send_datagram test size sp w :
  let c := negb (udp_counters_64bit test =? 0) in
  blksize (settings test) = Z.of_nat size → (16 ≤ size)%nat → Z.of_nat size < 2 ^ 31 →
  length (sp_buffer sp) = size → 0 ≤ sp_packet_count sp → sp_packet_count sp + 1 < number_bound c →
  whole_datagrams size w → clock_ok w →
  ∃ r sp' w', iperf_udp_send test sp w = Ok (r, sp', w') ∧
    length (sp_buffer sp') = size ∧ whole_datagrams size w' ∧ clock_ok w' ∧
    (r = Z.of_nat size ∧ sp_packet_count sp' = sp_packet_count sp + 1 ∧
     rs_bytes_sent (sp_result sp') = u64 (rs_bytes_sent (sp_result sp) + Z.of_nat size) ∧
     (∃ p, packet_ok c size p ∧ pk_number p = sp_packet_count sp + 1 ∧
           sent w' = sent w ++ datagram c p) ∨
     r < 0 ∧ sp_packet_count sp' = sp_packet_count sp ∧ sp_result sp' = sp_result sp ∧
     sent w' = sent w).
Proof.
  intros c Hb H16 Hsz Hlb H0 Hk Hw Hck. unfold iperf_udp_send. cbv zeta. rewrite Hb. fold c.
  destruct (os_now w) as [before w1] eqn:En.
  assert (sent w1 = sent w ∧ whole_datagrams size w1 ∧ clock_ok w1 ∧
          in_u 32 (secs before) ∧ in_u 32 (usecs before)) as (Es & Hw1 & Hck1 & Hs & Hu).
  { unfold clock_ok in *. unfold os_now in En. destruct (clock w) as [|t [|t' rest]] eqn:E; injection En as <- <-.
    - rewrite E. by split_and!.
    - rewrite E. apply Forall_cons in Hck as Hck'. destruct Hck' as [[? ?] _]. by split_and!.
    - apply Forall_cons in Hck as [[? ?] ?]. by split_and!. }
  set (k := sp_packet_count sp) in *.
  set (sp1 := sp <| sp_packet_count ::= fun c0 => i64 (c0 + 1) |>).
  assert (sp_packet_count sp1 = k + 1) as E1.
  { change (i64 (k + 1) = k + 1). apply wraps_id; [done|]. unfold in_s, number_bound in *. destruct c; lia. }
  rewrite E1. set (h := header c before (k + 1)).
  assert (length h = if c then 16%nat else 12%nat) as Hh.
  { unfold h, header. rewrite !length_app, !length_be_split. by destruct c. }
  rewrite decide_False by (change (sp_buffer sp1) with (sp_buffer sp); destruct c; lia).
  set (sp2 := sp1 <| sp_buffer ::= overlay h |>).
  set (body := drop (length h) (sp_buffer sp)).
  assert (sp_buffer sp2 = h ++ body) as E2 by done. rewrite E2.
  assert (length (h ++ body) = size) as Hlen.
  { unfold body. rewrite length_app, length_drop. destruct c; lia. }
  rewrite decide_False by lia. rewrite Nat2Z.id, take_ge by lia.
  destruct (Nwrite_datagram w1 (h ++ body)) as (r & w2 & -> & Hw2 & Hc2 & Hr); [lia|lia|by rewrite Hlen|].
  rewrite Ok_bind. cbv beta iota. rewrite Hlen in *.
  assert (clock_ok w2) as Hck2 by (unfold clock_ok in *; by rewrite Hc2).
  destruct Hr as [[-> Hsent]|[Hr Hsent]]; ztest.
  - eexists _, _, w2. split; [reflexivity|]. split_and!; [|done|done|..].
    { change (length (sp_buffer sp2) = size). by rewrite E2. }
    left. split_and!; [done|exact E1|done|]. exists (mk_packet before (k + 1) body).
    split_and!; [|done|by rewrite Hsent, Es].
    split_and!; [done|done|cbn; lia|cbn; lia|exact Hlen].
  - eexists r, _, w2. split; [reflexivity|]. split_and!; [|done|done|..].
    { change (length (sp_buffer sp2) = size). by rewrite E2. }
    right. split_and!; [done| |done|congruence].
    change (i64 (sp_packet_count sp1 - 1) = k). rewrite E1, wraps_id; [lia|done|].
    unfold in_s, number_bound in *. destruct c; lia.
Qed.

Lemma send_packets_run test size n sp w :
  let c := negb (udp_counters_64bit test =? 0) in
  blksize (settings test) = Z.of_nat size → (16 ≤ size)%nat → Z.of_nat size < 2 ^ 31 →
  length (sp_buffer sp) = size → 0 ≤ sp_packet_count sp →
  sp_packet_count sp + Z.of_nat n < number_bound c →
  whole_datagrams size w → clock_ok w →
  ∃ sp' w' ps, send_packets n test sp w = Ok (sp', w') ∧
    sent w' = sent w ++ concat (map (datagram c) ps) ∧ Forall (packet_ok c size) ps ∧
    numbered (sp_packet_count sp) ps ∧ (length ps ≤ n)%nat ∧
    sp_packet_count sp' = sp_packet_count sp + Z.of_nat (length ps) ∧
    u64 (rs_bytes_sent (sp_result sp'))
    = u64 (rs_bytes_sent (sp_result sp) + Z.of_nat (length ps * size)).
Proof.
  intros c Hb H16 Hsz. revert sp w. induction n as [|n IH]; intros sp w Hlb H0 Hk Hw Hck.
  - exists sp, w, []. cbn. rewrite !app_nil_r, !Z.add_0_r. split_and!; try done.
  - cbn [send_packets].
    destruct (send_datagram test size sp w) as (r & sp1 & w1 & -> & Hlb1 & Hw1 & Hck1 & Hr);
      [done|done|done|done|done|fold c; lia|done|done|].
    rewrite Ok_bind. cbv beta iota. fold c in Hr.
    destruct Hr as [(_ & Ec & Eb & p & Hp & Hn & Hs1)|(_ & Ec & Er & Hs1)].
    + destruct (IH sp1 w1) as (sp2 & w2 & ps & -> & Hs2 & Hps & Hnum & Hlen & Ec2 & Eb2); [done|lia|lia|done|done|].
      exists sp2, w2, (p :: ps). cbn [map concat length]. rewrite Ec in *. split_and!; [done| |by constructor| |lia|lia|].
      * by rewrite Hs2, Hs1, <- app_assoc.
      * unfold numbered in *. cbn [map length]. rewrite Hnum, Hn, Nat2Z.inj_succ.
        rewrite (seqZ_cons (sp_packet_count sp + 1)) by lia.
        f_equal. f_equal; lia.
      * rewrite Eb2, Eb, wrapu_add_l. f_equal. cbn [Nat.mul]. lia.
    + destruct (IH sp1 w1) as (sp2 & w2 & ps & -> & Hs2 & Hps & Hnum & Hlen & Ec2 & Eb2); [done|lia|lia|done|done|].
      exists sp2, w2, ps. rewrite Ec, Er, Hs1 in *. split_and!; (done || lia).
Qed.

(** ** Properties *)

(** The sequence numbers of a UDP sender have no gaps: over any number of
    calls of [iperf_udp_send], with any of the writes failing, the datagrams
    that left carry the next numbers in order (a failed datagram's number is
    used again), each of the block size with the time of sending, and the
    packet and byte counters count exactly those. *)
Theorem udp_numbering test size n sp w :
  let c := negb (udp_counters_64bit test =? 0) in
  blksize (settings test) = Z.of_nat size → (16 ≤ size)%nat → Z.of_nat size < 2 ^ 31 →
  length (sp_buffer sp) = size → 0 ≤ sp_packet_count sp →
  sp_packet_count sp + Z.of_nat n < number_bound c →
  whole_datagrams size w → clock_ok w →
  ∃ sp' w' ps, send_packets n test sp w = Ok (sp', w') ∧
    sent w' = sent w ++ concat (map (datagram c) ps) ∧ Forall (packet_ok c size) ps ∧
    numbered (sp_packet_count sp) ps ∧ (length ps ≤ n)%nat ∧
    sp_packet_count sp' = sp_packet_count sp + Z.of_nat (length ps) ∧
    u64 (rs_bytes_sent (sp_result sp'))
    = u64 (rs_bytes_sent (sp_result sp) + Z.of_nat (length ps * size)).
Proof. apply send_packets_run. Qed.

(** A UDP receiver counts losses exactly as long as the network duplicates
    nothing.  After any distinct packets, in any order, [packet_count] is the
    highest number seen, [cnt_error] the number of packets up to it that have
    not arrived, [outoforder_packets] the number that arrived behind a higher
    one, and the byte count is that of the packets. *)
Theorem udp_loss_accounting test size ps sp w rest :
  let c := negb (udp_counters_64bit test =? 0) in
  let ns := map pk_number ps in
  receiving test size → length (sp_buffer sp) = size → fresh_counters sp →
  Forall (packet_ok c size) ps → NoDup ns → dgram w = true →
  reads w = map (fun p => Data (datagram c p)) ps ++ rest →
  ∃ sp' w', recv_packets (length ps) test sp w = Ok (sp', w') ∧ reads w' = rest ∧
    sp_packet_count sp' = highest ns ∧ sp_cnt_error sp' = Z.of_nat (length (missing ns)) ∧
    sp_outoforder_packets sp' = late 0 ns ∧
    u64 (rs_bytes_received (sp_result sp')) = u64 (Z.of_nat (length ps * size)).
Proof.
  intros c ns Ht Hlb [Hc H0] Hps Hnd Hd Hr.
  destruct (recv_packets_run test size ps [] sp w rest) as (sp' & w' & Hrun & Hr' & Hc' & Hb'); try done.
  exists sp', w'. rewrite H0 in Hb'. destruct Hc' as (E1 & E2 & E3). cbn [app] in *. fold ns in E1, E2, E3.
  split_and!; [done..| |done|exact Hb']. rewrite E2, missing_length; [done|done|].
  apply Forall_map. eapply Forall_impl; [exact Hps|]. cbn. intros p (_ & _ & [? _] & _). done.
Qed.

Definition sample_udp_test : iperf_test :=
  on_settings (fun s => s <| blksize := 16 |>)
    (iperf_new_test <| state := TEST_RUNNING |> <| udp_counters_64bit := 0 |>).
Definition zero_result : iperf_stream_result :=
  mk_result 0 0 0 0 0 0 0 zero_time zero_time zero_time D0 D0 [].
Definition sample_stream : iperf_stream :=
  mk_stream 5 1 false 0 zero_result true (replicate 16 NUL) 0 0 0 0 0 D0 D0 0 0 0 0 0.
Definition sample_packet (n : Z) : packet := mk_packet (mk_time 7 0) n (B "data").

Lemma udp_numbering_witness :
  let w := mk_os true [] [Accept 16; Write_error EAGAIN; Accept 99] [] [mk_time 7 0; mk_time 8 5] [] in
  ∃ sp' w' ps, send_packets 3 sample_udp_test sample_stream w = Ok (sp', w') ∧
    sent w' = concat (map (datagram false) ps) ∧ numbered 0 ps.
Proof.
  intros w.
  destruct (udp_numbering sample_udp_test 16 3 sample_stream w) as (sp' & w' & ps & Hr & Hs & _ & Hn & _);
    [reflexivity|lia|done|reflexivity|done|done|by repeat constructor|unfold clock_ok; decided|].
  exists sp', w', ps. split_and!; [exact Hr|exact Hs|exact Hn].
Defined.

Lemma udp_loss_accounting_witness :
  let ps := map sample_packet [1; 2; 6; 4] in
  let w := mk_os true (map (fun p => Data (datagram false p)) ps) [] [] [mk_time 9 0] [] in
  ∃ sp' w', recv_packets 4 sample_udp_test sample_stream w = Ok (sp', w') ∧
    sp_packet_count sp' = 6 ∧ sp_cnt_error sp' = 2 ∧ sp_outoforder_packets sp' = 1.
Proof.
  intros ps w.
  destruct (udp_loss_accounting sample_udp_test 16 ps sample_stream w []) as (sp' & w' & Hr & _ & H1 & H2 & H3 & _);
    [split; [split_and!; (done || lia)|done|done]|reflexivity|by split_and!|decided|decided|done|reflexivity|].
  exists sp', w'. split_and!; [exact Hr|exact H1|exact H2|exact H3].
Defined.



(** A data packet that is on its way before the reply. *)
Definition early_packet (d : bytes) : Prop := (4 ≤ length d)%nat ∧ is_reply (take 4 d) = false.

Lemma overlay_four got buf : (4 ≤ length got)%nat → length buf = 4%nat → overlay (take 4 got) buf = take 4 got.
Proof.
  intros Hg Hb. unfold overlay. rewrite drop_ge, app_nil_r; [done|].
  rewrite length_take, Nat.min_l by done. lia.
Qed.

Lemma wait_for_reply_early l d buf i max :
  Forall early_packet l → (4 ≤ length d)%nat → is_reply (take 4 d) = true → length buf = 4%nat →
  0 ≤ i < max → max + 4 < 2 ^ 31 →
  wait_for_reply (l ++ [d]) buf i max = if i + 4 * Z.of_nat (length l) <? max then 0 else -1.
Proof.
  intros Hl Hd Hr. revert buf i. induction Hl as [|e l [He Hne] Hl IH]; intros buf i Hb Hi Hm; cbn [app wait_for_reply].
  - rewrite overlay_four, Hr by done. cbn [negb andb length]. by ztest.
  - rewrite overlay_four, Hne by done. cbn [negb andb].
    assert (length (take 4 e) = 4)%nat as E by (rewrite length_take; lia). rewrite E.
    change (Z.of_nat 4) with 4. rewrite wraps_id by (unfold in_s; lia). cbn [length].
    destruct (Z.ltb_spec (i + 4) max).
    + rewrite IH by (done || lia). repeat case_match; bool_to_prop; lia.
    + by ztest.
Qed.

(** The client waits for the server's reply.  A client that is not reversed
    accepts only a first datagram that is the reply; a reversed one, whose
    data may overtake the reply, goes on reading.  Since each [recv] asks for
    four bytes, it tolerates one early packet per four bytes of
    [4 + 2 * blksize], not the two packets the constant is named for. *)
Theorem udp_reply_after_early_packets test l d :
  Forall early_packet l → (4 ≤ length d)%nat → is_reply (take 4 d) = true →
  0 ≤ blksize (settings test) < 2 ^ 29 →
  fst (udp_handshake test (l ++ [d])) = 0 ↔
  if reverse test =? 0 then l = [] else 4 * Z.of_nat (length l) < 4 + 2 * blksize (settings test).
Proof.
  intros Hl Hd Hr Hb. unfold udp_handshake, MAX_REVERSE_OUT_OF_ORDER_PACKETS.
  rewrite (wraps_id 32) by (unfold in_s; lia).
  rewrite (wait_for_reply_early l d) by (done || case_match; lia).
  destruct (reverse test =? 0); cbn [negb].
  - destruct l; cbn [length]; [done|]. by ztest.
  - repeat case_match; bool_to_prop; cbn; split; (done || lia).
Qed.

Lemma udp_reply_after_early_packets_witness :
  fst (udp_handshake (on_settings (fun s => s <| blksize := 1460 |>) (iperf_new_test <| reverse := 1 |>))
         (replicate 730 (B "early") ++ [B "6789"])) = 0.
Proof.
  apply (udp_reply_after_early_packets (on_settings (fun s => s <| blksize := 1460 |>)
    (iperf_new_test <| reverse := 1 |>)) (replicate 730 (B "early")) (B "6789"));
    [|vm_compute; lia|reflexivity|cbn; lia|reflexivity].
  apply Forall_replicate. split; [vm_compute; lia|reflexivity].
Defined.

(** Under [--skip-rx-copy] the receiver counts sixteen bytes for a datagram
    of any greater length: [Nrecv_no_select] returns the number of bytes
    copied, not the length that [MSG_TRUNC] reports. *)
Theorem skip_rx_copy_undercounts test sp w d rest :
  skip_rx_copy (settings test) ≠ 0 → state test = TEST_RUNNING → (16 ≤ length (sp_buffer sp))%nat →
  dgram w = true → reads w = Data d :: rest → (16 ≤ length d)%nat →
  ∃ sp' w', iperf_udp_recv test sp w = Ok (16, sp', w') ∧
    rs_bytes_received (sp_result sp') = u64 (rs_bytes_received (sp_result sp) + 16).
Proof.
  intros Hsk Hst Hlb Hd Hr Hl. unfold iperf_udp_recv. cbv zeta. rewrite (proj2 (Z.eqb_neq _ _) Hsk). cbn [negb].
  rewrite decide_False by lia. unfold Nrecv_no_select. change (Z.to_nat 16) with 16%nat.
  cbn [Nrecv_no_select_loop]. unfold os_recv. rewrite Hr, Hd.
  change (negb (Z.land MSG_TRUNC MSG_TRUNC =? 0)) with true. cbv iota beta.
  rewrite (proj2 (Z.eqb_neq (Z.of_nat (length d)) 0)) by lia.
  assert (counted MSG_TRUNC (Z.of_nat (length d)) 16 = 16%nat) as ->.
  { unfold counted. change (negb (Z.land MSG_TRUNC MSG_TRUNC =? 0)) with true. cbv iota. lia. }
  change (16 - 16)%nat with 0%nat. cbn [Nrecv_no_select_loop app].
  rewrite Ok_bind. cbn [ret filled]. change (i32 (Z.of_nat (16 - 0))) with 16.
  change (16 <=? 0) with false. cbv iota. rewrite Hst, Z.eqb_refl.
  set (sp1 := on_result _ _).
  assert (length (sp_buffer sp1) = length (sp_buffer sp)) as Hb1.
  { change (sp_buffer sp1) with (overlay (take 16 d) (sp_buffer sp)). unfold overlay.
    rewrite length_app, length_drop, length_take. lia. }
  destruct (read_header_defined (negb (udp_counters_64bit test =? 0)) (sp_buffer sp1))
    as ([t n] & ->); [lia|].
  rewrite Ok_bind. cbv beta iota zeta.
  destruct (os_now (w <| reads := rest |>)) as [now w1].
  match goal with |- context [measure_jitter ?f ?a ?s ?x] =>
    destruct (measure_jitter_fields f a s x) as (_ & _ & _ & E & _); eexists _, w1; split; [reflexivity|]; rewrite E end.
  unfold count_packet. repeat case_match; reflexivity.
Qed.

Lemma skip_rx_copy_undercounts_witness :
  let w := mk_os true [Data (datagram false (sample_packet 1) ++ replicate 1400 NUL)] [] [] [mk_time 9 0] [] in
  ∃ sp' w', iperf_udp_recv (on_settings (fun s => s <| skip_rx_copy := 1 |>) sample_udp_test) sample_stream w
              = Ok (16, sp', w') ∧ rs_bytes_received (sp_result sp') = 16.
Proof.
  intros w. apply (skip_rx_copy_undercounts (on_settings (fun s => s <| skip_rx_copy := 1 |>) sample_udp_test)
    sample_stream w (datagram false (sample_packet 1) ++ replicate 1400 NUL) []);
    [done|done|vm_compute; lia|done|done|vm_compute; lia].
Defined.
