(* ===== verification/Auth.v ===== *)
(** * Authentication ([src/iperf_auth.c], and [test_is_authorized] of [src/iperf_api.c])

    The client encrypts its name, password and time under the server's public
    key and sends the text in base64; the server decrypts it, checks the time
    and looks the name and the hash of the password up in a file.  OpenSSL (RSA,
    base64, SHA-256) is a parameter; buffers have the sizes the code allocates. *)

From S2P Require Import Prelude CInt CStdio IperfTime Test.

(** ** [sscanf], [fgets], [strtok] *)

Definition is_space (c : ascii) : bool := (9 <=? u8 c) && (u8 c <=? 13) || (u8 c =? 32).

Fixpoint skip_space (l : bytes) : bytes :=
  match l with c :: l' => if is_space c then skip_space l' else l | [] => [] end.

(** The longest prefix without white space, and the rest. *)
Fixpoint token (l : bytes) : bytes * bytes :=
  match l with
  | c :: l' => if is_space c then ([], l) else let '(t, r) := token l' in (c :: t, r)
  | [] => ([], [])
  end.

Inductive directive := Lit (c : ascii) | Blank | Str | Int64.
Inductive scanned := Got_str (s : bytes) | Got_int (z : Z).

(** [%ld]: the value saturates. *)
Definition scan_int (l : bytes) : option (Z * bytes) :=
  let '(neg, l1) := strtod_sign (skip_space l) in
  match span_digits l1 with
  | ([], _) => None
  | (d, r) => Some (Z.max (- 2 ^ 63) (Z.min (2 ^ 63 - 1) (if neg then - dec_val d else dec_val d)), r)
  end.

(** The values assigned until the first directive that does not match. *)
Fixpoint sscanf (l : bytes) (fmt : list directive) : list scanned :=
  match fmt with
  | [] => []
  | Lit c :: fmt' =>
      match l with
      | d :: l' => if decide (c = d) then sscanf l' fmt' else []
      | [] => []
      end
  | Blank :: fmt' => sscanf (skip_space l) fmt'
  | Str :: fmt' =>
      match token (skip_space l) with
      | ([], _) => []
      | (t, r) => Got_str t :: sscanf r fmt'
      end
  | Int64 :: fmt' =>
      match scan_int l with
      | Some (z, r) => Got_int z :: sscanf r fmt'
      | None => []
      end
  end.

(** [fgets(buf, n, file)]: the next line, newline included, of at most [n - 1]
    bytes, and the rest of the file. *)
Fixpoint fgets (n : nat) (file : bytes) : bytes * bytes :=
  match n, file with
  | S n', c :: file' =>
      if decide (n' = 0%nat) then ([], file)
      else if decide (u8 c = 10) then ([c], file')
      else let '(l, r) := fgets n' file' in (c :: l, r)
  | _, _ => ([], file)
  end.

(** [strtok] with the delimiter [,]: the token, if any, and where the next call
    continues. *)
Fixpoint skip_commas (l : bytes) : bytes :=
  match l with c :: l' => if decide (c = ","%char) then skip_commas l' else l | [] => [] end.
Fixpoint until_comma (l : bytes) : bytes * bytes :=
  match l with
  | c :: l' => if decide (c = ","%char) then ([], l') else let '(t, r) := until_comma l' in (c :: t, r)
  | [] => ([], [])
  end.
Definition strtok (l : bytes) : option bytes * bytes :=
  match skip_commas l with
  | [] => (None, [])
  | l' => let '(t, r) := until_comma l' in (Some t, r)
  end.

(** ** The password file *)

(** The loop that cuts the line at the first newline or carriage return. *)
Fixpoint strip_eol (buf : bytes) : bytes :=
  match buf with
  | c :: buf' => if (u8 c =? 10) || (u8 c =? 13) then [] else c :: strip_eol buf'
  | [] => []
  end.

Definition skipped (buf : bytes) : bool :=
  match buf with
  | [] => true
  | c :: _ => bool_decide (","%char ∉ buf) || bool_decide (c = "#"%char)
  end.

(** One line: whether it is the user's.  [strcmp] of a null pointer is
    undefined. *)
Definition line_matches (username passwordHash buf : bytes) : outcome bool :=
  if skipped buf then Ok false
  else
    let '(s_username, rest) := strtok buf in
    let '(s_password, _) := strtok rest in
    match s_username with
    | None => Undef
    | Some u =>
        if decide (username = u) then
          match s_password with
          | None => Undef
          | Some p => Ok (bool_decide (passwordHash = p))
          end
        else Ok false
    end.

Fixpoint search_file (fuel : nat) (username passwordHash file : bytes) : outcome Z :=
  match file, fuel with
  | [], _ => Ok 3
  | _, O => NoFuel
  | _, S fuel' =>
      let '(buf, rest) := fgets 1024 file in
      found ← line_matches username passwordHash (strip_eol (c_str buf));
      if found : bool then Ok 0 else search_file fuel' username passwordHash rest
  end.

Section Auth.
(** OpenSSL: the size of a key, encryption and decryption under it (what
    either leaves in its buffer, also when it fails), base64, SHA-256. *)
Context (key_size : bytes → Z) (rsa_encrypt rsa_decrypt : bytes → bytes → bytes)
  (base64_write base64_read SHA256 : bytes → bytes).

(** [sha256]: the digest in hexadecimal. *)
Definition sha256 (s : bytes) : bytes := concat (map (fun c => hex_pad 2 (u8 c)) (SHA256 s)).

Definition salted (username password : bytes) : bytes := B "{" ++ username ++ B "}" ++ password.

(** [utc_seconds] is the clock of the host; the file is [None] when it cannot be
    opened. *)
Definition check_authentication (utc_seconds : Z) (username password : bytes) (ts : Z)
    (file : option bytes) (skew_threshold : Z) : outcome Z :=
  let age := i64 (utc_seconds - ts) in
  if (skew_threshold <? age) || (age <? - skew_threshold) then Ok 1
  else match file with
  | None => Ok 2
  | Some text => search_file (length text) username (sha256 (salted username password)) text
  end.

(** ** Tokens *)

Definition calcDecodeLength (b64input : bytes) : Z :=
  let len := Z.of_nat (length b64input) in
  let padding :=
    if (2 <=? len) && bool_decide (drop (length b64input - 2) b64input = B "==") then 2
    else if (1 <=? len) && bool_decide (drop (length b64input - 1) b64input = B "=") then 1
    else 0 in
  u64 (u64 (len * 3) / 4 - padding).

(** The buffer has [decodeLen + 1] bytes, the last of which is set first. *)
Definition Base64Decode (b64message : bytes) : outcome bytes :=
  let decodeLen := i32 (calcDecodeLength b64message) in
  if decodeLen <? 0 then Undef
  else
    let out := take (length b64message) (base64_read b64message) in
    if decodeLen + 1 <? Z.of_nat (length out) then Undef else Ok out.

(** [BIO_read] of the whole source into a buffer of [size] bytes. *)
Definition copy_to_buffer (size : Z) (source : bytes) : outcome bytes :=
  if size <? Z.of_nat (length source) then Undef else Ok source.

Definition encrypt_rsa_message (plaintext key : bytes) : outcome bytes :=
  rsa_buffer ← copy_to_buffer (key_size key) plaintext;
  Ok (rsa_encrypt key rsa_buffer).

Definition decrypt_rsa_message (encryptedtext key : bytes) : outcome bytes :=
  rsa_buffer ← copy_to_buffer (key_size key) encryptedtext;
  Ok (rsa_decrypt key rsa_buffer).

Definition auth_text (username password : bytes) (ts : Z) : bytes :=
  B "user: " ++ username ++ chr 10 :: B "pwd:  " ++ password ++ chr 10 :: B "ts:   " ++ dec_Z ts.

Definition auth_text_format : list directive :=
  map Lit (B "user:") ++ [Blank; Str; Blank] ++ map Lit (B "pwd:") ++ [Blank; Str; Blank] ++
  map Lit (B "ts:") ++ [Blank; Int64].

(** The length of the format string [user: %s\npwd:  %s\nts:   %ld]. *)
Definition format_length : nat := 27.

Definition encode_auth_setting (utc_seconds : Z) (username password public_key : bytes)
  : outcome bytes :=
  let text_len := (format_length + length username + length password + 32)%nat in
  let text := take (text_len - 1) (auth_text username password utc_seconds) in
  encrypted ← encrypt_rsa_message text public_key;
  Ok (base64_write encrypted).

(** The names are copied to buffers of [plaintext_len] bytes. *)
Definition decode_auth_setting (authtoken private_key : bytes) : outcome (bytes * bytes * Z) :=
  encrypted ← Base64Decode authtoken;
  plaintext ← decrypt_rsa_message encrypted private_key;
  match plaintext with
  | [] => Fail
  | _ =>
      match sscanf (c_str plaintext) auth_text_format with
      | [Got_str u; Got_str p; Got_int t] =>
          if decide (length u < length plaintext ∧ length p < length plaintext)%nat
          then Ok (u, p, t) else Undef
      | _ => Fail
      end
  end.

(** [test_is_authorized]: 0 or -1.  [read_file] opens and reads a file by name. *)
Definition test_is_authorized (read_file : bytes → option bytes) (utc_seconds : Z) (test : iperf_test)
  : outcome Z :=
  match server_rsa_private_key test, server_authorized_users test with
  | Some key, Some filename =>
      match authtoken (settings test) with
      | None => Ok (-1)
      | Some tok =>
          match decode_auth_setting tok key with
          | Ok (username, password, ts) =>
              ret ← check_authentication utc_seconds username password ts (read_file filename)
                      (server_skew_threshold test);
              Ok (if ret =? 0 then 0 else -1)
          | Fail => Ok (-1)
          | Undef => Undef
          | NoFuel => NoFuel
          end
      end
  | _, _ => Ok 0
  end.
End Auth.

(** ** The password file *)

(** A line of the file that names a user: no comma, line end or NUL in either
    part, and short enough for the buffer. *)
Definition clean (l : bytes) : Prop :=
  l ≠ [] ∧ Forall (fun c => c ≠ ","%char ∧ c ≠ NUL ∧ u8 c ≠ 10 ∧ u8 c ≠ 13) l.
Definition entry_ok (e : bytes * bytes) : Prop :=
  clean e.1 ∧ clean e.2 ∧ head e.1 ≠ Some "#"%char ∧ (length e.1 + length e.2 ≤ 1021)%nat.
Definition entry_line (e : bytes * bytes) : bytes := e.1 ++ B "," ++ e.2 ++ [chr 10].
Definition file_of (es : list (bytes * bytes)) : bytes := concat (map entry_line es).

#[export] Instance clean_dec l : Decision (clean l).
Proof. unfold clean. apply _. Defined.
#[export] Instance entry_ok_dec e : Decision (entry_ok e).
Proof. unfold entry_ok. apply _. Defined.

Lemma fgets_line n l r :
  Forall (fun c => u8 c ≠ 10) l → (length l + 1 < n)%nat →
  fgets n (l ++ chr 10 :: r) = (l ++ [chr 10], r).
Proof.
  intros Hl. revert n. induction Hl as [|c l Hc Hl IH]; intros [|n] Hn; cbn [length] in Hn;
    try lia; cbn [app fgets]; rewrite (decide_False (P := n = 0%nat)) by lia.
  - by rewrite decide_True.
  - rewrite decide_False by done. rewrite IH by lia. done.
Qed.

Lemma strip_eol_line l r :
  Forall (fun c => u8 c ≠ 10 ∧ u8 c ≠ 13) l → strip_eol (l ++ chr 10 :: r) = l.
Proof.
  induction 1 as [|c l [H1 H2] Hl IH]; [done|]. cbn. ztest. cbn. by rewrite IH.
Qed.

Lemma until_comma_field l :
  Forall (fun c => c ≠ ","%char) l → ∀ r, until_comma (l ++ B "," ++ r) = (l, r).
Proof.
  intros Hl r. induction Hl as [|c l Hc Hl IH]; [done|].
  cbn [app until_comma]. rewrite decide_False by done. by rewrite IH.
Qed.

Lemma until_comma_end l : Forall (fun c => c ≠ ","%char) l → until_comma l = (l, []).
Proof.
  induction 1 as [|c l Hc Hl IH]; [done|]. cbn. rewrite decide_False by done. by rewrite IH.
Qed.

Lemma strtok_skips c l : c ≠ ","%char → strtok (c :: l) = (let '(t, r) := until_comma (c :: l) in (Some t, r)).
Proof. intros. unfold strtok. cbn [skip_commas]. by rewrite decide_False. Qed.

Lemma clean_weaken (P : ascii → Prop) l :
  clean l → (∀ c, c ≠ ","%char ∧ c ≠ NUL ∧ u8 c ≠ 10 ∧ u8 c ≠ 13 → P c) → Forall P l.
Proof. intros [_ Hl] HP. eapply Forall_impl; [done|]. apply HP. Qed.

(** The line of an entry is matched field by field. *)
Lemma line_matches_entry u p e :
  entry_ok e → line_matches u p (e.1 ++ B "," ++ e.2) = Ok (bool_decide ((u, p) = e)).
Proof.
  destruct e as [eu eh]. cbn [fst snd]. intros (Hu & Hh & Hc & _). cbn [fst snd] in *.
  assert (skipped (eu ++ B "," ++ eh) = false) as Hs.
  { destruct Hu as [Hne _]. destruct eu as [|c eu]; [done|]. cbn. apply orb_false_iff. split.
    - apply bool_decide_eq_false_2. set_solver.
    - apply bool_decide_eq_false_2. intros ->. by apply Hc. }
  unfold line_matches. rewrite Hs.
  assert (strtok (eu ++ B "," ++ eh) = (Some eu, eh)) as ->.
  { destruct eu as [|c eu]; [by destruct Hu|]. cbn [app]. rewrite strtok_skips.
    2: { destruct Hu as [_ Hu]. by apply Forall_cons in Hu as [[? _] _]. }
    change (c :: eu ++ B "," ++ eh) with ((c :: eu) ++ B "," ++ eh).
    rewrite until_comma_field; [done|]. apply (clean_weaken _ _ Hu). tauto. }
  assert (strtok eh = (Some eh, [])) as ->.
  { destruct eh as [|c eh]; [by destruct Hh|]. rewrite strtok_skips.
    2: { destruct Hh as [_ Hh]. by apply Forall_cons in Hh as [[? _] _]. }
    rewrite until_comma_end; [done|]. apply (clean_weaken _ _ Hh). tauto. }
  case_decide as E; [subst|].
  - f_equal. apply bool_decide_ext. naive_solver.
  - f_equal. symmetry. apply bool_decide_eq_false_2. congruence.
Qed.

Lemma search_file_step fuel u p file :
  file ≠ [] →
  search_file (S fuel) u p file =
  (let '(buf, rest) := fgets 1024 file in
   found ← line_matches u p (strip_eol (c_str buf));
   if found : bool then Ok 0 else search_file fuel u p rest).
Proof. by destruct file. Qed.

(** The buffer after a line has been read and stripped. *)
Lemma line_read {A} (k : bytes → bytes → A) l rest :
  Forall (fun c => c ≠ NUL ∧ u8 c ≠ 10 ∧ u8 c ≠ 13) l → (length l ≤ 1022)%nat →
  (let '(buf, r) := fgets 1024 (l ++ chr 10 :: rest) in k (strip_eol (c_str buf)) r) = k l rest.
Proof.
  intros Hall Hlen. rewrite fgets_line; [|eapply Forall_impl; [exact Hall|naive_solver]|lia].
  rewrite c_str_no_nul.
  2: { unfold no_nul. rewrite elem_of_app, list_elem_of_singleton. intros [Hin| ]; [|done].
       rewrite Forall_forall in Hall. naive_solver. }
  by rewrite strip_eol_line by (eapply Forall_impl; [exact Hall|naive_solver]).
Qed.

Lemma search_file_entry u p e fuel rest :
  entry_ok e →
  search_file (S fuel) u p (entry_line e ++ rest) =
  if bool_decide ((u, p) = e) then Ok 0 else search_file fuel u p rest.
Proof.
  intros He. pose proof He as ((_ & Hu) & (_ & Hh) & _ & Hlen).
  assert (Forall (fun c => c ≠ NUL ∧ u8 c ≠ 10 ∧ u8 c ≠ 13) (e.1 ++ B "," ++ e.2)) as Hall.
  { apply Forall_app. split; [eapply Forall_impl; [exact Hu|naive_solver]|].
    apply Forall_app. split; [by repeat constructor|].
    eapply Forall_impl; [exact Hh|naive_solver]. }
  replace (entry_line e ++ rest) with ((e.1 ++ B "," ++ e.2) ++ chr 10 :: rest).
  2: { unfold entry_line. by rewrite <- !app_assoc. }
  rewrite search_file_step by (by destruct (e.1 ++ B "," ++ e.2)).
  rewrite (line_read (fun l r => found ← line_matches u p l;
             if found : bool then Ok 0 else search_file fuel u p r)); [|done|].
  2: { rewrite !length_app. change (length (B ",")) with 1%nat. lia. }
  by rewrite line_matches_entry.
Qed.

Lemma length_entry_line e : length (entry_line e) = (length e.1 + length e.2 + 2)%nat.
Proof.
  unfold entry_line. rewrite !length_app. change (length (B ",")) with 1%nat. cbn [length]. lia.
Qed.

(** The search finds exactly the entries of the file. *)
Lemma search_file_entries u p es fuel :
  Forall entry_ok es → (length (file_of es) ≤ fuel)%nat →
  search_file fuel u p (file_of es) = Ok (if decide ((u, p) ∈ es) then 0 else 3).
Proof.
  intros Hes. revert fuel. induction Hes as [|e es He Hes IH]; intros fuel Hf.
  { by destruct fuel. }
  unfold file_of in *. cbn [map concat] in *. rewrite length_app in Hf.
  pose proof (length_entry_line e). destruct fuel as [|fuel]; [lia|].
  rewrite search_file_entry by done. case_bool_decide as Em.
  - rewrite decide_True by (subst e; set_solver). done.
  - rewrite IH by lia. f_equal. apply decide_ext. set_solver.
Qed.

(** Passing the entries of another user. *)
Lemma search_file_skip u p e fuel rest :
  entry_ok e → (u, p) ≠ e →
  search_file (S fuel) u p (entry_line e ++ rest) = search_file fuel u p rest.
Proof.
  intros He Hne. rewrite search_file_entry by done. by rewrite bool_decide_eq_false_2.
Qed.

(** A line with the user's name and nothing after the comma. *)
Lemma search_file_incomplete u p es fuel :
  Forall entry_ok es → clean u → head u ≠ Some "#"%char → (length u ≤ 1021)%nat → (u, p) ∉ es →
  (length (file_of es) + length u < fuel)%nat →
  search_file fuel u p (file_of es ++ u ++ B "," ++ [chr 10]) = Undef.
Proof.
  intros Hes Hu Hc Hlen Hn. revert fuel. induction Hes as [|e es He Hes IH]; intros fuel Hf.
  - destruct fuel as [|fuel]; [lia|]. destruct Hu as [Hne Hu]. cbn [file_of concat map app].
    replace (u ++ B "," ++ [chr 10]) with ((u ++ B ",") ++ chr 10 :: []) by by rewrite <- app_assoc.
    rewrite search_file_step by (by destruct u).
    assert (Forall (fun c => c ≠ NUL ∧ u8 c ≠ 10 ∧ u8 c ≠ 13) (u ++ B ",")) as Hall.
    { apply Forall_app. split; [eapply Forall_impl; [exact Hu|naive_solver]|by repeat constructor]. }
    rewrite (line_read (fun l r => found ← line_matches u p l;
               if found : bool then Ok 0 else search_file fuel u p r)); [|done|].
    2: { rewrite length_app. change (length (B ",")) with 1%nat. lia. }
    unfold line_matches.
    assert (strtok (u ++ B ",") = (Some u, [])) as Hs.
    { destruct u as [|c u]; [done|]. cbn [app]. rewrite strtok_skips by (by apply Forall_cons in Hu as [[? _] _]).
      change (c :: u ++ B ",") with ((c :: u) ++ B "," ++ []).
      by rewrite until_comma_field by (eapply Forall_impl; [exact Hu|naive_solver]). }
    rewrite Hs. cbn [strtok skip_commas]. rewrite decide_True by done.
    assert (skipped (u ++ B ",") = false) as ->; [|done].
    destruct u as [|c u]; [done|]. cbn. apply orb_false_iff.
    split; apply bool_decide_eq_false_2; [set_solver|]. intros ->. by apply Hc.
  - rewrite not_elem_of_cons in Hn. unfold file_of in *. cbn [map concat] in *.
    rewrite length_app in Hf. destruct fuel as [|fuel]; [lia|].
    rewrite <- app_assoc, search_file_skip by naive_solver. pose proof (length_entry_line e). apply IH; [naive_solver|lia].
Qed.

(** ** [sscanf] reads what [snprintf] wrote *)

Definition word (l : bytes) : Prop := l ≠ [] ∧ Forall (fun c => is_space c = false ∧ c ≠ NUL) l.
#[export] Instance word_dec l : Decision (word l).
Proof. unfold word. apply _. Defined.

Lemma sscanf_lits s l fmt : sscanf (s ++ l) (map Lit s ++ fmt) = sscanf l fmt.
Proof. induction s as [|c s IH]; [done|]. cbn. by rewrite decide_True. Qed.

Lemma sscanf_blank l fmt : sscanf l (Blank :: fmt) = sscanf (skip_space l) fmt.
Proof. done. Qed.

Lemma token_word l r :
  Forall (fun c => is_space c = false ∧ c ≠ NUL) l →
  token (l ++ chr 10 :: r) = (l, chr 10 :: r).
Proof. induction 1 as [|c l [Hc _] Hl IH]; [done|]. cbn. by rewrite Hc, IH. Qed.

Lemma skip_space_word l r : word l → skip_space (l ++ r) = l ++ r.
Proof.
  intros [Hne Hl]. destruct l as [|c l]; [done|]. apply Forall_cons in Hl as [[Hc _] _].
  cbn. by rewrite Hc.
Qed.

Lemma sscanf_word l r fmt :
  word l → sscanf (l ++ chr 10 :: r) (Str :: fmt) = Got_str l :: sscanf (chr 10 :: r) fmt.
Proof.
  intros Hl. cbn [sscanf]. rewrite skip_space_word by done.
  rewrite token_word by apply Hl. destruct l; [by destruct Hl|done].
Qed.

Lemma digit_not_space c : is_digit c = true → is_space c = false.
Proof.
  unfold is_digit, is_space. intros. bool_to_prop.
  destruct (9 <=? u8 c) eqn:?, (u8 c <=? 13) eqn:?, (u8 c =? 32) eqn:?; bool_to_prop; cbn; lia || done.
Qed.

Lemma skip_space_dec z : skip_space (dec_Z z) = dec_Z z.
Proof.
  unfold dec_Z. destruct (Z.ltb_spec z 0); [done|].
  destruct (dec_U_spec z ltac:(lia)) as (Hd & Hne & _). destruct (dec_U z) as [|c l]; [done|].
  apply Forall_cons in Hd as [Hc _]. cbn. by rewrite digit_not_space.
Qed.

Lemma scan_dec z : in_s 64 z → scan_int (dec_Z z) = Some (z, []).
Proof.
  intros Hz. unfold in_s in Hz. change (64 - 1) with 63 in Hz.
  unfold scan_int. rewrite skip_space_dec. unfold dec_Z. destruct (Z.ltb_spec z 0).
  - change (strtod_sign (B "-" ++ dec_U (- z))) with (true, dec_U (- z)).
    destruct (dec_U_spec (- z) ltac:(lia)) as (Hd & Hne & Hv).
    rewrite <- (app_nil_r (dec_U (- z))), span_digits_app by done.
    destruct (dec_U (- z)) eqn:E; [done|]. rewrite Hv. f_equal. f_equal. lia.
  - destruct (dec_U_spec z ltac:(lia)) as (Hd & Hne & Hv).
    assert (strtod_sign (dec_U z) = (false, dec_U z)) as ->.
    { destruct (dec_U z) as [|c l]; [done|]. apply Forall_cons in Hd as [Hc _].
      destruct (digit_not_sign c Hc). cbn. by rewrite !decide_False. }
    rewrite <- (app_nil_r (dec_U z)), span_digits_app by done.
    destruct (dec_U z) eqn:E; [done|]. rewrite Hv. f_equal. f_equal. lia.
Qed.

Lemma dec_Z_no_nul z : no_nul (dec_Z z).
Proof.
  unfold no_nul, dec_Z.
  assert (∀ n, 0 ≤ n → NUL ∉ dec_U n) as H.
  { intros n Hn Hin. destruct (dec_U_spec n Hn) as (Hd & _). rewrite Forall_forall in Hd.
    by specialize (Hd _ Hin). }
  destruct (Z.ltb_spec z 0); [|by apply H]. rewrite elem_of_app. intros [Hin|Hin].
  - revert Hin. decided.
  - by apply H in Hin; [|lia].
Qed.

Lemma word_no_nul l : word l → no_nul l.
Proof. intros [_ Hl] Hin. rewrite Forall_forall in Hl. naive_solver. Qed.

Lemma auth_text_no_nul u p ts : word u → word p → no_nul (auth_text u p ts).
Proof.
  intros Hu%word_no_nul Hp%word_no_nul. unfold auth_text.
  rewrite !no_nul_app, !no_nul_cons, !no_nul_app, !no_nul_cons, no_nul_app.
  pose proof (dec_Z_no_nul ts). split_and!; try done; decided.
Qed.

(** What the client wrote is what the server's [sscanf] assigns. *)
Lemma scan_auth_text u p ts :
  word u → word p → in_s 64 ts →
  sscanf (auth_text u p ts) auth_text_format = [Got_str u; Got_str p; Got_int ts].
Proof.
  intros Hu Hp Hts. unfold auth_text, auth_text_format.
  change (B "user: ") with (B "user:" ++ B " "). rewrite <- !app_assoc, sscanf_lits.
  change (B "pwd:  ") with (B "pwd:" ++ B "  "). change (B "ts:   ") with (B "ts:" ++ B "   ").
  rewrite <- !app_assoc. cbn [app]. rewrite sscanf_blank. change (skip_space (B " " ++ ?l)) with (skip_space l).
  rewrite skip_space_word by done. rewrite sscanf_word by done. f_equal.
  rewrite sscanf_blank. change (skip_space (chr 10 :: B "pwd:" ++ ?l)) with (B "pwd:" ++ l).
  rewrite sscanf_lits. cbn [app]. rewrite sscanf_blank. change (skip_space (B "  " ++ ?l)) with (skip_space l).
  rewrite skip_space_word by done. rewrite sscanf_word by done. f_equal.
  rewrite sscanf_blank. change (skip_space (chr 10 :: B "ts:" ++ ?l)) with (B "ts:" ++ l).
  rewrite sscanf_lits. cbn [app]. rewrite sscanf_blank.
  change (skip_space (B "   " ++ ?l)) with (skip_space l). rewrite skip_space_dec.
  cbn [sscanf]. by rewrite scan_dec.
Qed.

Lemma auth_text_length u p ts :
  in_s 64 ts → (length (auth_text u p ts) < format_length + length u + length p + 32)%nat.
Proof.
  intros Hts. unfold auth_text. repeat (rewrite !length_app; cbn [length]).

  change (length (B "user: ")) with 6%nat. change (length (B "pwd:  ")) with 6%nat.
  change (length (B "ts:   ")) with 6%nat. unfold format_length.
  unfold in_s in Hts. change (64 - 1) with 63 in Hts.
  assert (length (dec_Z ts) ≤ 20)%nat; [|lia].
  apply (dec_Z_length ts 19). change (Z.of_nat 19) with 19. lia.
Qed.

(** ** A reference base64 *)

Definition alphabet : bytes :=
  B "ABCDEFGHIJKLMNOPQRSTUVWXYZabcdefghijklmnopqrstuvwxyz0123456789+/".
Definition sextet (n : Z) : ascii := nth (Z.to_nat n) alphabet NUL.
Fixpoint index_of (c : ascii) (l : bytes) : Z :=
  match l with d :: l' => if decide (c = d) then 0 else 1 + index_of c l' | [] => 0 end.
Definition sextet_val (c : ascii) : Z := index_of c alphabet.

Definition quad (a b c : Z) : bytes :=
  let n := a * 65536 + b * 256 + c in
  [sextet (n / 262144); sextet (n / 4096 mod 64); sextet (n / 64 mod 64); sextet (n mod 64)].

Fixpoint b64_write (m : bytes) : bytes :=
  match m with
  | a :: b :: c :: r => quad (u8 a) (u8 b) (u8 c) ++ b64_write r
  | [a; b] => take 3 (quad (u8 a) (u8 b) 0) ++ ["="%char]
  | [a] => take 2 (quad (u8 a) 0 0) ++ ["="; "="]%char
  | [] => []
  end.

Fixpoint b64_read (w : bytes) : bytes :=
  match w with
  | x :: y :: z :: t :: r =>
      let n := sextet_val x * 262144 + sextet_val y * 4096 in
      if decide (z = "="%char) then [chr (n / 65536)]
      else
        let n := n + sextet_val z * 64 in
        if decide (t = "="%char) then [chr (n / 65536); chr (n / 256)]
        else
          let n := n + sextet_val t in
          chr (n / 65536) :: chr (n / 256) :: chr n :: b64_read r
  | _ => []
  end.

Lemma sextet_ok n : 0 ≤ n < 64 → sextet_val (sextet n) = n ∧ sextet n ≠ "="%char.
Proof.
  intros Hn. rewrite <- (Z2Nat.id n) by lia.
  assert (Forall (fun k => sextet_val (sextet (Z.of_nat k)) = Z.of_nat k ∧ sextet (Z.of_nat k) ≠ "="%char)
            (List.seq 0 64)) as H by decided.
  rewrite Forall_forall in H. apply H. apply elem_of_seq. lia.
Qed.

Lemma u8_of_chr_eq z c : z mod 256 = u8 c → chr z = c.
Proof. intros H. apply u8_inj. by rewrite u8_chr. Qed.

Lemma quad_digits a b c :
  0 ≤ a < 256 → 0 ≤ b < 256 → 0 ≤ c < 256 →
  let n := a * 65536 + b * 256 + c in
  0 ≤ n / 262144 < 64 ∧ 0 ≤ n / 4096 mod 64 < 64 ∧ 0 ≤ n / 64 mod 64 < 64 ∧ 0 ≤ n mod 64 < 64 ∧
  n = n / 262144 * 262144 + n / 4096 mod 64 * 4096 + n / 64 mod 64 * 64 + n mod 64.
Proof. intros Ha Hb Hc n. subst n. Z.div_mod_to_equations. lia. Qed.

Lemma b64_read_write m : b64_read (b64_write m) = m.
Proof.
  induction m as [m IH] using (induction_ltof1 _ length). unfold ltof in IH.
  destruct m as [|a [|b [|c r]]]; [done| | |].
  - pose proof (u8_range a). destruct (quad_digits (u8 a) 0 0) as (R1 & R2 & R3 & R4 & E); [lia..|].
    cbn -[quad u8 chr sextet sextet_val decide]. unfold quad. cbn -[u8 chr sextet sextet_val decide].
    destruct (sextet_ok _ R1) as [-> _], (sextet_ok _ R2) as [-> _].
    rewrite decide_True by done. f_equal. apply u8_of_chr_eq. Z.div_mod_to_equations. lia.
  - pose proof (u8_range a). pose proof (u8_range b).
    destruct (quad_digits (u8 a) (u8 b) 0) as (R1 & R2 & R3 & R4 & E); [lia..|].
    cbn -[quad u8 chr sextet sextet_val decide]. unfold quad. cbn -[u8 chr sextet sextet_val decide].
    destruct (sextet_ok _ R1) as [-> _], (sextet_ok _ R2) as [-> _], (sextet_ok _ R3) as [-> N3].
    rewrite decide_False by done. rewrite decide_True by done.
    f_equal; [|f_equal]; apply u8_of_chr_eq; Z.div_mod_to_equations; lia.
  - pose proof (u8_range a). pose proof (u8_range b). pose proof (u8_range c).
    destruct (quad_digits (u8 a) (u8 b) (u8 c)) as (R1 & R2 & R3 & R4 & E); [lia..|].
    cbn -[quad u8 chr sextet sextet_val decide]. unfold quad. cbn -[u8 chr sextet sextet_val decide].
    destruct (sextet_ok _ R1) as [-> _], (sextet_ok _ R2) as [-> _], (sextet_ok _ R3) as [-> N3],
      (sextet_ok _ R4) as [-> N4].
    rewrite !decide_False by done. rewrite <- E, IH by (cbn; lia).
    f_equal; [|f_equal; [|f_equal]]; apply u8_of_chr_eq; Z.div_mod_to_equations; lia.
Qed.

(** The shape of base64 text (RFC 4648): four characters for three bytes, and
    an [=] for each byte missing in the last group. *)
Definition b64_shape (m w : bytes) : Prop :=
  ∃ b, w = b ++ replicate (Z.to_nat ((3 - Z.of_nat (length m) mod 3) mod 3)) "="%char ∧
       last b ≠ Some "="%char ∧ Z.of_nat (length w) = 4 * ((Z.of_nat (length m) + 2) / 3).

Lemma b64_write_shape m : b64_shape m (b64_write m).
Proof.
  induction m as [m IH] using (induction_ltof1 _ length). unfold ltof in IH.
  destruct m as [|a [|b [|c r]]].
  - exists []. done.
  - pose proof (u8_range a). destruct (quad_digits (u8 a) 0 0) as (R1 & R2 & R3 & R4 & E); [lia..|].
    exists (take 2 (quad (u8 a) 0 0)). split_and!; [done| |done].
    intros [= He]. by destruct (sextet_ok _ R2).
  - pose proof (u8_range a). pose proof (u8_range b).
    destruct (quad_digits (u8 a) (u8 b) 0) as (R1 & R2 & R3 & R4 & E); [lia..|].
    exists (take 3 (quad (u8 a) (u8 b) 0)). split_and!; [done| |done].
    intros [= He]. by destruct (sextet_ok _ R3).
  - destruct (IH r) as (w & Hw & Hl & Hn); [cbn; lia|].
    pose proof (u8_range a). pose proof (u8_range b). pose proof (u8_range c).
    destruct (quad_digits (u8 a) (u8 b) (u8 c)) as (R1 & R2 & R3 & R4 & E); [lia..|].
    exists (quad (u8 a) (u8 b) (u8 c) ++ w). cbn [b64_write length].
    rewrite !Nat2Z.inj_succ. set (n := Z.of_nat (length r)) in *. split_and!.
    + rewrite Hw, <- app_assoc. do 3 f_equal. f_equal. Z.div_mod_to_equations. lia.
    + rewrite last_app. destruct (last w) as [d|] eqn:Ed; [done|].
      intros [= He]. by destruct (sextet_ok _ R4).
    + rewrite length_app, Nat2Z.inj_add, Hn. change (Z.of_nat (length (quad _ _ _))) with 4.
      Z.div_mod_to_equations. lia.
Qed.

(** ** Claims *)

Lemma last_take_drop_eq {A} (l k : list A) (c : A) i : drop i l = k ++ [c] → last l = Some c.
Proof. intros H. rewrite <- (take_drop i l), H, app_assoc. apply last_snoc. Qed.

(** The length estimated from the padding is the length of the message. *)
Lemma calcDecodeLength_shape m w :
  b64_shape m w → Z.of_nat (length w) < 2 ^ 31 → calcDecodeLength w = Z.of_nat (length m).
Proof.
  intros (b & -> & Hb & Hlen) Hmax. unfold calcDecodeLength.
  set (n := Z.of_nat (length m)) in *.
  set (w := b ++ replicate _ _) in *. set (len := Z.of_nat (length w)) in *.
  assert (0 ≤ n) by lia.
  set (k := (3 - n mod 3) mod 3).
  assert (0 ≤ k < 3) as Hk by (apply Z.mod_pos_bound; lia).
  assert (3 * len / 4 - k = n) as Hn.
  { rewrite Hlen. subst k. Z.div_mod_to_equations. lia. }
  replace (if (2 <=? len) && _ then _ else _) with k.
  { rewrite (wrapu_id 64 (len * 3)) by (unfold in_u; lia). rewrite Z.mul_comm, Hn.
    apply wrapu_id. unfold in_u. assert (n < 2 ^ 64); [|lia]. clear -Hn Hk Hmax.
    Z.div_mod_to_equations. lia. }
  assert (w = b ++ replicate (Z.to_nat k) "="%char) as Ew by done.
  clear Hlen Hn. clearbody w k.
  assert (len = Z.of_nat (length b) + k) as Hl.
  { subst len. rewrite Ew, length_app, length_replicate. lia. }
  assert (k = 0 ∨ k = 1 ∨ k = 2) as [E|[E|E]] by lia; rewrite E in *; cbn in Ew.
  - rewrite app_nil_r in Ew. rewrite <- Ew in Hb.
    rewrite (bool_decide_eq_false_2 (drop (length w - 2) w = _)).
    2: { intros Hd. by apply (last_take_drop_eq _ ["="%char]) in Hd. }
    rewrite (bool_decide_eq_false_2 (drop (length w - 1) w = _)).
    2: { intros Hd. by apply (last_take_drop_eq _ []) in Hd. }
    by rewrite !andb_false_r.
  - rewrite (bool_decide_eq_false_2 (drop (length w - 2) w = _)).
    2: { intros Hd. apply Hb. change (B "==") with (["="%char] ++ ["="%char]) in Hd.
         pose proof (take_drop (length w - 2) w) as Hs. rewrite Hd, app_assoc in Hs.
         rewrite Ew in Hs at 3. apply app_inj_tail in Hs as [<- _]. apply last_snoc. }
    rewrite andb_false_r, bool_decide_eq_true_2.
    2: { rewrite Ew, drop_length_app; [done|rewrite length_app, length_replicate; lia]. }
    by ztest.
  - rewrite bool_decide_eq_true_2.
    2: { rewrite Ew, drop_length_app; [done|rewrite length_app, length_replicate; lia]. }
    by ztest.
Qed.

(** What iperf3 relies on in OpenSSL: the pair of keys decrypts what it
    encrypted up to [max] bytes, cipher texts are at most as long as the key, and
    base64 is read back and has its standard shape. *)
Record openssl_laws (key_size : bytes → Z) (rsa_encrypt rsa_decrypt : bytes → bytes → bytes)
    (base64_write base64_read : bytes → bytes) (public private : bytes) (max : Z) : Prop := {
  key_pair : key_size public = key_size private;
  key_bound : max ≤ key_size private ≤ 4096;
  cipher_length : ∀ m, Z.of_nat (length m) ≤ max →
    Z.of_nat (length (rsa_encrypt public m)) ≤ key_size private;
  decrypts : ∀ m, Z.of_nat (length m) ≤ max → rsa_decrypt private (rsa_encrypt public m) = m;
  base64_inverse : ∀ m, base64_read (base64_write m) = m;
  base64_standard : ∀ m, b64_shape m (base64_write m)
}.

Section Claims.
Context (key_size : bytes → Z) (rsa_encrypt rsa_decrypt : bytes → bytes → bytes)
  (base64_write base64_read SHA256 : bytes → bytes) (public private : bytes) (max : Z).
Context (laws : openssl_laws key_size rsa_encrypt rsa_decrypt base64_write base64_read
                  public private max).

Lemma Base64Decode_write m :
  Z.of_nat (length m) ≤ 4096 → Base64Decode base64_read (base64_write m) = Ok m.
Proof.
  intros Hm. destruct laws as [_ _ _ _ Hinv Hstd].
  pose proof (Hstd m) as Hs. pose proof Hs as (_ & _ & _ & Hlen).
  unfold Base64Decode. rewrite (calcDecodeLength_shape m) by (done || Z.div_mod_to_equations; lia).
  rewrite wraps_id by (unfold in_s; lia). ztest. rewrite Hinv.
  rewrite take_ge by (apply Nat2Z.inj_le; rewrite Hlen; Z.div_mod_to_equations; lia).
  by ztest.
Qed.

(** The token of a client is decoded to its name, password and time. *)
Lemma token_decodes ts u p token :
  word u → word p → in_s 64 ts → Z.of_nat (length (auth_text u p ts)) ≤ max →
  encode_auth_setting key_size rsa_encrypt base64_write ts u p public = Ok token →
  decode_auth_setting key_size rsa_decrypt base64_read token private = Ok (u, p, ts).
Proof.
  intros Hu Hp Hts Hmax. unfold encode_auth_setting.
  pose proof (auth_text_length u p ts Hts).
  rewrite take_ge by lia. unfold encrypt_rsa_message, copy_to_buffer.
  destruct laws as [Hpair Hbound Hcl Hdec Hinv Hstd].
  rewrite Hpair. ztest. cbn [mbind outcome_bind]. intros [= <-].
  pose proof (Hcl _ Hmax). unfold decode_auth_setting.
  rewrite Base64Decode_write by lia. cbn [mbind outcome_bind].
  unfold decrypt_rsa_message, copy_to_buffer. ztest. cbn [mbind outcome_bind].
  rewrite Hdec by done. rewrite c_str_no_nul by by apply auth_text_no_nul.
  rewrite scan_auth_text by done.
  assert (length u < length (auth_text u p ts) ∧ length p < length (auth_text u p ts))%nat.
  { unfold auth_text. repeat (rewrite !length_app; cbn [length]). lia. }
  destruct (auth_text u p ts) eqn:E; [done|]. rewrite <- E in *. by case_decide.
Qed.

(** The decision on a password file of well-formed entries. *)
Lemma check_authentication_entries now u p ts es skew :
  Forall entry_ok es → in_s 64 (now - ts) →
  check_authentication SHA256 now u p ts (Some (file_of es)) skew =
  Ok (if decide (Z.abs (now - ts) ≤ skew)
      then if decide ((u, sha256 SHA256 (salted u p)) ∈ es) then 0 else 3 else 1).
Proof.
  intros Hes Hage. unfold check_authentication. rewrite wraps_id by done.
  destruct (decide (Z.abs (now - ts) ≤ skew)); ztest; cbn [orb].
  - by apply search_file_entries.
  - destruct (Z.ltb_spec skew (now - ts)); [done|]. by ztest.
Qed.

(** C14: a server with a key and a password file admits a client exactly when the
    token it made from its name and password is at most [server_skew_threshold]
    seconds off the server's clock and the file has an entry with that name and
    the salted hash of that password.  (Names and passwords have no white
    space, and the text fits the key.) *)
Theorem authorization_decides read_file filename now ts u p token es test :
  server_rsa_private_key test = Some private →
  server_authorized_users test = Some filename →
  read_file filename = Some (file_of es) → Forall entry_ok es →
  authtoken (settings test) = Some token →
  word u → word p → in_s 64 ts → in_s 64 (now - ts) →
  Z.of_nat (length (auth_text u p ts)) ≤ max →
  encode_auth_setting key_size rsa_encrypt base64_write ts u p public = Ok token →
  test_is_authorized key_size rsa_decrypt base64_read SHA256 read_file now test =
  Ok (if decide (Z.abs (now - ts) ≤ server_skew_threshold test ∧
                 (u, sha256 SHA256 (salted u p)) ∈ es) then 0 else -1).
Proof.
  intros Hk Hf Hread Hes Htok Hu Hp Hts Hage Hmax Henc. unfold test_is_authorized.
  rewrite Hk, Hf, Htok. rewrite (token_decodes ts u p) by done.
  rewrite Hread, check_authentication_entries by done. cbn [mbind outcome_bind].
  repeat case_decide; tauto || done.
Qed.
End Claims.

(** The answers of [check_authentication]: 1 outside the time window,
    whatever the file; inside it 2 without a file, and with a file whose entries
    are well formed 0 or 3 according to whether the user and the hash are
    listed; but a last line that holds the user's name and no hash makes it
    compare with a null pointer. *)
Theorem check_authentication_codes SHA256 now u p ts es skew file :
  Forall entry_ok es → clean u → head u ≠ Some "#"%char → (length u ≤ 1021)%nat →
  in_s 64 (now - ts) →
  (skew < Z.abs (now - ts) → check_authentication SHA256 now u p ts file skew = Ok 1) ∧
  (Z.abs (now - ts) ≤ skew → check_authentication SHA256 now u p ts None skew = Ok 2) ∧
  (Z.abs (now - ts) ≤ skew → (u, sha256 SHA256 (salted u p)) ∉ es →
   check_authentication SHA256 now u p ts (Some (file_of es)) skew = Ok 3 ∧
   check_authentication SHA256 now u p ts (Some (file_of es ++ u ++ B "," ++ [chr 10])) skew = Undef) ∧
  (Z.abs (now - ts) ≤ skew → (u, sha256 SHA256 (salted u p)) ∈ es →
   check_authentication SHA256 now u p ts (Some (file_of es)) skew = Ok 0).
Proof.
  intros Hes Hu Hc Hlen Hage. split_and!.
  - intros. unfold check_authentication. rewrite wraps_id by done.
    destruct (Z.ltb_spec skew (now - ts)); [done|]. by ztest.
  - intros. unfold check_authentication. rewrite wraps_id by done. by ztest.
  - intros Hw Hn. split.
    + rewrite check_authentication_entries by done. by rewrite decide_True, decide_False.
    + unfold check_authentication. rewrite wraps_id by done. ztest. cbn [orb].
      apply search_file_incomplete; [done..|].
      rewrite !length_app. change (length (B ",")) with 1%nat. cbn [length]. lia.
  - intros Hw Hn. rewrite check_authentication_entries by done. by rewrite !decide_True.
Qed.

(** A token that decodes to more bytes than the server's key has is copied
    past the end of a buffer of the size of the key (the message on stderr says
    that it is truncated), and the token [=] makes [Base64Decode] write
    before its allocation: an unauthenticated client reaches both. *)
Theorem oversized_token_overflows key_size rsa_decrypt base64_read SHA256 read_file now test
    key filename token :
  server_rsa_private_key test = Some key → server_authorized_users test = Some filename →
  authtoken (settings test) = Some token →
  (token = B "=" ∨ ∃ e, Base64Decode base64_read token = Ok e ∧
                        key_size key < Z.of_nat (length e)) →
  test_is_authorized key_size rsa_decrypt base64_read SHA256 read_file now test = Undef.
Proof.
  intros Hk Hf Ht Hbad. unfold test_is_authorized. rewrite Hk, Hf, Ht.
  unfold decode_auth_setting. destruct Hbad as [->|(e & He & Hlen)]; [done|].
  rewrite He. cbn [mbind outcome_bind]. unfold decrypt_rsa_message, copy_to_buffer. by ztest.
Qed.

(** ** Samples *)

(** Stand-ins for the primitives: a cipher that reverses the text under a key of
    256 bytes, the reference base64, a digest of one byte. *)
Definition toy_rsa (key m : bytes) : bytes := rev m.
Definition toy_sha (m : bytes) : bytes := [chr (foldl (fun a c => a * 31 + u8 c) 7 m)].

Lemma toy_laws :
  openssl_laws (fun _ => 256) toy_rsa toy_rsa b64_write b64_read (B "pub") (B "priv") 214.
Proof.
  split; [done|lia| |intros; apply rev_involutive|apply b64_read_write|apply b64_write_shape].
  intros m Hm. unfold toy_rsa. rewrite length_rev. lia.
Qed.

Definition sample_users : list (bytes * bytes) :=
  [(B "luigi", B "00"); (B "mario", sha256 toy_sha (salted (B "mario") (B "secret")))].
Definition sample_token : bytes := b64_write (rev (auth_text (B "mario") (B "secret") 1700000000)).
Definition sample_authorizing : iperf_test :=
  iperf_defaults false iperf_new_test <| server_rsa_private_key := Some (B "priv") |>
    <| server_authorized_users := Some (B "users.csv") |> <| server_skew_threshold := 10 |>.
Definition with_token (tok : bytes) : iperf_test :=
  sample_authorizing <| settings := (settings sample_authorizing) <| authtoken := Some tok |> |>.

Lemma authorization_decides_witness :
  test_is_authorized (fun _ => 256) toy_rsa b64_read toy_sha (fun _ => Some (file_of sample_users))
    1700000008 (with_token sample_token) = Ok 0 ∧
  test_is_authorized (fun _ => 256) toy_rsa b64_read toy_sha (fun _ => Some (file_of sample_users))
    1700000011 (with_token sample_token) = Ok (-1).
Proof.
  split;
  rewrite (authorization_decides (fun _ => 256) toy_rsa toy_rsa b64_write b64_read toy_sha
             (B "pub") (B "priv") 214 toy_laws (fun _ => Some (file_of sample_users)) (B "users.csv")
             _ 1700000000 (B "mario") (B "secret") sample_token sample_users) by (reflexivity || decided).
  - reflexivity.
  - reflexivity.
Defined.

Lemma check_authentication_codes_witness :
  check_authentication toy_sha 1700000008 (B "peach") (B "x") 1700000000
    (Some (file_of sample_users ++ B "peach" ++ B "," ++ [chr 10])) 10 = Undef ∧
  check_authentication toy_sha 1700000018 (B "peach") (B "x") 1700000000 None 10 = Ok 1.
Proof.
  pose proof (check_authentication_codes toy_sha 1700000008 (B "peach") (B "x") 1700000000
    sample_users 10 None ltac:(decided) ltac:(decided) ltac:(decided) ltac:(decided)
    ltac:(decided)) as (_ & _ & H & _).
  pose proof (check_authentication_codes toy_sha 1700000018 (B "peach") (B "x") 1700000000
    sample_users 10 None ltac:(decided) ltac:(decided) ltac:(decided) ltac:(decided)
    ltac:(decided)) as (H' & _).
  split; [apply H; [lia|decided]|apply H'; lia].
Defined.

Lemma oversized_token_overflows_witness :
  test_is_authorized (fun _ => 256) toy_rsa b64_read toy_sha (fun _ => None) 0
    (with_token (b64_write (replicate 300 "x"%char))) = Undef.
Proof.
  apply (oversized_token_overflows _ _ _ _ _ _ _ (B "priv") (B "users.csv")
    (b64_write (replicate 300 "x"%char))); [reflexivity..|].
  right. exists (replicate 300 "x"%char). split; [by vm_compute|]. rewrite length_replicate. lia.
Defined.
