(* ===== verification/Results.v ===== *)
(** * The exchange of results ([src/iperf_api.c]: [send_results], [get_results],
    [iperf_exchange_results], [iperf_exchange_parameters])

    At the end of a test each side sends its counters, one JSON object with an
    array of streams; the other side finds its own stream of the same id and
    stores the peer's half of the account in it. *)

From S2P Require Import Prelude Errno CInt CDouble CStdio Json JsonPrint JsonParse JsonRoundtrip.
From S2P Require Import JsonBuild IperfTime Net Control Test Params Auth.

(** ** [send_results] *)

(** Seconds between two times, as a double. *)
Definition elapsed (t1 t2 : iperf_time) : double := iperf_time_in_secs (snd (iperf_time_diff t1 t2)).

Definition stream_members (test : iperf_test) (sp : iperf_stream) : list member :=
  let r := sp_result sp in
  let bytes_transferred :=
    if sp_sender sp then u64 (rs_bytes_sent r - rs_bytes_sent_omit r) else rs_bytes_received r in
  let retransmits :=
    if sp_sender sp && set (sender_has_retransmits test) then i32 (rs_stream_retrans r) else -1 in
  [ (true, (B "id", num (sp_id sp)));
    (true, (B "bytes", num bytes_transferred));
    (true, (B "retransmits", num retransmits));
    (true, (B "jitter", dbl (sp_jitter sp)));
    (true, (B "errors", num (sp_cnt_error sp)));
    (true, (B "omitted_errors", num (sp_omitted_cnt_error sp)));
    (true, (B "packets", num (sp_packet_count sp)));
    (true, (B "omitted_packets", num (sp_omitted_packet_count sp)));
    (true, (B "start_time", dbl (elapsed (rs_start_time r) (rs_start_time r))));
    (true, (B "end_time", dbl (elapsed (rs_start_time r) (rs_end_time r)))) ].

Definition array_of (l : list cJSON) : cJSON := foldl cJSON_AddItemToArray cJSON_CreateArray l.

(** The streams are an argument: the loop only reads the test. *)
Definition results_members (test : iperf_test) : list member :=
  let '(cpu0, cpu1, cpu2) := cpu_util test in
  let has_retransmits := if mode test =? RECEIVER then -1 else sender_has_retransmits test in
  let output := bool_decide (role test = "s"%char) && set (get_server_output test) in
  [ (true, (B "cpu_util_total", dbl cpu0));
    (true, (B "cpu_util_user", dbl cpu1));
    (true, (B "cpu_util_system", dbl cpu2));
    (true, (B "sender_has_retransmits", num has_retransmits));
    (is_set (congestion_used test), (B "congestion_used", str (congestion_used test)));
    (output && set (json_output test) && is_set (json_top test),
     (B "server_output_json", create_reference (default cJSON_New_Item (json_top test))));
    (output && negb (set (json_output test)),
     (B "server_output_text", str (Some (concat (server_output_list test)))));
    (true, (B "streams",
            array_of (map (fun sp => object_of (stream_members test sp)) (streams test)))) ].

Definition send_results (test : iperf_test) (w : os) : outcome (Z * iperf_test * os) :=
  '(r, w) ← JSON_write w (object_of (results_members test));
  if r <? 0 then Ok (-1, test <| i_errno := IESENDRESULTS |>, w) else Ok (0, test, w).

(** ** [get_results] *)

Definition number (j : cJSON) (name : string) : option cJSON :=
  iperf_cJSON_GetObjectItemType j (B name) cJSON_Number.

(** The values of one element of the array. *)
Record remote_stream := mk_remote {
  rm_id : Z;
  rm_bytes : Z;
  rm_retransmits : Z;
  rm_jitter : double;
  rm_errors : Z;
  rm_packets : Z;
  rm_omitted : option (Z * Z);       (* errors, packets *)
  rm_time : option double            (* end - start *)
}.

(** The lookups, with the type of each local variable; [None] when a required
    member is missing or only one of the omitted counts is there. *)
Definition read_stream (j_stream : cJSON) : option remote_stream :=
  match number j_stream "id", number j_stream "bytes", number j_stream "retransmits",
        number j_stream "jitter", number j_stream "errors", number j_stream "packets" with
  | Some j_id, Some j_bytes, Some j_retransmits, Some j_jitter, Some j_errors, Some j_packets =>
      let rest omitted :=
        mk_remote (i32 (valueint j_id)) (u64 (valueint j_bytes)) (i32 (valueint j_retransmits))
          (valuedouble j_jitter) (valueint j_errors) (valueint j_packets) omitted
          (match number j_stream "start_time", number j_stream "end_time" with
           | Some s, Some e => Some (Dsub (valuedouble e) (valuedouble s))
           | _, _ => None
           end) in
      match number j_stream "omitted_errors", number j_stream "omitted_packets" with
      | Some e, Some p => Some (rest (Some (valueint e, valueint p)))
      | None, None => Some (rest None)
      | _, _ => None
      end
  | _, _, _, _, _, _ => None
  end.

(** What a sender learns from the receiver. *)
Definition merge_sender (quic_client : bool) (rm : remote_stream) (sp : iperf_stream) : iperf_stream :=
  let sp := sp <| sp_jitter := rm_jitter rm |> <| sp_cnt_error := rm_errors rm |>
               <| sp_peer_packet_count := rm_packets rm |> in
  let sp := on_result (fun r => r <| rs_bytes_received := rm_bytes rm |>) sp in
  let sp :=
    match rm_omitted rm with
    | Some (e, p) => sp <| sp_omitted_cnt_error := e |> <| sp_peer_omitted_packet_count := p |>
    | None =>
        let sp := sp <| sp_peer_omitted_packet_count := sp_omitted_packet_count sp |> in
        sp <| sp_omitted_cnt_error :=
                if 0 <? sp_peer_omitted_packet_count sp
                then (if 0 <? sp_cnt_error sp then -1 else 0)
                else sp_cnt_error sp |>
    end in
  let sp := on_result (fun r => r <| rs_receiver_time := default D0 (rm_time rm) |>) sp in
  if quic_client
  then on_result (fun r => r <| rs_bytes_sent := rm_bytes rm |>
                             <| rs_sender_time := rs_receiver_time r |>) sp
  else sp.

(** What a receiver learns from the sender. *)
Definition merge_receiver (rm : remote_stream) (sp : iperf_stream) : iperf_stream :=
  let sp := sp <| sp_peer_packet_count := rm_packets rm |> in
  let sp := on_result (fun r => r <| rs_bytes_sent := rm_bytes rm |>
                                  <| rs_stream_retrans := rm_retransmits rm |>) sp in
  let sp := sp <| sp_peer_omitted_packet_count :=
                    match rm_omitted rm with Some (_, p) => p | None => sp_peer_packet_count sp end |> in
  on_result (fun r => r <| rs_sender_time := default D0 (rm_time rm) |>) sp.

Definition merge_stream (quic_client : bool) (rm : remote_stream) (sp : iperf_stream) : iperf_stream :=
  if sp_sender sp then merge_sender quic_client rm sp else merge_receiver rm sp.

(** The first stream of the id, updated. *)
Fixpoint update_stream (quic_client : bool) (rm : remote_stream) (l : list iperf_stream)
  : option (list iperf_stream) :=
  match l with
  | [] => None
  | sp :: l' =>
      if sp_id sp =? rm_id rm then Some (merge_stream quic_client rm sp :: l')
      else l'' ← update_stream quic_client rm l'; Some (sp :: l'')
  end.

Definition is_quic_client (test : iperf_test) : bool :=
  (protocol test =? Pquic) && bool_decide (role test = "c"%char).

(** One round of the loop; an error does not end it. *)
Definition get_stream (rt : Z * iperf_test) (j_stream : cJSON) : Z * iperf_test :=
  let '(r, test) := rt in
  match read_stream j_stream with
  | None => (-1, test <| i_errno := IERECVRESULTS |>)
  | Some rm =>
      match update_stream (is_quic_client test) rm (streams test) with
      | None => (-1, test <| i_errno := IESTREAMID |>)
      | Some l => (r, test <| streams := l |>)
      end
  end.

Definition get_server_text (j : cJSON) (test : iperf_test) : iperf_test * cJSON :=
  if bool_decide (role test = "c"%char) && set (get_server_output test) then
    match cJSON_DetachItemFromObject j (B "server_output_json") with
    | (Some item, j) => (test <| json_server_output := Some item |>, j)
    | (None, j) =>
        match iperf_cJSON_GetObjectItemType j (B "server_output_text") cJSON_String with
        | Some item => (test <| server_output_text := Some (default [] (valuestring item)) |>, j)
        | None => (test, j)
        end
    end
  else (test, j).

Definition get_congestion (j : cJSON) (test : iperf_test) : iperf_test :=
  match iperf_cJSON_GetObjectItemType j (B "congestion_used") cJSON_String with
  | Some item => test <| remote_congestion_used := Some (default [] (valuestring item)) |>
  | None => test
  end.

(** Which side's counters of retransmissions are to be shown. *)
Definition get_retransmits (result_has_retransmits : Z) (test : iperf_test) : iperf_test :=
  if mode test =? RECEIVER then
    test <| sender_has_retransmits := result_has_retransmits |> <| other_side_has_retransmits := 0 |>
  else if mode test =? BIDIRECTIONAL then
    test <| other_side_has_retransmits := result_has_retransmits |>
  else test.

Definition apply_results (j : cJSON) (test : iperf_test) : Z * iperf_test :=
  match number j "cpu_util_total", number j "cpu_util_user", number j "cpu_util_system",
        number j "sender_has_retransmits" with
  | Some total, Some user, Some system, Some has_retransmits =>
      let test := test <| remote_cpu_util := (valuedouble total, valuedouble user, valuedouble system) |> in
      let test := get_retransmits (i32 (valueint has_retransmits)) test in
      match iperf_cJSON_GetObjectItemType j (B "streams") cJSON_Array with
      | None => (-1, get_congestion j (test <| i_errno := IERECVRESULTS |>))
      | Some j_streams =>
          let n := cJSON_GetArraySize j_streams in
          let '(r, test) := foldl get_stream (0, test) (take (Z.to_nat n) (child j_streams)) in
          let '(test, j) := get_server_text j test in
          (r, get_congestion j test)
      end
  | _, _, _, _ => (-1, get_congestion j (test <| i_errno := IERECVRESULTS |>))
  end.

Definition get_results (test : iperf_test) (w : os) : outcome (Z * iperf_test * os) :=
  '(json, w) ← JSON_read w 0;
  match json with
  | None => Ok (-1, test <| i_errno := IERECVRESULTS |>, w)
  | Some j => let '(r, test) := apply_results j test in Ok (r, test, w)
  end.

(** ** The exchanges *)

Definition iperf_exchange_results (test : iperf_test) (w : os) : outcome (Z * iperf_test * os) :=
  if decide (role test = "c"%char) then
    '(r, test, w) ← send_results test w;
    if r <? 0 then Ok (-1, test, w)
    else
      '(r, test, w) ← get_results test w;
      Ok ((if r <? 0 then -1 else 0), test, w)
  else
    '(r, test, w) ← get_results test w;
    if r <? 0 then Ok (-1, test, w)
    else
      '(r, test, w) ← send_results test w;
      Ok ((if r <? 0 then -1 else 0), test, w).

(** [iperf_set_send_state]: the new state, and its byte on the control socket. *)
Definition iperf_set_send_state (test : iperf_test) (s : Z) (w : os)
  : outcome (Z * iperf_test * os) :=
  if 0 <=? ctrl_sck test then
    let test := iperf_set_test_state test s in
    '(r, w) ← Nwrite w [chr s];
    if r <? 0 then Ok (-1, test <| i_errno := IESENDMESSAGE |>, w) else Ok (0, test, w)
  else Ok (0, test, w).

(** The report of an error to the client: the state, [i_errno] and [errno] in
    network order.  Always an error. *)
Definition report_error (set_errno : iperf_test → iperf_test) (errno : Z) (test : iperf_test) (w : os)
  : outcome (Z * iperf_test * os) :=
  '(r, test, w) ← iperf_set_send_state test SERVER_ERROR w;
  if negb (r =? 0) then Ok (-1, test, w)
  else
    let test := set_errno test in
    '(r, w) ← Nwrite w (be_split 4 (i_errno test));
    if r <? 0 then Ok (-1, test <| i_errno := IECTRLWRITE |>, w)
    else
      '(r, w) ← Nwrite w (be_split 4 errno);
      if r <? 0 then Ok (-1, test <| i_errno := IECTRLWRITE |>, w)
      else Ok (-1, test, w).

Section ExchangeParameters.
(** The configured version, the credential encryption, OpenSSL, the users file,
    the clock, [errno], and the protocol's [listen], which returns a socket or a
    negative number with [i_errno] set. *)
Context (IPERF_VERSION : bytes) (encode_credentials : bytes → bytes → bytes → option bytes)
  (key_size : bytes → Z) (rsa_decrypt : bytes → bytes → bytes) (base64_read SHA256 : bytes → bytes)
  (read_file : bytes → option bytes) (utc_seconds errno : Z) (listen : iperf_test → Z * iperf_test).

Definition iperf_exchange_parameters (test : iperf_test) (w : os) : outcome (Z * iperf_test * os) :=
  if decide (role test = "c"%char) then
    '(r, test, w) ← send_parameters IPERF_VERSION encode_credentials test w;
    Ok ((if r <? 0 then -1 else 0), test, w)
  else
    '(r, test, w) ← get_parameters test w;
    if r <? 0 then report_error id errno test w
    else
      authorized ← test_is_authorized key_size rsa_decrypt base64_read SHA256 read_file utc_seconds test;
      if authorized <? 0 then report_error (fun t => t <| i_errno := IEAUTHTEST |>) errno test w
      else
        let '(s, test) := listen test in
        if s <? 0 then report_error id errno test w
        else
          let test := test <| read_set ::= (fun x => {[s]} ∪ x) |>
                           <| max_fd := Z.max s (max_fd test) |> <| prot_listener := s |> in
          '(r, test, w) ← iperf_set_send_state test CREATE_STREAMS w;
          Ok ((if negb (r =? 0) then -1 else 0), test, w).
End ExchangeParameters.

(** ** What one side sends of a stream, and what the other reads *)

Lemma array_of_child l : child (array_of l) = l ∧ type (array_of l) = cJSON_Array.
Proof.
  unfold array_of. cut (∀ a, child (foldl cJSON_AddItemToArray a l) = child a ++ l ∧
                             type (foldl cJSON_AddItemToArray a l) = type a).
  { intros H. apply (H cJSON_CreateArray). }
  induction l as [|x l IH]; intros a; cbn; [by rewrite app_nil_r|].
  destruct (IH (cJSON_AddItemToArray a x)) as [-> ->]. cbn. by rewrite <- app_assoc.
Qed.

Lemma array_parsed l : child (parsed (array_of l)) = map parsed l.
Proof.
  destruct (array_of_child l) as [Hc Ht]. destruct (array_of l) as [t vs vi vd k ch].
  cbn in Hc, Ht. by subst.
Qed.

Lemma array_wf d l :
  d < CJSON_NESTING_LIMIT → forallb (json_wf (d + 1)) l = true → json_wf d (array_of l) = true.
Proof.
  intros Hd Hl. destruct (array_of_child l) as [Hc Ht]. destruct (array_of l) as [t vs vi vd k ch].
  cbn in Hc, Ht. subst. cbn. rewrite Hl. by ztest.
Qed.

Lemma dbl_wf d x : num_ok x = true → json_wf d (dbl x) = true.
Proof.
  intros Hx.
  change (json_wf d (dbl x)) with ((saturate_int x =? saturate_int x) && num_ok x).
  by rewrite Z.eqb_refl, Hx.
Qed.

Lemma elapsed_self t : elapsed t t = D0.
Proof.
  unfold elapsed, iperf_time_diff, iperf_time_compare. rewrite !Z.ltb_irrefl.
  rewrite !Z.gtb_ltb, !Z.ltb_irrefl. reflexivity.
Qed.

Lemma Dsub_0 d : Dsub d D0 = d.
Proof. by destruct d as [[]|[]| |[] m e]. Qed.

(** The counters fit the exchange: 53 bits, and doubles whose text is read back. *)
Definition bytes_reported (sp : iperf_stream) : Z :=
  let r := sp_result sp in
  if sp_sender sp then u64 (rs_bytes_sent r - rs_bytes_sent_omit r) else rs_bytes_received r.
Definition retransmits_reported (test : iperf_test) (sp : iperf_stream) : Z :=
  if sp_sender sp && set (sender_has_retransmits test) then i32 (rs_stream_retrans (sp_result sp)) else -1.

Definition stream_ok (sp : iperf_stream) : Prop :=
  in_s 32 (sp_id sp) ∧ 0 ≤ bytes_reported sp < 2 ^ 53 ∧
  Forall small_int [sp_cnt_error sp; sp_omitted_cnt_error sp; sp_packet_count sp; sp_omitted_packet_count sp] ∧
  num_ok (sp_jitter sp) = true ∧
  num_ok (elapsed (rs_start_time (sp_result sp)) (rs_end_time (sp_result sp))) = true.

#[export] Instance stream_ok_dec sp : Decision (stream_ok sp).
Proof. unfold stream_ok, small_int. apply _. Defined.

(** The message about a stream, as the peer understands it. *)
Definition remote_of (test : iperf_test) (sp : iperf_stream) : remote_stream :=
  mk_remote (sp_id sp) (bytes_reported sp) (retransmits_reported test sp) (reread (sp_jitter sp))
    (sp_cnt_error sp) (sp_packet_count sp)
    (Some (sp_omitted_cnt_error sp, sp_omitted_packet_count sp))
    (Some (reread (elapsed (rs_start_time (sp_result sp)) (rs_end_time (sp_result sp))))).

Lemma retransmits_range test sp : in_s 32 (retransmits_reported test sp).
Proof. unfold retransmits_reported. case_match; [by apply wraps_range|unfold in_s; lia]. Qed.

Definition stream_names : list bytes :=
  Eval cbv in names (stream_members iperf_new_test (mk_stream 0 0 false 0
    (mk_result 0 0 0 0 0 0 0 zero_time zero_time zero_time D0 D0 []) false [] 0 0 0 0 0 D0 D0 0 0 0 0 0)).

Lemma number_int l name z :
  find_member (B name) l = Some (keyed (B name) (num z)) → small_int z →
  ∃ i, number (parsed (object_of l)) name = Some i ∧ valueint i = z.
Proof.
  intros H Hz. pose proof (num_lookup l _ true _ _ H Hz) as Hl. unfold number.
  destruct (iperf_cJSON_GetObjectItemType _ _ _) as [i|]; [|done].
  cbn in Hl. apply (inj Some) in Hl. by exists i.
Qed.

Lemma number_double l name d :
  find_member (B name) l = Some (keyed (B name) (dbl d)) →
  ∃ i, number (parsed (object_of l)) name = Some i ∧ valuedouble i = reread d.
Proof.
  intros H. pose proof (dbl_lookup l _ true _ _ H) as Hl. unfold number.
  destruct (iperf_cJSON_GetObjectItemType _ _ _) as [i|]; [|done].
  cbn in Hl. apply (inj Some) in Hl. by exists i.
Qed.

Lemma read_stream_sent test sp :
  stream_ok sp → read_stream (parsed (object_of (stream_members test sp))) = Some (remote_of test sp).
Proof.
  intros (Hid & Hb & Hs & _). pose proof (retransmits_range test sp) as Hr.
  repeat (apply Forall_cons in Hs as [? Hs]). unfold read_stream.
  set (l := stream_members test sp).
  destruct (number_int l "id" (sp_id sp)) as (? & -> & Eid); [find_member_in stream_names|by apply i32_small|].
  destruct (number_int l "bytes" (bytes_reported sp)) as (? & -> & Eb);
    [find_member_in stream_names|unfold small_int; lia|].
  destruct (number_int l "retransmits" (retransmits_reported test sp)) as (? & -> & Er);
    [find_member_in stream_names|by apply i32_small|].
  destruct (number_double l "jitter" (sp_jitter sp)) as (? & -> & Ej); [find_member_in stream_names|].
  destruct (number_int l "errors" (sp_cnt_error sp)) as (? & -> & Ee); [find_member_in stream_names|done|].
  destruct (number_int l "packets" (sp_packet_count sp)) as (? & -> & Ep); [find_member_in stream_names|done|].
  destruct (number_int l "omitted_errors" (sp_omitted_cnt_error sp)) as (? & -> & Eoe);
    [find_member_in stream_names|done|].
  destruct (number_int l "omitted_packets" (sp_omitted_packet_count sp)) as (? & -> & Eop);
    [find_member_in stream_names|done|].
  destruct (number_double l "start_time" (elapsed (rs_start_time (sp_result sp)) (rs_start_time (sp_result sp))))
    as (? & -> & Es); [find_member_in stream_names|].
  destruct (number_double l "end_time" (elapsed (rs_start_time (sp_result sp)) (rs_end_time (sp_result sp))))
    as (? & -> & Een); [find_member_in stream_names|].
  rewrite Eid, Eb, Er, Ej, Ee, Ep, Eoe, Eop, Es, Een, elapsed_self.
  rewrite !(wraps_id 32) by done. rewrite wrapu_id by (unfold in_u; lia).
  change (reread D0) with D0. by rewrite Dsub_0.
Qed.

Lemma stream_wf d test sp :
  d < CJSON_NESTING_LIMIT → stream_ok sp → json_wf d (object_of (stream_members test sp)) = true.
Proof.
  intros Hd (Hid & Hb & Hs & Hj & He). pose proof (retransmits_range test sp) as Hr.
  repeat (apply Forall_cons in Hs as [? Hs]). apply object_wf; [done|].
  assert (Hnum : ∀ k z, small_int z → bool_decide (no_nul k) = true →
            member_ok (d + 1) (true, (k, num z)) = true).
  { intros k z Hz Hk. unfold member_ok. by rewrite num_wf, Hk. }
  assert (Hdbl : ∀ k x, num_ok x = true → bool_decide (no_nul k) = true →
            member_ok (d + 1) (true, (k, dbl x)) = true).
  { intros k x Hx Hk. unfold member_ok. by rewrite dbl_wf, Hk. }
  unfold stream_members. fold (bytes_reported sp) (retransmits_reported test sp).
  cbn [forallb]. rewrite elapsed_self.
  rewrite !Hdbl by (done || reflexivity).
  rewrite !Hnum by (done || (by apply i32_small) || (unfold small_int; lia)). done.
Qed.

(** ** Merging by id *)

Lemma merge_same q rm sp :
  sp_id (merge_stream q rm sp) = sp_id sp ∧ sp_sender (merge_stream q rm sp) = sp_sender sp.
Proof.
  unfold merge_stream, merge_sender, merge_receiver.
  destruct (sp_sender sp) eqn:E; repeat case_match; by rewrite <- ?E.
Qed.

Definition merge_if (q : bool) (rm : remote_stream) (sp : iperf_stream) : iperf_stream :=
  if sp_id sp =? rm_id rm then merge_stream q rm sp else sp.

Lemma merge_if_id q rm sp : sp_id (merge_if q rm sp) = sp_id sp.
Proof. unfold merge_if. case_match; [apply merge_same|done]. Qed.

(** With distinct ids, updating the first stream of the id updates exactly the
    stream of that id. *)
Lemma update_stream_map q rm l :
  NoDup (map sp_id l) → rm_id rm ∈ map sp_id l →
  update_stream q rm l = Some (map (merge_if q rm) l).
Proof.
  induction l as [|sp l IH]; intros Hnd Hin; [by apply elem_of_nil in Hin|].
  cbn in Hnd. apply NoDup_cons in Hnd as [Hni Hnd]. cbn [update_stream map].
  unfold merge_if at 1. destruct (Z.eqb_spec (sp_id sp) (rm_id rm)) as [E|E].
  - do 2 f_equal. rewrite <- (map_id l) at 1. apply map_ext_in. intros sp' Hsp'.
    unfold merge_if. destruct (Z.eqb_spec (sp_id sp') (rm_id rm)) as [E'|]; [|done].
    destruct Hni. rewrite E, <- E'. apply list_elem_of_In, in_map. done.
  - rewrite IH; [done|done|]. cbn in Hin. apply elem_of_cons in Hin as [|]; [congruence|done].
Qed.

(** The stream of the message with the id of [sp], merged into it. *)
Definition merged (q : bool) (a : iperf_test) (ls : list iperf_stream) (sp : iperf_stream)
  : iperf_stream :=
  match List.find (fun sp' => sp_id sp' =? sp_id sp) ls with
  | Some sp' => merge_stream q (remote_of a sp') sp
  | None => sp
  end.

Lemma merged_step q a x ls sp :
  sp_id x ∉ map sp_id ls →
  merged q a ls (merge_if q (remote_of a x) sp) = merged q a (x :: ls) sp.
Proof.
  intros Hx. unfold merged. rewrite merge_if_id. cbn [List.find].
  unfold merge_if. cbn [rm_id remote_of]. rewrite (Z.eqb_sym (sp_id x)).
  destruct (Z.eqb_spec (sp_id sp) (sp_id x)) as [E|E]; [|done].
  destruct (List.find _ ls) as [sp'|] eqn:F; [|done].
  apply List.find_some in F as [Hin F]. apply Z.eqb_eq in F.
  destruct Hx. rewrite <- E, <- F. by apply list_elem_of_In, in_map.
Qed.

Lemma set_streams_same b : b <| streams := streams b |> = b.
Proof. by destruct b. Qed.
Lemma set_streams_twice b l l' : b <| streams := l |> <| streams := l' |> = b <| streams := l' |>.
Proof. done. Qed.

Lemma get_streams_sent a r b ls :
  Forall stream_ok ls → NoDup (map sp_id ls) → NoDup (map sp_id (streams b)) →
  map sp_id ls ⊆ map sp_id (streams b) →
  foldl get_stream (r, b) (map parsed (map (fun sp => object_of (stream_members a sp)) ls)) =
  (r, b <| streams := map (merged (is_quic_client b) a ls) (streams b) |>).
Proof.
  intros Hok. revert b. induction Hok as [|x ls Hx Hok IH]; intros b Hnd Hb Hincl; cbn [map foldl].
  - f_equal. change (map (merged _ a []) (streams b)) with (map id (streams b)).
    by rewrite map_id, set_streams_same.
  - cbn in Hnd. apply NoDup_cons in Hnd as [Hni Hnd].
    unfold get_stream at 2. rewrite read_stream_sent by done.
    rewrite update_stream_map; [|done|apply Hincl; by left].
    set (b1 := b <| streams := _ |>).
    assert (map sp_id (streams b1) = map sp_id (streams b)) as E1.
    { unfold b1. cbn. rewrite map_map. apply map_ext. intros. apply merge_if_id. }
    rewrite IH; [|done|by rewrite E1|].
    2: { rewrite E1. intros id Hid. apply Hincl. by right. }
    change (is_quic_client b1) with (is_quic_client b). unfold b1.
    rewrite set_streams_twice. f_equal. apply (f_equal (fun l => b <| streams := l |>)).
    change (streams (b <| streams := ?l |>)) with l. rewrite map_map. apply map_ext. intros. by apply merged_step.
Qed.

(** ** The whole message *)

Record results_ok (a : iperf_test) : Prop := {
  ok_cpu : let '(x, y, z) := cpu_util a in num_ok x = true ∧ num_ok y = true ∧ num_ok z = true;
  ok_retransmits : in_s 32 (sender_has_retransmits a);
  ok_strings : no_nul (default [] (congestion_used a)) ∧ no_nul (concat (server_output_list a));
  ok_json : json_wf 1 (default cJSON_CreateNull (json_top a)) = true;
  ok_streams : Forall stream_ok (streams a) ∧ NoDup (map sp_id (streams a)) ∧
               Z.of_nat (length (streams a)) < 2 ^ 31
}.

Definition results_names : list bytes := Eval cbv in names (results_members iperf_new_test).

Lemma reference_wf d name top :
  json_wf d (keyed name (create_reference top)) = json_wf d top.
Proof.
  rewrite keyed_wf. destruct top as [t vs vi vd k ch]. cbn.
  assert (Z.land (Z.lor t cJSON_IsReference) 255 = Z.land t 255) as ->; [|done].
  by rewrite Z.land_lor_distr_l, Z.lor_0_r.
Qed.

Lemma member_ok_intro d (c : bool) name item :
  (c = true → json_wf d item = true) → bool_decide (no_nul name) = true →
  member_ok d (c, (name, item)) = true.
Proof. intros Hi Hn. unfold member_ok. rewrite Hn. destruct c; [|done]. by rewrite Hi. Qed.

Lemma results_wf a : results_ok a → json_wf 0 (object_of (results_members a)) = true.
Proof.
  intros [Hcpu Hr [Hc Ho] Hj (Hs & _ & _)]. apply object_wf; [done|].
  unfold results_members. destruct (cpu_util a) as [[x y] z]. destruct Hcpu as (Hx & Hy & Hz).
  cbn [forallb]. repeat match goal with
    | |- (member_ok _ _ && _) = true =>
        apply andb_true_iff; split; [apply member_ok_intro; [intros Hb|reflexivity]|]
    end.
  - by apply dbl_wf.
  - by apply dbl_wf.
  - by apply dbl_wf.
  - apply num_wf. case_match; [unfold small_int; lia|by apply i32_small].
  - by apply str_wf.
  - apply andb_true_iff in Hb as [_ Hb]. destruct (json_top a) as [top|]; [|done].
    rewrite <- (keyed_wf _ (B "x")). by rewrite reference_wf.
  - by apply str_wf.
  - apply array_wf; [done|]. apply forallb_forall. intros i Hi.
    apply in_map_iff in Hi as (sp & <- & Hin).
    apply stream_wf; [done|]. rewrite Forall_forall in Hs. apply Hs. by apply list_elem_of_In.
  - done.
Qed.

(** ** Detaching a member *)

Lemma detach_find k l :
  fst <$> detach_element k l = (e ← find_element false k l; match string_ e with None => None | Some _ => Some e end).
Proof.
  induction l as [|e l IH]; [done|]. cbn [detach_element find_element].
  destruct (passes false k e).
  - rewrite <- IH. by destruct (detach_element k l) as [[x r]|].
  - cbn. by destruct (string_ e).
Qed.

Lemma detach_other k k' l x r :
  detach_element k l = Some (x, r) → passes false k' x = true →
  find_element false k' r = find_element false k' l.
Proof.
  intros H Hx. revert r H. induction l as [|e l IH]; intros r; [done|]. cbn [detach_element find_element].
  destruct (passes false k e) eqn:E.
  - destruct (detach_element k l) as [[x' r']|]; [|done]. intros [= -> <-]. cbn.
    by rewrite IH.
  - destruct (string_ e); [|done]. intros [= -> ->]. by rewrite Hx.
Qed.

Lemma detach_lookup o k :
  fst (cJSON_DetachItemFromObject o k) = cJSON_GetObjectItem o k.
Proof.
  unfold cJSON_DetachItemFromObject, cJSON_GetObjectItem, get_object_item.
  rewrite <- detach_find. by destruct (detach_element k (child o)) as [[x r]|].
Qed.

(** Taking a member of another name away does not change a lookup. *)
Lemma detach_keeps o k k' ty :
  (∀ x, cJSON_GetObjectItem o k = Some x → passes false k' x = true) →
  iperf_cJSON_GetObjectItemType (snd (cJSON_DetachItemFromObject o k)) k' ty =
  iperf_cJSON_GetObjectItemType o k' ty.
Proof.
  intros Hx. rewrite <- detach_lookup in Hx. unfold cJSON_DetachItemFromObject in *.
  destruct (detach_element k (child o)) as [[x r]|] eqn:E; [|done].
  unfold iperf_cJSON_GetObjectItemType, cJSON_GetObjectItem, get_object_item. cbn.
  by rewrite (detach_other _ _ _ _ _ E) by by apply Hx.
Qed.

(** ** The reader's test after the message of [a] *)

Definition sends_output (a : iperf_test) : bool :=
  bool_decide (role a = "s"%char) && set (get_server_output a).

Definition received_output (a b : iperf_test) : iperf_test :=
  if bool_decide (role b = "c"%char) && set (get_server_output b) then
    match json_top a with
    | Some top =>
        if sends_output a && set (json_output a)
        then b <| json_server_output := Some (with_key (keyed (B "server_output_json") top) (parsed top)) |>
        else if sends_output a && negb (set (json_output a))
        then b <| server_output_text := Some (concat (server_output_list a)) |> else b
    | None =>
        if sends_output a && negb (set (json_output a))
        then b <| server_output_text := Some (concat (server_output_list a)) |> else b
    end
  else b.

Definition results_applied (a b : iperf_test) : iperf_test :=
  let '(x, y, z) := cpu_util a in
  let b := b <| remote_cpu_util := (reread x, reread y, reread z) |> in
  let b := get_retransmits (if mode a =? RECEIVER then -1 else sender_has_retransmits a) b in
  let b := b <| streams := map (merged (is_quic_client b) a (streams a)) (streams b) |> in
  let b := received_output a b in
  if is_set (congestion_used a)
  then b <| remote_congestion_used := Some (default [] (congestion_used a)) |> else b.

Section Sent.
Context (a : iperf_test) (Ha : results_ok a).
Let l := results_members a.
Let j := parsed (object_of l).

Lemma results_member i c name item k :
  l !! i = Some ((c, (name, item)) : member) → only_at k results_names i = true →
  find_member k l = (if c : bool then Some (keyed name item) else None).
Proof.
  intros Hi Ho. apply (find_member_at k l results_names i); [|done|done].
  unfold l, results_members. by destruct (cpu_util a) as [[x y] z].
Qed.

Lemma members_shape :
  ∃ x y z, cpu_util a = (x, y, z) ∧
    l !! 0%nat = Some ((true, (B "cpu_util_total", dbl x)) : member) ∧
    l !! 1%nat = Some ((true, (B "cpu_util_user", dbl y)) : member) ∧
    l !! 2%nat = Some ((true, (B "cpu_util_system", dbl z)) : member) ∧
    l !! 3%nat = Some ((true, (B "sender_has_retransmits",
      num (if mode a =? RECEIVER then -1 else sender_has_retransmits a))) : member) ∧
    l !! 4%nat = Some ((is_set (congestion_used a), (B "congestion_used", str (congestion_used a))) : member) ∧
    l !! 5%nat = Some ((sends_output a && set (json_output a) && is_set (json_top a),
      (B "server_output_json", create_reference (default cJSON_New_Item (json_top a)))) : member) ∧
    l !! 6%nat = Some ((sends_output a && negb (set (json_output a)),
      (B "server_output_text", str (Some (concat (server_output_list a))))) : member) ∧
    l !! 7%nat = Some ((true, (B "streams",
      array_of (map (fun sp => object_of (stream_members a sp)) (streams a)))) : member).
Proof.
  unfold l, results_members, sends_output. destruct (cpu_util a) as [[x y] z].
  exists x, y, z. by repeat split.
Qed.

Lemma read_congestion b (o : cJSON) :
  iperf_cJSON_GetObjectItemType o (B "congestion_used") cJSON_String =
  iperf_cJSON_GetObjectItemType j (B "congestion_used") cJSON_String →
  get_congestion o b =
  if is_set (congestion_used a)
  then b <| remote_congestion_used := Some (default [] (congestion_used a)) |> else b.
Proof.
  intros Eo. unfold get_congestion. rewrite Eo.
  destruct members_shape as (x & y & z & _ & _ & _ & _ & _ & H & _).
  pose proof (str_lookup l (B "congestion_used") _ _ _ (results_member 4 _ _ _ (B "congestion_used") H eq_refl)) as Hl.
  fold j in Hl. destruct (iperf_cJSON_GetObjectItemType j _ _) as [i|]; cbn in Hl.
  - destruct (is_set (congestion_used a)); [|done]. apply (inj Some) in Hl. by rewrite Hl.
  - by destruct (is_set (congestion_used a)).
Qed.

Lemma read_streams :
  ∃ i, iperf_cJSON_GetObjectItemType j (B "streams") cJSON_Array = Some i ∧
       take (Z.to_nat (cJSON_GetArraySize i)) (child i) =
       map parsed (map (fun sp => object_of (stream_members a sp)) (streams a)).
Proof.
  destruct members_shape as (x & y & z & _ & _ & _ & _ & _ & _ & _ & _ & H).
  set (arr := array_of _) in H.
  pose proof (type_lookup l (B "streams") true (keyed (B "streams") arr) cJSON_Array
                (results_member 7 _ _ _ (B "streams") H eq_refl)) as Hl.
  fold j in Hl. cbv beta zeta iota in Hl.
  set (i := with_key (keyed (B "streams") arr) (parsed (keyed (B "streams") arr))) in Hl.
  assert (child i = map parsed (map (fun sp => object_of (stream_members a sp)) (streams a)) ∧
          cJSON_IsArray i = true) as [Hc Hi].
  { unfold i. rewrite <- array_parsed. fold arr.
    destruct (array_of_child (map (fun sp => object_of (stream_members a sp)) (streams a))) as [_ Ht].
    fold arr in Ht. destruct arr as [t vs vi vd k ch]. cbn in Ht. by subst. }
  exists i. split.
  - rewrite Hl. change (cJSON_Array =? cJSON_True) with false.
    change (cJSON_Array =? cJSON_String) with false. change (cJSON_Array =? cJSON_Number) with false.
    change (cJSON_Array =? cJSON_Array) with true. by rewrite Hi.
  - unfold cJSON_GetArraySize. rewrite Hc. destruct Ha as [_ _ _ _ (_ & _ & Hn)].
    rewrite wraps_id by (rewrite ?length_map; unfold in_s; rewrite ?length_map; lia).
    rewrite Nat2Z.id. apply firstn_all.
Qed.

(** The member that is detached does not answer to another name. *)
Lemma json_member x :
  cJSON_GetObjectItem j (B "server_output_json") = Some x →
  sends_output a && set (json_output a) = true ∧
  ∃ top, json_top a = Some top ∧ x = with_key (keyed (B "server_output_json") top) (parsed top).
Proof.
  destruct members_shape as (? & ? & ? & _ & _ & _ & _ & _ & _ & H & _).
  unfold j. rewrite parsed_lookup. fold l.
  rewrite (results_member 5 _ _ _ (B "server_output_json") H eq_refl).
  destruct (sends_output a && set (json_output a)) eqn:Es; [|done].
  destruct (json_top a) as [top|]; [|done]. cbn [is_set andb default]. intros [= <-].
  split; [done|]. exists top. split; [done|]. destruct top as [t vs vi vd k ch].
  unfold with_key. f_equal. cbn. rewrite <- Z.land_assoc.
  change (Z.land (Z.lnot cJSON_StringIsConst) 255) with 255.
  by rewrite Z.land_lor_distr_l, Z.lor_0_r.
Qed.

Lemma no_json_member :
  cJSON_GetObjectItem j (B "server_output_json") = None →
  sends_output a && set (json_output a) = false ∨ json_top a = None.
Proof.
  destruct members_shape as (? & ? & ? & _ & _ & _ & _ & _ & _ & H & _).
  unfold j. rewrite parsed_lookup. fold l.
  rewrite (results_member 5 _ _ _ (B "server_output_json") H eq_refl).
  destruct (sends_output a && set (json_output a)); [|by left].
  destruct (json_top a); [done|by right].
Qed.

Lemma read_text o :
  iperf_cJSON_GetObjectItemType o (B "server_output_text") cJSON_String =
  iperf_cJSON_GetObjectItemType j (B "server_output_text") cJSON_String →
  (λ i, default [] (valuestring i)) <$>
    iperf_cJSON_GetObjectItemType o (B "server_output_text") cJSON_String =
  if sends_output a && negb (set (json_output a)) then Some (concat (server_output_list a)) else None.
Proof.
  intros ->. destruct members_shape as (? & ? & ? & _ & _ & _ & _ & _ & _ & _ & H & _).
  pose proof (str_lookup l (B "server_output_text") _ _ _
    (results_member 6 _ _ _ (B "server_output_text") H eq_refl)) as Hl.
  fold j in Hl. destruct (iperf_cJSON_GetObjectItemType j _ _) as [i|]; cbn in Hl |- *.
  - destruct (sends_output a && _); [|done]. apply (inj Some) in Hl. by rewrite Hl.
  - by destruct (sends_output a && _).
Qed.

Lemma read_output b :
  ∃ o, get_server_text j b = (received_output a b, o) ∧
       iperf_cJSON_GetObjectItemType o (B "congestion_used") cJSON_String =
       iperf_cJSON_GetObjectItemType j (B "congestion_used") cJSON_String.
Proof.
  unfold get_server_text, received_output.
  destruct (bool_decide (role b = "c"%char) && set (get_server_output b)); [|by exists j].
  assert (∀ k ty, k = B "congestion_used" ∨ k = B "server_output_text" →
    iperf_cJSON_GetObjectItemType (snd (cJSON_DetachItemFromObject j (B "server_output_json"))) k ty =
    iperf_cJSON_GetObjectItemType j k ty) as Hkeep.
  { intros k ty Hk. apply detach_keeps. intros x (_ & top & _ & ->)%json_member.
    by destruct Hk as [->| ->]. }
  pose proof (detach_lookup j (B "server_output_json")) as Hd.
  destruct (cJSON_DetachItemFromObject j (B "server_output_json")) as [[x|] o]; cbn [fst snd] in *.
  - symmetry in Hd. apply json_member in Hd as (Es & top & -> & ->). rewrite Es.
    exists o. split; [done|]. by apply Hkeep; left.
  - symmetry in Hd. apply no_json_member in Hd.
    pose proof (read_text o (Hkeep _ _ (or_intror eq_refl))) as Ht.
    exists o. split; [|by apply Hkeep; left].
    assert (match json_top a with
            | Some top => if sends_output a && set (json_output a)
                          then b <| json_server_output := Some (with_key (keyed (B "server_output_json") top) (parsed top)) |>
                          else if sends_output a && negb (set (json_output a))
                          then b <| server_output_text := Some (concat (server_output_list a)) |> else b
            | None => if sends_output a && negb (set (json_output a))
                      then b <| server_output_text := Some (concat (server_output_list a)) |> else b
            end = if sends_output a && negb (set (json_output a))
                  then b <| server_output_text := Some (concat (server_output_list a)) |> else b) as ->.
    { destruct (json_top a); [|done]. destruct Hd as [->|]; done. }
    destruct (iperf_cJSON_GetObjectItemType o _ _) as [i|]; cbn in Ht;
      destruct (sends_output a && negb _); try done. by apply (inj Some) in Ht as ->.
Qed.

(** The reader applies the message to the streams it describes. *)
Lemma apply_results_sent b :
  NoDup (map sp_id (streams b)) → map sp_id (streams a) ⊆ map sp_id (streams b) →
  apply_results j b = (0, results_applied a b).
Proof.
  intros Hb Hincl. unfold apply_results, results_applied, number.
  destruct members_shape as (x & y & z & Ecpu & H0 & H1 & H2 & H3 & _). rewrite Ecpu.
  destruct Ha as [_ Hr _ _ (Hs & Hnd & _)].
  pose proof (results_member 0 _ _ _ (B "cpu_util_total") H0 eq_refl) as M0.
  pose proof (results_member 1 _ _ _ (B "cpu_util_user") H1 eq_refl) as M1.
  pose proof (results_member 2 _ _ _ (B "cpu_util_system") H2 eq_refl) as M2.
  pose proof (results_member 3 _ _ _ (B "sender_has_retransmits") H3 eq_refl) as M3.
  assert (in_s 32 (if mode a =? RECEIVER then -1 else sender_has_retransmits a)) as Hr'.
  { destruct (mode a =? RECEIVER); [unfold in_s; lia|done]. }
  destruct (number_double l "cpu_util_total" x M0) as (? & E0 & V0).
  destruct (number_double l "cpu_util_user" y M1) as (? & E1 & V1).
  destruct (number_double l "cpu_util_system" z M2) as (? & E2 & V2).
  destruct (number_int l "sender_has_retransmits" _ M3 (i32_small _ Hr')) as (? & E3 & V3).
  unfold number in E0, E1, E2, E3. fold j in E0, E1, E2, E3. rewrite E0, E1, E2, E3, V0, V1, V2, V3.
  clear E0 E1 E2 E3.
  rewrite wraps_id by done.
  destruct read_streams as (i & -> & ->).
  set (b1 := get_retransmits _ _).
  assert (streams b1 = streams b) as Es by (unfold b1, get_retransmits; by repeat case_match).
  rewrite get_streams_sent by (done || by rewrite Es).
  set (b2 := b1 <| streams := _ |>).
  destruct (read_output b2) as (o & -> & Ho). cbn [fst snd].
  rewrite (read_congestion _ o Ho). f_equal.
Qed.
End Sent.

(** ** The exchange *)

Lemma send_results_steady a w text :
  results_ok a → render false 0 (object_of (results_members a)) = Some text →
  Z.of_nat (length text) + 8 < 2 ^ 31 → steady (length (frame text)) w →
  ∃ w', send_results a w = Ok (0, a, w') ∧ sent w' = sent w ++ frame text ∧ same_input w w'.
Proof.
  intros Ha Ht Hl Hs. destruct (JSON_write_steady w _ text (results_wf a Ha) Ht Hl Hs) as (w' & Hw & E).
  exists w'. unfold send_results. rewrite Hw. split_and!; [done|done|].
  by eapply JSON_write_same_input.
Qed.

Lemma get_results_prompt v a b w text rest :
  results_ok a → render false 0 (object_of (results_members a)) = Some text →
  NoDup (map sp_id (streams b)) → map sp_id (streams a) ⊆ map sp_id (streams b) →
  Z.of_nat (length text) + 8 < 2 ^ 31 →
  flat (reads w) = frame text ++ rest → prompt v (6 + length text) w →
  ∃ w', get_results b w = Ok (0, results_applied a b, w') ∧ flat (reads w') = rest ∧ same_output w w'.
Proof.
  intros Ha Ht Hb Hincl Hl Hf Hp.
  destruct (JSON_read_frame v w _ text rest 0 (results_wf a Ha) Ht Hl) as (w' & Hr & Hrest);
    [by left|done|done|].
  exists w'. unfold get_results. rewrite Hr. cbn [mbind outcome_bind].
  rewrite apply_results_sent by done. split_and!; [done|done|]. by eapply JSON_read_output.
Qed.

(** The two halves of the account of one stream: what the sender and the
    receiver know after the exchange, from their counters before it. *)
Record account (snd_test : iperf_test) (snd rcv snd' rcv' : iperf_stream) : Prop := {
  acc_received : rs_bytes_received (sp_result snd') = rs_bytes_received (sp_result rcv);
  acc_sent : rs_bytes_sent (sp_result rcv')
             = u64 (rs_bytes_sent (sp_result snd) - rs_bytes_sent_omit (sp_result snd));
  acc_retrans : rs_stream_retrans (sp_result rcv') = retransmits_reported snd_test snd;
  acc_errors : sp_cnt_error snd' = sp_cnt_error rcv ∧ sp_omitted_cnt_error snd' = sp_omitted_cnt_error rcv;
  acc_packets : sp_peer_packet_count snd' = sp_packet_count rcv ∧
                sp_peer_omitted_packet_count snd' = sp_omitted_packet_count rcv ∧
                sp_peer_packet_count rcv' = sp_packet_count snd ∧
                sp_peer_omitted_packet_count rcv' = sp_omitted_packet_count snd;
  acc_jitter : sp_jitter snd' = reread (sp_jitter rcv);
  acc_times :
    rs_receiver_time (sp_result snd') = reread (elapsed (rs_start_time (sp_result rcv)) (rs_end_time (sp_result rcv))) ∧
    rs_sender_time (sp_result rcv') = reread (elapsed (rs_start_time (sp_result snd)) (rs_end_time (sp_result snd)))
}.

(** The streams of one id on both sides. *)
Definition accounted (c s : iperf_test) (x y x' y' : iperf_stream) : Prop :=
  match sp_sender x, sp_sender y with
  | true, false => account c x y x' y'
  | false, true => mode s ≠ RECEIVER → account s y x y' x'
  | _, _ => True
  end.

Lemma merged_pair q a ls x y :
  NoDup (map sp_id ls) → y ∈ ls → sp_id x = sp_id y →
  merged q a ls x = merge_stream q (remote_of a y) x.
Proof.
  intros Hnd Hy E. unfold merged.
  assert (List.find (fun sp' => sp_id sp' =? sp_id x) ls = Some y) as ->; [|done].
  induction ls as [|z ls IH]; [by apply elem_of_nil in Hy|].
  cbn in Hnd. apply NoDup_cons in Hnd as [Hni Hnd]. cbn [List.find].
  apply elem_of_cons in Hy as [<-|Hy]; [by rewrite E, Z.eqb_refl|].
  destruct (Z.eqb_spec (sp_id z) (sp_id x)) as [Ez|]; [|by apply IH].
  destruct Hni. rewrite Ez, E. by apply list_elem_of_In, in_map, list_elem_of_In.
Qed.

Lemma received_output_shape a b :
  ∃ u v, received_output a b = b <| json_server_output := u |> <| server_output_text := v |>.
Proof.
  assert (∀ u, b <| json_server_output := u |>
    = b <| json_server_output := u |> <| server_output_text := server_output_text b |>) as E1 by by destruct b.
  assert (∀ v, b <| server_output_text := v |>
    = b <| json_server_output := json_server_output b |> <| server_output_text := v |>) as E2 by by destruct b.
  assert (b = b <| json_server_output := json_server_output b |>
                <| server_output_text := server_output_text b |>) as E3 by by destruct b.
  unfold received_output.
  repeat case_goal; first [by eexists _, _; apply E1|by eexists _, _; apply E2|by eexists _, _; apply E3].
Qed.

Lemma applied_fields a b :
  streams (results_applied a b) = map (merged (is_quic_client b) a (streams a)) (streams b) ∧
  mode (results_applied a b) = mode b ∧ protocol (results_applied a b) = protocol b ∧
  role (results_applied a b) = role b ∧ ctrl_sck (results_applied a b) = ctrl_sck b ∧
  (mode b ≠ RECEIVER → sender_has_retransmits (results_applied a b) = sender_has_retransmits b).
Proof.
  unfold results_applied. destruct (cpu_util a) as [[x y] z].
  set (b1 := get_retransmits _ _).
  assert (streams b1 = streams b ∧ mode b1 = mode b ∧ protocol b1 = protocol b ∧ role b1 = role b ∧
          ctrl_sck b1 = ctrl_sck b ∧
          (mode b ≠ RECEIVER → sender_has_retransmits b1 = sender_has_retransmits b))
    as (E1 & E2 & E3 & E4 & E5 & E6).
  { unfold b1, get_retransmits. cbn. destruct (Z.eqb_spec (mode b) RECEIVER); [by split_and!|].
    by destruct (Z.eqb_spec (mode b) BIDIRECTIONAL). }
  assert (is_quic_client b1 = is_quic_client b) as Eq by (unfold is_quic_client; by rewrite E3, E4).
  rewrite Eq, E1. set (b2 := b1 <| streams := _ |>).
  assert (∀ b3, (∃ u v, b3 = b2 <| json_server_output := u |> <| server_output_text := v |>) →
    streams b3 = map (merged (is_quic_client b) a (streams a)) (streams b) ∧ mode b3 = mode b ∧
    protocol b3 = protocol b ∧ role b3 = role b ∧ ctrl_sck b3 = ctrl_sck b ∧
    (mode b ≠ RECEIVER → sender_has_retransmits b3 = sender_has_retransmits b)) as Hb3.
  { intros b3 (u & v & ->). by split_and!. }
  pose proof (received_output_shape a b2) as H.
  specialize (Hb3 _ H). destruct (is_set (congestion_used a)); [|done]. exact Hb3.
Qed.

Lemma merge_accounts c s s1 qc x y :
  (mode s ≠ RECEIVER → sender_has_retransmits s1 = sender_has_retransmits s) →
  let y' := merge_stream false (remote_of c x) y in
  accounted c s x y (merge_stream qc (remote_of s1 y') x) y'.
Proof.
  intros Hs y'. unfold accounted.
  destruct (sp_sender x) eqn:Ex, (sp_sender y) eqn:Ey; try done.
  - assert (y' = merge_receiver (remote_of c x) y) as -> by (subst y'; unfold merge_stream; by rewrite Ey).
    unfold merge_stream. rewrite Ex.
    split; unfold merge_sender, remote_of, bytes_reported, retransmits_reported; cbn;
      rewrite ?Ex, ?Ey; destruct qc; cbn; rewrite ?Ex, ?Ey; done.
  - intros Hm.
    assert (y' = merge_sender false (remote_of c x) y) as -> by (subst y'; unfold merge_stream; by rewrite Ey).
    unfold merge_stream. rewrite Ex.
    split; unfold merge_receiver, remote_of, bytes_reported, retransmits_reported; cbn;
      rewrite ?Ex, ?Ey, ?Hs by done; done.
Qed.

Lemma results_same_ids c s : map sp_id (streams (results_applied c s)) = map sp_id (streams s).
Proof.
  destruct (applied_fields c s) as (-> & _). rewrite map_map. apply map_ext. intros x. unfold merged.
  destruct (List.find _ _); [apply merge_same|done].
Qed.

(** What both sides hold of a stream after they have applied each other's results. *)
Lemma results_merged c s i k x y :
  role s = "s"%char → results_ok c → NoDup (map sp_id (streams s)) →
  streams c !! i = Some x → streams s !! k = Some y → sp_id x = sp_id y →
  let s1 := results_applied c s in
  let y' := merge_stream false (remote_of c x) y in
  streams (results_applied s1 c) !! i = Some (merge_stream (is_quic_client c) (remote_of s1 y') x) ∧
  streams s1 !! k = Some y'.
Proof.
  intros Hrs Hrc Hnd Hx Hy Exy s1 y'.
  destruct (applied_fields c s) as (Es & _). fold s1 in Es.
  destruct (applied_fields s1 c) as (-> & _).
  assert (is_quic_client s = false) as Eq.
  { unfold is_quic_client. rewrite Hrs. by rewrite andb_false_r. }
  assert (merged (is_quic_client s) c (streams c) y = y') as Ey.
  { rewrite Eq. apply merged_pair; [apply Hrc|by eapply list_elem_of_lookup_2|done]. }
  assert (streams s1 !! k = Some y') as Hk by (by rewrite Es, list_lookup_fmap, Hy, <- Ey).
  split; [|done]. rewrite list_lookup_fmap, Hx. cbn. f_equal. apply merged_pair.
  - subst s1. by rewrite results_same_ids.
  - by eapply list_elem_of_lookup_2.
  - subst y'. by rewrite (proj1 (merge_same _ _ _)).
Qed.

(** After both have applied the other's results, every stream is accounted for. *)
Lemma results_accounted c s i k x y :
  role s = "s"%char → results_ok c → NoDup (map sp_id (streams s)) →
  streams c !! i = Some x → streams s !! k = Some y → sp_id x = sp_id y →
  ∃ x' y', streams (results_applied (results_applied c s) c) !! i = Some x' ∧
           streams (results_applied c s) !! k = Some y' ∧ accounted c s x y x' y'.
Proof.
  intros Hrs Hrc Hnd Hx Hy Exy.
  destruct (results_merged c s i k x y Hrs Hrc Hnd Hx Hy Exy) as [Hi Hk].
  eexists _, _. split_and!; [exact Hi|exact Hk|]. apply merge_accounts.
  by destruct (applied_fields c s) as (_ & _ & _ & _ & _ & ?).
Qed.

(** ** Properties *)

(** C4: the exchange of results.  When the two sides have the same stream ids,
    the counters fit ([results_ok]) and the connections are steady,
    [iperf_exchange_results] succeeds on both; afterwards, for each stream, the
    sender's side holds the bytes, losses, packets, jitter and time that the
    receiver counted, and the receiver's side the bytes, retransmissions,
    packets and time of the sender. *)
Theorem results_exchanged v c s wc ws rest_c rest_s text_c text_s :
  role c = "c"%char → role s = "s"%char →
  results_ok c → results_ok (results_applied c s) →
  NoDup (map sp_id (streams s)) →
  (∀ id, id ∈ map sp_id (streams c) ↔ id ∈ map sp_id (streams s)) →
  render false 0 (object_of (results_members c)) = Some text_c →
  render false 0 (object_of (results_members (results_applied c s))) = Some text_s →
  Z.of_nat (length text_c) + 8 < 2 ^ 31 → Z.of_nat (length text_s) + 8 < 2 ^ 31 →
  steady (length (frame text_c)) wc → flat (reads wc) = frame text_s ++ rest_c →
  prompt v (6 + length text_s) wc →
  steady (length (frame text_s)) ws → flat (reads ws) = frame text_c ++ rest_s →
  prompt v (6 + length text_c) ws →
  ∃ c' wc' s' ws',
    iperf_exchange_results c wc = Ok (0, c', wc') ∧ iperf_exchange_results s ws = Ok (0, s', ws') ∧
    sent wc' = sent wc ++ frame text_c ∧ sent ws' = sent ws ++ frame text_s ∧
    flat (reads wc') = rest_c ∧ flat (reads ws') = rest_s ∧
    ∀ i k x y, streams c !! i = Some x → streams s !! k = Some y → sp_id x = sp_id y →
      ∃ x' y', streams c' !! i = Some x' ∧ streams s' !! k = Some y' ∧ accounted c s x y x' y'.
Proof.
  intros Hrc Hrs Hc Hs1 Hnd Hids Htc Hts Hlc Hls Hsc Hfc Hpc Hss Hfs Hps.
  pose proof (results_same_ids c s) as Eids.
  destruct (send_results_steady c wc text_c Hc Htc Hlc Hsc) as (wc1 & Hsend & Hsent & Hin).
  destruct (get_results_prompt v (results_applied c s) c wc1 text_s rest_c) as (wc2 & Hget & Hrest & Hout); [done|done|..].
  { apply Hc. }
  { rewrite Eids. intros id Hid. by apply Hids. }
  { done. }
  { destruct Hin as (_ & -> & _). done. }
  { by eapply same_input_prompt. }
  destruct (get_results_prompt v c s ws text_c rest_s) as (ws1 & Hget' & Hrest' & Hout'); [done..| |done|done|done|].
  { intros id Hid. by apply Hids. }
  destruct (send_results_steady (results_applied c s) ws1 text_s Hs1 Hts Hls) as (ws2 & Hsend' & Hsent' & Hin');
    [by eapply same_output_steady|].
  exists (results_applied (results_applied c s) c), wc2, (results_applied c s), ws2. unfold iperf_exchange_results.
  rewrite Hrc, Hrs. cbn [decide]. rewrite Hsend, Hget'. cbn [mbind outcome_bind]. ztest.
  rewrite Hget, Hsend'. cbn [mbind outcome_bind]. split_and!; [done|done| | |done| |].
  - destruct Hout as [_ ->]. done.
  - rewrite Hsent'. by destruct Hout' as [_ ->].
  - destruct Hin' as (_ & -> & _). done.
  - intros i k x y Hx Hy Exy. by apply results_accounted.
Qed.

(** A UDP test of two streams: the receiver missed three packets of the first. *)
Definition sample_stream (id : Z) (sender : bool) (sent received packets errors : Z) : iperf_stream :=
  mk_stream 5 id sender 0
    (mk_result received sent 0 0 0 0 0 (mk_time 100 250000) (mk_time 110 250000) zero_time D0 D0 [])
    true [] 0 packets 0 0 0 (if sender then D0 else Ddiv (D_of_Z 1) (D_of_Z 8)) D0 0 0 errors 0 0.
Definition finished_client : iperf_test :=
  sample_client <| mode := SENDER |> <| get_server_output := 1 |>
    <| streams := [sample_stream 1 true 14600 0 10 0; sample_stream 3 true 7300 0 5 0] |>.
Definition finished_server : iperf_test :=
  sample_server <| protocol := Pudp |> <| get_server_output := 1 |> <| server_output_list := [B "done"] |>
    <| streams := [sample_stream 1 false 0 10220 10 3; sample_stream 3 false 0 7300 5 0] |>.
Definition results_text (t : iperf_test) : bytes :=
  default [] (render false 0 (object_of (results_members t))).

Lemma results_exchanged_witness :
  let text_c := results_text finished_client in
  let text_s := results_text (results_applied finished_client finished_server) in
  let wc := mk_os false [Data (frame text_s ++ B "x")] (replicate 600 (Accept 5))
              (replicate 700 1) [mk_time 5 0] [] in
  let ws := mk_os false [Data (frame text_c ++ B "y")] (replicate 700 (Accept 5))
              (replicate 700 1) [mk_time 5 0] [] in
  ∃ c' wc' s' ws',
    iperf_exchange_results finished_client wc = Ok (0, c', wc') ∧
    iperf_exchange_results finished_server ws = Ok (0, s', ws') ∧
    sent wc' = sent wc ++ frame text_c ∧ sent ws' = sent ws ++ frame text_s ∧
    flat (reads wc') = B "x" ∧ flat (reads ws') = B "y" ∧
    ∀ i k x y, streams finished_client !! i = Some x → streams finished_server !! k = Some y →
      sp_id x = sp_id y →
      ∃ x' y', streams c' !! i = Some x' ∧ streams s' !! k = Some y' ∧
               accounted finished_client finished_server x y x' y'.
Proof.
  intros text_c text_s wc ws.
  apply (results_exchanged 5000000 finished_client finished_server wc ws (B "x") (B "y") text_c text_s).
  - reflexivity.
  - reflexivity.
  - split; [vm_compute; done|decided|split; decided|vm_compute; reflexivity|split_and!; decided].
  - split; [vm_compute; done|decided|split; decided|vm_compute; reflexivity|split_and!; decided].
  - decided.
  - intros id. by replace (map sp_id (streams finished_server)) with [1; 3] by (vm_compute; reflexivity).
  - vm_compute. reflexivity.
  - vm_compute. reflexivity.
  - vm_compute. reflexivity.
  - vm_compute. reflexivity.
  - split; [by apply Forall_replicate|vm_compute; lia].
  - vm_compute. reflexivity.
  - split; [done|by repeat constructor|split; [done|decided]|vm_compute; split; congruence|].
    split; [apply Forall_replicate; lia|vm_compute; lia].
  - split; [by apply Forall_replicate|vm_compute; lia].
  - vm_compute. reflexivity.
  - split; [done|by repeat constructor|split; [done|decided]|vm_compute; split; congruence|].
    split; [apply Forall_replicate; lia|vm_compute; lia].
Defined.
