(* ===== verification/Stats.v ===== *)
(** * Statistics and rate control ([src/iperf_api.c])

    The statistics timer closes an interval on every stream
    ([iperf_stats_callback]) and lets a server check its total rate; the sending
    side is throttled to its target rate ([iperf_check_throttle]) and sends a
    bounded number of messages per turn ([iperf_send_mt]). *)

From S2P Require Import Prelude Errno CInt CDouble IperfTime Net Test.

Definition SEC_TO_NS : Z := 1000000000.

(** ** The total rate of a server *)

(** The write to the cyclic array, which has [MAX_INTERVAL] entries. *)
Definition set_traffic (i v : Z) (test : iperf_test) : outcome iperf_test :=
  let l := bitrate_limit_intervals_traffic_bytes test in
  if decide (0 ≤ i < Z.of_nat (length l))
  then Ok (test <| bitrate_limit_intervals_traffic_bytes := <[Z.to_nat i := v]> l |>)
  else Undef.

(** The sum of the first [n] entries. *)
Definition total_traffic (n : Z) (test : iperf_test) : outcome Z :=
  let l := bitrate_limit_intervals_traffic_bytes test in
  if decide (n ≤ Z.of_nat (length l))
  then Ok (foldl (fun a b => u64 (a + b)) 0 (take (Z.to_nat n) l))
  else Undef.

Definition iperf_check_total_rate (test : iperf_test) (last_interval_bytes_transferred : Z)
  : outcome iperf_test :=
  if negb (done test =? 0) || (bitrate_limit (settings test) =? 0) then Ok test
  else
    let n := bitrate_limit_stats_per_interval (settings test) in
    let i := u64 (bitrate_limit_last_interval_index test + 1) in
    let i := if u64 n <=? i then 0 else i in
    let test := test <| bitrate_limit_last_interval_index := i |> in
    test ← set_traffic i last_interval_bytes_transferred test;
    let test := test <| bitrate_limit_stats_count ::= (fun c => u64 (c + 1)) |> in
    if bitrate_limit_stats_count test <? u64 n then Ok test
    else
      total_bytes ← total_traffic n test;
      let seconds := Dmul (stats_interval test) (D_of_Z n) in
      match D_to_u 64 (Ddiv (D_of_Z (u64 (total_bytes * 8))) seconds) with
      | None => Undef
      | Some bits_per_second =>
          Ok (if bitrate_limit (settings test) <? bits_per_second
              then test <| bitrate_limit_exceeded := 1 |> else test)
      end.

(** ** Interval statistics *)

(** [add_to_interval_list] keeps only the last interval. *)
Definition add_to_interval_list (new : iperf_interval_results) (rp : iperf_stream_result)
  : iperf_stream_result :=
  rp <| rs_interval_results ::= (fun l => removelast l ++ [new]) |>.

Section Statistics.
(** The retransmissions that [TCP_INFO] reports for a stream's socket. *)
Context (total_retransmits : iperf_stream → Z).

(** The part of the loop body of [iperf_stats_callback] that reads the counters:
    [temp] is the local structure, which the loop reuses. *)
Definition stats_read (test : iperf_test) (now : iperf_time) (temp : iperf_interval_results)
    (sp : iperf_stream) : iperf_stream * iperf_interval_results :=
  let rp := sp_result sp in
  let irp := last (rs_interval_results rp) in
  let temp := temp <| ir_bytes_transferred :=
                        if sp_sender sp then rs_bytes_sent_this_interval rp
                        else rs_bytes_received_this_interval rp |> in
  let temp := temp <| ir_start_time :=
                        match irp with Some _ => rs_end_time rp | None => rs_start_time rp end |>
                   <| ir_end_time := now |> in
  let rp := rp <| rs_end_time := now |> in
  let '(temp, rp) :=
    if protocol test =? Ptcp then
      if sender_has_retransmits test =? 1 then
        let total := total_retransmits sp in
        let temp := temp <| ir_interval_retrans := i64 (total - rs_stream_prev_total_retrans rp) |> in
        (temp, rp <| rs_stream_retrans ::= (fun r => i64 (r + ir_interval_retrans temp)) |>
                  <| rs_stream_prev_total_retrans := total |>)
      else (temp, rp)
    else
      let since (total : Z) (previous : iperf_interval_results → Z) : Z :=
        match irp with None => total | Some irp => i64 (total - previous irp) end in
      let temp := temp <| ir_packet_count := since (sp_packet_count sp) ir_total_packet_count |>
        <| ir_outoforder_packets := since (sp_outoforder_packets sp) ir_total_outoforder_packets |>
        <| ir_cnt_error := since (sp_cnt_error sp) ir_total_cnt_error |> in
      (temp <| ir_total_packet_count := sp_packet_count sp |> <| ir_jitter := sp_jitter sp |>
            <| ir_total_outoforder_packets := sp_outoforder_packets sp |>
            <| ir_total_cnt_error := sp_cnt_error sp |>, rp) in
  (sp <| sp_result := add_to_interval_list temp rp |>, temp).

(** The end of the loop body: the counters of the interval start again. *)
Definition stats_zero (sp : iperf_stream) : iperf_stream :=
  on_result (fun rp => rp <| rs_bytes_received_this_interval := 0 |>
                          <| rs_bytes_sent_this_interval := 0 |>) sp.

Definition stats_stream (test : iperf_test) (now : iperf_time) (temp : iperf_interval_results)
    (sp : iperf_stream) : iperf_stream * iperf_interval_results :=
  let '(sp, temp) := stats_read test now temp sp in (stats_zero sp, temp).

Fixpoint stats_streams (test : iperf_test) (temp : iperf_interval_results) (total : Z)
    (l : list iperf_stream) (w : os) : list iperf_stream * Z * os :=
  match l with
  | [] => ([], total, w)
  | sp :: l' =>
      let total := u64 (total + (rs_bytes_sent_this_interval (sp_result sp) +
                                 rs_bytes_received_this_interval (sp_result sp))) in
      let '(now, w) := os_now w in
      let '(sp, temp) := stats_stream test now temp sp in
      let '(l', total, w) := stats_streams test temp total l' w in
      (sp :: l', total, w)
  end.

(** [garbage] is what the local structure holds before it is filled. *)
Definition iperf_stats_callback (garbage : iperf_interval_results) (test : iperf_test) (w : os)
  : outcome (iperf_test * os) :=
  let temp := garbage <| ir_omitted := omitting test |> in
  let '(l, total, w) := stats_streams test temp 0 (streams test) w in
  let test := test <| streams := l |> in
  test ← (if decide (role test = "s"%char) then iperf_check_total_rate test total else Ok test);
  Ok (test, w).

(** At the end of the omitted period. *)
Definition reset_stream (test : iperf_test) (now : iperf_time) (sp : iperf_stream) : iperf_stream :=
  let sp := sp <| sp_omitted_packet_count := sp_packet_count sp |>
    <| sp_omitted_cnt_error := sp_cnt_error sp |>
    <| sp_omitted_outoforder_packets := sp_outoforder_packets sp |> <| sp_jitter := D0 |> in
  on_result (fun rp =>
    let rp := rp <| rs_bytes_sent_omit := rs_bytes_sent rp |> <| rs_bytes_received := 0 |>
      <| rs_bytes_received_this_interval := 0 |> <| rs_bytes_sent_this_interval := 0 |> in
    let rp := if sender_has_retransmits test =? 1
              then rp <| rs_stream_prev_total_retrans := total_retransmits sp |> else rp in
    rp <| rs_stream_retrans := 0 |> <| rs_start_time := now |>) sp.

Definition iperf_reset_stats (test : iperf_test) (w : os) : iperf_test * os :=
  let '(now, w) := os_now w in
  (test <| bytes_sent := 0 |> <| blocks_sent := 0 |>
        <| streams ::= map (reset_stream test now) |>, w).
End Statistics.

(** [iperf_init_test], for a protocol without an [init] of its own and a clock
    that works: every stream starts now. *)
Definition iperf_init_test (test : iperf_test) (w : os) : iperf_test * os :=
  let '(now, w) := os_now w in
  (test <| streams ::= map (on_result (fun rp => rp <| rs_start_time_fixed := now |>
                                                    <| rs_start_time := now |>)) |>, w).

(** ** Throttling *)

(** [sleeps] says whether [clock_gettime] and [clock_nanosleep] succeed. *)
Definition iperf_check_throttle (test : iperf_test) (sp : iperf_stream) (now : iperf_time)
    (sleeps : bool) : outcome iperf_stream :=
  let rate := rate (settings test) in
  if negb (done test =? 0) || (rate =? 0) then Ok sp
  else
    let seconds := iperf_time_in_secs (snd (iperf_time_diff (rs_start_time_fixed (sp_result sp)) now)) in
    let bits_sent := u64 (rs_bytes_sent (sp_result sp) * 8) in
    match D_to_u 64 (Ddiv (D_of_Z bits_sent) seconds) with
    | None => Undef
    | Some bits_per_second =>
        let missing_rate := i64 (rate - bits_per_second) in
        let sp := sp <| sp_green_light := 0 <? missing_rate |> in
        if missing_rate <? 0 then
          match D_to_s 64 (Dsub (D_of_Z bits_sent) (Dmul seconds (D_of_Z rate))) with
          | None => Undef
          | Some delta_bits =>
              let time_to_green_light := i64 (u64 (SEC_TO_NS * delta_bits) / rate) in
              Ok (if (0 <=? time_to_green_light) && sleeps then sp <| sp_green_light := true |> else sp)
          end
        else Ok sp
    end.

(** ** A turn of sending and receiving *)

Section Turns.
(** The connection: the protocol's [send] and [recv], the clock, and whether a
    sleep succeeds. *)
Context {W : Type} (prot_send prot_recv : iperf_test → iperf_stream → W → outcome (Z * iperf_stream * W))
  (time_now : W → iperf_time * W) (nanosleep : W → bool * W).

Definition throttle (test : iperf_test) (sp : iperf_stream) (now : iperf_time) (w : W)
  : outcome (iperf_stream * W) :=
  let '(ok, w) := nanosleep w in
  sp ← iperf_check_throttle test sp now ok; Ok (sp, w).

(** The loop: a hard error ends the turn with its value.  [sent] holds the time
    read after the first message. *)
Fixpoint send_loop (multisend : nat) (per_message : bool) (sent : option iperf_time)
    (test : iperf_test) (sp : iperf_stream) (w : W)
  : outcome (option Z * option iperf_time * iperf_test * iperf_stream * W) :=
  match multisend with
  | O => Ok (None, sent, test, sp, w)
  | S n =>
      let s := settings test in
      if negb (sp_green_light sp) then Ok (None, sent, test, sp, w)
      else if bool_decide (n ≠ 0%nat) && negb (bytes_limit s =? 0) && (bytes_limit s <=? bytes_sent test)
      then Ok (None, sent, test, sp, w)
      else if bool_decide (n ≠ 0%nat) && negb (blocks_limit s =? 0) && (blocks_limit s <=? blocks_sent test)
      then Ok (None, sent, test, sp, w)
      else
        '(r, sp, w) ← prot_send test sp w;
        if r <? 0 then
          if r =? NET_SOFTERROR then Ok (None, sent, test, sp, w)
          else Ok (Some r, sent, test <| i_errno := IESTREAMWRITE |>, sp, w)
        else
          let test := test <| bytes_sent ::= (fun b => u64 (b + r)) |> in
          let test := if sp_pending_size sp =? 0
                      then test <| blocks_sent ::= (fun b => u64 (b + 1)) |> else test in
          if per_message then
            let '(now, w) := match sent with None => time_now w | Some now => (now, w) end in
            '(sp, w) ← throttle test sp now w;
            send_loop n per_message (Some now) test sp w
          else send_loop n per_message (Some (default (mk_time 0 0) sent)) test sp w
  end.

Definition iperf_send_mt (test : iperf_test) (sp : iperf_stream) (w : W)
  : outcome (Z * iperf_test * iperf_stream * W) :=
  let s := settings test in
  let multisend := if negb (burst s =? 0) then burst s
                   else if rate s =? 0 then multisend test else 1 in
  let throttle_check := negb (rate s =? 0) in
  let per_message := throttle_check && (burst s =? 0) in
  '(hard, sent, test, sp, w) ← send_loop (Z.to_nat multisend) per_message None test sp w;
  match hard with
  | Some r => Ok (r, test, sp, w)
  | None =>
      if throttle_check && (negb per_message || match sent with None => true | _ => false end) then
        let '(now, w) := time_now w in
        '(sp, w) ← throttle test sp now w;
        Ok (0, test, sp, w)
      else Ok (0, test, sp, w)
  end.

Definition iperf_recv_mt (test : iperf_test) (sp : iperf_stream) (w : W)
  : outcome (Z * iperf_test * iperf_stream * W) :=
  '(r, sp, w) ← prot_recv test sp w;
  if r <? 0 then Ok (r, test <| i_errno := IESTREAMREAD |>, sp, w)
  else if 0 <? r then
    Ok (0, test <| bytes_received ::= (fun b => u64 (b + r)) |>
                <| blocks_received ::= (fun b => u64 (b + 1)) |>, sp, w)
  else Ok (0, test, sp, w).
End Turns.

(** ** Intervals and totals *)

Definition counted_bytes (sp : iperf_stream) : Z :=
  if sp_sender sp then rs_bytes_sent (sp_result sp) else rs_bytes_received (sp_result sp).
Definition open_bytes (sp : iperf_stream) : Z :=
  if sp_sender sp then rs_bytes_sent_this_interval (sp_result sp)
  else rs_bytes_received_this_interval (sp_result sp).

(** What a protocol's [send] or [recv] does to the counters of its stream: [n]
    bytes, and new packet counters. *)
Definition moved (n : Z) (packets outoforder errors : Z) (sp : iperf_stream) : iperf_stream :=
  let sp := sp <| sp_packet_count := packets |> <| sp_outoforder_packets := outoforder |>
               <| sp_cnt_error := errors |> in
  on_result (fun rp =>
    if sp_sender sp
    then rp <| rs_bytes_sent ::= (fun b => u64 (b + n)) |>
            <| rs_bytes_sent_this_interval ::= (fun b => u64 (b + n)) |>
    else rp <| rs_bytes_received ::= (fun b => u64 (b + n)) |>
            <| rs_bytes_received_this_interval ::= (fun b => u64 (b + n)) |>) sp.

Inductive event := Move (n packets outoforder errors : Z) | Tick (now : iperf_time).

(** The life of one stream: the stream and the intervals that were closed. *)
Definition live (retr : iperf_stream → Z) (test : iperf_test)
    (s : iperf_stream * iperf_interval_results * list iperf_interval_results) (e : event) :=
  let '(sp, temp, irs) := s in
  match e with
  | Move n p o c => (moved n p o c sp, temp, irs)
  | Tick now => let '(sp, temp) := stats_stream retr test now temp sp in (sp, temp, irs ++ [temp])
  end.

Definition sum (l : list Z) : Z := foldr Z.add 0 l.

Lemma sum_app l k : sum (l ++ k) = sum l + sum k.
Proof. unfold sum. induction l as [|x l IH]; cbn in *; lia. Qed.

(** Each interval starts where the previous one ended. *)
Fixpoint contiguous (t : iperf_time) (irs : list iperf_interval_results) : Prop :=
  match irs with
  | [] => True
  | ir :: irs' => ir_start_time ir = t ∧ contiguous (ir_end_time ir) irs'
  end.

Lemma contiguous_snoc t irs ir :
  contiguous t irs →
  ir_start_time ir = match last irs with Some l => ir_end_time l | None => t end →
  contiguous t (irs ++ [ir]).
Proof.
  revert t. induction irs as [|x irs IH]; intros t; cbn; [done|].
  intros [Hx Hc] Hs. split; [done|]. apply IH; [done|]. rewrite Hs, last_cons. by destruct (last irs).
Qed.

(** A stream before its first interval. *)
Definition fresh (sp : iperf_stream) : Prop :=
  rs_interval_results (sp_result sp) = [] ∧ open_bytes sp = 0 ∧ counted_bytes sp = 0.

(** What the closed intervals say about a packet counter. *)
Definition telescopes (irs : list iperf_interval_results)
    (part total : iperf_interval_results → Z) : Prop :=
  ∀ l, last irs = Some l → u64 (sum (map part irs)) = u64 (total l).

Record interval_account (test : iperf_test) (t0 : iperf_time) (sp : iperf_stream)
    (irs : list iperf_interval_results) : Prop := {
  ia_bytes : u64 (sum (map ir_bytes_transferred irs) + open_bytes sp) = u64 (counted_bytes sp);
  ia_last : rs_interval_results (sp_result sp) = match last irs with Some l => [l] | None => [] end;
  ia_end : ∀ l, last irs = Some l → rs_end_time (sp_result sp) = ir_end_time l;
  ia_start : rs_start_time (sp_result sp) = t0;
  ia_times : contiguous t0 irs;
  ia_packets : protocol test ≠ Ptcp →
    telescopes irs ir_packet_count ir_total_packet_count ∧
    telescopes irs ir_outoforder_packets ir_total_outoforder_packets ∧
    telescopes irs ir_cnt_error ir_total_cnt_error
}.

Lemma u64_add a b : u64 (u64 a + b) = u64 (a + b).
Proof. apply wrapu_add_l. Qed.

Lemma u64_i64 x : u64 (i64 x) = u64 x.
Proof. by apply wrapu_wraps. Qed.

Lemma moved_fields n p o c sp :
  let rp := sp_result sp in let rp' := sp_result (moved n p o c sp) in
  rs_interval_results rp' = rs_interval_results rp ∧ rs_end_time rp' = rs_end_time rp ∧
  rs_start_time rp' = rs_start_time rp.
Proof. unfold moved, on_result. cbn. by destruct (sp_sender sp). Qed.

Lemma account_move test t0 sp irs n p o c :
  interval_account test t0 sp irs → interval_account test t0 (moved n p o c sp) irs.
Proof.
  intros [Hb Hl He Hs Ht Hp].
  destruct (moved_fields n p o c sp) as (E1 & E2 & E3).
  split; [|by rewrite E1|by rewrite E2|by rewrite E3|done|done].
  unfold moved, open_bytes, counted_bytes, on_result in *. cbn in *.
  destruct (sp_sender sp) eqn:Es; cbn; rewrite ?Es; cbn.
  all: rewrite wrapu_add_r, Z.add_assoc, <- u64_add, Hb, u64_add, wrapu_wrapu by done; done.
Qed.

Lemma telescopes_snoc irs ir (part total : iperf_interval_results → Z) :
  telescopes irs part total →
  part ir = match last irs with None => total ir | Some l => i64 (total ir - total l) end →
  telescopes (irs ++ [ir]) part total.
Proof.
  intros Hirs Hpart l. rewrite last_snoc. intros [= <-].
  rewrite map_app, sum_app. cbn. rewrite Z.add_0_r, Hpart.
  destruct (last irs) as [l|] eqn:E.
  - rewrite <- wrapu_add_r, u64_i64, wrapu_add_r, <- u64_add, (Hirs l E), u64_add. f_equal. lia.
  - destruct irs as [|x irs]; [by rewrite Z.add_0_l|]. rewrite last_cons in E. by destruct (last irs).
Qed.

(** What closing an interval writes, in terms of the stream before it. *)
Lemma stats_read_fields retr test now temp sp sp' ir :
  stats_read retr test now temp sp = (sp', ir) →
  let rp := sp_result sp in let rp' := sp_result sp' in
  let irp := last (rs_interval_results rp) in
  ir_bytes_transferred ir = open_bytes sp ∧
  ir_start_time ir = (match irp with Some _ => rs_end_time rp | None => rs_start_time rp end) ∧
  ir_end_time ir = now ∧ rs_end_time rp' = now ∧ rs_start_time rp' = rs_start_time rp ∧
  rs_interval_results rp' = removelast (rs_interval_results rp) ++ [ir] ∧
  sp_sender sp' = sp_sender sp ∧ counted_bytes sp' = counted_bytes sp ∧ open_bytes sp' = open_bytes sp ∧
  (protocol test ≠ Ptcp →
   ir_packet_count ir = (match irp with None => ir_total_packet_count ir
                         | Some l => i64 (ir_total_packet_count ir - ir_total_packet_count l) end) ∧
   ir_outoforder_packets ir = (match irp with None => ir_total_outoforder_packets ir
     | Some l => i64 (ir_total_outoforder_packets ir - ir_total_outoforder_packets l) end) ∧
   ir_cnt_error ir = (match irp with None => ir_total_cnt_error ir
                      | Some l => i64 (ir_total_cnt_error ir - ir_total_cnt_error l) end)).
Proof.
  unfold stats_read, add_to_interval_list, counted_bytes, open_bytes.
  destruct (Z.eqb_spec (protocol test) Ptcp) as [E|E].
  - destruct (sender_has_retransmits test =? 1); intros [= <- <-]; cbn; by destruct (sp_sender sp).
  - intros [= <- <-]. cbn. destruct (last (rs_interval_results (sp_result sp))); by destruct (sp_sender sp).
Qed.

Lemma stats_zero_fields sp :
  let rp := sp_result sp in let rp' := sp_result (stats_zero sp) in
  rs_interval_results rp' = rs_interval_results rp ∧ rs_end_time rp' = rs_end_time rp ∧
  rs_start_time rp' = rs_start_time rp ∧ counted_bytes (stats_zero sp) = counted_bytes sp ∧
  open_bytes (stats_zero sp) = 0.
Proof. unfold counted_bytes, open_bytes. cbn. by destruct (sp_sender sp). Qed.

Lemma account_tick retr test t0 sp irs now temp sp' ir :
  interval_account test t0 sp irs → stats_stream retr test now temp sp = (sp', ir) →
  interval_account test t0 sp' (irs ++ [ir]).
Proof.
  intros [Hb Hl He Hs Ht Hp]. unfold stats_stream.
  destruct (stats_read retr test now temp sp) as [sp1 ir1] eqn:E. intros [= <- <-].
  apply stats_read_fields in E as (B1 & T1 & T2 & E1 & S1 & L1 & _ & C1 & _ & P1).
  destruct (stats_zero_fields sp1) as (ZL & ZE & ZS & ZC & ZO).
  assert (last (rs_interval_results (sp_result sp)) = last irs) as Elast.
  { rewrite Hl. by destruct (last irs). }
  rewrite Elast in T1, P1. split.
  - rewrite map_app, sum_app, ZO, ZC, C1, <- Hb. cbn. f_equal. lia.
  - rewrite ZL, L1, Hl, last_snoc. by destruct (last irs).
  - intros l. rewrite last_snoc. intros [= <-]. congruence.
  - congruence.
  - apply contiguous_snoc; [done|]. rewrite T1. destruct (last irs) as [l|]; [by apply He|done].
  - intros HP. destruct (Hp HP) as (H1 & H2 & H3). destruct (P1 HP) as (Q1 & Q2 & Q3).
    split_and!; by apply telescopes_snoc.
Qed.

Lemma account_live retr test t0 evs sp temp irs sp' temp' irs' :
  interval_account test t0 sp irs →
  foldl (live retr test) (sp, temp, irs) evs = (sp', temp', irs') →
  interval_account test t0 sp' irs'.
Proof.
  revert sp temp irs. induction evs as [|e evs IH]; intros sp temp irs Ha; cbn [foldl].
  { intros [= <- _ <-]. done. }
  destruct e as [n q o c|now]; cbn [live].
  - apply IH. by apply account_move.
  - destruct (stats_stream retr test now temp sp) as [sp1 ir] eqn:E.
    apply IH. by eapply account_tick.
Qed.

Lemma account_fresh test sp : fresh sp → interval_account test (rs_start_time (sp_result sp)) sp [].
Proof. intros (Hl & Ho & Hc). split; try done. by rewrite Ho, Hc. Qed.

(** ** The window of the total rate *)

(** After the intervals [h] (latest first) the array holds the last of them
    behind the index. *)
Definition window (test : iperf_test) (h : list Z) : Prop :=
  let n := bitrate_limit_stats_per_interval (settings test) in
  let l := bitrate_limit_intervals_traffic_bytes test in
  let i := bitrate_limit_last_interval_index test in
  1 ≤ n ∧ n ≤ Z.of_nat (length l) ∧ Z.of_nat (length l) < 2 ^ 31 ∧ 0 ≤ i < n ∧
  bitrate_limit_stats_count test = Z.of_nat (length h) ∧
  ∀ k v, (Z.of_nat k < n) → h !! k = Some v → l !! Z.to_nat ((i - Z.of_nat k) mod n) = Some v.

Lemma window_reset test :
  let l := bitrate_limit_intervals_traffic_bytes test in
  1 ≤ bitrate_limit_stats_per_interval (settings test) ≤ Z.of_nat (length l) → Z.of_nat (length l) < 2 ^ 31 →
  bitrate_limit_stats_count test = 0 → bitrate_limit_last_interval_index test = 0 → window test [].
Proof. intros l Hn Hl Hc Hi. unfold window. cbv zeta. fold l. rewrite Hc, Hi. split_and!; (lia || done). Qed.

(** The position after [i] and the distance of an entry behind it. *)
Lemma next_index n i : 0 ≤ i < n → n < 2 ^ 31 →
  (if u64 n <=? u64 (i + 1) then 0 else u64 (i + 1)) = (i + 1) mod n.
Proof.
  intros Hi Hn. rewrite !wrapu_id by (unfold in_u; lia). destruct (Z.leb_spec n (i + 1)).
  - replace (i + 1) with n by lia. by rewrite Z_mod_same_full.
  - by rewrite Z.mod_small by lia.
Qed.

Lemma window_write n i (l h : list Z) b :
  1 ≤ n → n ≤ Z.of_nat (length l) → 0 ≤ i < n →
  (∀ k v, Z.of_nat k < n → h !! k = Some v → l !! Z.to_nat ((i - Z.of_nat k) mod n) = Some v) →
  ∀ k v, Z.of_nat k < n → (b :: h) !! k = Some v →
    <[Z.to_nat ((i + 1) mod n) := b]> l !! Z.to_nat (((i + 1) mod n - Z.of_nat k) mod n) = Some v.
Proof.
  intros Hn Hl Hi Hh k v Hk Hv.
  pose proof (Z.mod_pos_bound (i + 1) n ltac:(lia)).
  assert (((i + 1) mod n - Z.of_nat k) mod n = (i + 1 - Z.of_nat k) mod n) as -> by apply Zminus_mod_idemp_l.
  destruct k as [|k].
  - cbn in Hv. injection Hv as ->. rewrite Z.sub_0_r.
    rewrite list_lookup_insert_eq; [done|lia].
  - cbn in Hv. replace (i + 1 - Z.of_nat (S k)) with (i - Z.of_nat k) by lia.
    rewrite list_lookup_insert_ne; [apply Hh; [lia|done]|].
    pose proof (Z.mod_pos_bound (i - Z.of_nat k) n ltac:(lia)).
    intros E. apply Z2Nat.inj in E; [|lia..].
    assert ((i + 1 - (i - Z.of_nat k)) mod n = 0) as E0.
    { rewrite Zminus_mod, E, Z.sub_diag. apply Z.mod_0_l. lia. }
    replace (i + 1 - (i - Z.of_nat k)) with (Z.of_nat (S k)) in E0 by lia.
    rewrite Z.mod_small in E0; lia.
Qed.

Lemma take_lookups {A} `{Inhabited A} (l : list A) n :
  (n ≤ length l)%nat → take n l = map (fun j => l !!! j) (seq 0 n).
Proof.
  revert n. induction l as [|x l IH]; intros [|n] Hn; try done; cbn in Hn; [lia|].
  cbn [take]. rewrite (IH n) by lia. cbn. f_equal. rewrite <- seq_shift, map_map. done.
Qed.

Lemma sum_permutation l k : l ≡ₚ k → sum l = sum k.
Proof. unfold sum. induction 1; cbn in *; lia. Qed.

Lemma foldl_u64 l a : 0 ≤ a < 2 ^ 64 → foldl (fun a b => u64 (a + b)) a l = u64 (a + sum l).
Proof.
  revert a. induction l as [|x l IH]; intros a Ha; cbn [foldl].
  - unfold sum. cbn. rewrite Z.add_0_r. symmetry. by apply wrapu_id.
  - rewrite IH by by apply wrapu_range. rewrite wrapu_add_l. f_equal. unfold sum. cbn. lia.
Qed.

(** Going back from [i] around a ring of [n] visits every index once. *)
Lemma ring_permutation n i :
  (0 < n)%nat → 0 ≤ i →
  map (fun k => Z.to_nat ((i - Z.of_nat k) mod Z.of_nat n)) (seq 0 n) ≡ₚ seq 0 n.
Proof.
  intros Hn Hi. apply submseteq_length_Permutation; [|by rewrite length_map].
  apply NoDup_submseteq.
  - apply NoDup_fmap_2_strong; [|apply NoDup_seq]. intros a b Ha%elem_of_seq Hb%elem_of_seq E.
    pose proof (Z.mod_pos_bound (i - Z.of_nat a) (Z.of_nat n) ltac:(lia)).
    pose proof (Z.mod_pos_bound (i - Z.of_nat b) (Z.of_nat n) ltac:(lia)).
    apply Z2Nat.inj in E; [|lia..].
    assert ((Z.of_nat b - Z.of_nat a) mod Z.of_nat n = 0) as E0.
    { replace (Z.of_nat b - Z.of_nat a) with ((i - Z.of_nat a) - (i - Z.of_nat b)) by lia.
      rewrite Zminus_mod, E, Z.sub_diag. apply Z.mod_0_l. lia. }
    destruct (Z_lt_le_dec (Z.of_nat b) (Z.of_nat a)).
    + rewrite <- (Z_mod_plus_full _ 1), Z.mod_small in E0; lia.
    + rewrite Z.mod_small in E0; lia.
  - intros x (k & -> & Hk)%list_elem_of_fmap. apply elem_of_seq.
    pose proof (Z.mod_pos_bound (i - Z.of_nat k) (Z.of_nat n) ltac:(lia)). lia.
Qed.

(** The sum of the window is the sum of the latest intervals. *)
Lemma window_sum test h :
  let n := bitrate_limit_stats_per_interval (settings test) in
  window test h → n ≤ Z.of_nat (length h) →
  total_traffic n test = Ok (u64 (sum (take (Z.to_nat n) h))).
Proof.
  intros n (H1 & H2 & _ & Hi & _ & Hh) Hn. fold n in H1, H2, Hi, Hh.
  unfold total_traffic. rewrite decide_True by done.
  rewrite foldl_u64 by lia. f_equal. f_equal. rewrite Z.add_0_l.
  set (l := bitrate_limit_intervals_traffic_bytes test) in *.
  set (i := bitrate_limit_last_interval_index test) in *.
  rewrite !take_lookups by lia. apply sum_permutation.
  etrans; [apply Permutation_map; symmetry; apply (ring_permutation (Z.to_nat n) i); lia|].
  rewrite map_map. apply reflexive_eq. apply map_ext_in. intros k Hk%in_seq. rewrite Z2Nat.id by lia.
  destruct (h !! k) as [v|] eqn:Ek; [|apply lookup_ge_None in Ek; lia].
  rewrite (list_lookup_total_correct _ _ _ Ek).
  apply list_lookup_total_correct. rewrite <- (Hh k v) by (done || lia). done.
Qed.

(** One interval: the window moves, and the rate is checked once it is full. *)
Lemma check_total_rate_window test h b :
  let n := bitrate_limit_stats_per_interval (settings test) in
  window test h → done test = 0 → bitrate_limit (settings test) ≠ 0 →
  Z.of_nat (length h) + 1 < 2 ^ 64 →
  ∃ test', window test' (b :: h) ∧ settings test' = settings test ∧ done test' = 0 ∧
    bitrate_limit_exceeded test' = bitrate_limit_exceeded test ∧
    iperf_check_total_rate test b =
      if Z.of_nat (length (b :: h)) <? n then Ok test'
      else match D_to_u 64 (Ddiv (D_of_Z (u64 (u64 (sum (take (Z.to_nat n) (b :: h))) * 8)))
                                (Dmul (stats_interval test) (D_of_Z n))) with
           | None => Undef
           | Some bps => Ok (if bitrate_limit (settings test) <? bps
                             then test' <| bitrate_limit_exceeded := 1 |> else test')
           end.
Proof.
  intros n Hw Hd Hb Hlen. pose proof Hw as (H1 & H2 & H3 & Hi & Hc & Hh). fold n in H1, H2, Hi, Hh.
  unfold iperf_check_total_rate. rewrite Hd. cbn [Z.eqb negb orb].
  rewrite (proj2 (Z.eqb_neq _ _) Hb). fold n. rewrite next_index by lia.
  set (i := bitrate_limit_last_interval_index test) in *.
  pose proof (Z.mod_pos_bound (i + 1) n ltac:(lia)).
  unfold set_traffic. cbn [bitrate_limit_intervals_traffic_bytes].
  set (test1 := test <| bitrate_limit_last_interval_index := _ |>).
  change (bitrate_limit_intervals_traffic_bytes test1) with (bitrate_limit_intervals_traffic_bytes test).
  set (l := bitrate_limit_intervals_traffic_bytes test) in *.
  rewrite decide_True by lia. cbn [mbind outcome_bind].
  set (test2 := _ <| bitrate_limit_stats_count ::= _ |>).
  assert (bitrate_limit_stats_count test2 = Z.of_nat (length (b :: h))) as Ec.
  { unfold test2, test1. cbn. rewrite Hc, wrapu_id by (unfold in_u; lia). lia. }
  assert (window test2 (b :: h)) as Hw2.
  { unfold window. rewrite Ec. change (settings test2) with (settings test). fold n.
    change (bitrate_limit_last_interval_index test2) with ((i + 1) mod n).
    change (bitrate_limit_intervals_traffic_bytes test2) with (<[Z.to_nat ((i + 1) mod n) := b]> l).
    rewrite length_insert. split_and!; try lia. by apply window_write. }
  exists test2. split_and!; [done|done|done|done|].
  rewrite Ec. rewrite (wrapu_id 64 n) by (unfold in_u; lia).
  destruct (Z.ltb_spec (Z.of_nat (length (b :: h))) n); [done|].
  pose proof (window_sum test2 (b :: h) Hw2) as Hs. change (settings test2) with (settings test) in Hs.
  fold n in Hs. rewrite Hs by done. done.
Qed.

(** ** A turn does not run far past the end of the test *)

Lemma send_loop_bound {W} (prot_send : iperf_test → iperf_stream → W → outcome (Z * iperf_stream * W))
    (time_now : W → iperf_time * W) (nanosleep : W → bool * W) blk limit :
  (∀ test sp w r sp' w', prot_send test sp w = Ok (r, sp', w') → r ≤ blk) → 0 ≤ blk → 0 < limit →
  ∀ n per sent test sp w r sent' test' sp' w',
    bytes_limit (settings test) = limit → 0 ≤ bytes_sent test →
    Z.max (bytes_sent test) (limit + blk - 1) + blk < 2 ^ 64 →
    send_loop prot_send time_now nanosleep n per sent test sp w = Ok (r, sent', test', sp', w') →
    settings test' = settings test ∧
    bytes_sent test ≤ bytes_sent test' ≤ Z.max (bytes_sent test) (limit + blk - 1) + blk.
Proof.
  intros Hblk Hb Hlim. induction n as [|n IH]; intros per sent test sp w r sent' test' sp' w' Hl H0 Hmax;
    cbn [send_loop].
  { intros [= <- <- <- <- <-]. split; [done|lia]. }
  destruct (sp_green_light sp); [|intros [= <- <- <- <- <-]; split; [done|lia]]. cbn [negb].
  rewrite Hl. rewrite (proj2 (Z.eqb_neq limit 0)) by lia. cbn [negb]. rewrite andb_true_r.
  destruct (bool_decide (n ≠ 0%nat) && (limit <=? bytes_sent test)) eqn:Estop;
    [intros [= <- <- <- <- <-]; split; [done|lia]|].
  case_match; [intros [= <- <- <- <- <-]; split; [done|lia]|].
  destruct (prot_send test sp w) as [[[r1 sp1] w1]| | |] eqn:Es; try done. cbn [mbind outcome_bind].
  apply Hblk in Es. destruct (Z.ltb_spec r1 0).
  { case_match; intros [= <- <- <- <- <-]; (split; [done|cbn; lia]). }
  set (test1 := test <| bytes_sent ::= _ |>).
  set (test2 := if sp_pending_size sp1 =? 0 then _ else test1).
  assert (settings test2 = settings test ∧ bytes_sent test2 = bytes_sent test + r1) as [Es2 Eb2].
  { unfold test2, test1. case_match; (split; [done|]); cbn; apply wrapu_id; unfold in_u; lia. }
  clearbody test1 test2.
  assert (∀ per sent sp w, send_loop prot_send time_now nanosleep n per sent test2 sp w
      = Ok (r, sent', test', sp', w') → settings test' = settings test ∧
      bytes_sent test ≤ bytes_sent test' ≤ Z.max (bytes_sent test) (limit + blk - 1) + blk) as Hrest.
  { intros per0 sent0 sp0 w0 Hrun. destruct n as [|n'].
    - cbn in Hrun. injection Hrun as <- <- <- <- <-. rewrite Es2, Eb2. split; [done|lia].
    - rewrite bool_decide_true in Estop by done. cbn [andb] in Estop. apply Z.leb_gt in Estop.
      apply IH in Hrun; [|by rewrite Es2|lia|lia]. rewrite Es2, Eb2 in Hrun.
      destruct Hrun as [-> ?]. split; [done|lia]. }
  destruct per; [|apply Hrest].
  destruct (match sent with None => _ | Some _ => _ end) as [now w2].
  destruct (throttle nanosleep test2 sp1 now w2) as [[sp2 w3]| | |]; try done.
  cbn [mbind outcome_bind]. apply Hrest.
Qed.

(** ** An array of sixty entries *)

Definition check_rates (test : iperf_test) (bs : list Z) : outcome iperf_test :=
  foldl (fun m b => t ← m; iperf_check_total_rate t b) (Ok test) bs.

Lemma check_rates_undef bs : foldl (fun m b => t ← m; iperf_check_total_rate t b) Undef bs = Undef.
Proof. by induction bs. Qed.

Lemma check_rates_overrun m bs test :
  length bs = S m → (m < length (bitrate_limit_intervals_traffic_bytes test))%nat →
  let cap := Z.of_nat (length (bitrate_limit_intervals_traffic_bytes test)) in
  cap < bitrate_limit_stats_per_interval (settings test) < 2 ^ 31 →
  bitrate_limit_last_interval_index test = cap - Z.of_nat m - 1 →
  bitrate_limit_stats_count test = cap - Z.of_nat m - 1 →
  done test = 0 → bitrate_limit (settings test) ≠ 0 →
  check_rates test bs = Undef.
Proof.
  revert bs test. induction m as [|m IH]; intros [|b bs] test Hlen Hm cap Hn Hi Hc Hd Hb; try done;
    unfold check_rates; cbn [foldl];
    change (t ← Ok test; iperf_check_total_rate t b) with (iperf_check_total_rate test b);
    unfold iperf_check_total_rate at 2;
    rewrite Hd, (proj2 (Z.eqb_neq _ _) Hb); cbn [Z.eqb negb orb];
    rewrite Hi, !wrapu_id by (unfold in_u; lia);
    rewrite (proj2 (Z.leb_gt _ _)) by lia; unfold set_traffic;
    set (test1 := test <| bitrate_limit_last_interval_index := _ |>);
    change (bitrate_limit_intervals_traffic_bytes test1) with (bitrate_limit_intervals_traffic_bytes test).
  - rewrite decide_False by lia. apply check_rates_undef.
  - rewrite decide_True by lia. cbn [mbind outcome_bind].
    set (test2 := _ <| bitrate_limit_stats_count ::= _ |>).
    assert (bitrate_limit_stats_count test2 = cap - Z.of_nat m - 1) as Ec.
    { unfold test2, test1. cbn. rewrite Hc, wrapu_id by (unfold in_u; lia). lia. }
    rewrite Ec. ztest.
    assert (length (bitrate_limit_intervals_traffic_bytes test2)
            = length (bitrate_limit_intervals_traffic_bytes test)) as El by apply length_insert.
    injection Hlen as Hlen. apply (IH bs test2); rewrite ?El; try done; [lia|].
    change (bitrate_limit_last_interval_index test2) with (cap - Z.of_nat (S m) - 1 + 1).
    unfold cap. lia.
Qed.

(** ** Properties *)


(** But the counters belong to the thread of the stream, and the timer reads
    and zeroes them in two steps: the bytes of a message that the thread counts
    between the two are in no interval. *)
Theorem interval_race_loses_bytes retr test t0 temp sp irs now n p o c sp1 ir :
  interval_account test t0 sp irs → stats_read retr test now temp sp = (sp1, ir) →
  let sp2 := stats_zero (moved n p o c sp1) in
  u64 (sum (map ir_bytes_transferred (irs ++ [ir])) + open_bytes sp2)
  = u64 (counted_bytes sp2 - n).
Proof.
  intros [Hb _ _ _ _ _] E sp2.
  apply stats_read_fields in E as (B1 & _ & _ & _ & _ & _ & S1 & C1 & _).
  destruct (stats_zero_fields (moved n p o c sp1)) as (_ & _ & _ & ZC & ZO).
  subst sp2. rewrite ZO, ZC, map_app, sum_app. cbn [map]. unfold sum at 2. cbn [foldr].
  assert (counted_bytes (moved n p o c sp1) = u64 (counted_bytes sp + n)) as ->.
  { rewrite <- C1. unfold counted_bytes, moved, on_result. cbn.
    destruct (sp_sender sp1) eqn:Es; cbn; by rewrite ?Es. }
  assert (u64 (u64 (counted_bytes sp + n) - n) = u64 (counted_bytes sp)) as ->.
  { unfold wrapu. rewrite Zminus_mod_idemp_l. f_equal. lia. }
  rewrite B1, <- Hb. f_equal. lia.
Qed.

(** C17: the server's rate check is a sliding window.  The cyclic array and its
    index represent the intervals since the reset, latest first; one call
    records the interval and, once [bitrate_limit_stats_per_interval] intervals
    have passed, compares the average of exactly the latest that many with the
    limit. *)
Theorem total_rate_sliding_window test h b :
  let n := bitrate_limit_stats_per_interval (settings test) in
  window test h → done test = 0 → bitrate_limit (settings test) ≠ 0 →
  Z.of_nat (length h) + 1 < 2 ^ 64 →
  ∃ test', window test' (b :: h) ∧ settings test' = settings test ∧
    bitrate_limit_exceeded test' = bitrate_limit_exceeded test ∧
    iperf_check_total_rate test b =
      if Z.of_nat (length (b :: h)) <? n then Ok test'
      else match D_to_u 64 (Ddiv (D_of_Z (u64 (u64 (sum (take (Z.to_nat n) (b :: h))) * 8)))
                                (Dmul (stats_interval test) (D_of_Z n))) with
           | None => Undef
           | Some bps => Ok (if bitrate_limit (settings test) <? bps
                             then test' <| bitrate_limit_exceeded := 1 |> else test')
           end.
Proof.
  intros n Hw Hd Hb Hl. destruct (check_total_rate_window test h b Hw Hd Hb Hl) as (t & ? & ? & _ & ? & ?).
  by exists t.
Qed.

(** With more statistics intervals per averaging interval than the array has
    entries ([-i 0.1] and an averaging interval of more than six seconds), the
    server writes past the array as soon as the entries are used up. *)
Theorem total_rate_overrun test bs :
  bitrate_limit_intervals_traffic_bytes test = replicate (Z.to_nat MAX_INTERVAL) 0 →
  MAX_INTERVAL < bitrate_limit_stats_per_interval (settings test) < 2 ^ 31 →
  bitrate_limit_last_interval_index test = 0 → bitrate_limit_stats_count test = 0 →
  done test = 0 → bitrate_limit (settings test) ≠ 0 → length bs = Z.to_nat MAX_INTERVAL →
  check_rates test bs = Undef.
Proof.
  intros Ha Hn Hi Hc Hd Hb Hl.
  apply (check_rates_overrun 59); rewrite ?Ha; rewrite ?length_replicate; unfold MAX_INTERVAL in *;
    try done; rewrite ?Z2Nat.id; lia.
Qed.

(** C18: one turn of [iperf_send_mt] overshoots the byte limit of a test by less
    than two messages: the limit is tested before every message of the turn but
    the last one. *)
Theorem send_turn_overshoot {W} (prot_send : iperf_test → iperf_stream → W → outcome (Z * iperf_stream * W))
    (time_now : W → iperf_time * W) (nanosleep : W → bool * W) blk test sp w r test' sp' w' :
  let limit := bytes_limit (settings test) in
  (∀ test sp w r sp' w', prot_send test sp w = Ok (r, sp', w') → r ≤ blk) → 0 ≤ blk → 0 < limit →
  0 ≤ bytes_sent test → Z.max (bytes_sent test) (limit + blk - 1) + blk < 2 ^ 64 →
  iperf_send_mt prot_send time_now nanosleep test sp w = Ok (r, test', sp', w') →
  bytes_sent test ≤ bytes_sent test' ≤ Z.max (bytes_sent test) (limit + blk - 1) + blk.
Proof.
  intros limit Hblk Hb Hlim H0 Hmax. unfold iperf_send_mt.
  set (n := Z.to_nat _). set (per := _ && (burst _ =? 0)).
  destruct (send_loop prot_send time_now nanosleep n per None test sp w)
    as [[[[[hard sent] test1] sp1] w1]| | |] eqn:E; try done.
  pose proof (send_loop_bound prot_send time_now nanosleep blk limit Hblk Hb Hlim _ _ _ _ _ _ _ _ _ _ _
    eq_refl H0 Hmax E) as [_ Hbound].
  cbn [mbind outcome_bind]. destruct hard; [intros [= <- <- <- <-]; done|].
  case_match; [|intros [= <- <- <- <-]; done].
  destruct (time_now w1) as [now w2].
  destruct (throttle nanosleep test1 sp1 now w2) as [[sp2 w3]| | |]; try done.
  cbn [mbind outcome_bind]. intros [= <- <- <- <-]. done.
Qed.

(** ** Samples *)

Definition idle_stream (sender : bool) : iperf_stream :=
  mk_stream 5 1 sender 0 (mk_result 0 0 0 0 0 0 0 (mk_time 10 0) zero_time (mk_time 10 0) D0 D0 [])
    true [] 0 0 0 0 0 D0 D0 0 0 0 0 0.
Definition empty_interval : iperf_interval_results :=
  mk_interval 0 zero_time zero_time 0 0 0 0 D0 0 0 0 0.
Definition udp_test : iperf_test := iperf_defaults false iperf_new_test <| protocol := Pudp |>.
Definition sample_events : list event :=
  [Move 1460 1 0 0; Move 1460 2 0 0; Tick (mk_time 11 0); Move 1460 5 1 2; Tick (mk_time 12 5); Move 10 6 1 2].
Definition sample_life :=
  foldl (live (fun _ => 0) udp_test) (idle_stream false, empty_interval, []) sample_events.


(** Ten bytes counted between the reading and the zeroing. *)
Lemma interval_race_loses_bytes_witness :
  let sp1 := fst (stats_read (fun _ => 0) udp_test (mk_time 11 0) empty_interval (idle_stream true)) in
  let ir := snd (stats_read (fun _ => 0) udp_test (mk_time 11 0) empty_interval (idle_stream true)) in
  let sp2 := stats_zero (moved 10 1 0 0 sp1) in
  u64 (sum (map ir_bytes_transferred ([] ++ [ir])) + open_bytes sp2) = u64 (counted_bytes sp2 - 10).
Proof.
  intros sp1 ir.
  apply (interval_race_loses_bytes (fun _ => 0) udp_test (mk_time 10 0) empty_interval (idle_stream true)
           [] (mk_time 11 0) 10 1 0 0 sp1 ir).
  - apply (account_fresh udp_test (idle_stream true)). split_and!; reflexivity.
  - reflexivity.
Defined.

(** A server with a limit of 1 Mbit/s over two intervals of a second. *)
Definition limited_server (n : Z) : iperf_test :=
  on_settings (fun s => s <| bitrate_limit := 1000000 |> <| bitrate_limit_stats_per_interval := n |>)
    (iperf_defaults false iperf_new_test).

Lemma total_rate_sliding_window_witness :
  ∃ t1, iperf_check_total_rate (limited_server 2) 200000 = Ok t1 ∧ window t1 [200000] ∧
    ∃ t2, iperf_check_total_rate t1 60000 = Ok (t2 <| bitrate_limit_exceeded := 1 |>) ∧
          window t2 [60000; 200000].
Proof.
  destruct (total_rate_sliding_window (limited_server 2) [] 200000) as (t1 & Hw1 & Hs1 & _ & Hr1);
    [apply window_reset; try reflexivity; vm_compute; split; congruence|reflexivity|discriminate|reflexivity|].
  exists t1. split; [exact Hr1|]. split; [exact Hw1|].
  assert (t1 = match iperf_check_total_rate (limited_server 2) 200000 with Ok t => t | _ => t1 end) as Et
    by (rewrite Hr1; reflexivity).
  assert (done t1 = 0 ∧ bitrate_limit (settings t1) = 1000000 ∧ stats_interval t1 = D_of_Z 1 ∧
          bitrate_limit_stats_per_interval (settings t1) = 2) as (Hd & Hb & Hi & Hn)
    by (rewrite Et; vm_compute; auto).
  destruct (total_rate_sliding_window t1 [200000] 60000 Hw1 Hd) as (t2 & Hw2 & Hs2 & _ & Hr2);
    [rewrite Hb; discriminate|reflexivity|].
  exists t2. split; [|exact Hw2]. rewrite Hr2, Hb, Hi, Hn. reflexivity.
Defined.

Lemma total_rate_overrun_witness :
  check_rates (limited_server 70) (replicate 60 125000) = Undef.
Proof. apply total_rate_overrun; reflexivity || discriminate || (vm_compute; split; reflexivity). Defined.

(** A protocol that sends messages of 100 bytes, and a limit of 250 bytes. *)
Definition send_100 (test : iperf_test) (sp : iperf_stream) (w : nat) : outcome (Z * iperf_stream * nat) :=
  Ok (100, sp, S w).
Definition sending_test : iperf_test :=
  on_settings (fun s => s <| bytes_limit := 250 |>) (iperf_defaults false iperf_new_test).
Definition one_clock (w : nat) : iperf_time * nat := (mk_time 1 0, w).
Definition sleeps_well (w : nat) : bool * nat := (true, w).

Lemma send_turn_overshoot_witness :
  ∃ t, iperf_send_mt send_100 one_clock sleeps_well sending_test (idle_stream true) 0%nat
       = Ok (0, t, idle_stream true, 3%nat) ∧
       bytes_sent sending_test ≤ bytes_sent t ≤ 349 + 100.
Proof.
  eexists. split; [vm_compute; reflexivity|].
  eapply (send_turn_overshoot send_100 one_clock sleeps_well 100 sending_test (idle_stream true) 0%nat 0 _
            (idle_stream true) 3%nat).
  - intros test sp0 w0 r sp' w' [= <- _ _]. reflexivity || discriminate.
  - discriminate.
  - reflexivity.
  - discriminate.
  - reflexivity.
  - vm_compute. reflexivity.
Defined.
