(* ===== verification/Reports.v ===== *)
(** * The reports in JSON ([iperf_print_intermediate], [iperf_print_results])

    What the two reports compute: which streams each sum covers, the sums of
    bytes and packets, times and rates, and the JSON items they are put in, by
    [iperf_json_printf] ([src/iperf_util.c]) with the formats of the source.
    The report is that of [--json]: the text for people, which prints the same
    values, and [--json-stream] are left out.  The values of [TCP_INFO] and
    the size of the file of [-F] come from the kernel and are parameters. *)

From S2P Require Import Prelude Errno CInt CDouble CStdio IperfTime Json JsonPrint JsonParse JsonRoundtrip JsonBuild.
From S2P Require Import Net Control Test Params Auth Results Stats.

(** ** [iperf_json_printf] *)

Inductive arg := Ab (b : Z) | Ad (d : Z) | Af (f : double) | As (s : bytes).

(** The item of a conversion; the type of the argument must fit. *)
Definition convert (c : ascii) (a : arg) : outcome cJSON :=
  match a with
  | Ab b => if Ascii.eqb c "b" then Ok (cJSON_CreateBool (set b)) else Undef
  | Ad d => if Ascii.eqb c "d" then Ok (num (i64 d)) else Undef
  | Af f => if Ascii.eqb c "f" then Ok (dbl f) else Undef
  | As s => if Ascii.eqb c "s" then Ok (cJSON_CreateString s) else Undef
  end.

Definition is_conversion (c : ascii) : bool :=
  Ascii.eqb c "b" || Ascii.eqb c "d" || Ascii.eqb c "f" || Ascii.eqb c "s".

(** [name] is what was written to the array of 100 characters, [ended] whether
    behind it there is a terminator; another conversion ends the work. *)
Fixpoint json_printf_loop (fmt name : bytes) (ended : bool) (args : list arg) (o : cJSON) : outcome cJSON :=
  match fmt with
  | [] => Ok o
  | c :: fmt =>
      if Ascii.eqb c " " then json_printf_loop fmt name ended args o
      else if Ascii.eqb c ":" then
        if (length name <? 100)%nat then json_printf_loop fmt name true args o else Undef
      else if Ascii.eqb c "%" then
        match fmt with
        | [] => Undef
        | c :: fmt =>
            if is_conversion c then
              match args with
              | [] => Undef
              | a :: args =>
                  j ← convert c a;
                  if ended then json_printf_loop fmt [] false args (cJSON_AddItemToObject o name j) else Undef
              end
            else Fail
        end
      else if (length name <? 100)%nat then json_printf_loop fmt (name ++ [c]) false args o
      else Undef
  end.

Definition iperf_json_printf (format : bytes) (args : list arg) : outcome cJSON :=
  json_printf_loop format [] false args cJSON_CreateObject.

(** ** What both reports share *)

Definition tcp_like (test : iperf_test) : bool :=
  (protocol test =? Ptcp) || (protocol test =? Psctp) || (protocol test =? Pquic).

(** The values of [current_mode]: in a bidirectional test the client's streams
    that send come first. *)
Definition modes (test : iperf_test) : list Z :=
  if mode test =? BIDIRECTIONAL then
    if decide (role test = "c"%char) then [-1; 0] else [0; 1]
  else [mode test].

Definition stream_must_be_sender (current_mode : Z) : bool := set (current_mode * current_mode).

(** The name of a sum: what flows from the server to the client of a
    bidirectional test has names of its own. *)
Definition sum_name (test : iperf_test) (must_send : bool) (name : bytes) : bytes :=
  if (mode test =? BIDIRECTIONAL) &&
     (if decide (role test = "c"%char) then negb must_send else must_send)
  then name ++ B "_bidir_reverse" else name.

(** The streams of a direction. *)
Definition of_direction (must_send : bool) (l : list iperf_stream) : list iperf_stream :=
  List.filter (fun sp => Bool.eqb (sp_sender sp) must_send) l.

Definition bits (bandwidth : double) : arg := Af (Dmul bandwidth (D_of_Z 8)).
Definition milliseconds (d : double) : arg := Af (Dmul d (D_of_Z 1000)).
Definition flag (b : bool) : arg := Ab (if b then 1 else 0).

(** [bytes / seconds], 0 when no time has passed. *)
Definition rate_of (bytes : Z) (seconds : double) : double :=
  if Dltb D0 seconds then Ddiv (D_of_Z bytes) seconds else D0.

(** [100.0 * lost / packets] *)
Definition percent (lost packets : Z) : double :=
  if 0 <? packets then Ddiv (Dmul (D_of_Z 100) (D_of_Z lost)) (D_of_Z packets) else D0.

Definition last_interval (sp : iperf_stream) : option iperf_interval_results :=
  last (rs_interval_results (sp_result sp)).

(** The conversion to [float], which has 24 bits, as a double. *)
Definition to_float (d : double) : double :=
  match d with
  | S754_finite s m e =>
      match binary_normalize 24 128 (cond_Zopp s (Zpos m)) e s with
      | S754_finite s m e => binary_normalize 53 1024 (cond_Zopp s (Zpos m)) e s
      | d => d
      end
  | d => d
  end.

(** The length of an interval, and [irp->interval_duration], the [float] in which
    [iperf_stats_callback] keeps it. *)
Definition interval_length (irp : iperf_interval_results) : double := elapsed (ir_start_time irp) (ir_end_time irp).
Definition interval_duration (irp : iperf_interval_results) : double := to_float (interval_length irp).

(** What [TCP_INFO] says of an interval and of a whole stream. *)
Record interval_info := mk_info { snd_cwnd : Z; snd_wnd : Z; rtt : Z; rttvar : Z; pmtu : Z; reorder : Z }.
Record stream_info := mk_stream_info {
  stream_reorder : Z; max_snd_cwnd : Z; max_snd_wnd : Z; max_rtt : Z; min_rtt : Z; sum_rtt : Z; count_rtt : Z
}.

Section Reports.
Context (tcp_interval : iperf_stream → interval_info) (tcp_stream : iperf_stream → stream_info).
Context (file_size : iperf_stream → option Z).

(** ** [print_interval_results] *)

(** Start, end and length of an interval, counted from the stream's start. *)
Definition interval_args (sp : iperf_stream) (irp : iperf_interval_results) : list arg :=
  let start := rs_start_time (sp_result sp) in
  [Af (elapsed start (ir_start_time irp)); Af (elapsed start (ir_end_time irp)); Af (interval_duration irp)].

Definition interval_item (test : iperf_test) (sp : iperf_stream) (irp : iperf_interval_results) : outcome cJSON :=
  let args := [Ad (sp_socket sp)] ++ interval_args sp irp ++
              [Ad (ir_bytes_transferred irp); bits (rate_of (ir_bytes_transferred irp) (interval_duration irp))] in
  let rest := [Ab (ir_omitted irp); flag (sp_sender sp)] in
  if tcp_like test then
    if ((sender_has_retransmits test =? 1) || (protocol test =? Psctp)) && sp_sender sp then
      let i := tcp_interval sp in
      iperf_json_printf (B "socket: %d  start: %f  end: %f  seconds: %f  bytes: %d  bits_per_second: %f  retransmits: %d  snd_cwnd:  %d  snd_wnd:  %d  rtt:  %d  rttvar: %d  pmtu: %d  reorder: %d  omitted: %b sender: %b")
        (args ++ [Ad (ir_interval_retrans irp); Ad (snd_cwnd i); Ad (snd_wnd i); Ad (rtt i); Ad (rttvar i); Ad (pmtu i); Ad (reorder i)] ++ rest)
    else
      iperf_json_printf (B "socket: %d  start: %f  end: %f  seconds: %f  bytes: %d  bits_per_second: %f  omitted: %b sender: %b") (args ++ rest)
  else if sp_sender sp then
    iperf_json_printf (B "socket: %d  start: %f  end: %f  seconds: %f  bytes: %d  bits_per_second: %f  packets: %d  omitted: %b sender: %b")
      (args ++ [Ad (ir_packet_count irp)] ++ rest)
  else
    iperf_json_printf (B "socket: %d  start: %f  end: %f  seconds: %f  bytes: %d  bits_per_second: %f  jitter_ms: %f  lost_packets: %d  packets: %d  lost_percent: %f  omitted: %b sender: %b")
      (args ++ [milliseconds (ir_jitter irp); Ad (ir_cnt_error irp); Ad (ir_packet_count irp);
                Af (percent (ir_cnt_error irp) (ir_packet_count irp))] ++ rest).

(** Without an interval there is nothing to add but a message. *)
Definition print_interval_results (test : iperf_test) (sp : iperf_stream) (items : list cJSON) : outcome (list cJSON) :=
  match last_interval sp with
  | None => Ok items
  | Some irp => j ← interval_item test sp irp; Ok (items ++ [j])
  end.

(** ** [iperf_print_intermediate] *)

(** An interval is kept when it is at least a tenth of the normal length or has
    data. *)
Definition keeps_interval (test : iperf_test) (sp : iperf_stream) : bool :=
  match last_interval sp with
  | None => false
  | Some irp =>
      Dleb (Dmul (stats_interval test) (D_of_dec 10 (-2))) (interval_length irp) || (0 <? ir_bytes_transferred irp)
  end.

Record interval_sum := mk_sum {
  s_bytes : Z; s_retransmits : Z; s_packets : Z; s_lost : Z; s_jitter : double
}.

Definition add_interval (test : iperf_test) (irp : iperf_interval_results) (x : interval_sum) : interval_sum :=
  let b := u64 (s_bytes x + ir_bytes_transferred irp) in
  if protocol test =? Ptcp then
    mk_sum b (if sender_has_retransmits test =? 1 then i64 (s_retransmits x + ir_interval_retrans irp) else s_retransmits x)
      (s_packets x) (s_lost x) (s_jitter x)
  else
    mk_sum b (s_retransmits x) (i64 (s_packets x + ir_packet_count irp)) (i64 (s_lost x + ir_cnt_error irp))
      (Dadd (s_jitter x) (ir_jitter irp)).

(** The loop over the streams of a direction; [None] for the sum when a stream has
    no interval, which ends the report. *)
Fixpoint interval_loop (test : iperf_test) (l : list iperf_stream) (x : interval_sum) (items : list cJSON)
  : outcome (option interval_sum * list cJSON) :=
  match l with
  | [] => Ok (Some x, items)
  | sp :: l =>
      items ← print_interval_results test sp items;
      match last_interval sp with
      | None => Ok (None, items)
      | Some irp => interval_loop test l (add_interval test irp x) items
      end
  end.

(** The sum of a direction; the times are those of the first stream. *)
Definition interval_sum_item (test : iperf_test) (must_send : bool) (x : interval_sum) (sp : iperf_stream)
  : outcome cJSON :=
  match last_interval sp with
  | None => Undef
  | Some irp =>
      let args := interval_args sp irp ++
        [Ad (s_bytes x); bits (Ddiv (D_of_Z (s_bytes x)) (interval_duration irp))] in
      if tcp_like test then
        if (sender_has_retransmits test =? 1) && must_send then
          iperf_json_printf (B "start: %f  end: %f  seconds: %f  bytes: %d  bits_per_second: %f  retransmits: %d  omitted: %b sender: %b")
            (args ++ [Ad (s_retransmits x); Ab (ir_omitted irp); flag must_send])
        else
          iperf_json_printf (B "start: %f  end: %f  seconds: %f  bytes: %d  bits_per_second: %f  omitted: %b sender: %b")
            (args ++ [Ab (omitting test); flag must_send])
      else if must_send then
        iperf_json_printf (B "start: %f  end: %f  seconds: %f  bytes: %d  bits_per_second: %f  packets: %d  omitted: %b sender: %b")
          (args ++ [Ad (s_packets x); Ab (omitting test); flag must_send])
      else
        iperf_json_printf (B "start: %f  end: %f  seconds: %f  bytes: %d  bits_per_second: %f  jitter_ms: %f  lost_packets: %d  packets: %d  lost_percent: %f  omitted: %b sender: %b")
          (args ++ [milliseconds (Ddiv (s_jitter x) (D_of_Z (num_streams test))); Ad (s_lost x); Ad (s_packets x);
                    Af (percent (s_lost x) (s_packets x)); Ab (omitting test); flag must_send])
  end.

Fixpoint interval_modes (test : iperf_test) (ms : list Z) (items : list cJSON) (sums : list member)
  : outcome (list cJSON * list member) :=
  match ms with
  | [] => Ok (items, sums)
  | m :: ms =>
      let must_send := stream_must_be_sender m in
      '(x, items) ← interval_loop test (of_direction must_send (streams test)) (mk_sum 0 0 0 0 D0) items;
      match x, streams test with
      | None, _ => Ok (items, sums)
      | Some _, [] => interval_modes test ms items sums
      | Some x, sp :: _ =>
          j ← interval_sum_item test must_send x sp;
          interval_modes test ms items (sums ++ [(true, (sum_name test must_send (B "sum"), j))])
      end
  end.

(** The object that is added to the test's intervals. *)
Definition iperf_print_intermediate (test : iperf_test) : outcome (option cJSON) :=
  if negb (existsb (keeps_interval test) (streams test)) then Ok None
  else
    '(items, sums) ← interval_modes test (modes test) [] [];
    Ok (Some (object_of ((true, (B "streams", array_of items)) :: sums))).

(** ** [iperf_print_results] *)

(** The totals of a direction, the time of sending, which a server of a QUIC test
    may replace, and the items of the streams. *)
Record final := mk_final {
  total_sent : Z; total_received : Z; total_retransmits : Z; total_packets : Z; lost_packets : Z;
  sender_total_packets : Z; receiver_total_packets : Z; sum_jitter : double; sender_time : double
}.
#[local] Instance eta_final : Settable final := fun x =>
  mk_final (total_sent x) (total_received x) (total_retransmits x) (total_packets x) (lost_packets x)
    (sender_total_packets x) (receiver_total_packets x) (sum_jitter x) (sender_time x).

Definition bytes_sent_of (sp : iperf_stream) : Z :=
  u64 (rs_bytes_sent (sp_result sp) - rs_bytes_sent_omit (sp_result sp)).

(** The counts of packets of the sender and of the receiver, with the omitted ones. *)
Definition sender_packets (sp : iperf_stream) : Z * Z :=
  if sp_sender sp then (sp_packet_count sp, sp_omitted_packet_count sp)
  else (sp_peer_packet_count sp, sp_peer_omitted_packet_count sp).
Definition receiver_packets (sp : iperf_stream) : Z * Z :=
  if sp_sender sp then (sp_peer_packet_count sp, sp_peer_omitted_packet_count sp)
  else (sp_packet_count sp, sp_omitted_packet_count sp).

(** The sender's count if there is one, or the receiver's. *)
Definition known_packets (sp : iperf_stream) : Z :=
  if set (sender_packets sp).1 then (sender_packets sp).1 else (receiver_packets sp).1.

Definition add_final (test : iperf_test) (sp : iperf_stream) (x : final) : final :=
  let x := x <| total_sent ::= (fun z => u64 (z + bytes_sent_of sp)) |>
             <| total_received ::= (fun z => u64 (z + rs_bytes_received (sp_result sp))) |> in
  if tcp_like test then
    if set (sender_has_retransmits test)
    then x <| total_retransmits ::= (fun z => i64 (z + rs_stream_retrans (sp_result sp))) |> else x
  else
    let known (c : Z * Z) := i64 (c.1 - c.2) in
    x <| total_packets ::= (fun z => i64 (z + i64 (known_packets sp - sp_omitted_packet_count sp))) |>
      <| sender_total_packets ::= (fun z => i64 (z + known (sender_packets sp))) |>
      <| receiver_total_packets ::= (fun z => i64 (z + known (receiver_packets sp))) |>
      <| lost_packets ::= (fun z =>
           let z := i64 (z + sp_cnt_error sp) in
           if -1 <? sp_omitted_cnt_error sp then i64 (z - sp_omitted_cnt_error sp) else z) |>
      <| sum_jitter ::= (fun d => Dadd d (sp_jitter sp)) |>.

(** A server that received over QUIC has no figures of the sender. *)
Definition quic_receiver (test : iperf_test) (must_send : bool) (sent : Z) (time : double) : bool :=
  bool_decide (role test = "s"%char) && (protocol test =? Pquic) && negb must_send &&
  (Dleb time D0 || (sent =? 0)).

Definition sender_item (test : iperf_test) (must_send : bool) (sp : iperf_stream) (sent : Z) (time : double) : outcome cJSON :=
  let args := [Ad (sp_socket sp); Af D0; Af time; Af time; Ad sent; bits (rate_of sent time)] in
  if set (sender_has_retransmits test) || (protocol test =? Psctp) then
    let i := tcp_stream sp in
    iperf_json_printf (B "socket: %d  start: %f  end: %f  seconds: %f  bytes: %d  bits_per_second: %f  retransmits: %d  reorder:  %d  max_snd_cwnd:  %d  max_snd_wnd:  %d  max_rtt:  %d  min_rtt:  %d  mean_rtt:  %d sender: %b")
      (args ++ [Ad (rs_stream_retrans (sp_result sp)); Ad (stream_reorder i); Ad (max_snd_cwnd i); Ad (max_snd_wnd i);
                Ad (max_rtt i); Ad (min_rtt i); Ad (if count_rtt i =? 0 then 0 else Z.quot (sum_rtt i) (count_rtt i));
                flag must_send])
  else
    iperf_json_printf (B "socket: %d  start: %f  end: %f  seconds: %f  bytes: %d  bits_per_second: %f sender: %b")
      (args ++ [flag must_send]).

(** One item for both ends; the errors of the omitted period are subtracted here
    without looking whether they are known. *)
Definition udp_item (must_send : bool) (sp : iperf_stream) (sent : Z) (time : double) : outcome cJSON :=
  let lost := i64 (sp_cnt_error sp - sp_omitted_cnt_error sp) in
  iperf_json_printf (B "socket: %d  start: %f  end: %f  seconds: %f  bytes: %d  bits_per_second: %f  jitter_ms: %f  lost_packets: %d  packets: %d  lost_percent: %f  out_of_order: %d sender: %b")
    [Ad (sp_socket sp); Af D0; Af time; Af time; Ad sent; bits (rate_of sent time); milliseconds (sp_jitter sp);
     Ad lost; Ad (known_packets sp - sp_omitted_packet_count sp);
     Af (percent lost (i64 ((sender_packets sp).1 - (sender_packets sp).2)));
     Ad (i64 (sp_outoforder_packets sp - sp_omitted_outoforder_packets sp)); flag must_send].

Definition receiver_item (must_send : bool) (sp : iperf_stream) (time end_time : double) : outcome cJSON :=
  let received := rs_bytes_received (sp_result sp) in
  iperf_json_printf (B "socket: %d  start: %f  end: %f  seconds: %f  bytes: %d  bits_per_second: %f sender: %b")
    [Ad (sp_socket sp); Af D0; Af time; Af end_time; Ad received; bits (rate_of received time); flag must_send].

(** [(int) (part / whole * 100.0)]; undefined when it does not fit. *)
Definition share (part whole : Z) : outcome Z :=
  if 0 <? whole then
    match D_to_s 32 (Dmul (Ddiv (D_of_Z part) (D_of_Z whole)) (D_of_Z 100)) with Some z => Ok z | None => Undef end
  else Ok 100.

Definition diskfile_member (test : iperf_test) (sp : iperf_stream) (sent : Z) : outcome (list member) :=
  match file_size sp with
  | None => Ok []
  | Some size =>
      let received := rs_bytes_received (sp_result sp) in
      percent_sent ← share sent size;
      percent_received ← share received size;
      j ← iperf_json_printf (B "sent: %d  received: %d  size: %d  percent_sent: %d  percent_received: %d  filename: %s")
            [Ad sent; Ad received; Ad size; Ad percent_sent; Ad percent_received; As (default [] (diskfile_name test))];
      Ok [(true, (B "diskfile", j))]
  end.

(** One stream: the totals with it, and its item. *)
Definition final_stream (test : iperf_test) (must_send : bool) (receiver_time end_time : double)
    (x : final) (sp : iperf_stream) : outcome (final * cJSON) :=
  let x := add_final test sp x in
  let quic := quic_receiver test must_send (bytes_sent_of sp) (sender_time x) in
  let sent := if quic then rs_bytes_received (sp_result sp) else bytes_sent_of sp in
  let x := if quic then x <| sender_time := receiver_time |> else x in
  if tcp_like test then
    a ← sender_item test must_send sp sent (sender_time x);
    d ← diskfile_member test sp sent;
    b ← receiver_item must_send sp receiver_time end_time;
    Ok (x, object_of ([(true, (B "sender", a))] ++ d ++ [(true, (B "receiver", b))]))
  else
    a ← udp_item must_send sp sent (sender_time x);
    d ← diskfile_member test sp sent;
    Ok (x, object_of ((true, (B "udp", a)) :: d)).

Fixpoint final_loop (test : iperf_test) (must_send : bool) (receiver_time end_time : double)
    (l : list iperf_stream) (x : final) (items : list cJSON) : outcome (final * list cJSON) :=
  match l with
  | [] => Ok (x, items)
  | sp :: l =>
      '(x, j) ← final_stream test must_send receiver_time end_time x sp;
      final_loop test must_send receiver_time end_time l x (items ++ [j])
  end.

(** The sums of a direction. *)
Definition tcp_sums (test : iperf_test) (must_send : bool) (x : final) (receiver_time : double) : outcome (list member) :=
  let quic := quic_receiver test must_send (total_sent x) (sender_time x) in
  let sent := if quic then total_received x else total_sent x in
  let time := if quic then receiver_time else sender_time x in
  let args := [Af D0; Af time; Af time; Ad sent; bits (rate_of sent time)] in
  a ← (if set (sender_has_retransmits test) then
         iperf_json_printf (B "start: %f  end: %f  seconds: %f  bytes: %d  bits_per_second: %f  retransmits: %d sender: %b")
           (args ++ [Ad (total_retransmits x); flag must_send])
       else
         iperf_json_printf (B "start: %f  end: %f  seconds: %f  bytes: %d  bits_per_second: %f sender: %b")
           (args ++ [flag must_send]));
  b ← iperf_json_printf (B "start: %f  end: %f  seconds: %f  bytes: %d  bits_per_second: %f sender: %b")
        [Af D0; Af receiver_time; Af receiver_time; Ad (total_received x); bits (rate_of (total_received x) receiver_time);
         flag must_send];
  Ok [(true, (sum_name test must_send (B "sum_sent"), a)); (true, (sum_name test must_send (B "sum_received"), b))].

Definition udp_sum_format : bytes :=
  B "start: %f  end: %f  seconds: %f  bytes: %d  bits_per_second: %f  jitter_ms: %f  lost_packets: %d  packets: %d  lost_percent: %f sender: %b".
Definition udp_side_format : bytes :=
  B "start: %f  end: %f  seconds: %f  bytes: %d  bits_per_second: %f  jitter_ms: %f  lost_packets: %d  packets: %d  lost_percent: %f  sender: %b".

(** [total * 8 / seconds] *)
Definition bit_rate (bytes : Z) (seconds : double) : double :=
  if Dltb D0 seconds then Ddiv (Dmul (D_of_Z bytes) (D_of_Z 8)) seconds else D0.

Definition udp_sums (test : iperf_test) (must_send : bool) (x : final) (receiver_time : double) : outcome (list member) :=
  let jitter := milliseconds (Ddiv (sum_jitter x) (D_of_Z (num_streams test))) in
  let lost_percent := Af (percent (lost_packets x) (total_packets x)) in
  let time := sender_time x in
  a ← iperf_json_printf udp_sum_format
        [Af D0; Af receiver_time; Af receiver_time; Ad (total_sent x); bits (rate_of (total_sent x) time); jitter;
         Ad (lost_packets x); Ad (total_packets x); lost_percent; flag must_send];
  b ← iperf_json_printf udp_side_format
        [Af D0; Af time; Af time; Ad (total_sent x); Af (bit_rate (total_sent x) time); Af D0; Ad 0;
         Ad (sender_total_packets x); Af D0; Ab 1];
  c ← iperf_json_printf udp_side_format
        [Af D0; Af receiver_time; Af receiver_time; Ad (total_received x); Af (bit_rate (total_received x) receiver_time);
         jitter; Ad (lost_packets x); Ad (receiver_total_packets x); lost_percent; Ab 0];
  Ok [(true, (sum_name test must_send (B "sum"), a)); (true, (sum_name test must_send (B "sum_sent"), b));
      (true, (sum_name test must_send (B "sum_received"), c))].

(** The length of the test by the first stream, which keeps what it did not learn
    from the other side. *)
Definition set_times (sp : iperf_stream) : iperf_stream :=
  let end_time := elapsed (rs_start_time (sp_result sp)) (rs_end_time (sp_result sp)) in
  on_result (fun r =>
    if sp_sender sp then
      r <| rs_sender_time := end_time |>
        <| rs_receiver_time := if Deqb (rs_receiver_time r) D0 then end_time else rs_receiver_time r |>
    else
      r <| rs_receiver_time := end_time |>
        <| rs_sender_time := if Deqb (rs_sender_time r) D0 then end_time else rs_sender_time r |>) sp.

(** In a bidirectional test each direction has retransmissions of its own side. *)
Definition direction_retransmits (test : iperf_test) (own : Z) (must_send : bool) : iperf_test :=
  if mode test =? BIDIRECTIONAL
  then test <| sender_has_retransmits := if must_send then own else other_side_has_retransmits test |>
  else test.

Definition final_mode (test : iperf_test) (m : Z) (items : list cJSON)
  : outcome (iperf_test * list cJSON * list member) :=
  let must_send := stream_must_be_sender m in
  let test := test <| streams ::= (fun l => match l with [] => [] | sp :: l => set_times sp :: l end) |> in
  let '(send_time, receiver_time, end_time) :=
    match streams test with
    | [] => (D0, D0, D0)
    | sp :: _ => (rs_sender_time (sp_result sp), rs_receiver_time (sp_result sp),
                  elapsed (rs_start_time (sp_result sp)) (rs_end_time (sp_result sp)))
    end in
  '(x, items) ← final_loop test must_send receiver_time end_time (of_direction must_send (streams test))
                  (mk_final 0 0 0 0 0 0 0 D0 send_time) items;
  sums ← (if tcp_like test then tcp_sums test must_send x receiver_time else udp_sums test must_send x receiver_time);
  Ok (test, items, sums).

Fixpoint final_modes (own : Z) (test : iperf_test) (ms : list Z) (items : list cJSON) (sums : list member)
  : outcome (iperf_test * list cJSON * list member) :=
  match ms with
  | [] => Ok (test, items, sums)
  | m :: ms =>
      '(test, items, more) ← final_mode (direction_retransmits test own (stream_must_be_sender m)) m items;
      final_modes own test ms items (sums ++ more)
  end.

(** What the object holds behind the sums. *)
Definition final_members (test : iperf_test) (must_send : bool) : outcome (list member) :=
  let '(a, b, c) := cpu_util test in
  let '(d, e, f) := remote_cpu_util test in
  j ← iperf_json_printf (B "host_total: %f  host_user: %f  host_system: %f  remote_total: %f  remote_user: %f  remote_system: %f")
        [Af a; Af b; Af c; Af d; Af e; Af f];
  let snd := if must_send then congestion_used test else remote_congestion_used test in
  let rcv := if must_send then remote_congestion_used test else congestion_used test in
  let tcp := protocol test =? Ptcp in
  Ok [(true, (B "cpu_utilization_percent", j));
      (tcp && is_set snd, (B "sender_tcp_congestion", str snd));
      (tcp && is_set rcv, (B "receiver_tcp_congestion", str rcv))].

(** The members added to the [end] object of the report. *)
Definition iperf_print_results (test : iperf_test) : outcome (iperf_test * list member) :=
  let own := sender_has_retransmits test in
  '(test, items, sums) ← final_modes own test (modes test) [] [];
  more ← final_members test (stream_must_be_sender (List.last (modes test) 0));
  Ok (if mode test =? BIDIRECTIONAL then test <| sender_has_retransmits := own |> else test,
      (true, (B "streams", array_of items)) :: sums ++ more).

Definition STREAM_RUNNING : Z := 6.

(** [iperf_reporter_callback]: the item of the interval and the final members. *)
Definition iperf_reporter_callback (test : iperf_test) : outcome (iperf_test * option cJSON * list member) :=
  if (state test =? TEST_RUNNING) || (state test =? STREAM_RUNNING) then
    j ← iperf_print_intermediate test; Ok (test, j, [])
  else if (state test =? TEST_END) || (state test =? DISPLAY_RESULTS) then
    j ← iperf_print_intermediate test;
    '(test, l) ← iperf_print_results test;
    Ok (test, j, l)
  else Ok (test, None, []).
End Reports.

(** ** [iperf_json_printf] against its meaning *)

Definition letter (a : arg) : ascii :=
  match a with Ab _ => "b" | Ad _ => "d" | Af _ => "f" | As _ => "s" end%char.
Definition item_of (a : arg) : cJSON :=
  match a with Ab b => cJSON_CreateBool (set b) | Ad d => num (i64 d) | Af f => dbl f | As s => cJSON_CreateString s end.

Definition plain_name (n : bytes) : bool :=
  forallb (fun c => negb (Ascii.eqb c " " || Ascii.eqb c ":" || Ascii.eqb c "%")) n && (length n <? 100)%nat.

Lemma json_printf_name n rest name args o :
  forallb (fun c => negb (Ascii.eqb c " " || Ascii.eqb c ":" || Ascii.eqb c "%")) n = true →
  (length name + length n < 100)%nat → n ≠ [] →
  json_printf_loop (n ++ rest) name false args o = json_printf_loop rest (name ++ n) false args o.
Proof.
  revert name. induction n as [|c n IH]; intros name Hn Hl Hne; [done|]. cbn in Hn, Hl.
  apply andb_prop in Hn as [Hc Hn]. apply negb_true_iff in Hc.
  apply orb_false_iff in Hc as [Hc H3]. apply orb_false_iff in Hc as [H1 H2].
  cbn [app json_printf_loop]. rewrite H1, H2, H3, (proj2 (Nat.ltb_lt _ _)) by lia.
  destruct n as [|c' n]; [done|]. rewrite IH by (done || (rewrite length_app; cbn in *; lia)).
  by rewrite <- app_assoc.
Qed.

(** A format made of names and the letters of the arguments gives the object with
    these members. *)
Lemma json_printf_members (l : list (bytes * arg)) :
  forallb (fun p => plain_name p.1 && negb (bool_decide (p.1 = []))) l = true →
  iperf_json_printf (flat_map (fun p => p.1 ++ B ": %" ++ [letter p.2] ++ B "  ") l) (map snd l)
  = Ok (object_of (map (fun p => (true, (p.1, item_of p.2))) l)).
Proof.
  unfold iperf_json_printf, object_of. generalize cJSON_CreateObject as o.
  induction l as [|[n a] l IH]; intros o Hl; [done|]. cbn [forallb fst] in Hl. apply andb_prop in Hl as [Hn Hl].
  apply andb_prop in Hn as [Hn Hne]. apply negb_true_iff, bool_decide_eq_false in Hne.
  unfold plain_name in Hn. apply andb_prop in Hn as [Hn Hlen]. apply Nat.ltb_lt in Hlen.
  cbn [flat_map map fst snd]. rewrite <- !app_assoc. rewrite json_printf_name by (done || (cbn; lia)).
  change (B ": %" ++ [letter a] ++ B "  " ++ ?r)
    with (":"%char :: " "%char :: "%"%char :: letter a :: " "%char :: " "%char :: r).
  cbn [app json_printf_loop Ascii.eqb Bool.eqb]. rewrite (proj2 (Nat.ltb_lt _ _)) by lia.
  assert (is_conversion (letter a) = true ∧ convert (letter a) a = Ok (item_of a)) as [-> ->] by by destruct a.
  cbn [mbind outcome_bind]. rewrite IH by done. done.
Qed.

(** ** Reading a report *)

(** The number of a member of an item, and of a member of an object. *)
Definition number_in (j : cJSON) (name : bytes) : option double :=
  valuedouble <$> cJSON_GetObjectItem j name.
Definition report_number (j : cJSON) (sum name : bytes) : option double :=
  item ← cJSON_GetObjectItem j sum; number_in item name.

(** The item says a count. *)
Definition says (j : cJSON) (name : string) (z : Z) : Prop := number_in j (B name) = Some (D_of_Z (i64 z)).

Lemma wraps_cong w x y : x mod 2 ^ w = y mod 2 ^ w → wraps w x = wraps w y.
Proof. unfold wraps. by intros ->. Qed.
Lemma wraps_add_l w x y : 0 < w → wraps w (wraps w x + y) = wraps w (x + y).
Proof.
  intros Hw. apply wraps_cong. rewrite <- Zplus_mod_idemp_l.
  change (wraps w x mod 2 ^ w) with (wrapu w (wraps w x)). rewrite wrapu_wraps by done. apply Zplus_mod_idemp_l.
Qed.
Lemma wraps_add_r w x y : 0 < w → wraps w (x + wraps w y) = wraps w (x + y).
Proof. intros Hw. by rewrite (Z.add_comm x), wraps_add_l, Z.add_comm. Qed.
Lemma wraps_wraps w x : 0 < w → wraps w (wraps w x) = wraps w x.
Proof. intros Hw. by apply wraps_id, wraps_range. Qed.

(** One more of a sum that wraps around. *)
Lemma u64_step a b z : u64 (u64 (a + b) + z) = u64 (a + (b + z)).
Proof. rewrite wrapu_add_l. f_equal. lia. Qed.
Lemma i64_step a b z : i64 (i64 (a + b) + z) = i64 (a + (b + z)).
Proof. rewrite wraps_add_l by done. f_equal. lia. Qed.

Lemma i64_steps a b z : i64 (i64 (a + i64 b) + z) = i64 (a + (b + z)).
Proof. by rewrite wraps_add_r, i64_step. Qed.
Lemma i64_step_back a b c z : i64 (i64 (i64 (a + b) - c) + z) = i64 (a + (b - c + z)).
Proof.
  rewrite wraps_add_l by done. replace (i64 (a + b) - c + z) with (i64 (a + b) + (z - c)) by lia.
  rewrite wraps_add_l by done. f_equal. lia.
Qed.

(** ** The sums of an interval *)

Definition of_last (f : iperf_interval_results → Z) (sp : iperf_stream) : Z := from_option f 0 (last_interval sp).
Definition total_of (f : iperf_interval_results → Z) (l : list iperf_stream) : Z := sum (map (of_last f) l).

Lemma interval_item_ok info test sp irp : ∃ j, interval_item info test sp irp = Ok j.
Proof.
  unfold interval_item. destruct (tcp_like test).
  - destruct (_ && _); by eexists.
  - destruct (sp_sender sp); by eexists.
Qed.

(** What a loop adds up, from any sums. *)
Lemma interval_loop_sums info test l : ∀ x items,
  Forall (fun sp => is_Some (last_interval sp)) l →
  in_u 64 (s_bytes x) → in_s 64 (s_packets x) → in_s 64 (s_lost x) →
  ∃ x' js, interval_loop info test l x items = Ok (Some x', items ++ js) ∧ length js = length l ∧
    s_bytes x' = u64 (s_bytes x + total_of ir_bytes_transferred l) ∧
    (protocol test ≠ Ptcp →
     s_packets x' = i64 (s_packets x + total_of ir_packet_count l) ∧
     s_lost x' = i64 (s_lost x + total_of ir_cnt_error l)).
Proof.
  induction l as [|sp l IH]; intros x items Hl Hb Hp He.
  - exists x, []. cbn. rewrite app_nil_r. unfold total_of, sum. cbn. rewrite !Z.add_0_r.
    split_and!; [done..|by rewrite wrapu_id|]. intros _. by rewrite !wraps_id.
  - apply Forall_cons in Hl as [[irp E] Hl]. cbn [interval_loop]. unfold print_interval_results. rewrite E.
    destruct (interval_item_ok info test sp irp) as (j & ->). cbn [mbind outcome_bind].
    destruct (IH (add_interval test irp x) (items ++ [j]) Hl) as (x' & js & -> & Hlen & Hs & Hu).
    { unfold add_interval. case_match; by apply wrapu_range. }
    { unfold add_interval. case_match; [done|]. by apply wraps_range. }
    { unfold add_interval. case_match; [done|]. by apply wraps_range. }
    exists x', (j :: js). rewrite <- app_assoc. cbn [length app]. rewrite Hlen.
    assert (∀ f, total_of f (sp :: l) = f irp + total_of f l) as Et.
    { intros f. unfold total_of, of_last, sum. cbn. by rewrite E. }
    rewrite !Et. split_and!; [done..| |].
    + rewrite Hs. unfold add_interval. case_match; cbn; rewrite wrapu_add_l; f_equal; lia.
    + intros Hn. destruct (Hu Hn) as [-> ->]. unfold add_interval.
      destruct (Z.eqb_spec (protocol test) Ptcp); [done|]. cbn.
      rewrite !wraps_add_l by done. split; f_equal; lia.
Qed.

(** What the sum of a direction has to say of its streams. *)
Definition interval_says (test : iperf_test) (must_send : bool) (j : cJSON) : Prop :=
  let l := of_direction must_send (streams test) in
  says j "bytes" (u64 (total_of ir_bytes_transferred l)) ∧
  (tcp_like test = false → says j "packets" (total_of ir_packet_count l)) ∧
  (tcp_like test = false → must_send = false → says j "lost_packets" (total_of ir_cnt_error l)).

Lemma interval_sum_says test must_send x sp irp l :
  last_interval sp = Some irp → l = of_direction must_send (streams test) →
  s_bytes x = u64 (total_of ir_bytes_transferred l) →
  (protocol test ≠ Ptcp → s_packets x = i64 (total_of ir_packet_count l) ∧
                          s_lost x = i64 (total_of ir_cnt_error l)) →
  ∃ j, interval_sum_item test must_send x sp = Ok j ∧ interval_says test must_send j.
Proof.
  intros E -> Hb Hu. unfold interval_sum_item, interval_says, says. rewrite E, <- Hb.
  destruct (tcp_like test) eqn:Et.
  - destruct (_ && _); eexists; (split; [reflexivity|]); by split_and!.
  - assert (protocol test ≠ Ptcp) as Hn by (intros Hn; unfold tcp_like in Et; by rewrite Hn in Et).
    destruct (Hu Hn) as [Hp He].
    rewrite <- (wraps_wraps 64 (total_of ir_packet_count _)), <- (wraps_wraps 64 (total_of ir_cnt_error _)), <- Hp, <- He by done.
    destruct must_send; eexists; (split; [reflexivity|]); by split_and!.
Qed.

Lemma of_direction_incl b (P : iperf_stream → Prop) l : Forall P l → Forall P (of_direction b l).
Proof.
  intros H. apply List.Forall_forall. intros x Hx. apply filter_In in Hx as [Hx _].
  by eapply List.Forall_forall in H.
Qed.

(** One item for each stream of each direction, one sum for each direction. *)
Lemma interval_modes_sums info test ms : ∀ items sums,
  streams test ≠ [] → Forall (fun sp => is_Some (last_interval sp)) (streams test) →
  ∃ js more, interval_modes info test ms items sums = Ok (items ++ js, sums ++ more) ∧
    length js = length (flat_map (fun m => of_direction (stream_must_be_sender m) (streams test)) ms) ∧
    Forall2 (fun m (x : member) => ∃ j, x = (true, (sum_name test (stream_must_be_sender m) (B "sum"), j)) ∧
               interval_says test (stream_must_be_sender m) j) ms more.
Proof.
  induction ms as [|m ms IH]; intros items sums Hne Hl.
  - exists [], []. cbn. rewrite !app_nil_r. by split_and!.
  - cbn [interval_modes]. set (b := stream_must_be_sender m).
    destruct (interval_loop_sums info test (of_direction b (streams test)) (mk_sum 0 0 0 0 D0) items)
      as (x & js & -> & Hlen & Hb & Hu); [by apply of_direction_incl|done..|].
    cbn [mbind outcome_bind]. destruct (streams test) as [|sp l] eqn:Es; [done|].
    assert (is_Some (last_interval sp)) as [irp E] by (by apply Forall_cons in Hl as [? _]).
    destruct (interval_sum_says test b x sp irp (of_direction b (streams test))) as (j & Hj & Hs).
    { done. } { done. } { by rewrite Hb, Es. } { intros Hn. destruct (Hu Hn) as [-> ->]. by rewrite Es. }
    rewrite Hj. cbn [mbind outcome_bind].
    destruct (IH (items ++ js) (sums ++ [(true, (sum_name test b (B "sum"), j))])) as (js' & more & -> & Hlen' & Hm);
      [done|done|].
    eexists (js ++ js'), (_ :: more). rewrite <- !app_assoc. split_and!; [done| |].
    + cbn [flat_map]. rewrite !length_app, Hlen, Hlen'. done.
    + constructor; [|done]. by exists j.
Qed.

(** Find a member among members whose names are known. *)
Ltac find_now :=
  lazymatch goal with
  | |- find_member ?k ?l = _ => let ns := eval vm_compute in (names l) in find_member_in ns
  end.

(** The member of an object for a direction, for a name that has one for each. *)
Lemma two_modes test : mode test ≠ BIDIRECTIONAL → modes test = [mode test].
Proof. intros Hm. unfold modes. by destruct (Z.eqb_spec (mode test) BIDIRECTIONAL). Qed.

Lemma interval_lookup test items sums m :
  Forall2 (fun m (x : member) => ∃ j, x = (true, (sum_name test (stream_must_be_sender m) (B "sum"), j)) ∧
             interval_says test (stream_must_be_sender m) j) (modes test) sums →
  m ∈ modes test →
  ∃ j, cJSON_GetObjectItem (object_of ((true, (B "streams", items)) :: sums))
         (sum_name test (stream_must_be_sender m) (B "sum")) = Some (keyed (sum_name test (stream_must_be_sender m) (B "sum")) j) ∧
       interval_says test (stream_must_be_sender m) j.
Proof.
  rewrite object_lookup. unfold modes.
  destruct (Z.eqb_spec (mode test) BIDIRECTIONAL) as [Em|Em].
  - destruct (decide (role test = "c"%char)) as [Er|Er]; intros H Hm;
      apply Forall2_cons_inv_l in H as (x1 & k1 & (j1 & -> & H1) & H & ->);
      apply Forall2_cons_inv_l in H as (x2 & k2 & (j2 & -> & H2) & H & ->); apply Forall2_nil_inv_l in H as ->;
      apply elem_of_cons in Hm as [->|Hm]; [|apply list_elem_of_singleton in Hm as -> | |apply list_elem_of_singleton in Hm as ->];
      eexists; (split; [|eassumption]); unfold sum_name; rewrite Em, Z.eqb_refl;
      (destruct (decide (role test = "c"%char)); [try done|try done]); cbn [andb negb]; find_now.
  - intros H Hm. apply Forall2_cons_inv_l in H as (x1 & k1 & (j1 & -> & H1) & H & ->). apply Forall2_nil_inv_l in H as ->.
    apply list_elem_of_singleton in Hm as ->. exists j1. split; [|done].
    unfold sum_name. rewrite (proj2 (Z.eqb_neq _ _) Em). cbn [andb]. find_now.
Qed.

Lemma number_in_keyed name item k : number_in (keyed name item) k = number_in item k.
Proof. done. Qed.

(** A member of a report says a count. *)
Definition report_says (j : cJSON) (sum : bytes) (name : string) (z : Z) : Prop :=
  report_number j sum (B name) = Some (D_of_Z (i64 z)).

Lemma report_says_item j sum name item z :
  cJSON_GetObjectItem j sum = Some (keyed sum item) → says item name z → report_says j sum name z.
Proof. unfold report_says, report_number, says. intros ->. cbn [mbind option_bind]. by rewrite number_in_keyed. Qed.

(** ** The sums of the final report *)

(** The quantities of one stream that the final report adds up. *)
Definition net_sender_packets (sp : iperf_stream) : Z := (sender_packets sp).1 - (sender_packets sp).2.
Definition net_receiver_packets (sp : iperf_stream) : Z := (receiver_packets sp).1 - (receiver_packets sp).2.
Definition net_lost (sp : iperf_stream) : Z :=
  sp_cnt_error sp - (if -1 <? sp_omitted_cnt_error sp then sp_omitted_cnt_error sp else 0).
Definition total (f : iperf_stream → Z) (l : list iperf_stream) : Z := sum (map f l).

(** The sums are those of the streams of [l] on top of [x]. *)
Definition summed (test : iperf_test) (x : final) (l : list iperf_stream) (y : final) : Prop :=
  total_sent y = u64 (total_sent x + total bytes_sent_of l) ∧
  total_received y = u64 (total_received x + total (fun sp => rs_bytes_received (sp_result sp)) l) ∧
  (tcp_like test = false →
   sender_total_packets y = i64 (sender_total_packets x + total net_sender_packets l) ∧
   receiver_total_packets y = i64 (receiver_total_packets x + total net_receiver_packets l) ∧
   lost_packets y = i64 (lost_packets x + total net_lost l)).

Definition in_range (x : final) : Prop :=
  in_u 64 (total_sent x) ∧ in_u 64 (total_received x) ∧ in_s 64 (sender_total_packets x) ∧
  in_s 64 (receiver_total_packets x) ∧ in_s 64 (lost_packets x).

Lemma summed_nil test x : in_range x → summed test x [] x.
Proof.
  intros (H1 & H2 & H3 & H4 & H5). unfold summed, total, sum. cbn. rewrite !Z.add_0_r.
  split_and!; [by rewrite wrapu_id..|]. intros _. by rewrite !wraps_id.
Qed.

Lemma add_final_range test sp x : in_range x → in_range (add_final test sp x).
Proof.
  intros (H1 & H2 & H3 & H4 & H5). unfold add_final, in_range.
  destruct (tcp_like test); [case_match|]; cbn;
    (split_and!; repeat case_match; first [by apply wrapu_range|by apply wraps_range|done]).
Qed.

Lemma summed_cons test sp x l y :
  summed test (add_final test sp x) l y → summed test x (sp :: l) y.
Proof.
  unfold summed, total, sum. cbn [map foldr]. intros (H1 & H2 & Hu). split_and!.
  - rewrite H1. unfold add_final. case_match; [case_match|]; cbn; by rewrite u64_step.
  - rewrite H2. unfold add_final. case_match; [case_match|]; cbn; by rewrite u64_step.
  - intros Ht. destruct (Hu Ht) as (-> & -> & ->). unfold add_final. rewrite Ht. cbn.
    split_and!; [apply i64_steps..|].
    unfold net_lost at 2. case_match; [by rewrite i64_step_back|by rewrite Z.sub_0_r, i64_step].
Qed.

Lemma quic_receiver_other test b sent time : protocol test ≠ Pquic → quic_receiver test b sent time = false.
Proof. intros H. unfold quic_receiver. rewrite (proj2 (Z.eqb_neq _ _) H). by rewrite andb_false_r. Qed.

Lemma final_stream_ok info file test b time end_time x sp :
  protocol test ≠ Pquic → file sp = None →
  ∃ j, final_stream info file test b time end_time x sp = Ok (add_final test sp x, j).
Proof.
  intros Hq Hf. unfold final_stream, diskfile_member. rewrite quic_receiver_other, Hf by done.
  destruct (tcp_like test).
  - unfold sender_item, receiver_item. destruct (_ || _); by eexists.
  - unfold udp_item. by eexists.
Qed.

Lemma final_loop_sums info file test b time end_time l : ∀ x items,
  protocol test ≠ Pquic → Forall (fun sp => file sp = None) l → in_range x →
  ∃ y js, final_loop info file test b time end_time l x items = Ok (y, items ++ js) ∧
          length js = length l ∧ summed test x l y ∧ sender_time y = sender_time x.
Proof.
  induction l as [|sp l IH]; intros x items Hq Hf Hx.
  - exists x, []. cbn. rewrite app_nil_r. split_and!; [done|done|by apply summed_nil|done].
  - apply Forall_cons in Hf as [Hf Hl]. cbn [final_loop].
    destruct (final_stream_ok info file test b time end_time x sp Hq Hf) as (j & ->). cbn [mbind outcome_bind].
    destruct (IH (add_final test sp x) (items ++ [j]) Hq Hl (add_final_range _ _ _ Hx)) as (y & js & -> & Hlen & Hs & Ht).
    exists y, (j :: js). rewrite <- app_assoc. cbn [length]. rewrite Hlen.
    split_and!; [done|done|by apply summed_cons|]. rewrite Ht. unfold add_final. by destruct (tcp_like test); [case_match|].
Qed.

(** The two sums that the two sides share. *)
Definition sent_says (test : iperf_test) (l : list iperf_stream) (j : cJSON) : Prop :=
  says j "bytes" (u64 (total bytes_sent_of l)) ∧
  (tcp_like test = false → says j "packets" (total net_sender_packets l)).
Definition received_says (test : iperf_test) (l : list iperf_stream) (j : cJSON) : Prop :=
  says j "bytes" (u64 (total (fun sp => rs_bytes_received (sp_result sp)) l)) ∧
  (tcp_like test = false → says j "packets" (total net_receiver_packets l) ∧
                           says j "lost_packets" (total net_lost l)).

(** The sums of one direction in the order in which they are added. *)
Definition direction_sums (test : iperf_test) (b : bool) (l : list iperf_stream) (sums : list member) : Prop :=
  ∃ o s r, sums = (if tcp_like test then [] else [(true, (sum_name test b (B "sum"), o))])
                  ++ [(true, (sum_name test b (B "sum_sent"), s)); (true, (sum_name test b (B "sum_received"), r))] ∧
           sent_says test l s ∧ received_says test l r.

Lemma says_i64 j name z : says j name (i64 z) → says j name z.
Proof. unfold says. by rewrite wraps_wraps. Qed.

Lemma sums_ok test b time t l y :
  protocol test ≠ Pquic → summed test (mk_final 0 0 0 0 0 0 0 D0 t) l y →
  ∃ sums, (if tcp_like test then tcp_sums test b y time else udp_sums test b y time) = Ok sums ∧
          direction_sums test b l sums.
Proof.
  intros Hq (H1 & H2 & Hu). unfold direction_sums, sent_says, received_says. cbn in H1, H2.
  rewrite Z.add_0_l in H1, H2. destruct (tcp_like test) eqn:Et.
  - unfold tcp_sums. rewrite quic_receiver_other by done.
    destruct (set (sender_has_retransmits test)); eexists; (split; [reflexivity|]);
      (exists cJSON_CreateObject; eexists _, _; split; [reflexivity|]); rewrite <- H1, <- H2; by split_and!.
  - destruct (Hu eq_refl) as (H3 & H4 & H5). cbn in H3, H4, H5.
    rewrite Z.add_0_l in H3, H4, H5. unfold udp_sums.
    eexists. split; [reflexivity|]. eexists _, _, _. split; [reflexivity|]. rewrite <- H1, <- H2.
    split; (split; [done|]); intros _; [|split]; apply says_i64; by rewrite <- ?H3, <- ?H4, <- ?H5.
Qed.

(** What the report of a direction depends on. *)
Definition alike (t t' : iperf_test) : Prop :=
  mode t' = mode t ∧ role t' = role t ∧ protocol t' = protocol t ∧
  ∀ b (f : iperf_stream → Z), (∀ sp, f (set_times sp) = f sp) →
    total f (of_direction b (streams t')) = total f (of_direction b (streams t)) ∧
    length (of_direction b (streams t')) = length (of_direction b (streams t)).

Lemma set_times_sender sp : sp_sender (set_times sp) = sp_sender sp.
Proof. unfold set_times, on_result. cbn. done. Qed.

Lemma set_times_totals sp :
  bytes_sent_of (set_times sp) = bytes_sent_of sp ∧
  rs_bytes_received (sp_result (set_times sp)) = rs_bytes_received (sp_result sp) ∧
  net_sender_packets (set_times sp) = net_sender_packets sp ∧
  net_receiver_packets (set_times sp) = net_receiver_packets sp ∧ net_lost (set_times sp) = net_lost sp.
Proof.
  unfold set_times, bytes_sent_of, net_sender_packets, net_receiver_packets, sender_packets, receiver_packets, net_lost.
  destruct (sp_sender sp) eqn:E; unfold on_result; cbn; rewrite E; by split_and!.
Qed.

Lemma alike_set_times t t' :
  alike t t' → alike t (t' <| streams ::= (fun l => match l with [] => [] | sp :: l => set_times sp :: l end) |>).
Proof.
  intros (H1 & H2 & H3 & H). split_and!; [done..|]. intros b f Hf. destruct (H b f Hf) as [<- <-].
  change (streams (t' <| streams ::= ?g |>)) with (g (streams t')). destruct (streams t') as [|sp l]; [done|].
  unfold of_direction, total, sum. cbn [List.filter]. rewrite set_times_sender.
  case_match; [|done]. cbn [map foldr length]. by rewrite Hf.
Qed.

Lemma alike_direction t t' b sums :
  alike t t' → direction_sums t' b (of_direction b (streams t')) sums →
  direction_sums t b (of_direction b (streams t)) sums.
Proof.
  intros (H1 & H2 & H3 & H). unfold direction_sums, sent_says, received_says, sum_name, tcp_like.
  rewrite H1, H2, H3.
  rewrite (proj1 (H b bytes_sent_of (fun sp => proj1 (set_times_totals sp)))).
  rewrite (proj1 (H b (fun sp => rs_bytes_received (sp_result sp)) (fun sp => proj1 (proj2 (set_times_totals sp))))).
  rewrite (proj1 (H b net_sender_packets (fun sp => proj1 (proj2 (proj2 (set_times_totals sp)))))).
  rewrite (proj1 (H b net_receiver_packets (fun sp => proj1 (proj2 (proj2 (proj2 (set_times_totals sp))))))).
  by rewrite (proj1 (H b net_lost (fun sp => proj2 (proj2 (proj2 (proj2 (set_times_totals sp))))))).
Qed.

Lemma alike_retransmits t t' own b : alike t t' → alike t (direction_retransmits t' own b).
Proof. unfold direction_retransmits. intros H. case_match; exact H. Qed.

Lemma final_mode_sums info t t' m items :
  protocol t ≠ Pquic → alike t t' →
  ∃ t'' js sums, final_mode info (fun _ => None) t' m items = Ok (t'', items ++ js, sums) ∧ alike t t'' ∧
    length js = length (of_direction (stream_must_be_sender m) (streams t)) ∧
    direction_sums t (stream_must_be_sender m) (of_direction (stream_must_be_sender m) (streams t)) sums.
Proof.
  intros Hq Ha. unfold final_mode. set (b := stream_must_be_sender m).
  pose proof (alike_set_times t t' Ha) as Ha'. set (t1 := t' <| streams ::= _ |>) in *.
  assert (protocol t1 ≠ Pquic) as Hq1 by by destruct Ha' as (_ & _ & -> & _).
  destruct (match streams t1 with [] => _ | sp :: _ => _ end) as [[send_time time] end_time].
  destruct (final_loop_sums info (fun _ => None) t1 b time end_time (of_direction b (streams t1))
              (mk_final 0 0 0 0 0 0 0 D0 send_time) items) as (y & js & -> & Hlen & Hs & _).
  { done. } { by apply List.Forall_forall. } { by split_and!. }
  cbn [mbind outcome_bind]. destruct (sums_ok t1 b time send_time _ y Hq1 Hs) as (sums & -> & Hd).
  exists t1, js, sums. split_and!; [done|done| |by apply (alike_direction t t1)].
  rewrite Hlen. by apply (proj2 (proj2 (proj2 Ha')) b (fun _ => 0)).
Qed.

Lemma final_modes_sums info own t ms : ∀ t' items sums,
  protocol t ≠ Pquic → alike t t' →
  ∃ t'' js more, final_modes info (fun _ => None) own t' ms items sums = Ok (t'', items ++ js, sums ++ concat more) ∧
    alike t t'' ∧
    length js = length (flat_map (fun m => of_direction (stream_must_be_sender m) (streams t)) ms) ∧
    Forall2 (fun m x => direction_sums t (stream_must_be_sender m) (of_direction (stream_must_be_sender m) (streams t)) x)
      ms more.
Proof.
  induction ms as [|m ms IH]; intros t' items sums Hq Ha.
  - exists t', [], []. cbn. rewrite !app_nil_r. by split_and!.
  - cbn [final_modes].
    destruct (final_mode_sums info t (direction_retransmits t' own (stream_must_be_sender m)) m items)
      as (t1 & js & x & -> & Ha1 & Hlen & Hd); [done|by apply alike_retransmits|].
    cbn [mbind outcome_bind].
    destruct (IH t1 (items ++ js) (sums ++ x) Hq Ha1) as (t2 & js' & more & -> & Ha2 & Hlen' & Hm).
    exists t2, (js ++ js'), (x :: more). rewrite <- !app_assoc. split_and!; [done|done| |by constructor].
    cbn [flat_map]. by rewrite !length_app, Hlen, Hlen'.
Qed.

(** What a report says of a direction. *)
Definition sent_says_in (test : iperf_test) (b : bool) (j : cJSON) : Prop :=
  let l := of_direction b (streams test) in
  let name := sum_name test b (B "sum_sent") in
  report_says j name "bytes" (u64 (total bytes_sent_of l)) ∧
  (tcp_like test = false → report_says j name "packets" (total net_sender_packets l)).
Definition received_says_in (test : iperf_test) (b : bool) (j : cJSON) : Prop :=
  let l := of_direction b (streams test) in
  let name := sum_name test b (B "sum_received") in
  report_says j name "bytes" (u64 (total (fun sp => rs_bytes_received (sp_result sp)) l)) ∧
  (tcp_like test = false → report_says j name "packets" (total net_receiver_packets l) ∧
                           report_says j name "lost_packets" (total net_lost l)).

Lemma says_in test b j s r :
  let ns := sum_name test b (B "sum_sent") in let nr := sum_name test b (B "sum_received") in
  cJSON_GetObjectItem j ns = Some (keyed ns s) → cJSON_GetObjectItem j nr = Some (keyed nr r) →
  sent_says test (of_direction b (streams test)) s → received_says test (of_direction b (streams test)) r →
  sent_says_in test b j ∧ received_says_in test b j.
Proof.
  intros ns nr Es Er [S1 S2] [R1 R2]. split; split; [by eapply report_says_item| |by eapply report_says_item|].
  - intros Ht. eapply report_says_item; eauto.
  - intros Ht. destruct (R2 Ht). split; by eapply report_says_item.
Qed.

(** The sums of all directions stand between the items of the streams and the
    members behind them. *)
Ltac find_sum Em :=
  eapply says_in; [| |eassumption|eassumption]; rewrite object_lookup; unfold sum_name; rewrite Em;
  try (destruct (decide (role _ = _)); [try done|try done]);
  cbn [andb negb]; destruct (tcp_like _); find_now.

Lemma final_lookup test items more c2 c3 x1 x2 x3 m :
  Forall2 (fun m x => direction_sums test (stream_must_be_sender m) (of_direction (stream_must_be_sender m) (streams test)) x)
    (modes test) more →
  m ∈ modes test →
  let j := object_of ((true, (B "streams", items)) :: concat more ++
             [(true, (B "cpu_utilization_percent", x1)); (c2, (B "sender_tcp_congestion", x2));
              (c3, (B "receiver_tcp_congestion", x3))]) in
  sent_says_in test (stream_must_be_sender m) j ∧ received_says_in test (stream_must_be_sender m) j.
Proof.
  unfold modes. destruct (mode test =? BIDIRECTIONAL) eqn:Em.
  - destruct (decide (role test = "c"%char)) as [Er|Er]; intros H Hm;
      apply Forall2_cons_inv_l in H as (y1 & k1 & (o1 & s1 & r1 & -> & S1 & R1) & H & ->);
      apply Forall2_cons_inv_l in H as (y2 & k2 & (o2 & s2 & r2 & -> & S2 & R2) & H & ->);
      apply Forall2_nil_inv_l in H as ->;
      apply elem_of_cons in Hm as [->|Hm]; try apply list_elem_of_singleton in Hm as ->; find_sum Em.
  - intros H Hm. apply Forall2_cons_inv_l in H as (y1 & k1 & (o1 & s1 & r1 & -> & S1 & R1) & H & ->).
    apply Forall2_nil_inv_l in H as ->. apply list_elem_of_singleton in Hm as ->. find_sum Em.
Qed.

Lemma final_members_ok test b :
  ∃ c2 c3 x1 x2 x3, final_members test b = Ok [(true, (B "cpu_utilization_percent", x1));
    (c2, (B "sender_tcp_congestion", x2)); (c3, (B "receiver_tcp_congestion", x3))].
Proof.
  unfold final_members. destruct (cpu_util test) as [[x y] z], (remote_cpu_util test) as [[x' y'] z'].
  by eexists _, _, _, _, _.
Qed.

(** The members of a final report, and what they say of each direction. *)
Lemma print_results_says info test :
  protocol test ≠ Pquic →
  ∃ test' l items, iperf_print_results info (fun _ => None) test = Ok (test', l) ∧
    cJSON_GetObjectItem (object_of l) (B "streams") = Some (keyed (B "streams") (array_of items)) ∧
    length items = length (flat_map (fun m => of_direction (stream_must_be_sender m) (streams test)) (modes test)) ∧
    ∀ m, m ∈ modes test → sent_says_in test (stream_must_be_sender m) (object_of l) ∧
                          received_says_in test (stream_must_be_sender m) (object_of l).
Proof.
  intros Hq. unfold iperf_print_results.
  destruct (final_modes_sums info (sender_has_retransmits test) test (modes test) test [] []) as (t' & js & more & -> & _ & Hlen & Hm);
    [done|by split_and!|]. cbn [mbind outcome_bind app].
  destruct (final_members_ok t' (stream_must_be_sender (List.last (modes t') 0))) as (c2 & c3 & x1 & x2 & x3 & ->).
  cbn [mbind outcome_bind]. eexists _, _, js. split_and!; [done| |done|].
  - rewrite object_lookup. done.
  - intros m Hin. by apply final_lookup.
Qed.

(** ** What the exchange of results makes of the counters *)

(** The counters a stream has of its own side. *)
Definition own_packets (sp : iperf_stream) : Z := sp_packet_count sp - sp_omitted_packet_count sp.
Definition received_of (sp : iperf_stream) : Z := rs_bytes_received (sp_result sp).

(** A stream that knows what its sender [x] and its receiver [y] have counted. *)
Definition knows (x y sp : iperf_stream) : Prop :=
  bytes_sent_of sp = bytes_sent_of x ∧ received_of sp = received_of y ∧
  net_sender_packets sp = own_packets x ∧ net_receiver_packets sp = own_packets y ∧ net_lost sp = net_lost y.

(** The two ends of a stream; of what a receiver sent itself nothing is omitted. *)
Definition opposite (x y : iperf_stream) : Prop :=
  sp_id x = sp_id y ∧ sp_sender y = negb (sp_sender x) ∧
  rs_bytes_sent_omit (sp_result (if sp_sender x then y else x)) = 0.

Lemma ends_know c s1 x y :
  opposite x y →
  let y' := merge_stream false (remote_of c x) y in
  let x' := merge_stream false (remote_of s1 y') x in
  sp_sender x' = sp_sender x ∧ sp_sender y' = sp_sender y ∧
  (if sp_sender x then knows x y x' ∧ knows x y y' else knows y x x' ∧ knows y x y').
Proof.
  intros (_ & Ey & E0) y' x'. split_and!; [by apply merge_same..|].
  assert (∀ a, u64 (u64 a - 0) = u64 a) as Hu by (intros a; by rewrite Z.sub_0_r, wrapu_wrapu).
  destruct (sp_sender x) eqn:Ex; cbn in Ey.
  - assert (y' = merge_receiver (remote_of c x) y) as Ey' by (subst y'; unfold merge_stream; by rewrite Ey).
    assert (x' = merge_sender false (remote_of s1 y') x) as -> by (subst x'; unfold merge_stream; by rewrite Ex).
    rewrite Ey'. unfold knows, bytes_sent_of, received_of, net_sender_packets, net_receiver_packets, sender_packets,
      receiver_packets, net_lost, merge_sender, merge_receiver, remote_of, bytes_reported, own_packets, on_result.
    cbn. rewrite Ex, Ey, E0. cbn. rewrite Hu. by split_and!.
  - assert (y' = merge_sender false (remote_of c x) y) as Ey' by (subst y'; unfold merge_stream; by rewrite Ey).
    assert (x' = merge_receiver (remote_of s1 y') x) as -> by (subst x'; unfold merge_stream; by rewrite Ex).
    rewrite Ey'. unfold knows, bytes_sent_of, received_of, net_sender_packets, net_receiver_packets, sender_packets,
      receiver_packets, net_lost, merge_sender, merge_receiver, remote_of, bytes_reported, own_packets, on_result.
    cbn. rewrite Ex, Ey, E0. cbn. rewrite Hu. by split_and!.
Qed.

(** The sum of a direction only depends on its streams, one by one. *)
Lemma total_lookups b d (f g : iperf_stream → Z) l k :
  length l = length k →
  (∀ i x z, l !! i = Some x → k !! i = Some z →
     Bool.eqb (sp_sender x) b = Bool.eqb (sp_sender z) d ∧ (Bool.eqb (sp_sender x) b = true → f x = g z)) →
  total f (of_direction b l) = total g (of_direction d k).
Proof.
  unfold total, sum, of_direction. revert k. induction l as [|x l IH]; intros [|z k] Hl H; try done.
  destruct (H 0%nat x z eq_refl eq_refl) as [E Hf]. cbn [List.filter]. rewrite <- E.
  assert (∀ i x z, l !! i = Some x → k !! i = Some z →
    Bool.eqb (sp_sender x) b = Bool.eqb (sp_sender z) d ∧ (Bool.eqb (sp_sender x) b = true → f x = g z)) as H'
    by (intros i; apply (H (S i))).
  injection Hl as Hl. destruct (Bool.eqb (sp_sender x) b); [|by apply IH].
  cbn [map foldr]. f_equal; [by apply Hf|by apply IH].
Qed.

(** The totals of a direction in a test that knows both of its ends. *)
Definition knows_all (snd rcv t : iperf_test) (b : bool) : Prop :=
  let l := of_direction b (streams t) in
  let out := of_direction true (streams snd) in
  let inn := of_direction false (streams rcv) in
  total bytes_sent_of l = total bytes_sent_of out ∧ total received_of l = total received_of inn ∧
  total net_sender_packets l = total own_packets out ∧ total net_receiver_packets l = total own_packets inn ∧
  total net_lost l = total net_lost inn.

(** The two sides of a test: roles, the same protocol and the same streams. *)
Record sides (c s : iperf_test) : Prop := {
  sides_role : role c = "c"%char ∧ role s = "s"%char;
  sides_protocol : protocol s = protocol c ∧ protocol c ≠ Pquic;
  sides_mode : (mode c = SENDER ∧ mode s = RECEIVER) ∨ (mode c = RECEIVER ∧ mode s = SENDER) ∨
               (mode c = BIDIRECTIONAL ∧ mode s = BIDIRECTIONAL);
  sides_streams : Forall2 opposite (streams c) (streams s)
}.

Lemma sides_know c s (b : bool) :
  sides c s → results_ok c → NoDup (map sp_id (streams s)) →
  let snd := if b then c else s in let rcv := if b then s else c in
  knows_all snd rcv (results_applied (results_applied c s) c) b ∧
  knows_all snd rcv (results_applied c s) (negb b).
Proof.
  intros [[Hc Hs] [_ Hq] _ Hf] Hok Hnd.
  assert (is_quic_client c = false) as Eq.
  { unfold is_quic_client. by rewrite (proj2 (Z.eqb_neq _ _) Hq). }
  set (s1 := results_applied c s). set (c1 := results_applied s1 c).
  assert (length (streams c1) = length (streams c) ∧ length (streams s1) = length (streams s)) as [L1 L2].
  { split; [unfold c1; destruct (applied_fields s1 c) as [-> _]|unfold s1; destruct (applied_fields c s) as [-> _]];
      by rewrite length_map. }
  pose proof (Forall2_length _ _ _ Hf) as L.
  assert (∀ i, (i < length (streams c))%nat → ∃ x y x' y',
    streams c !! i = Some x ∧ streams s !! i = Some y ∧ streams c1 !! i = Some x' ∧ streams s1 !! i = Some y' ∧
    sp_sender x' = sp_sender x ∧ sp_sender y' = sp_sender y ∧ sp_sender y = negb (sp_sender x) ∧
    (if sp_sender x then knows x y x' ∧ knows x y y' else knows y x x' ∧ knows y x y')) as Hxy.
  { intros i Hi.
    destruct (lookup_lt_is_Some_2 (streams c) i) as [x Hx]; [lia|].
    destruct (lookup_lt_is_Some_2 (streams s) i) as [y Hy]; [lia|].
    pose proof (Forall2_lookup_lr _ _ _ _ _ _ Hf Hx Hy) as Ho.
    destruct (results_merged c s i i x y Hs Hok Hnd Hx Hy (proj1 Ho)) as [H1 H2].
    rewrite Eq in H1. eexists x, y, _, _.
    split_and!; [done|done|exact H1|exact H2|apply merge_same|apply merge_same|apply Ho|].
    by apply (ends_know c s1 x y). }
  intros snd rcv. unfold knows_all, snd, rcv.
  split; split_and!; destruct b; (apply total_lookups; [lia|]); intros i z w Hz Hw;
    (destruct (Hxy i) as (x & y & x' & y' & Ex & Ey & Ex' & Ey' & Sx & Sy & Sxy & Hk);
     [apply lookup_lt_Some in Hz; lia|]);
    first [rewrite Ex' in Hz|rewrite Ey' in Hz]; first [rewrite Ex in Hw|rewrite Ey in Hw];
    injection Hz as <-; injection Hw as <-; rewrite ?Sx, ?Sy, ?Sxy; destruct (sp_sender x); cbn; (split; [done|intros; by apply Hk || done]).
Qed.

(** Both sides call a direction by the same name. *)
Lemma sum_name_mirrored c s b n :
  sides c s → sum_name s (negb b) n = sum_name c b n.
Proof.
  intros [[Hc Hs] _ Hm _]. unfold sum_name. rewrite Hc, Hs. cbn.
  destruct Hm as [[-> ->]|[[-> ->]|[-> ->]]]; cbn; by rewrite ?negb_involutive.
Qed.
Lemma modes_mirrored c s m :
  sides c s → m ∈ modes c → ∃ m', m' ∈ modes s ∧ stream_must_be_sender m' = negb (stream_must_be_sender m).
Proof.
  intros [[Hc Hs] _ Hm _]. unfold modes. rewrite Hc, Hs.
  destruct Hm as [[-> ->]|[[-> ->]|[-> ->]]]; cbn; intros Hin.
  - apply list_elem_of_singleton in Hin as ->. exists 0. by split; [left|].
  - apply list_elem_of_singleton in Hin as ->. exists 1. by split; [left|].
  - apply elem_of_cons in Hin as [->|Hin]; [exists 0; by split; [left|]|].
    apply list_elem_of_singleton in Hin as ->. exists 1. by split; [right; left|].
Qed.

Lemma applied_sum_name a t b n : sum_name (results_applied a t) b n = sum_name t b n.
Proof. destruct (applied_fields a t) as (_ & Hm & _ & Hr & _). unfold sum_name. by rewrite Hm, Hr. Qed.
Lemma applied_modes a t : modes (results_applied a t) = modes t.
Proof. destruct (applied_fields a t) as (_ & Hm & _ & Hr & _). unfold modes. by rewrite Hm, Hr. Qed.
Lemma applied_tcp_like a t : tcp_like (results_applied a t) = tcp_like t.
Proof. destruct (applied_fields a t) as (_ & _ & Hp & _). unfold tcp_like. by rewrite Hp. Qed.

(** What the report of a side says when it knows both ends. *)
Definition tells (snd rcv t : iperf_test) (b : bool) (l : list member) : Prop :=
  let says_of sum := report_says (object_of l) (sum_name t b (B sum)) in
  let out := of_direction true (streams snd) in
  let inn := of_direction false (streams rcv) in
  says_of "sum_sent" "bytes" (u64 (total bytes_sent_of out)) ∧
  says_of "sum_received" "bytes" (u64 (total received_of inn)) ∧
  (tcp_like t = false →
   says_of "sum_sent" "packets" (total own_packets out) ∧
   says_of "sum_received" "packets" (total own_packets inn) ∧
   says_of "sum_received" "lost_packets" (total net_lost inn)).

Lemma knows_tells snd rcv t b l :
  knows_all snd rcv t b → sent_says_in t b (object_of l) → received_says_in t b (object_of l) →
  tells snd rcv t b l.
Proof.
  unfold tells, sent_says_in, received_says_in. fold received_of.
  intros (<- & K2 & <- & <- & <-) [S1 S2] [R1 R2].
  split_and!; [done|by rewrite <- K2|]. intros Ht. by split_and!; [apply S2|apply R2..].
Qed.

Lemma opposite_ids l k : Forall2 opposite l k → map sp_id l = map sp_id k.
Proof. induction 1 as [|x y l k [E _] _ IH]; [done|]. cbn. by rewrite E, IH. Qed.

(** Both reports, after both sides have applied the other's results. *)
Lemma sides_tell info_c info_s c s :
  sides c s → results_ok c → NoDup (map sp_id (streams s)) →
  ∃ c1 jc s1 js,
    iperf_print_results info_c (fun _ => None) (results_applied (results_applied c s) c) = Ok (c1, jc) ∧
    iperf_print_results info_s (fun _ => None) (results_applied c s) = Ok (s1, js) ∧
    ∀ m, m ∈ modes c →
      let b := stream_must_be_sender m in
      let snd := if b then c else s in
      let rcv := if b then s else c in
      tells snd rcv c b jc ∧ tells snd rcv c b js.
Proof.
  intros Hs Hok Hnd.
  set (s' := results_applied c s). set (c' := results_applied s' c).
  assert (protocol c' ≠ Pquic ∧ protocol s' ≠ Pquic) as [Qc Qs].
  { destruct (sides_protocol c s Hs) as [E Hq]. unfold c', s'.
    destruct (applied_fields (results_applied c s) c) as (_ & _ & -> & _), (applied_fields c s) as (_ & _ & -> & _).
    by rewrite E. }
  destruct (print_results_says info_c c' Qc) as (c1 & jc & ic & Hc & _ & _ & Sc).
  destruct (print_results_says info_s s' Qs) as (s1 & js & its & Hs' & _ & _ & Ss).
  exists c1, jc, s1, js. split_and!; [done|done|]. intros m Hm b snd rcv.
  destruct (modes_mirrored c s m Hs Hm) as (m' & Hm' & Em).
  destruct (sides_know c s b Hs Hok Hnd) as [Kc Ks].
  unfold c' in Sc. rewrite applied_modes in Sc. destruct (Sc m Hm) as [S1 R1].
  unfold s' in Ss. rewrite applied_modes in Ss. destruct (Ss m' Hm') as [S2 R2]. rewrite Em in S2, R2.
  pose proof (knows_tells snd rcv _ _ _ Kc S1 R1) as Tc. pose proof (knows_tells snd rcv _ _ _ Ks S2 R2) as Ts.
  unfold tells in *. rewrite !applied_sum_name, applied_tcp_like in Tc, Ts.
  rewrite !(sum_name_mirrored c s) in Ts by done. split; [done|].
  assert (tcp_like s = tcp_like c) as E by (unfold tcp_like; by rewrite (proj1 (sides_protocol c s Hs))).
  by rewrite E in Ts.
Qed.

(** ** Properties *)

(** C6: the report of an interval.  When every stream has an interval and one of
    them is worth keeping, [iperf_print_intermediate] adds an object with one item
    for each stream of the directions of the test, and for each direction a sum
    whose bytes, and for UDP the packets and what the receiver lost, are the sums
    over exactly the streams of that direction, at the width of the counters. *)
Theorem interval_report info test :
  existsb (keeps_interval test) (streams test) = true →
  Forall (fun sp => is_Some (last_interval sp)) (streams test) →
  ∃ j items, iperf_print_intermediate info test = Ok (Some j) ∧
    cJSON_GetObjectItem j (B "streams") = Some (keyed (B "streams") (array_of items)) ∧
    length items = length (flat_map (fun m => of_direction (stream_must_be_sender m) (streams test)) (modes test)) ∧
    ∀ m, m ∈ modes test →
      let b := stream_must_be_sender m in
      let l := of_direction b (streams test) in
      let says := report_says j (sum_name test b (B "sum")) in
      says "bytes" (u64 (total_of ir_bytes_transferred l)) ∧
      (tcp_like test = false → says "packets" (total_of ir_packet_count l)) ∧
      (tcp_like test = false → b = false → says "lost_packets" (total_of ir_cnt_error l)).
Proof.
  intros Hk Hl. unfold iperf_print_intermediate. rewrite Hk. cbn [negb].
  destruct (interval_modes_sums info test (modes test) [] []) as (js & more & -> & Hlen & Hm);
    [by destruct (streams test)|done|].
  cbn [mbind outcome_bind]. eexists _, js. split_and!; [done|by rewrite object_lookup|done|].
  intros m Hin. destruct (interval_lookup test (array_of js) more m Hm Hin) as (j & Hj & H1 & H2 & H3).
  split_and!; intros; eapply report_says_item; eauto.
Qed.

(** What a side reads of the other's results. *)
Definition results_message (test : iperf_test) : cJSON := parsed (object_of (results_members test)).


(** The test of the exchange of results, with the mode the server has. *)
Definition reporting_server : iperf_test := finished_server <| mode := RECEIVER |>.


(** A bidirectional UDP test at the server: one stream out, two in. *)
Definition reported_stream (id : Z) (sender : bool) (bytes packets errors : Z) : iperf_stream :=
  on_result (fun r => r <| rs_interval_results :=
      [mk_interval bytes (mk_time 100 250000) (mk_time 101 250000) packets 0 errors packets D0 0 errors 0 0] |>)
    (sample_stream id sender 0 0 0 0).
Definition reporting_test : iperf_test :=
  reporting_server <| mode := BIDIRECTIONAL |> <| num_streams := 2 |>
    <| streams := [reported_stream 1 false 2920 2 1; reported_stream 3 false 1460 1 0; reported_stream 4 true 0 0 0] |>.

Lemma interval_report_witness :
  ∃ j items, iperf_print_intermediate (fun _ => mk_info 0 0 0 0 0 0) reporting_test = Ok (Some j) ∧
    cJSON_GetObjectItem j (B "streams") = Some (keyed (B "streams") (array_of items)) ∧
    length items = length (flat_map (fun m => of_direction (stream_must_be_sender m) (streams reporting_test)) (modes reporting_test)) ∧
    ∀ m, m ∈ modes reporting_test →
      let b := stream_must_be_sender m in
      let l := of_direction b (streams reporting_test) in
      let says := report_says j (sum_name reporting_test b (B "sum")) in
      says "bytes" (u64 (total_of ir_bytes_transferred l)) ∧
      (tcp_like reporting_test = false → says "packets" (total_of ir_packet_count l)) ∧
      (tcp_like reporting_test = false → b = false → says "lost_packets" (total_of ir_cnt_error l)).
Proof.
  apply (interval_report _ reporting_test).
  - vm_compute. reflexivity.
  - unfold reporting_test. by repeat (constructor; [by eexists|]).
Defined.

(** A tenth of a second is kept as the nearest [float]. *)
Example float_tenth : to_float (D_of_dec 1 (-1)) = D_of_dec 100000001490116119384765625 (-27).
Proof. vm_compute. reflexivity. Qed.

(** The sums of that test: 4380 bytes in three packets came in, one was lost. *)
Example reporting_test_sums :
  match iperf_print_intermediate (fun _ => mk_info 0 0 0 0 0 0) reporting_test with
  | Ok (Some j) => map (report_number j (B "sum")) [B "bytes"; B "packets"; B "lost_packets"; B "seconds"]
  | _ => []
  end = map (fun z => Some (D_of_Z z)) [4380; 3; 1; 1].
Proof. vm_compute. reflexivity. Qed.

(** A peer that does not send the omitted counts: five losses of a test that
    omitted nothing are all taken for omitted ones, and none is reported. *)
Example old_peer_hides_losses :
  net_lost (merge_sender false (mk_remote 1 1460 0 D0 5 10 None None) (sample_stream 1 true 14600 0 10 0)) = 0.
Proof. vm_compute. reflexivity. Qed.

(** When such a test omitted packets, the unknown count -1 is subtracted: the item
    of the stream has one loss more than the peer counted. *)
Example unknown_omission_adds_a_loss :
  match udp_item true (merge_sender false (mk_remote 1 1460 0 D0 5 10 None None)
                         ((sample_stream 1 true 14600 0 10 0) <| sp_omitted_packet_count := 2 |>)) 14600 (D_of_Z 10) with
  | Ok j => number_in j (B "lost_packets")
  | _ => None
  end = Some (D_of_Z 6).
Proof. vm_compute. reflexivity. Qed.
