(* ===== verification/Document.v ===== *)
(** * The output in JSON: the document of a test and its stream of events

    [iperf_json_start], [iperf_on_connect], [connect_msg], [iperf_on_test_start],
    [JSONStream_Output] and [iperf_json_finish] ([src/iperf_api.c]), the output of
    the reports ([Reports.v]), and the error of [iperf_err] and [iperf_exit]
    ([src/iperf_error.c]).  The items [json_start], [json_connected],
    [json_intervals] and [json_end] are parts of [json_top] and grow while it
    exists: a [document] has what was added to each.  The text that is printed
    when there is no [--json] is left out.  What is written to the output or
    given to the callback is a list of lines; memory allocation does not fail. *)

From S2P Require Import Prelude Errno CInt CDouble CStdio IperfTime Json JsonPrint JsonParse JsonRoundtrip JsonBuild.
From S2P Require Import Net Control Test Params Auth Results Stats Reports.

(** ** Data *)

Record document := mk_document {
  dc_connected : list cJSON;
  dc_start : list member;            (* behind "connected" *)
  dc_intervals : list cJSON;
  dc_end : list member;
  dc_top : list member               (* behind "start", "intervals" and "end" *)
}.
#[export] Instance eta_document : Settable document := fun r =>
  mk_document (dc_connected r) (dc_start r) (dc_intervals r) (dc_end r) (dc_top r).

Definition start_object (d : document) : cJSON :=
  object_of ((true, (B "connected", array_of (dc_connected d))) :: dc_start d).
Definition intervals_array (d : document) : cJSON := array_of (dc_intervals d).
Definition end_object (d : document) : cJSON := object_of (dc_end d).
Definition top_object (d : document) : cJSON :=
  object_of ((true, (B "start", start_object d)) :: (true, (B "intervals", intervals_array d)) ::
             (true, (B "end", end_object d)) :: dc_top d).

(** The test, [json_top] when there is one, the lines written and [json_output_string]. *)
Record output := mk_output {
  o_test : iperf_test; o_document : option document; o_lines : list bytes; o_string : option bytes
}.
#[export] Instance eta_output : Settable output := fun r =>
  mk_output (o_test r) (o_document r) (o_lines r) (o_string r).

Definition on_document (f : document → document) (o : output) : output := o <| o_document ::= fmap f |>.
Definition add_start (m : member) : output → output := on_document (fun d => d <| dc_start ::= (fun l => l ++ [m]) |>).
Definition add_top (m : member) : output → output := on_document (fun d => d <| dc_top ::= (fun l => l ++ [m]) |>).

(** ** The events of [--json-stream] *)

(** A reference to a null item is not made, and nothing is added. *)
Definition event_object (event_name : bytes) (obj : option cJSON) : cJSON :=
  let event := cJSON_AddStringToObject cJSON_CreateObject (B "event") event_name in
  match obj with Some j => cJSON_AddItemReferenceToObject event (B "data") j | None => event end.

Definition JSONStream_Output (event_name : bytes) (obj : option cJSON) (o : output) : outcome (Z * output) :=
  match cJSON_PrintUnformatted (event_object event_name obj) with
  | Ok text => Ok (0, o <| o_lines ::= (fun l => l ++ [text]) |>)
  | Fail => Ok (-1, o)
  | Undef => Undef
  | NoFuel => NoFuel
  end.

(** The callers do not look at the result. *)
Definition put_event (event_name : bytes) (obj : option cJSON) (o : output) : outcome output :=
  '(_, o) ← JSONStream_Output event_name obj o; Ok o.

(** ** The start of a test *)

Definition iperf_json_start (o : output) : Z * output := (0, o <| o_document := Some (mk_document [] [] [] [] []) |>).

(** An IPv4 address that is mapped into IPv6 loses its prefix. *)
Definition mapped_v4_to_regular_v4 (str : bytes) : bool * bytes :=
  let prefix := B "::ffff:" in
  if bool_decide (take (length prefix) str = prefix) then (true, drop (length prefix) str) else (false, str).

(** The two ends of a stream's connection. *)
Record endpoints := mk_endpoints { ipl : bytes; lport : Z; ipr : bytes; rport : Z }.

Definition connect_msg (sp : iperf_stream) (a : endpoints) (o : output) : outcome output :=
  if set (json_output (o_test o)) then
    j ← iperf_json_printf (B "socket: %d  local_host: %s  local_port: %d  remote_host: %s  remote_port: %d")
          [Ad (sp_socket sp); As (snd (mapped_v4_to_regular_v4 (ipl a))); Ad (lport a);
           As (snd (mapped_v4_to_regular_v4 (ipr a))); Ad (rport a)];
    Ok (on_document (fun d => d <| dc_connected ::= (fun l => l ++ [j]) |>) o)
  else Ok o.

(** The address of a stream over QUIC: the numbers of its sockets are not those of
    descriptors, the control connection is asked ([None] when that fails) and the
    port is that of the data at the server's end. *)
Definition quic_endpoints (test : iperf_test) (local remote : option bytes) : endpoints :=
  let qport := if 0 <? quic_port test then quic_port test else server_port test in
  let server := bool_decide (role test = "s"%char) in
  let client := bool_decide (role test = "c"%char) in
  mk_endpoints (default (B "?") local) (if is_set local && server then qport else 0)
    (default (B "?") remote) (if is_set remote && client then qport else 0).

Definition protocol_name (test : iperf_test) : bytes :=
  let p := protocol test in
  if p =? Ptcp then B "TCP" else if p =? Pudp then B "UDP" else if p =? Pquic then B "QUIC" else B "SCTP".

(** [test->cookie] as a string: a server has read all of its bytes from the client. *)
Definition cookie_text (test : iperf_test) : outcome bytes :=
  if bool_decide (NUL ∈ cookie test) then Ok (c_str (cookie test)) else Undef.

(** [now]: the date as text and the milliseconds of the clock; [peer]: the other
    end of a server's control connection; [mss]: the control connection's. *)
Definition iperf_on_connect (now : bytes * Z) (peer : bytes * Z) (ctrl_sck_mss : Z) (o : output) : outcome output :=
  let test := o_test o in
  let json := set (json_output test) in
  let add c name j o := if (c : bool) then add_start (true, (B name, j)) o else o in
  let '(now_str, now_millisecs) := now in
  j ← iperf_json_printf (B "time: %s  timesecs: %d  timemillisecs: %d")
        [As now_str; Ad (Z.quot now_millisecs 1000); Ad now_millisecs];
  let o := add json "timestamp"%string j o in
  o ← (if decide (role test = "c"%char) then
         j ← iperf_json_printf (B "host: %s  port: %d") [As (default [] (server_hostname (cmdline test))); Ad (server_port test)];
         Ok (add json "connecting_to"%string j o)
       else
         let '(mapped, host) := mapped_v4_to_regular_v4 (fst peer) in
         j ← iperf_json_printf (B "host: %s  port: %d") [As host; Ad (snd peer)];
         let o := if mapped then o <| o_test ::= (fun t => t <| mapped_v4 := 1 |>) |> else o in
         Ok (add json "accepted_connection"%string j o));
  let s := settings test in
  let tcp := protocol test =? Ptcp in
  o ← (if json then c ← cookie_text test; Ok (add true "cookie"%string (cJSON_CreateString c) o) else Ok o);
  let o := add (json && tcp && set (mss s)) "tcp_mss"%string (num (mss s)) o in
  let o := add (json && tcp && negb (set (mss s))) "tcp_mss_default"%string (num ctrl_sck_mss) o in
  let o := add json "target_bitrate"%string (num (rate s)) o in
  Ok (add json "fq_rate"%string (num (fqrate s)) o).

Definition iperf_on_test_start (o : output) : outcome output :=
  let test := o_test o in
  let s := settings test in
  o ← (if set (json_output test) then
         j ← iperf_json_printf (B "protocol: %s  num_streams: %d  blksize: %d  omit: %d  duration: %d  bytes: %d  blocks: %d  reverse: %d  tos: %d  target_bitrate: %d bidir: %d fqrate: %d interval: %f")
               [As (protocol_name test); Ad (num_streams test); Ad (blksize s); Ad (omit test); Ad (duration test);
                Ad (bytes_limit s); Ad (blocks_limit s); Ad (if set (reverse test) then 1 else 0); Ad (tos s); Ad (rate s);
                Ad (bidirectional test); Ad (fqrate s); Af (stats_interval test)];
         Ok (add_start (true, (B "test_start", j)) o)
       else Ok o);
  if set (json_stream (cmdline test)) then
    put_event (B "start") (fmap (fun d => keyed (B "start") (start_object d)) (o_document o)) o
  else Ok o.

(** ** The reports *)

Definition discard_json (test : iperf_test) : bool :=
  (json_stream (cmdline test) =? 1) && negb (set (json_stream_full_output (cmdline test))) &&
  negb (bool_decide (role test = "s"%char) && set (get_server_output test)).

(** The end of [iperf_print_intermediate]: [json_interval] is part of the document,
    unless it is thrown away, when its event is written. *)
Definition put_interval (j : cJSON) (o : output) : outcome output :=
  let test := o_test o in
  let o := if discard_json test then o else on_document (fun d => d <| dc_intervals ::= (fun l => l ++ [j]) |>) o in
  if set (json_stream (cmdline test)) then put_event (B "interval") (Some j) o else Ok o.

(** [iperf_reporter_callback] with where its items go. *)
Definition report_output (tcp_interval : iperf_stream → interval_info) (tcp_stream : iperf_stream → stream_info)
    (file_size : iperf_stream → option Z) (o : output) : outcome output :=
  '(test, interval, l) ← iperf_reporter_callback tcp_interval tcp_stream file_size (o_test o);
  o ← (match interval with Some j => put_interval j o | None => Ok o end);
  Ok (on_document (fun d => d <| dc_end ::= (fun m => m ++ l) |>) (o <| o_test := test |>)).

(** ** The end of a test *)

(** [iperf_err] and [iperf_exit] of a test with [--json]: 999 bytes of the text. *)
Definition json_error (text : bytes) (o : output) : output :=
  if set (json_output (o_test o)) then add_top (true, (B "error", cJSON_CreateString (take 999 text))) o else o.

Definition finish_members (test : iperf_test) : list member :=
  [ (is_set (title test), (B "title", str (title test)));
    (is_set (extra_data test), (B "extra_data", str (extra_data test)));
    (is_set (json_server_output test), (B "server_output_json", default cJSON_New_Item (json_server_output test)));
    (is_set (server_output_text test), (B "server_output_text", str (server_output_text test))) ].

Definition stream_end (test : iperf_test) (d : document) (o : output) : outcome output :=
  o ← (match iperf_cJSON_GetObjectItemType (top_object d) (B "error") cJSON_String with
       | Some e => put_event (B "error") (Some e) o
       | None => Ok o
       end);
  o ← (match json_server_output test with Some j => put_event (B "server_output_json") (Some j) o | None => Ok o end);
  o ← (match server_output_text test with
       | Some t => put_event (B "server_output_text") (Some (cJSON_CreateString t)) o
       | None => Ok o
       end);
  put_event (B "end") (Some (keyed (B "end") (end_object d))) o.

Definition iperf_json_finish (o : output) : outcome (Z * output) :=
  let test := o_test o in
  let no_document o := o <| o_document := None |> <| o_test ::= (fun t => t <| json_server_output := None |>) |> in
  match o_document o with
  | None => Ok (0, no_document o)
  | Some d =>
      let d := d <| dc_top ::= (fun l => l ++ finish_members test) |> in
      let o := o <| o_document := Some d |> in
      o ← (if set (json_stream (cmdline test)) then stream_end test d o else Ok o);
      if set (json_stream (cmdline test)) && negb (set (json_stream_full_output (cmdline test))) then Ok (0, no_document o)
      else
        match cJSON_Print (top_object d) with
        | Ok text => Ok (0, no_document (o <| o_string := Some text |> <| o_lines ::= (fun l => l ++ [text]) |>))
        | Fail => Ok (-1, o)
        | Undef => Undef
        | NoFuel => NoFuel
        end
  end.

(** ** A whole test *)

(** What happens between the start and the end of the output: the order is that of
    the client and of the server. *)
Inductive output_event :=
| Connected (now : bytes * Z) (peer : bytes * Z) (ctrl_sck_mss : Z)
| New_stream (sp : iperf_stream) (a : endpoints)
| Start_members (l : list member)           (* the program's version, the system, the buffers of a socket *)
| Interval (j : cJSON)                      (* what a report made *)
| End_members (l : list member)
| Error_text (text : bytes)
| Test_state (t : iperf_test).              (* what other code made of the test *)

Definition output_step (e : output_event) (o : output) : outcome output :=
  match e with
  | Connected now peer mss => iperf_on_connect now peer mss o
  | New_stream sp a => connect_msg sp a o
  | Interval j => put_interval j o
  | Start_members l => Ok (on_document (fun d => d <| dc_start ::= (fun m => m ++ l) |>) o)
  | End_members l => Ok (on_document (fun d => d <| dc_end ::= (fun m => m ++ l) |>) o)
  | Error_text t => Ok (json_error t o)
  | Test_state t => Ok (o <| o_test := t |>)
  end.

Fixpoint output_steps (l : list output_event) (o : output) : outcome output :=
  match l with
  | [] => Ok o
  | e :: l => o ← output_step e o; output_steps l o
  end.

(** The reports are such events. *)
Lemma report_events tcp_interval tcp_stream file_size o test interval l :
  iperf_reporter_callback tcp_interval tcp_stream file_size (o_test o) = Ok (test, interval, l) →
  report_output tcp_interval tcp_stream file_size o
  = output_steps (map Interval (option_list interval) ++ [Test_state test; End_members l]) o.
Proof.
  intros E. unfold report_output. rewrite E. destruct interval as [j|]; [|done]. cbn.
  by destruct (put_interval j o).
Qed.

(** A test from [iperf_json_start] to [iperf_json_finish]. *)
Definition test_output (test : iperf_test) (before after : list output_event) : outcome (Z * output) :=
  let '(_, o) := iperf_json_start (mk_output test None [] None) in
  o ← output_steps before o;
  o ← iperf_on_test_start o;
  o ← output_steps after o;
  iperf_json_finish o.

(** ** Well-formed documents *)

Lemma json_wf_shallower item : ∀ d, json_wf (d + 1) item = true → json_wf d item = true.
Proof.
  induction item as [t vs vi vd k children IH] using cJSON_rect'. intros d. cbn.
  assert (∀ P : bool, (d + 1 <? CJSON_NESTING_LIMIT) && forallb (json_wf (d + 1 + 1)) children && P = true →
    (d <? CJSON_NESTING_LIMIT) && forallb (json_wf (d + 1)) children && P = true) as Hc.
  { intros P [[Hd Hl]%andb_true_iff ->]%andb_true_iff. rewrite andb_true_r. apply andb_true_iff. split.
    - apply Z.ltb_lt in Hd. apply Z.ltb_lt. lia.
    - clear -IH Hl. induction IH as [|x l Hx _ IHl]; [done|]. cbn in *. apply andb_true_iff in Hl as [H1 H2].
      rewrite Hx by done. by apply IHl. }
  repeat case_match; try done; [|apply Hc]. specialize (Hc true). rewrite !andb_true_r in Hc. apply Hc.
Qed.

(** The parts of a document are well-formed at their depths. *)
Record document_ok (d : document) : Prop := {
  ok_connected : forallb (json_wf 3) (dc_connected d) = true;
  ok_start : forallb (member_ok 2) (dc_start d) = true;
  ok_intervals : forallb (json_wf 2) (dc_intervals d) = true;
  ok_end : forallb (member_ok 2) (dc_end d) = true;
  ok_top : forallb (member_ok 1) (dc_top d) = true
}.

Lemma start_object_wf d : document_ok d → json_wf 1 (start_object d) = true.
Proof.
  intros []. apply object_wf; [done|]. cbn [forallb]. rewrite andb_true_iff. split; [|done].
  cbn. rewrite andb_true_r. by apply array_wf.
Qed.

Lemma end_object_wf d : document_ok d → json_wf 1 (end_object d) = true.
Proof. intros []. by apply object_wf. Qed.

Lemma top_object_wf d : document_ok d → json_wf 0 (top_object d) = true.
Proof.
  intros Hd. apply object_wf; [done|]. cbn [forallb]. rewrite !andb_true_iff.
  split_and!; [| | |apply Hd]; cbn; rewrite andb_true_r.
  - by apply start_object_wf.
  - apply array_wf; [done|apply Hd].
  - by apply end_object_wf.
Qed.

(** ** What the start of a test adds *)

Definition date_object (now : bytes * Z) : cJSON :=
  object_of [(true, (B "time", cJSON_CreateString (fst now))); (true, (B "timesecs", num (i64 (Z.quot (snd now) 1000))));
             (true, (B "timemillisecs", num (i64 (snd now))))].
Definition host_object (host : bytes) (port : Z) : cJSON :=
  object_of [(true, (B "host", cJSON_CreateString host)); (true, (B "port", num (i64 port)))].

Definition connect_members (test : iperf_test) (now peer : bytes * Z) (ctrl_sck_mss : Z) : list member :=
  let client := bool_decide (role test = "c"%char) in
  let s := settings test in
  let tcp := protocol test =? Ptcp in
  filter (fun m => fst m = true)
    [ (true, (B "timestamp", date_object now));
      (client, (B "connecting_to", host_object (default [] (server_hostname (cmdline test))) (server_port test)));
      (negb client, (B "accepted_connection", host_object (snd (mapped_v4_to_regular_v4 (fst peer))) (snd peer)));
      (true, (B "cookie", cJSON_CreateString (c_str (cookie test))));
      (tcp && set (mss s), (B "tcp_mss", num (mss s)));
      (tcp && negb (set (mss s)), (B "tcp_mss_default", num ctrl_sck_mss));
      (true, (B "target_bitrate", num (rate s)));
      (true, (B "fq_rate", num (fqrate s))) ].

Definition connect_test (test : iperf_test) (peer : bytes * Z) : iperf_test :=
  if negb (bool_decide (role test = "c"%char)) && fst (mapped_v4_to_regular_v4 (fst peer))
  then test <| mapped_v4 := 1 |> else test.

(** With more members of "start". *)
Definition started (d : document) (x : list member) : document :=
  mk_document (dc_connected d) (dc_start d ++ x) (dc_intervals d) (dc_end d) (dc_top d).

Lemma add_start_ok m t d x l s :
  add_start m (mk_output t (Some (started d x)) l s) = mk_output t (Some (started d (x ++ [m]))) l s.
Proof. unfold add_start, on_document, started. cbv [update_field]. cbn. by rewrite <- app_assoc. Qed.

Lemma started_nil d : d = started d [].
Proof. unfold started. rewrite app_nil_r. by destruct d. Qed.

Lemma on_connect_ok test now peer m d l s :
  set (json_output test) = true → NUL ∈ cookie test →
  iperf_on_connect now peer m (mk_output test (Some d) l s)
  = Ok (mk_output (connect_test test peer) (Some (started d (connect_members test now peer m))) l s).
Proof.
  intros Hj Hc. destruct now as [date ms]. rewrite (started_nil d) at 1.
  unfold iperf_on_connect, connect_test, connect_members, cookie_text. cbn [o_test].
  rewrite Hj, bool_decide_eq_true_2 by done.
  assert (iperf_json_printf (B "time: %s  timesecs: %d  timemillisecs: %d") [As date; Ad (Z.quot ms 1000); Ad ms]
          = Ok (date_object (date, ms))) as -> by reflexivity.
  assert (∀ h p, iperf_json_printf (B "host: %s  port: %d") [As h; Ad p] = Ok (host_object h p)) as Hh by reflexivity.
  cbn [mbind outcome_bind]. rewrite add_start_ok.
  destruct (decide (role test = "c"%char)) as [Hr|Hr].
  - rewrite bool_decide_eq_true_2 by done. rewrite Hh. cbn [mbind outcome_bind negb andb]. rewrite !add_start_ok.
    by destruct (protocol test =? Ptcp), (set (mss (settings test))); cbn [negb andb]; rewrite !add_start_ok.
  - rewrite bool_decide_eq_false_2 by done. destruct (mapped_v4_to_regular_v4 (fst peer)) as [b h]. rewrite Hh.
    cbn [mbind outcome_bind negb andb fst snd].
    destruct b, (protocol test =? Ptcp), (set (mss (settings test))); cbn [negb andb];
      cbv [update_field]; cbn [o_test o_document o_lines o_string]; by rewrite !add_start_ok.
Qed.

Definition stream_item (sp : iperf_stream) (a : endpoints) : cJSON :=
  object_of [(true, (B "socket", num (i64 (sp_socket sp))));
             (true, (B "local_host", cJSON_CreateString (snd (mapped_v4_to_regular_v4 (ipl a)))));
             (true, (B "local_port", num (i64 (lport a))));
             (true, (B "remote_host", cJSON_CreateString (snd (mapped_v4_to_regular_v4 (ipr a)))));
             (true, (B "remote_port", num (i64 (rport a))))].

Definition test_start_object (test : iperf_test) : cJSON :=
  let s := settings test in
  object_of (map (fun '(n, z) => (true, (n, z)))
    [ (B "protocol", cJSON_CreateString (protocol_name test)); (B "num_streams", num (i64 (num_streams test)));
      (B "blksize", num (i64 (blksize s))); (B "omit", num (i64 (omit test))); (B "duration", num (i64 (duration test)));
      (B "bytes", num (i64 (bytes_limit s))); (B "blocks", num (i64 (blocks_limit s)));
      (B "reverse", num (i64 (if set (reverse test) then 1 else 0))); (B "tos", num (i64 (tos s)));
      (B "target_bitrate", num (i64 (rate s))); (B "bidir", num (i64 (bidirectional test)));
      (B "fqrate", num (i64 (fqrate s))); (B "interval", dbl (stats_interval test)) ]).

(** ** The document of a test, without the order of its output *)

Definition grow (e : output_event) (x : iperf_test * document) : iperf_test * document :=
  let '(t, d) := x in
  match e with
  | Connected now peer m => (connect_test t peer, started d (connect_members t now peer m))
  | New_stream sp a =>
      (t, mk_document (dc_connected d ++ [stream_item sp a]) (dc_start d) (dc_intervals d) (dc_end d) (dc_top d))
  | Start_members l => (t, started d l)
  | Interval j => (t, mk_document (dc_connected d) (dc_start d) (dc_intervals d ++ [j]) (dc_end d) (dc_top d))
  | End_members l => (t, mk_document (dc_connected d) (dc_start d) (dc_intervals d) (dc_end d ++ l) (dc_top d))
  | Error_text s =>
      (t, mk_document (dc_connected d) (dc_start d) (dc_intervals d) (dc_end d)
            (dc_top d ++ [(true, (B "error", cJSON_CreateString (take 999 s)))]))
  | Test_state t' => (t', d)
  end.

Definition grows (l : list output_event) (x : iperf_test * document) : iperf_test * document :=
  foldl (fun x e => grow e x) x l.

Definition grow_start (x : iperf_test * document) : iperf_test * document :=
  let '(t, d) := x in (t, started d [(true, (B "test_start", test_start_object t))]).

Definition finish (x : iperf_test * document) : iperf_test * document :=
  let '(t, d) := x in
  (t, mk_document (dc_connected d) (dc_start d) (dc_intervals d) (dc_end d) (dc_top d ++ finish_members t)).

Definition no_document : document := mk_document [] [] [] [] [].
Definition document_of (test : iperf_test) (before after : list output_event) : iperf_test * document :=
  finish (grows after (grow_start (grows before (test, no_document)))).

(** What the stream of events is made of. *)
Definition error_item (d : document) : option cJSON := iperf_cJSON_GetObjectItemType (top_object d) (B "error") cJSON_String.
Definition last_events (test : iperf_test) (d : document) : list (bytes * cJSON) :=
  map (pair (B "error")) (option_list (error_item d)) ++
  map (pair (B "server_output_json")) (option_list (json_server_output test)) ++
  map (fun t => (B "server_output_text", cJSON_CreateString t)) (option_list (server_output_text test)) ++
  [(B "end", end_object d)].
Definition stream_events (x : iperf_test * document) : list (bytes * cJSON) :=
  let '(t, d) := x in
  (B "start", start_object d) :: map (pair (B "interval")) (dc_intervals d) ++ last_events t d.

(** ** Lines that can be read *)

Definition fits (format : bool) (item : cJSON) : Prop :=
  ∀ text, render format 0 item = Some text → Z.of_nat (length text) + 8 < 2 ^ 64.

(** A line that is an event with a name and the data of an item. *)
Definition line_says (line : bytes) (event : bytes * cJSON) : Prop :=
  ∃ e, cJSON_Parse line = Ok e ∧
    cJSON_GetObjectItem e (B "event") = Some ((cJSON_CreateString (fst event)) <| string_ := Some (B "event") |>) ∧
    cJSON_GetObjectItem e (B "data") = Some ((parsed (snd event)) <| string_ := Some (B "data") |>).

Lemma wf_prints item format :
  json_wf 0 item = true → fits format item →
  ∃ text, print item format = Ok text ∧ cJSON_Parse text = Ok (parsed item).
Proof.
  intros Hw Hf. destruct (render_wf format item 0 Hw) as [text Ht]. exists text. by apply print_parse; [| |apply Hf].
Qed.

Lemma land_reference t : Z.land (Z.lor t cJSON_IsReference) 255 = Z.land t 255.
Proof. rewrite Z.land_lor_distr_l. change (Z.land cJSON_IsReference 255) with 0. by rewrite Z.lor_0_r. Qed.

Lemma created_reference_wf d j : json_wf d (create_reference j) = json_wf d j.
Proof. destruct j. cbn. by rewrite land_reference. Qed.

Lemma created_reference_parsed j : parsed (create_reference j) = parsed j.
Proof. destruct j. cbn. by rewrite land_reference. Qed.

Lemma parsed_keyed n j : parsed (keyed n j) = parsed j.
Proof.
  destruct j as [t vs vi vd k l].
  assert (Z.land (Z.land t (Z.lnot cJSON_StringIsConst)) 255 = Z.land t 255) as E by by rewrite <- Z.land_assoc.
  cbn. by rewrite E.
Qed.

Lemma put_event_ok n j o :
  no_nul n → json_wf 1 j = true → fits false (event_object n (Some j)) →
  ∃ line, put_event n (Some j) o = Ok (o <| o_lines ::= (fun l => l ++ [line]) |>) ∧ line_says line (n, j).
Proof.
  intros Hn Hj Hf.
  assert (event_object n (Some j) = object_of [(true, (B "event", cJSON_CreateString n)); (true, (B "data", create_reference j))])
    as E by reflexivity.
  destruct (wf_prints (event_object n (Some j)) false) as (line & Hp & Hr); [|done|].
  { rewrite E. apply object_wf; [done|]. cbn [forallb]. rewrite !andb_true_iff. split_and!; [| |done].
    - cbn. rewrite andb_true_r. by apply bool_decide_eq_true.
    - change (json_wf 1 (create_reference j) && true = true). by rewrite created_reference_wf, Hj. }
  exists line. unfold put_event, JSONStream_Output, cJSON_PrintUnformatted. rewrite Hp. split; [done|].
  exists (parsed (event_object n (Some j))). rewrite E, !parsed_lookup. split; [by rewrite <- E|]. split; [reflexivity|].
  change (Some (with_key (keyed (B "data") (create_reference j)) (parsed (keyed (B "data") (create_reference j))))
          = Some ((parsed j) <| string_ := Some (B "data") |>)).
  by rewrite parsed_keyed, created_reference_parsed.
Qed.

(** ** The steps *)

Definition kept (t : iperf_test) (d : document) : document :=
  mk_document (dc_connected d) (dc_start d) (if discard_json t then [] else dc_intervals d) (dc_end d) (dc_top d).

Definition step_events (e : output_event) : list (bytes * cJSON) :=
  match e with Interval j => [(B "interval", j)] | _ => [] end.

(** Strings end with their terminator, and numbers are those a double has exactly. *)
Definition connected_fine (t : iperf_test) (now peer : bytes * Z) (ctrl_sck_mss : Z) : Prop :=
  NUL ∈ cookie t ∧ no_nul (fst now) ∧ no_nul (fst peer) ∧ no_nul (default [] (server_hostname (cmdline t))) ∧
  Forall small_int [snd now; snd peer; server_port t; mss (settings t); ctrl_sck_mss; rate (settings t); fqrate (settings t)].

(** Other code leaves the options of the output as they are; what decides whether the
    intervals are thrown away may be set as long as there are none. *)
Definition state_fine (t t' : iperf_test) (d : document) : Prop :=
  json_output t' = json_output t ∧ json_stream (cmdline t') = json_stream (cmdline t) ∧
  json_stream_full_output (cmdline t') = json_stream_full_output (cmdline t) ∧
  (discard_json t' = discard_json t ∨ dc_intervals d = []).

Definition event_fine (x : iperf_test * document) (e : output_event) : Prop :=
  match e with
  | Connected now peer m => connected_fine (fst x) now peer m
  | New_stream sp a => no_nul (ipl a) ∧ no_nul (ipr a) ∧ Forall small_int [sp_socket sp; lport a; rport a]
  | Interval j => json_wf 2 j = true ∧ fits false (event_object (B "interval") (Some j))
  | Start_members l | End_members l => forallb (member_ok 2) l = true
  | Error_text s => no_nul s
  | Test_state t => state_fine (fst x) t (snd x)
  end.

(** Along a test. *)
Fixpoint events_fine (l : list output_event) (x : iperf_test * document) : Prop :=
  match l with
  | [] => True
  | e :: l => event_fine x e ∧ events_fine l (grow e x)
  end.

Definition started_fine (t : iperf_test) : Prop :=
  let s := settings t in
  num_ok (stats_interval t) = true ∧
  Forall small_int [num_streams t; blksize s; omit t; duration t; bytes_limit s; blocks_limit s; tos s; rate s;
                    bidirectional t; fqrate s].

(** The options of the output are not changed. *)
Definition same_output (t t' : iperf_test) : Prop :=
  json_output t' = json_output t ∧ json_stream (cmdline t') = json_stream (cmdline t) ∧
  json_stream_full_output (cmdline t') = json_stream_full_output (cmdline t).

Lemma grow_same e x : event_fine x e → same_output (fst x) (fst (grow e x)).
Proof.
  destruct x as [t d], e; try done; cbn.
  - intros _. unfold connect_test. by case_match.
  - by intros (? & ? & ? & _).
Qed.

Lemma grows_same es : ∀ x, events_fine es x → same_output (fst x) (fst (grows es x)).
Proof.
  induction es as [|e es IH]; intros x; [done|]. intros [He Hes].
  destruct (grow_same e x He) as (E1 & E2 & E3), (IH _ Hes) as (F1 & F2 & F3).
  change (grows (e :: es) x) with (grows es (grow e x)). unfold same_output. by rewrite F1, F2, F3, E1, E2, E3.
Qed.

Lemma output_step_ok e t d l s :
  set (json_output t) = true → event_fine (t, d) e →
  ∃ lines, output_step e (mk_output t (Some (kept t d)) l s)
    = Ok (mk_output (grow e (t, d)).1 (Some (kept (grow e (t, d)).1 (grow e (t, d)).2)) (l ++ lines) s) ∧
    Forall2 line_says lines (if set (json_stream (cmdline t)) then step_events e else []).
Proof.
  intros Hj He. destruct e as [now peer m|sp a|m|j|m|text|t'].
  3, 5, 6: exists []; rewrite app_nil_r; cbn [output_step]; unfold json_error; cbn [o_test]; rewrite ?Hj;
    split; [done|]; by case_match.
  - exists []. rewrite app_nil_r. destruct He as [Hc _]. cbn [output_step]. rewrite on_connect_ok by done.
    split; [|by case_match]. cbn [grow fst snd]. unfold kept, connect_test. by case_match.
  - exists []. rewrite app_nil_r. cbn [output_step]. unfold connect_msg. cbn [o_test]. rewrite Hj.
    split; [reflexivity|]. by case_match.
  - cbn [output_step grow]. unfold put_interval. cbn [o_test]. destruct He as [Hw Hf]. unfold kept. cbn [fst snd].
    set (o := if discard_json t then _ else _).
    assert (o = mk_output t (Some (mk_document (dc_connected d) (dc_start d)
      (if discard_json t then [] else dc_intervals d ++ [j]) (dc_end d) (dc_top d))) l s) as -> by (unfold o; by case_match).
    destruct (set (json_stream (cmdline t))).
    + destruct (put_event_ok (B "interval") j (mk_output t (Some (mk_document (dc_connected d) (dc_start d)
        (if discard_json t then [] else dc_intervals d ++ [j]) (dc_end d) (dc_top d))) l s)) as (line & -> & Hs);
        [by decided|by apply json_wf_shallower|done|].
      exists [line]. split; [done|]. by repeat constructor.
    + exists []. by rewrite app_nil_r.
  - exists []. rewrite app_nil_r. split; [|by case_match]. destruct He as (_ & _ & _ & Hd). cbn in Hd.
    cbn [output_step grow fst snd]. cbv [update_field]. cbn. do 3 f_equal. unfold kept. destruct Hd as [Hd|Hd]; rewrite Hd; [done|].
    by repeat case_match.
Qed.

Lemma output_steps_ok es : ∀ t d l s,
  set (json_output t) = true → events_fine es (t, d) →
  ∃ lines, output_steps es (mk_output t (Some (kept t d)) l s)
    = Ok (mk_output (grows es (t, d)).1 (Some (kept (grows es (t, d)).1 (grows es (t, d)).2)) (l ++ lines) s) ∧
    Forall2 line_says lines (if set (json_stream (cmdline t)) then flat_map step_events es else []).
Proof.
  induction es as [|e es IH]; intros t d l s Hj.
  - intros _. exists []. rewrite app_nil_r. split; [done|]. by case_match.
  - intros [He Hes]. destruct (output_step_ok e t d l s Hj He) as (l1 & E1 & F1).
    destruct (grow_same e (t, d) He) as (G1 & G2 & _).
    change (grows (e :: es) (t, d)) with (grows es (grow e (t, d))).
    destruct (grow e (t, d)) as [t' d'] eqn:G. cbn [fst snd] in *.
    destruct (IH t' d' (l ++ l1) s) as (l2 & E2 & F2); [by rewrite G1|done|].
    exists (l1 ++ l2). cbn [output_steps]. rewrite E1. cbn [mbind outcome_bind]. rewrite E2.
    rewrite <- app_assoc. split; [done|]. rewrite G2 in F2.
    destruct (set (json_stream (cmdline t))); cbn [flat_map]; [by apply Forall2_app|].
    apply Forall2_nil_inv_r in F1 as ->, F2 as ->. constructor.
Qed.

(** ** The documents of a test are well-formed *)

Lemma num_i64_wf d z : small_int z → json_wf d (num (i64 z)) = true.
Proof.
  intros Hz. rewrite wraps_id; [by apply num_wf|lia|]. unfold small_int in Hz. unfold in_s. lia.
Qed.

Lemma c_str_text l : no_nul (c_str l).
Proof.
  induction l as [|c l IH]; [by apply not_elem_of_nil|]. cbn. case_decide; [by apply not_elem_of_nil|].
  by apply no_nul_cons.
Qed.

Lemma drop_no_nul n l : no_nul l → no_nul (drop n l).
Proof. unfold no_nul. intros H Hd. apply H. rewrite <- (take_drop n l). apply elem_of_app. by right. Qed.

Lemma take_no_nul n l : no_nul l → no_nul (take n l).
Proof. unfold no_nul. intros H Hd. apply H. rewrite <- (take_drop n l). apply elem_of_app. by left. Qed.

Lemma unmapped_no_nul l : no_nul l → no_nul (snd (mapped_v4_to_regular_v4 l)).
Proof. intros H. unfold mapped_v4_to_regular_v4. case_match; [|done]. by apply drop_no_nul. Qed.

Lemma string_wf d l : no_nul l → json_wf d (cJSON_CreateString l) = true.
Proof. intros Hn. cbn. by apply bool_decide_eq_true. Qed.

Lemma quot_small z : small_int z → small_int (Z.quot z 1000).
Proof.
  unfold small_int. intros Hz. destruct (Z_lt_ge_dec z 0).
  - pose proof (Z.quot_opp_l z 1000 ltac:(lia)). rewrite (Z.quot_div_nonneg (- z)) in H by lia.
    pose proof (Z.div_pos (- z) 1000). pose proof (Z.div_le_upper_bound (- z) 1000 (- z)). lia.
  - rewrite Z.quot_div_nonneg by lia. pose proof (Z.div_pos z 1000). pose proof (Z.div_le_upper_bound z 1000 z). lia.
Qed.

(** Texts and numbers of the items. *)
Create HintDb json_wf.
#[export] Hint Resolve c_str_text unmapped_no_nul take_no_nul drop_no_nul quot_small : json_wf.

Lemma member_cons d c n j l :
  (c = true → json_wf d j = true) → no_nul n → forallb (member_ok d) l = true →
  forallb (member_ok d) ((c, (n, j)) :: l) = true.
Proof.
  intros Hj Hn Hl. cbn [forallb]. rewrite Hl, andb_true_r. cbn. destruct c; [|done]. cbn. rewrite Hj by done.
  by apply bool_decide_eq_true.
Qed.

(** The members of a built object, one by one; items of another kind are left. *)
Ltac members_ok :=
  lazymatch goal with
  | |- forallb _ [] = true => reflexivity
  | |- forallb _ ((_, (_, _)) :: _) = true => apply member_cons; [intros _|by decided|]; members_ok
  | |- json_wf _ (num (i64 _)) = true => apply num_i64_wf; eauto with json_wf
  | |- json_wf _ (num _) = true => apply num_wf; eauto with json_wf
  | |- json_wf _ (dbl _) = true => apply dbl_wf; eauto with json_wf
  | |- json_wf _ (str _) = true => apply str_wf; eauto with json_wf
  | |- json_wf _ (cJSON_CreateString _) = true => apply string_wf; eauto with json_wf
  | _ => idtac
  end.

Lemma filter_members d l : forallb (member_ok d) l = true → forallb (member_ok d) (filter (fun m : member => fst m = true) l) = true.
Proof.
  induction l as [|m l IH]; [done|]. cbn [forallb]. intros [Hm Hl]%andb_true_iff.
  rewrite filter_cons. case_match; [|by apply IH]. cbn [forallb]. by rewrite Hm, IH.
Qed.

Lemma connect_members_wf t now peer m :
  connected_fine t now peer m → forallb (member_ok 2) (connect_members t now peer m) = true.
Proof.
  intros (Hc & H1 & H2 & H3 & H4). rewrite !Forall_cons in H4. destruct H4 as (? & ? & ? & ? & ? & ? & ? & _).
  apply filter_members.
  members_ok; try (apply object_wf; [done|]; members_ok).
Qed.

Lemma member_ok_app d l k :
  forallb (member_ok d) l = true → forallb (member_ok d) k = true → forallb (member_ok d) (l ++ k) = true.
Proof. intros Hl Hk. by rewrite forallb_app, Hl, Hk. Qed.

Lemma stream_item_wf t d sp a : event_fine (t, d) (New_stream sp a) → json_wf 3 (stream_item sp a) = true.
Proof.
  intros (H1 & H2 & H3). rewrite !Forall_cons in H3. destruct H3 as (? & ? & ? & _).
  apply object_wf; [done|]. members_ok.
Qed.

Lemma started_ok d l : document_ok d → forallb (member_ok 2) l = true → document_ok (started d l).
Proof. intros [] Hl. constructor; try done. by apply member_ok_app. Qed.

Lemma grow_ok e x : document_ok (snd x) → event_fine x e → document_ok (snd (grow e x)).
Proof.
  destruct x as [t d]. intros Hd He. destruct e as [now peer m|sp a|m|j|m|text|t']; cbn [grow fst snd] in *.
  - by apply started_ok, connect_members_wf.
  - destruct Hd. constructor; try done. cbn [dc_connected].
    rewrite forallb_app, ok_connected0. cbn [forallb andb]. by rewrite (stream_item_wf t d).
  - by apply started_ok.
  - destruct Hd, He. constructor; try done. cbn [dc_intervals]. rewrite forallb_app, ok_intervals0. cbn [forallb andb]. by rewrite H.
  - destruct Hd. constructor; try done. by apply member_ok_app.
  - destruct Hd. constructor; try done. apply member_ok_app; [done|]. members_ok.
  - done.
Qed.

Lemma grows_ok es : ∀ x, document_ok (snd x) → events_fine es x → document_ok (snd (grows es x)).
Proof.
  induction es as [|e es IH]; intros x Hx; [done|]. intros [He Hes].
  change (grows (e :: es) x) with (grows es (grow e x)). apply IH; [|done]. by apply grow_ok.
Qed.

Lemma test_start_wf t : started_fine t → json_wf 2 (test_start_object t) = true.
Proof.
  intros [Hi Hs]. rewrite !Forall_cons in Hs. destruct Hs as (?&?&?&?&?&?&?&?&?&?&_).
  assert (no_nul (protocol_name t)) by (unfold protocol_name; repeat case_match; by decided).
  apply object_wf; [done|]. cbn [map]. members_ok. by case_match.
Qed.

(** What the end of a test adds is well-formed. *)
Definition finish_fine (t : iperf_test) : Prop :=
  no_nul (default [] (title t)) ∧ no_nul (default [] (extra_data t)) ∧ no_nul (default [] (server_output_text t)) ∧
  ∀ j, json_server_output t = Some j → json_wf 1 j = true.

Lemma finish_ok t d : document_ok d → finish_fine t → document_ok (finish (t, d)).2.
Proof.
  intros [] (H1 & H2 & H3 & H4). constructor; try done. apply member_ok_app; [done|].
  repeat (apply member_cons; [|by decided|]); try done; [intros _; by apply str_wf..| |intros _; by apply str_wf].
  destruct (json_server_output t) as [j|]; [|done]. intros _. by apply H4.
Qed.

(** ** The end of the output *)

Lemma event_object_keyed n m j : event_object n (Some (keyed m j)) = event_object n (Some j).
Proof.
  assert (∀ j, event_object n (Some j)
    = add_item_to_array (cJSON_AddStringToObject cJSON_CreateObject (B "event") n) (keyed (B "data") (create_reference j)))
    as -> by done.
  change (event_object n (Some j))
    with (add_item_to_array (cJSON_AddStringToObject cJSON_CreateObject (B "event") n) (keyed (B "data") (create_reference j))).
  f_equal. destruct j as [t vs vi vd k l].
  cbv [keyed create_reference update_field]. cbn. f_equal.
  apply Z.bits_inj'. intros i Hi. rewrite !Z.land_spec, !Z.lor_spec, Z.land_spec.
  destruct (Z.testbit (Z.lnot cJSON_StringIsConst) i); by rewrite ?andb_true_r, ?andb_false_r.
Qed.

Lemma find_member_wf d k l j : forallb (member_ok d) l = true → find_member k l = Some j → json_wf d j = true.
Proof.
  induction l as [|[c [n i]] l IH]; [done|]. cbn [forallb find_member].
  intros [Hm Hl]%andb_true_iff. destruct (_ =? 0), c; try by apply IH.
  intros [= <-]. rewrite keyed_wf. cbn in Hm. by apply andb_true_iff in Hm as [].
Qed.

(** The error is behind the three parts of the document. *)
Lemma error_member d : cJSON_GetObjectItem (top_object d) (B "error") = find_member (B "error") (dc_top d).
Proof. unfold top_object. by rewrite object_lookup. Qed.

Lemma error_item_wf d e : document_ok d → error_item d = Some e → json_wf 1 e = true.
Proof.
  intros Hd. unfold error_item, iperf_cJSON_GetObjectItemType. rewrite error_member.
  destruct (find_member (B "error") (dc_top d)) as [i|] eqn:E; [|done]. cbn.
  case_match; [|done]. intros [= <-]. by apply (find_member_wf 1 (B "error") (dc_top d)); [apply Hd|].
Qed.

Lemma error_item_kept t d : error_item (kept t d) = error_item d.
Proof. unfold error_item, iperf_cJSON_GetObjectItemType. by rewrite !error_member. Qed.

(** The events of [stream_end] as a list. *)
Fixpoint put_all (l : list (bytes * cJSON)) (o : output) : outcome output :=
  match l with
  | [] => Ok o
  | (n, j) :: l => o ← put_event n (Some j) o; put_all l o
  end.

Lemma put_event_keyed n m j o : put_event n (Some (keyed m j)) o = put_event n (Some j) o.
Proof. unfold put_event, JSONStream_Output. by rewrite event_object_keyed. Qed.

Lemma put_all_app l k o : put_all (l ++ k) o = (o ← put_all l o; put_all k o).
Proof.
  revert o. induction l as [|[n j] l IH]; intros o; [done|]. cbn [app put_all].
  destruct (put_event n (Some j) o); cbn [mbind outcome_bind]; [by rewrite IH|done..].
Qed.

Lemma put_one n j o : put_all [(n, j)] o = put_event n (Some j) o.
Proof. cbn. by destruct (put_event n (Some j) o). Qed.

Lemma put_optional {A} (f : A → bytes * cJSON) m l o :
  put_all (map f (option_list m) ++ l) o
  = (o ← (match m with Some x => put_event (fst (f x)) (Some (snd (f x))) o | None => Ok o end); put_all l o).
Proof. destruct m as [x|]; [|done]. cbn. by destruct (f x). Qed.

Lemma bind_same {A C} (m : outcome A) (f g : A → outcome C) : (∀ x, f x = g x) → mbind f m = mbind g m.
Proof. intros E. destruct m; cbn; [apply E|done..]. Qed.

Lemma stream_end_all t d o : stream_end t d o = put_all (last_events t d) o.
Proof.
  unfold stream_end, last_events. rewrite put_optional. apply bind_same. clear o. intros o.
  rewrite put_optional. apply bind_same. clear o. intros o. rewrite put_optional. apply bind_same. clear o. intros o.
  by rewrite put_one, put_event_keyed.
Qed.

Definition item_fine (event : bytes * cJSON) : Prop :=
  no_nul (fst event) ∧ json_wf 1 (snd event) = true ∧ fits false (event_object (fst event) (Some (snd event))).

Lemma put_all_ok es : ∀ t d l s, Forall item_fine es →
  ∃ lines, put_all es (mk_output t d l s) = Ok (mk_output t d (l ++ lines) s) ∧ Forall2 line_says lines es.
Proof.
  induction es as [|[n j] es IH]; intros t d l s; [exists []; by rewrite app_nil_r|].
  intros [(Hn & Hj & Hf) Hes]%Forall_cons.
  destruct (put_event_ok n j (mk_output t d l s) Hn Hj Hf) as (line & E & Hl).
  destruct (IH t d (l ++ [line]) s Hes) as (lines & E' & Hls).
  exists (line :: lines). cbn [put_all]. rewrite E. cbn [mbind outcome_bind].
  change (put_all es (mk_output t d (l ++ [line]) s) = Ok (mk_output t d (l ++ line :: lines) s) ∧
          Forall2 line_says (line :: lines) ((n, j) :: es)).
  rewrite E', <- app_assoc. split; [done|]. by constructor.
Qed.

(** The lines of the end have room. *)
Definition last_fits (t : iperf_test) (d : document) : Prop :=
  Forall (fun e : bytes * cJSON => fits false (event_object (fst e) (Some (snd e)))) (last_events t d).

Lemma last_fine t d : document_ok d → finish_fine t → last_fits t d → Forall item_fine (last_events t d).
Proof.
  intros Hd (_ & _ & Ht & Hj) Hf.
  assert (Forall (fun e : bytes * cJSON => no_nul (fst e) ∧ json_wf 1 (snd e) = true) (last_events t d)) as H.
  { unfold last_events. rewrite !Forall_app. split_and!.
    - destruct (error_item d) as [e|] eqn:E; constructor; [|done]. split; [by decided|]. by apply (error_item_wf d).
    - destruct (json_server_output t) as [j|]; constructor; [|done]. split; [by decided|]. by apply Hj.
    - destruct (server_output_text t); constructor; [|done]. split; [by decided|]. by apply string_wf.
    - constructor; [|done]. split; [by decided|]. by apply end_object_wf. }
  unfold last_fits in Hf. rewrite Forall_forall in *. intros e He. destruct (H e He). split_and!; [done..|]. by apply Hf.
Qed.

Lemma last_events_kept t d : last_events t (kept t d) = last_events t d.
Proof. unfold last_events. by rewrite error_item_kept. Qed.

(** The document as text, unless there is only the stream. *)
Definition stream_only (t : iperf_test) : bool :=
  set (json_stream (cmdline t)) && negb (set (json_stream_full_output (cmdline t))).
Definition whole_says (t : iperf_test) (d : document) (whole : option bytes) : Prop :=
  if stream_only t then whole = None
  else ∃ text, whole = Some text ∧ cJSON_Parse text = Ok (parsed (top_object d)).

Lemma not_discarded t d : stream_only t = false → kept t d = d.
Proof.
  unfold stream_only, kept, discard_json. intros E. destruct (json_stream (cmdline t) =? 1) eqn:E1; [|by destruct d].
  apply Z.eqb_eq in E1. rewrite E1 in E. cbn in E. rewrite E. by destruct d.
Qed.

Lemma json_finish_ok t d l :
  document_ok d → finish_fine t → last_fits t (finish (t, d)).2 → fits true (top_object (finish (t, d)).2) →
  ∃ lines whole, iperf_json_finish (mk_output t (Some (kept t d)) l None)
      = Ok (0, mk_output (t <| json_server_output := None |>) None (l ++ lines ++ option_list whole) whole) ∧
    Forall2 line_says lines (if set (json_stream (cmdline t)) then last_events t (finish (t, d)).2 else []) ∧
    whole_says t (finish (t, d)).2 whole.
Proof.
  intros Hd Ht Hl Hw. pose proof (finish_ok t d Hd Ht) as Hd'. unfold iperf_json_finish. cbn [o_document o_test].
  change ((kept t d) <| dc_top ::= (fun l => l ++ finish_members t) |>) with (kept t (finish (t, d)).2).
  set (d' := (finish (t, d)).2) in *. clearbody d'.
  change ((mk_output t (Some (kept t d)) l None) <| o_document := Some (kept t d') |>)
    with (mk_output t (Some (kept t d')) l None).
  rewrite stream_end_all, last_events_kept.
  assert (∃ lines, (if set (json_stream (cmdline t)) then put_all (last_events t d') (mk_output t (Some (kept t d')) l None)
                    else Ok (mk_output t (Some (kept t d')) l None)) = Ok (mk_output t (Some (kept t d')) (l ++ lines) None) ∧
            Forall2 line_says lines (if set (json_stream (cmdline t)) then last_events t d' else [])) as (lines & -> & Hlines).
  { destruct (set (json_stream (cmdline t))); [by apply put_all_ok, last_fine|]. exists []. by rewrite app_nil_r. }
  exists lines. cbn [mbind outcome_bind]. unfold whole_says. fold (stream_only t).
  destruct (stream_only t) eqn:E.
  - exists None. by rewrite app_nil_r.
  - rewrite not_discarded by done. destruct (wf_prints (top_object d') true) as (text & Hp & Hr); [by apply top_object_wf|done|].
    exists (Some text). unfold cJSON_Print. rewrite Hp. split; [|by eauto].
    cbv [update_field]. cbn. by rewrite <- app_assoc.
Qed.

(** ** A whole test *)

(** The connection and the streams are before the test's start, and the reports behind it. *)
Definition early (e : output_event) : bool :=
  match e with Interval _ | End_members _ => false | _ => true end.
Definition late (e : output_event) : bool :=
  match e with Connected _ _ _ | New_stream _ _ | Start_members _ => false | _ => true end.

Lemma early_events es : forallb early es = true → flat_map step_events es = [].
Proof. induction es as [|[] es IH]; cbn; (done || auto). Qed.

Lemma early_intervals es : ∀ x, forallb early es = true → dc_intervals (grows es x).2 = dc_intervals x.2.
Proof.
  induction es as [|e es IH]; intros x; [done|]. cbn [forallb]. intros [He Hes]%andb_true_iff.
  change (grows (e :: es) x) with (grows es (grow e x)). rewrite IH by done. destruct x, e; done.
Qed.

Lemma late_start es : ∀ x, forallb late es = true → start_object (grows es x).2 = start_object x.2.
Proof.
  induction es as [|e es IH]; intros x; [done|]. cbn [forallb]. intros [He Hes]%andb_true_iff.
  change (grows (e :: es) x) with (grows es (grow e x)). rewrite IH by done. destruct x, e; done.
Qed.

Lemma late_intervals es : ∀ x, forallb late es = true →
  map (pair (B "interval")) (dc_intervals (grows es x).2)
  = map (pair (B "interval")) (dc_intervals x.2) ++ flat_map step_events es.
Proof.
  induction es as [|e es IH]; intros x; [by rewrite app_nil_r|]. cbn [forallb]. intros [He Hes]%andb_true_iff.
  change (grows (e :: es) x) with (grows es (grow e x)). rewrite IH by done. destruct x, e; try done.
  cbn. by rewrite map_app, <- app_assoc.
Qed.

Lemma on_test_start_ok t d l :
  set (json_output t) = true → document_ok d → started_fine t →
  fits false (event_object (B "start") (Some (start_object (grow_start (t, d)).2))) →
  ∃ lines, iperf_on_test_start (mk_output t (Some (kept t d)) l None)
    = Ok (mk_output t (Some (kept t (grow_start (t, d)).2)) (l ++ lines) None) ∧
    Forall2 line_says lines
      (if set (json_stream (cmdline t)) then [(B "start", start_object (grow_start (t, d)).2)] else []).
Proof.
  intros Hj Hd Ht Hf. unfold iperf_on_test_start. cbn [o_test]. rewrite Hj.
  assert (document_ok (grow_start (t, d)).2) as Hs.
  { apply started_ok; [done|]. members_ok. by apply test_start_wf. }
  match goal with |- context [iperf_json_printf ?f ?a] =>
    assert (iperf_json_printf f a = Ok (test_start_object t)) as -> by (unfold test_start_object; destruct (set (reverse t)); reflexivity) end.
  cbn [mbind outcome_bind].
  change (add_start (true, (B "test_start", test_start_object t)) (mk_output t (Some (kept t d)) l None))
    with (mk_output t (Some (kept t (grow_start (t, d)).2)) l None).
  destruct (set (json_stream (cmdline t))).
  - cbn [o_document fmap option_fmap option_map]. rewrite put_event_keyed.
    change (start_object (kept t (grow_start (t, d)).2)) with (start_object (grow_start (t, d)).2).
    rewrite <- put_one. apply put_all_ok. constructor; [|done]. split_and!; [by decided| |done]. by apply start_object_wf.
  - exists []. by rewrite app_nil_r.
Qed.

(** A test whose output is in JSON: the connection and the streams first, strings and
    numbers that are texts of JSON, lines for which there is room. *)
Record test_fine (test : iperf_test) (before after : list output_event) : Prop := {
  tf_json : set (json_output test) = true;
  tf_early : forallb early before = true;
  tf_late : forallb late after = true;
  tf_before : events_fine before (test, no_document);
  tf_started : started_fine (grows before (test, no_document)).1;
  tf_after : events_fine after (grow_start (grows before (test, no_document)));
  tf_finish : finish_fine (document_of test before after).1;
  tf_start_fits : fits false (event_object (B "start") (Some (start_object (document_of test before after).2)));
  tf_last_fits : last_fits (document_of test before after).1 (document_of test before after).2;
  tf_fits : fits true (top_object (document_of test before after).2)
}.

(** C7: The two outputs of a test in JSON agree.  Whatever the order of what happens
    before the test's start and behind it, the output has one document, that of the
    reference [document_of].  With [--json] it is written as one line that is read back as
    this document, and is [json_output_string]; with [--json-stream] the lines are, in
    this order, events with the document's "start", each of its "intervals", its error
    and the server's output where there are any, and its "end", though the document that
    the program holds has no intervals then; with [--json-stream-full-output] both are
    written.  No document is left. *)
Theorem json_output_agrees test before after :
  test_fine test before after →
  ∃ o stream whole, test_output test before after = Ok (0, o) ∧
    o_lines o = stream ++ option_list whole ∧ o_string o = whole ∧ o_document o = None ∧
    Forall2 line_says stream
      (if set (json_stream (cmdline test)) then stream_events (document_of test before after) else []) ∧
    whole_says test (document_of test before after).2 whole.
Proof.
  intros [Hj Hearly Hlate Hb Hs Ha Hf Hsf Hlf Hw]. unfold test_output, iperf_json_start.
  assert ((mk_output test None [] None) <| o_document := Some (mk_document [] [] [] [] []) |>
          = mk_output test (Some (kept test no_document)) [] None) as -> by (unfold kept; by case_match).
  assert (document_ok no_document) as H0 by by constructor.
  pose proof (grows_ok _ (test, no_document) H0 Hb) as H1.
  destruct (grows_same _ _ Hb) as (S1 & S2 & S3). cbn [fst] in S1, S2, S3.
  pose proof (early_intervals before (test, no_document) Hearly) as Hi. cbn [snd no_document dc_intervals] in Hi.
  destruct (output_steps_ok before test no_document [] None Hj Hb) as (l1 & E1 & L1).
  rewrite early_events in L1 by done. rewrite E1. cbn [mbind outcome_bind app].
  assert (l1 = []) as -> by (case_match; by inversion L1).
  unfold document_of in *. destruct (grows before (test, no_document)) as [t1 d1]. cbn [fst snd] in *.
  pose proof (late_start after (grow_start (t1, d1)) Hlate) as Hst.
  pose proof (late_intervals after (grow_start (t1, d1)) Hlate) as Hli.
  destruct (grows_same _ _ Ha) as (S4 & S5 & S6). change (grow_start (t1, d1)).1 with t1 in S4, S5, S6.
  assert (document_ok (grow_start (t1, d1)).2) as H2.
  { apply started_ok; [done|]. members_ok. by apply test_start_wf. }
  pose proof (grows_ok _ _ H2 Ha) as H3.
  destruct (grows after (grow_start (t1, d1))) as [t3 d3] eqn:E3. cbn [fst snd] in *.
  destruct (on_test_start_ok t1 d1 []) as (l2 & E2 & L2); [by rewrite S1|done|done| |].
  { rewrite <- Hst. exact Hsf. }
  rewrite E2. cbn [mbind outcome_bind app].
  destruct (output_steps_ok after t1 (grow_start (t1, d1)).2 l2 None) as (l3 & E4 & L3); [by rewrite S1|done|].
  change (t1, (grow_start (t1, d1)).2) with (grow_start (t1, d1)) in E4. rewrite E3 in E4. rewrite E4.
  cbn [mbind outcome_bind fst snd].
  destruct (json_finish_ok t3 d3 (l2 ++ l3)) as (l4 & whole & E5 & L4 & W); [done..|].
  exists (mk_output (t3 <| json_server_output := None |>) None ((l2 ++ l3) ++ l4 ++ option_list whole) whole), (l2 ++ l3 ++ l4), whole.
  split; [done|]. split; [by rewrite <- !app_assoc|]. split_and!; [done..| |].
  - rewrite S5, S2 in L4. rewrite S2 in L2, L3. destruct (set (json_stream (cmdline test))).
    + change (stream_events (finish (t3, d3)))
        with ([(B "start", start_object d3)] ++ map (pair (B "interval")) (dc_intervals d3) ++ last_events t3 (finish (t3, d3)).2).
      rewrite Hst, Hli. change (dc_intervals (grow_start (t1, d1)).2) with (dc_intervals d1). rewrite Hi.
      by repeat apply Forall2_app.
    + apply Forall2_nil_inv_r in L2 as ->, L3 as ->, L4 as ->. constructor.
  - unfold whole_says, stream_only in *. by rewrite S5, S6, S2, S3 in W.
Qed.

Definition fits_text (format : bool) (item : cJSON) : bool :=
  match render format 0 item with Some text => Z.of_nat (length text) + 8 <? 2 ^ 64 | None => true end.

Lemma fits_by_text format item : fits_text format item = true → fits format item.
Proof. unfold fits_text. intros H text E. rewrite E in H. by apply Z.ltb_lt in H. Qed.

(** A client that writes the stream of events: the server's text comes with its results,
    and then there is an error. *)
Definition streaming_client (stream full : Z) : iperf_test :=
  on_cmdline (fun c => c <| server_hostname := Some (B "lab") |> <| json_stream := stream |> <| json_stream_full_output := full |>)
    ((iperf_defaults true iperf_new_test)
       <| role := "c"%char |> <| json_output := 1 |> <| title := Some (B "night") |>).
Definition streaming_start : list output_event :=
  [ Start_members [(true, (B "version", str (Some (B "iperf 3.21+"))))];
    Connected (B "Thu, 01 Jan 1970 00:00:00 UTC", 5123) ([], 0) 1448;
    New_stream (sample_stream 1 true 0 0 0 0) (mk_endpoints (B "::ffff:10.0.0.1") 40000 (B "10.0.0.2") 5201) ].
Definition streaming_end (stream full : Z) : list output_event :=
  [ Interval (object_of [(true, (B "bytes", num 1000))]); Interval (object_of [(true, (B "bytes", num 2000))]);
    Test_state ((streaming_client stream full) <| server_output_text := Some (B "ok") |>);
    End_members [(true, (B "sum_sent", object_of [(true, (B "bytes", num 3000))]))];
    Error_text (B "control socket has closed unexpectedly") ].

Lemma small_by z : (z <? 2 ^ 53) && (- 2 ^ 53 <? z) = true → small_int z.
Proof. unfold small_int. intros [H1%Z.ltb_lt H2%Z.ltb_lt]%andb_true_iff. lia. Qed.

Lemma small_ints_by l : forallb (fun z => (z <? 2 ^ 53) && (- 2 ^ 53 <? z)) l = true → Forall small_int l.
Proof.
  intros H. apply Is_true_true, forallb_True in H. eapply Forall_impl; [exact H|].
  intros z Hz%Is_true_true. by apply small_by.
Qed.

Lemma last_fits_by t d :
  forallb (fun e => fits_text false (event_object (fst e) (Some (snd e)))) (last_events t d) = true → last_fits t d.
Proof.
  intros H. apply Is_true_true, forallb_True in H. eapply Forall_impl; [exact H|].
  intros e He%Is_true_true. by apply fits_by_text.
Qed.

Ltac small_ints := apply small_ints_by; vm_compute; reflexivity.
Ltac fits_ok := apply fits_by_text; vm_compute; reflexivity.

Lemma streaming_before : events_fine streaming_start (streaming_client 1 0, no_document).
Proof.
  split; [vm_compute; reflexivity|]. split; [split_and!; [by decided..|small_ints]|].
  split; [|done]. split_and!; [by decided..|small_ints].
Qed.

Lemma streaming_started : started_fine (grows streaming_start (streaming_client 1 0, no_document)).1.
Proof. split; [vm_compute; reflexivity|small_ints]. Qed.

Lemma streaming_after : events_fine (streaming_end 1 0) (grow_start (grows streaming_start (streaming_client 1 0, no_document))).
Proof.
  split; [split; [vm_compute; reflexivity|fits_ok]|]. split; [split; [vm_compute; reflexivity|fits_ok]|].
  split; [split_and!; [vm_compute; reflexivity..|left; vm_compute; reflexivity]|].
  split; [vm_compute; reflexivity|]. split; [by decided|done].
Qed.

Definition streaming_document : iperf_test * document := document_of (streaming_client 1 0) streaming_start (streaming_end 1 0).

Lemma streaming_finish : finish_fine streaming_document.1.
Proof.
  split_and!; [by decided..|]. intros j Hj. vm_compute in Hj. discriminate.
Qed.

Lemma streaming_last : last_fits streaming_document.1 streaming_document.2.
Proof. apply last_fits_by. vm_compute. reflexivity. Qed.

Lemma streaming_fine : test_fine (streaming_client 1 0) streaming_start (streaming_end 1 0).
Proof.
  constructor; [vm_compute; reflexivity|reflexivity|reflexivity|exact streaming_before|exact streaming_started
    |exact streaming_after|exact streaming_finish|fits_ok|exact streaming_last|fits_ok].
Qed.

Lemma json_output_agrees_witness :
  test_fine (streaming_client 1 0) streaming_start (streaming_end 1 0) ∧
  ∃ o stream whole, test_output (streaming_client 1 0) streaming_start (streaming_end 1 0) = Ok (0, o) ∧
    o_lines o = stream ++ option_list whole ∧ o_string o = whole ∧ o_document o = None ∧
    Forall2 line_says stream
      (if set (json_stream (cmdline (streaming_client 1 0)))
       then stream_events (document_of (streaming_client 1 0) streaming_start (streaming_end 1 0)) else []) ∧
    whole_says (streaming_client 1 0) (document_of (streaming_client 1 0) streaming_start (streaming_end 1 0)).2 whole.
Proof. split; [apply streaming_fine|]. apply json_output_agrees. apply streaming_fine. Defined.

(** The same test with the options: one line, six events, six events and a line. *)
Example lines_of_options :
  map (fun '(stream, full) =>
         match test_output (streaming_client stream full) streaming_start (streaming_end stream full) with
         | Ok (_, o) => length (o_lines o)
         | _ => 0%nat
         end) [(0, 0); (1, 0); (1, 1)] = [1; 6; 7]%nat.
Proof. vm_compute. reflexivity. Qed.

Example names_of_events :
  match test_output (streaming_client 1 0) streaming_start (streaming_end 1 0) with
  | Ok (_, o) =>
      map (fun line => match cJSON_Parse line with
                       | Ok e => i ← cJSON_GetObjectItem e (B "event"); valuestring i
                       | _ => None
                       end) (o_lines o)
  | _ => []
  end
  = map (fun s => Some (B s)) ["start"; "interval"; "interval"; "error"; "server_output_text"; "end"]%string.
Proof. vm_compute. reflexivity. Qed.

(** A server's cookie is what the client sent, all of its bytes: one without a
    terminator is read beyond its end. *)
Example cookie_is_read_beyond_its_end now peer m o :
  set (json_output (o_test o)) = true → role (o_test o) = "s"%char → cookie (o_test o) = replicate COOKIE_SIZE "x"%char →
  iperf_on_connect now peer m o = Undef.
Proof.
  intros Hj Hr Hc. unfold iperf_on_connect, cookie_text. destruct now as [d ms]. rewrite Hj, Hr, Hc.
  destruct (mapped_v4_to_regular_v4 (fst peer)) as [b h]. by destruct b.
Qed.
