(* ===== verification/Endpoint.v ===== *)
(** * What client and server share ([src/iperf_api.c], [src/iperf_client_api.c],
    [src/iperf_server_api.c])

    The world of one process: its control connection, its timers, and a log of
    the effects the development does not look into.  Streams and their numbers,
    the timers of a test and what they do when they fire. *)

From S2P Require Import Prelude Errno CInt CDouble CStdio Json JsonPrint JsonParse JsonRoundtrip JsonBuild IperfTime Net.
From S2P Require Import Control Timer Test Params Auth Results Stats.


Definition DEFAULT_UDP_BLKSIZE : Z := 1460.
Definition MAX_UDP_BLOCKSIZE : Z := 65535 - 8 - 20.
Definition ENOENT : Z := 2.
Definition SEC_TO_US : Z := 1000000.

(** ** The process *)

(** [Reported s]: a call of [reporter_callback] in state [s]. *)
Inductive action :=
| Closed (s : Z)
| Denied (s : Z)
| Reported (s : Z)
| On_connect
| On_new_stream (id : Z)
| On_test_finish
| Summary.

Record world := mk_world {
  net : os;
  wheel : tmr;
  log : list action
}.
#[export] Instance eta_world : Settable world := fun w => mk_world (net w) (wheel w) (log w).

Definition logged (a : action) (w : world) : world := w <| log ::= (fun l => l ++ [a]) |>.

(** A routine on the connection, in the world. *)
Definition on_net (f : iperf_test → os → outcome (Z * iperf_test * os)) (test : iperf_test) (w : world)
  : outcome (Z * iperf_test * world) :=
  '(r, test, n) ← f test (net w); Ok (r, test, w <| net := n |>).

Definition time_now (w : world) : iperf_time * world :=
  let '(t, n) := os_now (net w) in (t, w <| net := n |>).

Definition set_send_state (s : Z) (test : iperf_test) (w : world) : outcome (Z * iperf_test * world) :=
  on_net (fun test n => iperf_set_send_state test s n) test w.

(** The callback [reporter_callback]. *)
Definition reporter (test : iperf_test) (w : world) : world := logged (Reported (state test)) w.

(** [close] of the sockets of all streams. *)
Definition close_streams (test : iperf_test) (w : world) : world :=
  foldl (fun w sp => logged (Closed (sp_socket sp)) w) w (streams test).

Lemma close_streams_net test w : net (close_streams test w) = net w ∧ wheel (close_streams test w) = wheel w.
Proof.
  unfold close_streams. revert w. induction (streams test) as [|sp l IH]; intros w; [done|].
  cbn [foldl]. by rewrite !(proj1 (IH _)), !(proj2 (IH _)).
Qed.

(** ** Streams *)

(** [iperf_add_stream]: the first stream is number 1, the next ones 3, 4, ... *)
Definition iperf_add_stream (test : iperf_test) (sp : iperf_stream) : iperf_test :=
  let id := match streams test with [] => 1 | l => i32 (2 + Z.of_nat (length l)) end in
  test <| streams ::= (fun l => l ++ [sp <| sp_id := id |>]) |>.

(** The number of the stream at a position. *)
Definition stream_id (k : nat) : Z := match k with O => 1 | _ => 2 + Z.of_nat k end.

(** ** Timers *)

Inductive timer_kind := Test_timer | Stats_timer | Reporter_timer | Omit_timer.
Definition kind_number (k : timer_kind) : Z :=
  match k with Test_timer => 1 | Stats_timer => 2 | Reporter_timer => 3 | Omit_timer => 4 end.

(** A period given in seconds as a double, in microseconds. *)
Definition period_us (interval : double) : option Z := D_to_s 64 (Dmul interval (D_of_Z SEC_TO_US)).

Definition create_periodic (now : iperf_time) (k : timer_kind) (interval : double) (s : tmr)
  : outcome (option loc * tmr) :=
  if Deqb interval D0 then Ok (None, s)
  else match period_us interval with
  | None => Undef
  | Some us => '(t, s) ← tmr_create now (kind_number k) 0 us true s; Ok (Some t, s)
  end.

(** [create_client_timers] and [create_server_timers], which differ in the time
    they add to the test timer. *)
Definition create_timers (grace_period : Z) (test : iperf_test) (w : world)
  : outcome (Z * iperf_test * world) :=
  let '(now, w) := time_now w in
  let test := test <| reporter_timer := None |> <| stats_timer := None |> <| timer := None |> in
  '(test, s) ← (if duration test =? 0 then Ok (test, wheel w)
                else
                  '(t, s) ← tmr_create now (kind_number Test_timer) 0
                              (i32 (i32 (duration test + omit test) + grace_period) * SEC_TO_US) false (wheel w);
                  Ok (test <| done := 0 |> <| timer := Some t |>, s));
  '(t, s) ← create_periodic now Stats_timer (stats_interval test) s;
  let test := test <| stats_timer := t |> in
  '(t, s) ← create_periodic now Reporter_timer (reporter_interval test) s;
  let test := test <| reporter_timer := t |> in
  Ok (0, test, w <| wheel := s |>).

(** [create_client_omit_timer], [create_server_omit_timer]. *)
Definition create_omit_timer (test : iperf_test) (w : world) : outcome (Z * iperf_test * world) :=
  if omit test =? 0 then Ok (0, test <| omit_timer := None |> <| omitting := 0 |>, w)
  else
    let '(now, w) := time_now w in
    let test := test <| omitting := 1 |> in
    '(t, s) ← tmr_create now (kind_number Omit_timer) 0 (omit test * SEC_TO_US) false (wheel w);
    Ok (0, test <| omit_timer := Some t |>, w <| wheel := s |>).

(** [iperf_create_send_timers]. *)
Definition iperf_create_send_timers (test : iperf_test) : iperf_test :=
  test <| streams ::= map (fun sp => sp <| sp_green_light := true |>) |>.

(** What a process relies on that the development does not look into: the build's
    version; the encryption of credentials, OpenSSL and the users file (as in
    [Params.v] and [Auth.v]); [errno] after a failure; the protocol's [connect],
    [listen] and [accept], which return a socket or a negative number; the
    socket options and the congestion algorithm of a stream's socket; the
    allocation of a stream with its buffer; the affinity to processors; [TCP_INFO], the uninitialised
    structure of the statistics, and the processor time. *)
Record env := mk_env {
  IPERF_VERSION : bytes;
  encode_credentials : bytes → bytes → bytes → option bytes;
  key_size : bytes → Z;
  rsa_decrypt : bytes → bytes → bytes;
  base64_read : bytes → bytes;
  SHA256 : bytes → bytes;
  read_file : bytes → option bytes;
  utc_seconds : Z;
  errno : Z;
  prot_connect : iperf_test → Z * iperf_test;
  prot_listen : iperf_test → Z * iperf_test;
  prot_accept : iperf_test → Z * iperf_test;
  stream_sockopts : iperf_test → Z → bool;
  set_congestion : iperf_test → Z → option Z;       (* the errno of a failure *)
  get_congestion_name : iperf_test → Z → option bytes;
  new_stream : iperf_test → Z → bool → Z + iperf_stream;   (* the error, or the stream *)
  affinity_ok : option Z → bool;                    (* one processor, or all of them *)
  total_retransmits : iperf_stream → Z;
  garbage : iperf_interval_results;
  cpu_util_now : os → double * double * double
}.

(** [iperf_setaffinity], [iperf_clearaffinity]. *)
Definition iperf_setaffinity (e : env) (test : iperf_test) (affinity : option Z) : Z * iperf_test :=
  if affinity_ok e affinity then (0, test) else (-1, test <| i_errno := IEAFFINITY |>).

Definition exchange_parameters (e : env) : iperf_test → os → outcome (Z * iperf_test * os) :=
  iperf_exchange_parameters (IPERF_VERSION e) (encode_credentials e) (key_size e) (rsa_decrypt e)
    (base64_read e) (SHA256 e) (read_file e) (utc_seconds e) (errno e) (prot_listen e).

(** A call that may fail: the rest, or [return -1]. *)
Definition or_fail {W} (m : outcome (Z * iperf_test * W)) (k : iperf_test → W → outcome (Z * iperf_test * W))
  : outcome (Z * iperf_test * W) :=
  '(r, test, w) ← m; if r <? 0 then Ok (-1, test, w) else k test w.

Section Procs.
Context (e : env).

(** The callback [stats_callback], in the world. *)
Definition stats (test : iperf_test) (w : world) : outcome (iperf_test * world) :=
  '(test, n) ← iperf_stats_callback (total_retransmits e) (garbage e) test (net w);
  Ok (test, w <| net := n |>).

Definition measure_cpu (test : iperf_test) (w : world) : iperf_test :=
  test <| cpu_util := cpu_util_now e (net w) |>.

(** [client_omit_timer_proc], [server_omit_timer_proc]. *)
Definition omit_timer_proc (now : iperf_time) (test : iperf_test) (w : world) (s : tmr)
  : outcome ((iperf_test * world) * tmr) :=
  let test := test <| omit_timer := None |> <| omitting := 0 |> in
  let '(test, n) := iperf_reset_stats (total_retransmits e) test (net w) in
  s ← match stats_timer test with Some t => tmr_reset now t s | None => Ok s end;
  s ← match reporter_timer test with Some t => tmr_reset now t s | None => Ok s end;
  Ok ((test, w <| net := n |>), s).

(** The procedures of a test's timers.  [on_test_timer] is the one that differs
    between client and server. *)
Definition timer_procs
    (on_test_timer : iperf_test → world → outcome (iperf_test * world))
    (proc data : Z) (now : iperf_time) (tw : iperf_test * world) (s : tmr)
  : outcome ((iperf_test * world) * tmr) :=
  let '(test, w) := tw in
  if proc =? kind_number Test_timer then tw ← on_test_timer test w; Ok (tw, s)
  else if proc =? kind_number Stats_timer then
    if negb (done test =? 0) then Ok (tw, s) else tw ← stats test w; Ok (tw, s)
  else if proc =? kind_number Reporter_timer then
    Ok ((test, if negb (done test =? 0) then w else reporter test w), s)
  else if proc =? kind_number Omit_timer then omit_timer_proc now test w s
  else Undef.

(** [tmr_run] on the timers of the process.  During the run the wheel is the
    one [tmr_run] threads. *)
Definition run_timers (on_test_timer : iperf_test → world → outcome (iperf_test * world))
    (fuel : nat) (now : iperf_time) (test : iperf_test) (w : world) : outcome (iperf_test * world) :=
  '((test, w), s) ← tmr_run (timer_procs on_test_timer) fuel now (test, w) (wheel w);
  Ok (test, w <| wheel := s |>).
End Procs.

(** The congestion algorithm of a TCP socket; [None] for an error.  A server goes
    on when the algorithm the client asked for does not exist ([tolerant]). *)
Definition use_congestion (e : env) (tolerant : bool) (s : Z) (test : iperf_test) : option iperf_test :=
  if protocol test =? Ptcp then
    if is_set (congestion test) &&
       match set_congestion e test s with None => false | Some err => negb (tolerant && (err =? ENOENT)) end
    then None
    else match get_congestion_name e test s with
    | None => if is_set (congestion test) then None
              else Some (test <| congestion_used := Some (B "unknown") |>)
    | Some ca => Some (test <| congestion_used := Some ca |>)
    end
  else Some test.

(** ** The wait for the next event *)

(** The timeout of [select] while the receiver watches for progress: the one of
    the timers, unless the rest of the computation finds it too long. *)
Definition select_timeout (timer_timeout : option (Z * Z)) (rcv_timeout : iperf_time) : Z * Z :=
  let rcv_timeout_us := secs rcv_timeout * SEC_TO_US + usecs rcv_timeout in
  let timeout_us := match timer_timeout with Some (s, us) => s * SEC_TO_US + us | None => -1 end in
  let timeout_us := if SEC_TO_US <? timeout_us then SEC_TO_US else timeout_us in
  if (timeout_us <? 0) || (rcv_timeout_us <? timeout_us)
  then (secs rcv_timeout, usecs rcv_timeout)
  else default (0, 0) timer_timeout.

(** The connection after some readings of the clock. *)
Inductive clock_read : os → os → Prop :=
| clock_read_none w : clock_read w w
| clock_read_trans w w1 w2 : clock_read w w1 → clock_read w1 w2 → clock_read w w2
| clock_read_once w : clock_read w (os_now w).2.

(** ** One end of a connection that works

    [input] is what is still to be read, [out] what was sent; at least [n] more
    waits and [m] more written bytes go well. *)
Record conn (v : Z) (w : os) (input out : bytes) (n m : nat) : Prop := {
  conn_prompt : prompt v n w;
  conn_steady : steady m w;
  conn_input : flat (reads w) = input;
  conn_sent : sent w = out
}.

Section Conn.
Context (v : Z).

Lemma conn_write w input out n m buf :
  Z.of_nat (length buf) < 2 ^ 31 → conn v w input out n (length buf + m) →
  ∃ w', Nwrite w buf = Ok (Z.of_nat (length buf), w') ∧ conn v w' input (out ++ buf) n m.
Proof.
  intros Hl [Hp Hs Hi Ho]. destruct (Nwrite_steady w buf m Hl Hs) as (w' & Hw & Hsent & Hst).
  exists w'. split; [done|]. pose proof (Nwrite_same_input _ _ _ _ Hw) as Hin.
  split; [by eapply same_input_prompt|done| |congruence].
  destruct Hin as (_ & -> & _). done.
Qed.

Lemma conn_read w l input out n m :
  Z.of_nat (length l) < 2 ^ 31 → conn v w (l ++ input) out (S (length l) + n) m →
  ∃ w', Nread w (length l) = Ok (mk_received (Z.of_nat (length l)) l, w') ∧ conn v w' input out n m.
Proof.
  intros Hl [Hp Hs Hi Ho].
  destruct (Nread_complete v n w (length l) Hl Hp) as (w' & Hw & Hp' & Hf);
    [rewrite Hi, length_app; lia|].
  rewrite Hi, take_app_length in Hw. rewrite Hi, drop_app_length in Hf.
  exists w'. split; [done|]. pose proof (Nread_output _ _ _ _ Hw) as Hout.
  split; [done|by eapply same_output_steady|done|]. destruct Hout as [_ ->]. done.
Qed.

Lemma conn_recv w c input out n m :
  conn v w (c :: input) out n m →
  ∃ w', os_recv w 1 0 = (Rd 1 [c], w') ∧ conn v w' input out n m.
Proof.
  intros [Hp Hs Hi Ho].
  destruct (os_recv_prompt v n w 1 Hp) as (d & w' & Hr & Hd & Hp'); [by rewrite Hi|lia|].
  destruct (os_recv_stream _ _ _ _ (prompt_stream _ _ _ Hp) Hr) as (_ & _ & _ & _ & Hlen & Hf).
  rewrite Hi in Hf. destruct d as [|x [|y d]]; [done| |cbn in Hlen; lia].
  injection Hf as <- Hf. exists w'. split; [done|].
  pose proof (os_recv_output _ _ _ _ _ Hr) as Hout.
  split; [done|by eapply same_output_steady|done|]. destruct Hout as [_ ->]. done.
Qed.

Lemma conn_JSON_write w input out n m json text :
  json_wf 0 json = true → render false 0 json = Some text → Z.of_nat (length text) + 8 < 2 ^ 31 →
  conn v w input out n (length (frame text) + m) →
  ∃ w', JSON_write w json = Ok (0, w') ∧ conn v w' input (out ++ frame text) n m.
Proof.
  intros Hw Ht Hl [Hp Hs Hi Ho].
  destruct (JSON_write_steady_rest m w json text Hw Ht Hl Hs) as (w' & Hwr & Hsent & Hst).
  exists w'. split; [done|]. pose proof (JSON_write_same_input _ _ _ _ Hwr) as Hin.
  split; [by eapply same_input_prompt|done| |congruence].
  destruct Hin as (_ & -> & _). done.
Qed.

Lemma conn_JSON_read w input out n m json text max_size :
  json_wf 0 json = true → render false 0 json = Some text → Z.of_nat (length text) + 8 < 2 ^ 31 →
  max_size = 0 ∨ Z.of_nat (length text) ≤ max_size < 2 ^ 31 →
  conn v w (frame text ++ input) out (6 + length text + n) m →
  ∃ w', JSON_read w max_size = Ok (Some (parsed json), w') ∧ conn v w' input out n m.
Proof.
  intros Hw Ht Hl Hm [Hp Hs Hi Ho].
  destruct (JSON_read_frame_rest n v w json text input max_size Hw Ht Hl Hm Hi Hp) as (w' & Hr & Hf & Hp').
  exists w'. split; [done|]. pose proof (JSON_read_output _ _ _ _ Hr) as Hout.
  split; [done|by eapply same_output_steady|done|]. destruct Hout as [_ ->]. done.
Qed.

Lemma conn_now w input out n m :
  conn v w input out n m → ∃ t w', os_now w = (t, w') ∧ conn v w' input out n m.
Proof.
  intros [Hp Hs Hi Ho]. destruct (os_now_prompt v n w Hp) as (t & w' & Hn & _ & Hr & Hp').
  exists t, w'. split; [done|]. pose proof (os_now_output _ _ _ Hn) as Hout.
  split; [done|by eapply same_output_steady|congruence|]. destruct Hout as [_ ->]. done.
Qed.

(** A routine that only reads the clock. *)
Lemma conn_clock w w' input out n m : clock_read w w' → conn v w input out n m → conn v w' input out n m.
Proof.
  intros Hr. induction Hr as [w|w w1 w2 Hr1 IH1 Hr2 IH2|w]; [done|by intros Hc; apply IH2, IH1|].
  intros Hc. destruct (conn_now _ _ _ _ _ Hc) as (t & w' & -> & Hc'). done.
Qed.

Lemma conn_le w input out n m n' m' :
  conn v w input out n m → (n' ≤ n)%nat → (m' ≤ m)%nat → conn v w input out n' m'.
Proof.
  intros [Hp [Ha Hs] Hi Ho] Hn Hm. split; [by eapply prompt_le|split; [done|lia]|done|done].
Qed.

Lemma conn_state s test w input out n m :
  0 ≤ ctrl_sck test → conn v (net w) input out n (1 + m) →
  ∃ w', set_send_state s test w = Ok (0, test <| state := s |>, w') ∧
        conn v (net w') input (out ++ [chr s]) n m ∧ wheel w' = wheel w ∧ log w' = log w.
Proof.
  intros Hc Hconn. destruct (conn_write (net w) input out n m [chr s]) as (n' & Hw & Hconn'); [done|done|].
  exists (w <| net := n' |>). unfold set_send_state, on_net, iperf_set_send_state, iperf_set_test_state.
  ztest. rewrite Hw. by split_and!.
Qed.
End Conn.

(** The statistics of a test that is over: the streams keep their numbers, and
    the connection its bytes. *)
Lemma stats_stream_id tr t now temp sp : sp_id (stats_stream tr t now temp sp).1 = sp_id sp.
Proof. unfold stats_stream, stats_read. by repeat case_goal. Qed.

Lemma stats_streams_ids tr t l : ∀ temp total w,
  let '(l', _, w') := stats_streams tr t temp total l w in map sp_id l' = map sp_id l ∧ clock_read w w'.
Proof.
  induction l as [|sp l IH]; intros temp total w; cbn [stats_streams]; [split; [done|constructor]|].
  pose proof (clock_read_once w) as Hc. destruct (os_now w) as [now w1]. cbn [snd] in Hc.
  pose proof (stats_stream_id tr t now temp sp) as Hid.
  destruct (stats_stream tr t now temp sp) as [sp' temp']. cbn [fst] in Hid.
  specialize (IH temp' (u64 (total + (rs_bytes_sent_this_interval (sp_result sp) + rs_bytes_received_this_interval (sp_result sp)))) w1).
  destruct (stats_streams tr t temp' _ l w1) as [[l' total'] w'].
  destruct IH as [Hm Hw]. split; [cbn; by rewrite Hid, Hm|by eapply clock_read_trans].
Qed.

Lemma stats_done tr g t w :
  done t ≠ 0 →
  ∃ l w', iperf_stats_callback tr g t w = Ok (t <| streams := l |>, w') ∧
          map sp_id l = map sp_id (streams t) ∧ clock_read w w'.
Proof.
  intros Hd. unfold iperf_stats_callback.
  pose proof (stats_streams_ids tr t (streams t) (g <| ir_omitted := omitting t |>) 0 w) as H.
  destruct (stats_streams tr t _ 0 (streams t) w) as [[l total] w']. exists l, w'.
  unfold iperf_check_total_rate. change (done (t <| streams := l |>)) with (done t).
  rewrite (proj2 (Z.eqb_neq _ _) Hd). cbn [negb orb]. by case_goal.
Qed.

(** ** What the set-up of the streams and timers leaves alone *)

Definition plan (t : iperf_test) :=
  (role t, mode t, protocol t, num_streams t, settings t, (omit t, duration t), (ctrl_sck t, state t),
   (stats_interval t, reporter_interval t), (no_delay t, congestion t), (blocks_received t, bitrate_limit_exceeded t)).

(** The numbers and directions of the streams. *)
Definition numbered (t : iperf_test) : list (Z * bool) :=
  map (fun sp => (sp_id sp, sp_sender sp)) (streams t).

Lemma length_numbered t : length (numbered t) = length (streams t).
Proof. apply length_map. Qed.

Lemma add_stream_numbered t sp :
  Z.of_nat (length (streams t)) < 2 ^ 31 - 2 →
  numbered (iperf_add_stream t sp) = numbered t ++ [(stream_id (length (streams t)), sp_sender sp)].
Proof.
  intros Hl. unfold numbered, iperf_add_stream, stream_id. cbn. rewrite map_app. f_equal. cbn. do 2 f_equal.
  destruct (streams t) as [|x l]; [done|]. cbn [length] in *. apply wraps_id; unfold in_s; lia.
Qed.

Lemma init_test_ok t w :
  numbered (iperf_init_test t w).1 = numbered t ∧ plan (iperf_init_test t w).1 = plan t ∧
  (iperf_init_test t w).2 = (os_now w).2.
Proof.
  unfold iperf_init_test. destruct (os_now w) as [now w']. split_and!; [|done|done].
  unfold numbered. cbn. rewrite map_map. done.
Qed.

Lemma send_timers_ok t :
  numbered (iperf_create_send_timers t) = numbered t ∧ plan (iperf_create_send_timers t) = plan t.
Proof. split; [|done]. unfold numbered. cbn. by rewrite map_map. Qed.

(** ** The timers of a test start *)

Definition wheel_ok (s : tmr) : Prop := ∃ xs fs, wf s xs fs.

(** A period that is off or fits a 64-bit number of microseconds. *)
Definition period_ok (x : double) : Prop := Deqb x D0 = true ∨ is_Some (period_us x).

Lemma create_ok now proc data us per s :
  wheel_ok s → ∃ x s', tmr_create now proc data us per s = Ok (x, s') ∧ wheel_ok s'.
Proof.
  intros (xs & fs & Hwf). destruct (tmr_create_spec s xs fs now proc data us per Hwf) as (s' & Hr & _ & Hwf' & _).
  by eexists _, s'; split; [exact Hr|eexists _, _].
Qed.

Lemma create_periodic_ok now k x s :
  period_ok x → wheel_ok s → ∃ t s', create_periodic now k x s = Ok (t, s') ∧ wheel_ok s'.
Proof.
  unfold period_ok, create_periodic. intros Hx Hs. destruct (Deqb x D0); [by eexists _, s|].
  destruct Hx as [?|[us ->]]; [done|].
  destruct (create_ok now (kind_number k) 0 us true s Hs) as (t & s' & -> & Hs'). by eexists _, s'.
Qed.

Lemma create_timers_ok g t w :
  period_ok (stats_interval t) → period_ok (reporter_interval t) → wheel_ok (wheel w) →
  ∃ t' w', create_timers g t w = Ok (0, t', w') ∧ plan t' = plan t ∧ streams t' = streams t ∧ omit t' = omit t ∧
           net w' = (os_now (net w)).2 ∧ wheel_ok (wheel w') ∧ log w' = log w.
Proof.
  intros Hs Hr Hw. unfold create_timers, time_now. destruct (os_now (net w)) as [now n]. cbn [snd].
  set (t0 := t <| reporter_timer := None |> <| stats_timer := None |> <| timer := None |>).
  assert (∃ t1 s1, (if duration t0 =? 0 then Ok (t0, wheel w)
     else '(x, s) ← tmr_create now (kind_number Test_timer) 0
                      (i32 (i32 (duration t0 + omit t0) + g) * SEC_TO_US) false (wheel w);
          Ok (t0 <| done := 0 |> <| timer := Some x |>, s)) = Ok (t1, s1) ∧
     plan t1 = plan t ∧ streams t1 = streams t ∧ wheel_ok s1) as (t1 & s1 & H1 & Hp & Hst & Hw1).
  { case_goal; [by eexists _, _|].
    destruct (create_ok now (kind_number Test_timer) 0 (i32 (i32 (duration t0 + omit t0) + g) * SEC_TO_US) false (wheel w) Hw)
      as (x & s & -> & Hws). by eexists _, s. }
  change (wheel (w <| net := n |>)) with (wheel w). rewrite H1, Ok_bind.
  assert (stats_interval t1 = stats_interval t ∧ reporter_interval t1 = reporter_interval t ∧ omit t1 = omit t) as (E1 & E2 & E3)
    by (unfold plan in Hp; split_and!; congruence).
  destruct (create_periodic_ok now Stats_timer (stats_interval t1) s1) as (x2 & s2 & -> & Hw2); [by rewrite E1|done|].
  rewrite Ok_bind. cbn [reporter_interval]. change (reporter_interval (t1 <| stats_timer := x2 |>)) with (reporter_interval t1).
  destruct (create_periodic_ok now Reporter_timer (reporter_interval t1) s2) as (x3 & s3 & -> & Hw3); [by rewrite E2|done|].
  rewrite Ok_bind. by eexists _, _; split_and!; [reflexivity|..].
Qed.

Lemma create_omit_timer_ok t w :
  wheel_ok (wheel w) →
  ∃ t' w', create_omit_timer t w = Ok (0, t', w') ∧ plan t' = plan t ∧ streams t' = streams t ∧
           (net w' = net w ∨ net w' = (os_now (net w)).2) ∧ wheel_ok (wheel w') ∧ log w' = log w.
Proof.
  intros Hw. unfold create_omit_timer. case_goal.
  { eexists _, w. split_and!; [reflexivity|done|done|by left|done|done]. }
  unfold time_now. destruct (os_now (net w)) as [now n]. cbn [snd].
  destruct (create_ok now (kind_number Omit_timer) 0 (omit t * SEC_TO_US) false (wheel w) Hw) as (x & s & Hc & Hws).
  change (omit (t <| omitting := 1 |>)) with (omit t). change (wheel (w <| net := n |>)) with (wheel w).
  rewrite Hc, Ok_bind. eexists _, _. split_and!; [reflexivity|done|done|by right|done|done].
Qed.

(** ** Surroundings in which no call fails *)

Record env_works (e : env) : Prop := {
  works_connect : ∀ t, 0 ≤ (prot_connect e t).1 ∧ (prot_connect e t).2 = t;
  works_listen : ∀ t, 0 ≤ (prot_listen e t).1 ∧ (prot_listen e t).2 = t;
  works_accept : ∀ t, 0 ≤ (prot_accept e t).1 ∧ (prot_accept e t).2 = t;
  works_sockopts : ∀ t s, stream_sockopts e t s = true;
  works_congestion : ∀ t s, set_congestion e t s = None ∧ is_Some (get_congestion_name e t s);
  works_stream : ∀ t s b, ∃ sp, new_stream e t s b = inr sp ∧ sp_sender sp = b;
  works_affinity : ∀ c, affinity_ok e c = true
}.

Lemma use_congestion_ok e tolerant s t :
  env_works e →
  ∃ t', use_congestion e tolerant s t = Some t' ∧ plan t' = plan t ∧ streams t' = streams t.
Proof.
  intros He. destruct (works_congestion _ He t s) as [Hs [ca Hca]].
  unfold use_congestion. rewrite Hs, Hca, andb_false_r.
  case_goal; by eexists.
Qed.

Lemma plan_state t t' s : plan t' = plan t → plan (t' <| state := s |>) = plan (t <| state := s |>).
Proof.
  intros H. unfold plan in H.
  change (plan (t' <| state := s |>)) with
    (role t', mode t', protocol t', num_streams t', settings t', (omit t', duration t'), (ctrl_sck t', s),
     (stats_interval t', reporter_interval t'), (no_delay t', congestion t'), (blocks_received t', bitrate_limit_exceeded t')).
  change (plan (t <| state := s |>)) with
    (role t, mode t, protocol t, num_streams t, settings t, (omit t, duration t), (ctrl_sck t, s),
     (stats_interval t, reporter_interval t), (no_delay t, congestion t), (blocks_received t, bitrate_limit_exceeded t)).
  congruence.
Qed.

(** Fields of tests with the same plan. *)
Ltac plan_field H := solve [ unfold plan in H; first [congruence | cbn in H; congruence] ].

(** ** Surroundings for examples

    Nothing fails; the streams are sockets without results; no credentials. *)

Definition quiet_stream (s : Z) (sender : bool) : iperf_stream :=
  mk_stream s 0 sender 0 (mk_result 0 0 0 0 0 0 0 zero_time zero_time zero_time D0 D0 [])
    false [] 0 0 0 0 0 D0 D0 0 0 0 0 0.

Definition plain_env : env := {|
  IPERF_VERSION := B "3.18";
  encode_credentials := fun _ _ _ => None; key_size := fun _ => 0;
  rsa_decrypt := fun _ _ => []; base64_read := fun _ => []; SHA256 := fun _ => [];
  read_file := fun _ => None; utc_seconds := 0; errno := 0;
  prot_connect := fun t => (7, t); prot_listen := fun t => (5, t); prot_accept := fun t => (8, t);
  stream_sockopts := fun _ _ => true; set_congestion := fun _ _ => None;
  get_congestion_name := fun _ _ => Some (B "cubic");
  new_stream := fun _ s sender => inr (quiet_stream s sender);
  affinity_ok := fun _ => true; total_retransmits := fun _ => 0;
  garbage := mk_interval 0 zero_time zero_time 0 0 0 0 D0 0 0 0 0; cpu_util_now := fun _ => (D0, D0, D0) |}.

Definition wire (input : bytes) (n m : nat) : os :=
  mk_os false [Data input] (replicate m (Accept 1)) (replicate n 1) [mk_time 5 0] [].

Lemma wire_conn input n m : input ≠ [] → conn 5000000 (wire input n m) input [] n m.
Proof.
  intros Hi. split; [split| |cbn; by rewrite app_nil_r|done].
  - done.
  - destruct input; [done|by repeat constructor].
  - split; [done|decided].
  - vm_compute. split; congruence.
  - split; [apply Forall_replicate; lia|cbn; by rewrite length_replicate].
  - split; [by apply Forall_replicate|cbn; by rewrite length_replicate].
Qed.

(** ** Properties *)

(** The wait of the main loop is not capped.  The code caps a copy of the
    timers' timeout at one second ("Cap the maximum select timeout at 1 second")
    and never uses the capped value: with a receive timeout of a second or more
    the loop waits for the next timer, however far it is and even beyond the
    receive timeout; only a receive timeout below both is taken instead. *)
Theorem select_timeout_uncapped s us rcv :
  0 ≤ s → 0 ≤ us < SEC_TO_US →
  let timers := s * SEC_TO_US + us in
  let receive := secs rcv * SEC_TO_US + usecs rcv in
  select_timeout (Some (s, us)) rcv =
    if bool_decide (receive < timers ∧ receive < SEC_TO_US) then (secs rcv, usecs rcv) else (s, us).
Proof.
  intros Hs Hus timers receive. unfold select_timeout. fold timers receive.
  assert (0 ≤ timers) by (unfold timers, SEC_TO_US in *; lia).
  destruct (Z.ltb_spec SEC_TO_US timers).
  - change (SEC_TO_US <? 0) with false. cbn [orb]. destruct (Z.ltb_spec receive SEC_TO_US).
    + rewrite bool_decide_true by lia. done.
    + by rewrite bool_decide_false by lia.
  - ztest. cbn [orb]. destruct (Z.ltb_spec receive timers).
    + by rewrite bool_decide_true by lia.
    + by rewrite bool_decide_false by lia.
Qed.

Lemma select_timeout_uncapped_witness :
  0 ≤ 60 ∧ 0 ≤ 250000 < SEC_TO_US ∧ select_timeout (Some (60, 250000)) (mk_time 5 0) = (60, 250000).
Proof.
  split_and!; [lia|lia|unfold SEC_TO_US; lia|].
  etransitivity; [apply (select_timeout_uncapped 60 250000 (mk_time 5 0)); [lia|unfold SEC_TO_US; lia]|reflexivity].
Defined.
