(* ===== verification/Client.v ===== *)
(** * The client ([src/iperf_client_api.c])

    [iperf_connect], the reaction to a message of the server
    ([iperf_handle_message_client]), the end of a test and the loop of
    [iperf_run_client].  The loop is a function of the answers of [select]; the
    threads of the streams are not part of it (they move bytes and update
    counters, see [Stats.v]). *)

From S2P Require Import Prelude Errno CInt CDouble CStdio Json JsonPrint JsonParse JsonRoundtrip JsonBuild IperfTime Net.
From S2P Require Import Control Timer Test Params Auth Results Stats Endpoint.

(** What the kernel answers to the set-up of the control connection: [netdial],
    the socket options, [TCP_MAXSEG]. *)
Record dial_answers := mk_dial {
  dial_fd : Z;
  nodelay_ok : bool;
  keepalive_ok : bool;
  user_timeout_ok : bool;
  maxseg : option Z
}.

Definition iperf_client_end (test : iperf_test) (w : world) : outcome (Z * iperf_test * world) :=
  let w := if protocol test =? Pquic then w else close_streams test w in
  let w := reporter test w in
  '(r, test, w) ← (if 0 <? state test then set_send_state IPERF_DONE test w else Ok (0, test, w));
  if negb (r =? 0) then Ok (-1, test, w)
  else Ok (0, test, if 0 <=? ctrl_sck test then logged (Closed (ctrl_sck test)) w else w).

Definition iperf_connect (cookie_text : bytes) (a : dial_answers) (test : iperf_test) (w : world)
  : outcome (Z * iperf_test * world) :=
  let fail e test := Ok (-1, test <| i_errno := e |>, w) in
  let test := test <| write_set := ∅ |> <| read_set := ∅ |> <| cookie := cookie_text |> in
  let test := if ctrl_sck test <? 0 then test <| ctrl_sck := dial_fd a |> else test in
  if ctrl_sck test <? 0 then fail IECONNECT test
  else if negb (nodelay_ok a) then fail IESETNODELAY test
  else if negb (keepalive_ok a) then Ok (-1, test, w)
  else if set (snd_timeout (settings test)) && negb (user_timeout_ok a) then fail IESETUSERTIMEOUT test
  else
    '(r, n) ← Nwrite (net w) (cookie test);
    let w := w <| net := n |> in
    if r <? 0 then Ok (-1, test <| i_errno := IESENDCOOKIE |>, w)
    else
      let test := test <| max_fd := Z.max (ctrl_sck test) (max_fd test) |>
                       <| read_set ::= (fun x => {[ctrl_sck test]} ∪ x) |> in
      let ctrl_sck_mss :=
        match maxseg a with
        | Some opt => if (0 <? opt) && (opt <=? MAX_UDP_BLOCKSIZE) then opt else 0
        | None => 0
        end in
      let test :=
        if (protocol test =? Pudp) && (blksize (settings test) =? 0)
        then on_settings (fun s => s <| blksize := if set ctrl_sck_mss then ctrl_sck_mss else DEFAULT_UDP_BLKSIZE |>) test
        else test in
      Ok (0, test, w).

Section Client.
Context (e : env).

(** The local port of stream [i], where the user chose one with [--cport]. *)
Definition stream_port (test : iperf_test) (sender : bool) (i : Z) : Z :=
  if bind_port test =? 0 then 0
  else i32 (i32 (bind_port test + i) + (if negb sender && (mode test =? BIDIRECTIONAL) then num_streams test else 0)).

(** The loop of [iperf_create_streams] from its counter [i] on; [n] streams are to
    come. *)
Fixpoint create_streams_from (i : Z) (n : nat) (sender : bool) (test : iperf_test) (w : world)
  : outcome (Z * iperf_test * world) :=
  match n with
  | O => Ok (0, test, w)
  | S n' =>
      let orig_bind_port := bind_port test in
      let '(s, test) := prot_connect e (test <| bind_port := stream_port test sender i |>) in
      let test := test <| bind_port := orig_bind_port |> in
      if s <? 0 then Ok (-1, test, w)
      else match use_congestion e false s test with
      | None => Ok (-1, test <| i_errno := IESETCONGESTION |>, logged (Closed s) w)
      | Some test =>
          match new_stream e test s sender with
          | inl err => Ok (-1, test <| i_errno := err |>, w)
          | inr sp =>
              let test := iperf_add_stream test sp in
              create_streams_from (i + 1) n' sender test (logged (On_new_stream (stream_id (length (streams test) - 1))) w)
          end
      end
  end.

Definition iperf_create_streams (sender : bool) (test : iperf_test) (w : world)
  : outcome (Z * iperf_test * world) :=
  create_streams_from 0 (Z.to_nat (num_streams test)) sender test w.

Definition test_timer_proc (test : iperf_test) (w : world) : outcome (iperf_test * world) :=
  Ok (test <| timer := None |> <| done := 1 |>, w).

Definition create_streams (test : iperf_test) (w : world) : outcome (Z * iperf_test * world) :=
  if mode test =? BIDIRECTIONAL then
    or_fail (iperf_create_streams true test w) (fun test w =>
    or_fail (iperf_create_streams false test w) (fun test w => Ok (0, test, w)))
  else or_fail (iperf_create_streams (set (mode test)) test w)
         (fun test w => Ok (0, test, w)).

(** The message [TEST_START]. *)
Definition start_test (test : iperf_test) (w : world) : outcome (Z * iperf_test * world) :=
  let '(test, n) := iperf_init_test test (net w) in
  or_fail (create_timers 0 test (w <| net := n |>)) (fun test w =>
  or_fail (create_omit_timer test w) (fun test w =>
  Ok (0, if set (mode test) then iperf_create_send_timers test else test, w))).

(** An [int32_t] in network order; the variable keeps an indeterminate part when
    the read is short. *)
Definition read_int32 (test : iperf_test) (w : world) : outcome (option Z * world) :=
  '(rc, n) ← Nread (net w) 4;
  let w := w <| net := n |> in
  if ret rc <? 0 then Ok (None, w)
  else if decide (length (filled rc) < 4)%nat then Undef
  else Ok (Some (i32 (be_combine (filled rc))), w).

Definition server_error (test : iperf_test) (w : world) : outcome (Z * iperf_test * world) :=
  '(err, w) ← read_int32 test w;
  match err with
  | None => Ok (-1, test <| i_errno := IECTRLREAD |>, w)
  | Some err =>
      let test := test <| i_errno := err |> in
      '(err, w) ← read_int32 test w;
      match err with
      | None => Ok (-1, test <| i_errno := IECTRLREAD |>, w)
      | Some _ => Ok (-1, test, w)           (* errno *)
      end
  end.

(** The reaction to the state just read. *)
Definition client_reaction (test : iperf_test) (w : world) : outcome (Z * iperf_test * world) :=
  let s := state test in
  if s =? PARAM_EXCHANGE then
    or_fail (on_net (exchange_parameters e) test w)
      (fun test w => Ok (0, test, logged On_connect w))
  else if s =? CREATE_STREAMS then create_streams test w
  else if s =? TEST_START then start_test test w
  else if s =? TEST_RUNNING then Ok (0, test, w)
  else if s =? EXCHANGE_RESULTS then
    or_fail (on_net iperf_exchange_results test w) (fun test w => Ok (0, test, w))
  else if s =? DISPLAY_RESULTS then
    '(_, test, w) ← iperf_client_end test (logged On_test_finish w); Ok (0, test, w)
  else if s =? IPERF_DONE then Ok (0, test, w)
  else if s =? SERVER_TERMINATE then
    let test := test <| i_errno := IESERVERTERM |> in
    let test := measure_cpu e test w in
    Ok (-1, test, logged (Reported DISPLAY_RESULTS) w)
  else if s =? ACCESS_DENIED then Ok (-1, test <| i_errno := IEACCESSDENIED |>, w)
  else if s =? SERVER_ERROR then server_error test w
  else Ok (-1, test <| i_errno := IEMESSAGE |>, w).

(** [read] of one byte into [test->state]. *)
Definition iperf_handle_message_client (test : iperf_test) (w : world)
  : outcome (Z * iperf_test * world) :=
  let '(res, n) := os_recv (net w) 1 0 in
  let w := w <| net := n |> in
  match res with
  | Rd_error _ => Ok (-1, test <| i_errno := IERECVMESSAGE |>, w)
  | Rd _ [] => Ok (-1, test <| i_errno := IECTRLCLOSE |>, w)
  | Rd _ (c :: _) => client_reaction (test <| state := i8 (u8 c) |>) w
  end.

(** ** The loop *)

(** The variables of [iperf_run_client]. *)
Record progress := mk_progress {
  startup : bool;
  last_receive_time : iperf_time;
  last_receive_blocks : Z
}.
#[export] Instance eta_progress : Settable progress := fun p =>
  mk_progress (startup p) (last_receive_time p) (last_receive_blocks p).

(** The answer of [select]: its value, whether [errno] is [EINTR], and whether
    the control socket is readable. *)
Record select_answer := mk_select { sel : Z; interrupted : bool; ctrl_ready : bool }.

Definition rcv_timeout_us (test : iperf_test) : Z :=
  if mode test =? SENDER then 0
  else secs (rcv_timeout (settings test)) * SEC_TO_US + usecs (rcv_timeout (settings test)).

(** Nothing arrived for [rcv_timeout]. *)
Definition receiver_idle (p : progress) (now : iperf_time) (timeout : Z) (test : iperf_test) : bool :=
  let '(past, d) := iperf_time_diff now (last_receive_time p) in
  (past =? 0) && (timeout <? i64 (iperf_time_in_usecs d)) &&
  (blocks_received test =? last_receive_blocks p).

Definition test_is_over (test : iperf_test) : bool :=
  let s := settings test in
  (omitting test =? 0) &&
  (negb (done test =? 0) ||
   (set (bytes_limit s) && ((bytes_limit s <=? bytes_sent test) || (bytes_limit s <=? bytes_received test))) ||
   (set (blocks_limit s) && ((blocks_limit s <=? blocks_sent test) || (blocks_limit s <=? blocks_received test)))).

Definition stop_senders (test : iperf_test) : iperf_test :=
  test <| streams ::= map (fun sp => if sp_sender sp then sp <| sp_done := 1 |> else sp) |>.
Definition stop_receivers (test : iperf_test) : iperf_test :=
  test <| streams ::= map (fun sp => if sp_sender sp then sp else sp <| sp_done := 1 |>) |>.
Definition stop_all (test : iperf_test) : iperf_test :=
  test <| streams ::= map (fun sp => sp <| sp_done := 1 |>) |>.

(** The part of the loop for the state [TEST_RUNNING]. *)
Definition run_turn (fuel : nat) (test : iperf_test) (w : world)
  : outcome (Z * iperf_test * world) :=
  let '(now, w) := time_now w in
  '(test, w) ← run_timers e test_timer_proc fuel now test w;
  if test_is_over test then
    let test := stop_senders test <| done := 1 |> in
    let test := measure_cpu e test w in
    '(test, w) ← stats e test w;
    '(r, test, w) ← set_send_state TEST_END test w;
    Ok ((if negb (r =? 0) then -1 else 0), test, w)
  else Ok (0, test, w).

(** One turn of the loop; -1 is the jump to [cleanup_and_fail].  [a] answers the
    [select] of this turn, whose timeout is the argument [select_timeout] of
    [Endpoint.v] computes. *)
Definition client_turn (fuel : nat) (a : select_answer) (p : progress) (test : iperf_test) (w : world)
  : outcome (Z * progress * iperf_test * world) :=
  let '(now, w) := time_now w in
  if (sel a <? 0) && negb (interrupted a) then Ok (-1, p, test <| i_errno := IESELECT |>, w)
  else
    let watch := (sel a =? 0) && (state test =? TEST_RUNNING) && (0 <? rcv_timeout_us test) in
    let '(now, w) := if watch then time_now w else (now, w) in
    if watch && receiver_idle p now (rcv_timeout_us test) test
    then Ok (-1, p, test <| i_errno := IENOMSG |>, w)
    else
      let p := if last_receive_blocks p <? blocks_received test
               then p <| last_receive_blocks := blocks_received test |> <| last_receive_time := now |> else p in
      '(r, test, w) ← (if (0 <? sel a) && ctrl_ready a then iperf_handle_message_client test w
                       else Ok (0, test, w));
      if r <? 0 then Ok (-1, p, test, w)
      else if state test =? TEST_RUNNING then
        '(r, test, w) ← run_turn fuel test w;
        Ok (r, p <| startup := false |>, test, w)
      else Ok (0, p, test, w).

Definition cleanup_and_fail (test : iperf_test) (w : world) : outcome (Z * iperf_test * world) :=
  '(_, test, w) ← iperf_client_end (stop_all test) w; Ok (-1, test, w).

(** The loop, over the answers of [select]. *)
Fixpoint client_loop (fuel : nat) (answers : list select_answer) (p : progress) (test : iperf_test) (w : world)
  : outcome (Z * iperf_test * world) :=
  if state test =? IPERF_DONE then Ok (0, stop_receivers test, w)
  else match answers with
  | [] => NoFuel
  | a :: answers =>
      '(r, p, test, w) ← client_turn fuel a p test w;
      if r <? 0 then cleanup_and_fail test w else client_loop fuel answers p test w
  end.

Definition iperf_run_client (cookie_text : bytes) (a : dial_answers) (fuel : nat)
    (answers : list select_answer) (test : iperf_test) (w : world) : outcome (Z * iperf_test * world) :=
  let '(r, test) := if affinity test =? -1 then (0, test) else iperf_setaffinity e test (Some (affinity test)) in
  if negb (r =? 0) then Ok (-1, test, w)
  else
  '(r, test, w) ← iperf_connect cookie_text a test w;
  if r <? 0 then cleanup_and_fail test w
  else
    let '(now, w) := time_now w in
    client_loop fuel answers (mk_progress true now 0) test w.
End Client.

(** An answer for examples. *)
Definition good_dial (fd : Z) : dial_answers := mk_dial fd true true true (Some 1460).

(** ** The streams of a test *)

(** The numbers [k], ..., [k + n - 1], all of one direction. *)
Definition stream_block (k n : nat) (sender : bool) : list (Z * bool) :=
  map (fun i => (stream_id i, sender)) (seq k n).

Lemma stream_block_S k n sender :
  stream_block k (S n) sender = (stream_id k, sender) :: stream_block (S k) n sender.
Proof. done. Qed.

Lemma create_streams_from_ok e n i sender t w :
  env_works e → Z.of_nat (length (streams t) + n) < 2 ^ 31 - 2 →
  ∃ t' w', create_streams_from e i n sender t w = Ok (0, t', w') ∧ plan t' = plan t ∧
           numbered t' = numbered t ++ stream_block (length (streams t)) n sender ∧
           net w' = net w ∧ wheel w' = wheel w.
Proof.
  intros He. revert i t w. induction n as [|n IH]; intros i t w Hl.
  { exists t, w. split_and!; try done. unfold stream_block. by rewrite app_nil_r. }
  cbn [create_streams_from].
  destruct (works_connect _ He (t <| bind_port := stream_port t sender i |>)) as [Hs Ht].
  destruct (prot_connect e _) as [s t1]. cbn [fst snd] in Hs, Ht. subst t1. ztest.
  set (t1 := _ <| bind_port := bind_port t |>).
  destruct (use_congestion_ok e false s t1 He) as (t2 & -> & Hp2 & Hs2).
  destruct (works_stream _ He t2 s sender) as (sp & -> & Hsp).
  assert (streams t2 = streams t) as Est by (rewrite Hs2; done).
  pose proof (add_stream_numbered t2 sp) as Hn. rewrite Est in Hn. specialize (Hn ltac:(lia)).
  set (t3 := iperf_add_stream t2 sp) in *.
  assert (length (streams t3) = S (length (streams t))) as El.
  { rewrite <- (length_numbered t3), Hn, length_app, length_numbered, Est. cbn. lia. }
  destruct (IH (i + 1) t3 (logged (On_new_stream (stream_id (length (streams t3) - 1))) w))
    as (t' & w' & -> & Hp' & Hn' & Hnet & Hwh); [rewrite El; lia|].
  exists t', w'. split_and!; [done| | |done|done].
  - rewrite Hp'. change (plan t3) with (plan t2). rewrite Hp2. done.
  - rewrite Hn', Hn, El, Hsp, stream_block_S, <- app_assoc. cbn [app]. f_equal. unfold numbered. by rewrite Est.
Qed.

(** The streams a client creates: in both directions, the ones it sends first. *)
Definition client_streams (mode n : Z) : list (Z * bool) :=
  let n := Z.to_nat n in
  if mode =? BIDIRECTIONAL then stream_block 0 n true ++ stream_block n n false
  else stream_block 0 n (set mode).

Lemma create_streams_ok e t w :
  env_works e → streams t = [] → 2 * num_streams t < 2 ^ 31 - 2 →
  ∃ t' w', create_streams e t w = Ok (0, t', w') ∧ plan t' = plan t ∧
           numbered t' = client_streams (mode t) (num_streams t) ∧ net w' = net w ∧ wheel w' = wheel w.
Proof.
  intros He Hst Hn. unfold create_streams, client_streams, iperf_create_streams.
  assert (numbered t = []) as Hnum by (unfold numbered; by rewrite Hst).
  destruct (mode t =? BIDIRECTIONAL) eqn:Em.
  - destruct (create_streams_from_ok e (Z.to_nat (num_streams t)) 0 true t w He)
      as (t1 & w1 & -> & Hp1 & Hn1 & Hnet1 & Hw1); [rewrite Hst; cbn; lia|].
    cbn. assert (num_streams t1 = num_streams t) as -> by (unfold plan in Hp1; congruence).
    rewrite Hnum, Hst in Hn1. cbn in Hn1.
    assert (length (streams t1) = Z.to_nat (num_streams t)) as El.
    { rewrite <- length_numbered, Hn1. unfold stream_block. by rewrite length_map, length_seq. }
    destruct (create_streams_from_ok e (Z.to_nat (num_streams t)) 0 false t1 w1 He)
      as (t2 & w2 & -> & Hp2 & Hn2 & Hnet2 & Hw2); [rewrite El; lia|].
    exists t2, w2. cbn. split_and!; [done|congruence| |congruence|congruence]. by rewrite Hn2, Hn1, El.
  - destruct (create_streams_from_ok e (Z.to_nat (num_streams t)) 0 (set (mode t)) t w He)
      as (t1 & w1 & -> & Hp1 & Hn1 & Hnet1 & Hw1); [rewrite Hst; cbn; lia|].
    exists t1, w1. cbn. split_and!; [done|done| |done|done]. by rewrite Hn1, Hnum, Hst.
Qed.

(** The test starts. *)
Lemma start_test_ok t w :
  period_ok (stats_interval t) → period_ok (reporter_interval t) → wheel_ok (wheel w) →
  ∃ t' w', start_test t w = Ok (0, t', w') ∧ plan t' = plan t ∧ numbered t' = numbered t ∧
           wheel_ok (wheel w') ∧ clock_read (net w) (net w').
Proof.
  intros Hs Hr Hw. unfold start_test.
  destruct (init_test_ok t (net w)) as (Hn0 & Hp0 & Hnet0). destruct (iperf_init_test t (net w)) as [t0 n0].
  cbn [fst snd] in *. subst n0.
  assert (stats_interval t0 = stats_interval t ∧ reporter_interval t0 = reporter_interval t) as [E1 E2]
    by (unfold plan in Hp0; split; congruence).
  destruct (create_timers_ok 0 t0 (w <| net := (os_now (net w)).2 |>)) as (t1 & w1 & -> & Hp1 & Hs1 & _ & Hnet1 & Hw1 & _);
    [by rewrite E1|by rewrite E2|done|].
  destruct (create_omit_timer_ok t1 w1 Hw1) as (t2 & w2 & Hc2 & Hp2 & Hs2 & Hnet2 & Hw2 & _).
  cbn. rewrite Hc2. cbn.
  assert (numbered t2 = numbered t) as Hn2 by (unfold numbered in *; congruence).
  exists (if set (mode t2) then iperf_create_send_timers t2 else t2), w2.
  destruct (send_timers_ok t2) as [Hn3 Hp3].
  split_and!; [done| | |done|].
  - destruct (set (mode t2)); congruence.
  - destruct (set (mode t2)); congruence.
  - apply clock_read_trans with (os_now (net w)).2; [apply clock_read_once|].
    apply clock_read_trans with (net w1); [rewrite Hnet1; apply clock_read_once|].
    destruct Hnet2 as [-> | ->]; [constructor|apply clock_read_once].
Qed.
