(* ===== verification/Server.v ===== *)
(** * The server ([src/iperf_server_api.c])

    [iperf_accept], the reaction to a message of the client
    ([iperf_handle_message_server]), the timers, the clean-up, and the loop of
    [iperf_run_server] over the answers of [select]. *)

From S2P Require Import Prelude Errno CInt CDouble CStdio Json JsonPrint JsonParse JsonRoundtrip JsonBuild IperfTime Net.
From S2P Require Import Control Timer Test Params Auth Results Stats Endpoint Client.

Section Server.
Context (e : env).

(** ** A new connection *)

(** The answers are those of [accept] and of the options of the socket. *)
Definition iperf_accept (a : dial_answers) (test : iperf_test) (w : world)
  : outcome (Z * iperf_test * world) :=
  let s := dial_fd a in
  let fail test w := Ok (-1, test, logged (Closed s) w) in
  if s <? 0 then Ok (-1, test <| i_errno := IEACCEPT |>, w)
  else if ctrl_sck test =? -1 then
    let test := test <| ctrl_sck := s |> in
    if negb (nodelay_ok a) then fail (test <| i_errno := IESETNODELAY |>) w
    else if set (snd_timeout (settings test)) && negb (user_timeout_ok a)
    then fail (test <| i_errno := IESETUSERTIMEOUT |>) w
    else if negb (keepalive_ok a) then Ok (-1, test, w)
    else
      '(rc, n) ← Nread (net w) COOKIE_SIZE;
      let w := w <| net := n |> in
      let test := test <| cookie := filled rc ++ drop (length (filled rc)) (cookie test) |> in
      if negb (ret rc =? Z.of_nat COOKIE_SIZE) then fail (test <| i_errno := IERECVCOOKIE |>) w
      else
        let test := test <| max_fd := Z.max (ctrl_sck test) (max_fd test) |>
                         <| read_set ::= (fun x => {[ctrl_sck test]} ∪ x) |> in
        '(r, test, w) ← set_send_state PARAM_EXCHANGE test w;
        if negb (r =? 0) then fail test w
        else
          '(r, test, w) ← on_net (exchange_parameters e) test w;
          if r <? 0 then fail test w
          else
            let '(r, test) := if server_affinity test =? -1 then (0, test)
                              else iperf_setaffinity e test (Some (server_affinity test)) in
            if negb (r =? 0) then fail test w
            else Ok (0, test, logged On_connect w)
  else Ok (0, test, logged (Closed s) (logged (Denied s) w)).

(** ** A message of the client *)

(** The sockets of the streams leave the sets and are closed. *)
Definition drop_sockets (test : iperf_test) : iperf_test :=
  test <| read_set ::= (fun x => foldl (fun x sp => x ∖ {[sp_socket sp]}) x (streams test)) |>
       <| write_set ::= (fun x => foldl (fun x sp => x ∖ {[sp_socket sp]}) x (streams test)) |>.
Definition drop_streams (test : iperf_test) (w : world) : iperf_test * world :=
  (drop_sockets test, close_streams test w).

Definition is_quic (test : iperf_test) : bool := protocol test =? Pquic.

(** The message [TEST_END].  A QUIC server goes on after a failure. *)
Definition test_end (test : iperf_test) (w : world) : outcome (Z * iperf_test * world) :=
  let test := test <| done := 1 |> in
  let test := measure_cpu e test w in
  '(test, w) ← stats e test w;
  let '(test, w) := if is_quic test then (test, w) else drop_streams test w in
  '(r, test, w) ← set_send_state EXCHANGE_RESULTS test w;
  if negb (r =? 0) && negb (is_quic test) then Ok (-1, test, w)
  else
    '(r, test, w) ← (if r =? 0 then on_net iperf_exchange_results test w else Ok (0, test, w));
    if (r <? 0) && negb (is_quic test) then Ok (-1, test, w)
    else
      let test := test <| summary_printed := 1 |> in
      let w := logged Summary w in
      '(r, test, w) ← set_send_state DISPLAY_RESULTS test w;
      if negb (r =? 0) && negb (is_quic test) then Ok (-1, test, w)
      else
        let w := logged On_test_finish w in
        Ok (0, if is_quic test && set (one_off test) then iperf_set_test_state test IPERF_DONE else test, w).

Definition client_terminated (test : iperf_test) (w : world) : outcome (Z * iperf_test * world) :=
  let test := test <| i_errno := IECLIENTTERM |> in
  let test := measure_cpu e test w in
  let w := logged (Reported DISPLAY_RESULTS) w in
  let '(test, w) := if is_quic test then (test, w) else drop_streams test w in
  Ok (0, iperf_set_test_state test IPERF_DONE, w).

Definition server_reaction (test : iperf_test) (w : world) : outcome (Z * iperf_test * world) :=
  let s := state test in
  if s =? TEST_START then Ok (0, test, w)
  else if s =? TEST_END then test_end test w
  else if s =? IPERF_DONE then Ok (0, test, w)
  else if s =? CLIENT_TERMINATE then client_terminated test w
  else Ok (-1, test <| i_errno := IEMESSAGE |>, w).

Definition iperf_handle_message_server (test : iperf_test) (w : world)
  : outcome (Z * iperf_test * world) :=
  '(rc, n) ← Nread (net w) 1;
  let w := w <| net := n |> in
  if ret rc <=? 0 then
    if ret rc =? 0 then Ok (0, iperf_set_test_state (test <| i_errno := IECTRLCLOSE |>) IPERF_DONE, w)
    else Ok (-1, test <| i_errno := IERECVMESSAGE |>, w)
  else match filled rc with
  | c :: _ => server_reaction (test <| state := i8 (u8 c) |>) w
  | [] => Undef
  end.

(** ** Timers *)

Definition print_summary (test : iperf_test) (w : world) : iperf_test * world :=
  (test <| summary_printed := 1 |>, logged Summary w).

Definition server_timer_proc (test : iperf_test) (w : world) : outcome (iperf_test * world) :=
  let test := test <| timer := None |> in
  if negb (done test =? 0) then Ok (test, w)
  else
    let test := test <| done := 1 |> in
    if is_quic test then Ok (test, w)
    else
      let test := measure_cpu e test w in
      '(test, w) ← stats e test w;
      let '(test, w) := if summary_printed test =? 0 then print_summary test w else (test, w) in
      Ok (test <| ctrl_sck := -1 |>, logged (Closed (ctrl_sck test)) w).

(** Room for ten state changes of four seconds each. *)
Definition grace_period : Z := 4 * 10.

(** ** Clean-up *)

Definition cancel (t : option loc) (s : tmr) : outcome tmr :=
  match t with Some t => tmr_cancel t s | None => Ok s end.

Definition cancel_timers (test : iperf_test) (w : world) : outcome (iperf_test * world) :=
  s ← cancel (stats_timer test) (wheel w);
  s ← cancel (reporter_timer test) s;
  s ← cancel (omit_timer test) s;
  s ← cancel (timer test) s;
  Ok (test <| timer := None |> <| omit_timer := None |> <| reporter_timer := None |>
           <| stats_timer := None |> <| congestion_used := None |>, w <| wheel := s |>).

Definition close_if_open (s : Z) (w : world) : world := if -1 <? s then logged (Closed s) w else w.

(** Close the open streams and mark their sockets. *)
Definition close_open_streams (test : iperf_test) (w : world) : iperf_test * world :=
  let open := List.filter (fun sp => -1 <? sp_socket sp) (streams test) in
  (test <| read_set ::= (fun x => foldl (fun x sp => x ∖ {[sp_socket sp]}) x open) |>
        <| write_set ::= (fun x => foldl (fun x sp => x ∖ {[sp_socket sp]}) x open) |>
        <| streams ::= map (fun sp => if -1 <? sp_socket sp then sp <| sp_socket := -1 |> else sp) |>,
   foldl (fun w sp => logged (Closed (sp_socket sp)) w) w open).

Definition unset_fd (s : Z) (test : iperf_test) : iperf_test :=
  test <| read_set ::= (fun x => x ∖ {[s]}) |> <| write_set ::= (fun x => x ∖ {[s]}) |>.

(** The control connection and the listeners that are still open. *)
Definition close_listeners (test : iperf_test) (w : world) : iperf_test * world :=
  let w := close_if_open (ctrl_sck test) w in
  let test := if -1 <? ctrl_sck test then test <| ctrl_sck := -1 |> else test in
  let quic := is_quic test in
  let w := close_if_open (listener test) w in
  let test := if -1 <? listener test
              then (if quic then unset_fd (listener test) test else test) <| listener := -1 |> else test in
  let w := if quic then w else close_if_open (prot_listener test) w in
  let test := if -1 <? prot_listener test
              then (if quic then unset_fd (prot_listener test) test else test <| prot_listener := -1 |>) else test in
  (test, w).

(** QUIC closes its own streams. *)
Definition close_sockets (test : iperf_test) (w : world) : iperf_test * world :=
  let '(test, w) := if is_quic test then (test, w) else close_open_streams test w in
  close_listeners test w.

Definition cleanup_server (test : iperf_test) (w : world) : outcome (iperf_test * world) :=
  let test := stop_all test in
  '(test, w) ←
    (if (summary_printed test =? 0) &&
        ((0 <? bytes_received test) || (0 <? bytes_sent test) ||
         (0 <? blocks_received test) || (0 <? blocks_sent test)) then
       let test := measure_cpu e test w in
       '(test, w) ← stats e test w;
       Ok (print_summary test w)
     else Ok (test, w));
  let '(test, w) := close_sockets test w in
  cancel_timers test w.

(** ** The loop *)

(** The variables of [iperf_run_server]; [flag] is not initialised. *)
Record accepting := mk_accepting {
  send_streams_accepted : Z;
  rec_streams_accepted : Z;
  streams_to_send : Z;
  streams_to_rec : Z;
  flag : option Z;
  last_time : iperf_time;
  last_blocks : Z
}.
#[export] Instance eta_accepting : Settable accepting := fun l =>
  mk_accepting (send_streams_accepted l) (rec_streams_accepted l) (streams_to_send l) (streams_to_rec l)
    (flag l) (last_time l) (last_blocks l).

(** The answers of one turn: [select] and the descriptors it reports, a new
    control connection, and the socket that listens again. *)
Record server_answer := mk_server_answer {
  srv_sel : Z;
  srv_interrupted : bool;
  listener_ready : bool;
  srv_ctrl_ready : bool;
  prot_ready : bool;
  connection : dial_answers;
  is_closed : Z → bool;
  reannounced : Z
}.

Inductive turn := Go_on (l : accepting) | Return (r : Z) | Exit.

Definition bail_out (err : option Z) (r : Z) (test : iperf_test) (w : world)
  : outcome (turn * iperf_test * world) :=
  '(test, w) ← cleanup_server test w;
  Ok (Return r, match err with Some err => test <| i_errno := err |> | None => test end, w).

(** How many streams of each direction are to come. *)
Definition set_stream_counts (test : iperf_test) (l : accepting) : accepting :=
  let n := num_streams test in
  if mode test =? BIDIRECTIONAL then l <| streams_to_rec := n |> <| streams_to_send := n |>
  else if mode test =? RECEIVER then l <| streams_to_send := 0 |> <| streams_to_rec := n |>
  else l <| streams_to_rec := 0 |> <| streams_to_send := n |>.

(** The direction of the stream that was just accepted: first those to receive. *)
Definition next_stream (l : accepting) : accepting :=
  if negb (rec_streams_accepted l =? streams_to_rec l)
  then l <| rec_streams_accepted ::= (fun n => n + 1) |> <| flag := Some 0 |>
  else if negb (send_streams_accepted l =? streams_to_send l)
  then l <| send_streams_accepted ::= (fun n => n + 1) |> <| flag := Some 1 |>
  else l.

Definition all_accepted (l : accepting) : bool :=
  (rec_streams_accepted l =? streams_to_rec l) && (send_streams_accepted l =? streams_to_send l).

(** A stream connection, for the protocols other than QUIC. *)
Definition accept_stream (a : server_answer) (l : accepting) (test : iperf_test) (w : world)
  : outcome (turn * iperf_test * world) :=
  let '(s, test) := prot_accept e test in
  if s <? 0 then bail_out None (-1) test w
  else if negb (stream_sockopts e test s) then bail_out None (-1) test w
  else if is_closed a s then Ok (Go_on l, test, w)
  else if (protocol test =? Ptcp) && set (snd_timeout (settings test)) && negb (user_timeout_ok (connection a))
  then bail_out (Some IESETUSERTIMEOUT) (-1) test (logged (Closed s) w)
  else match use_congestion e true s test with
  | None => bail_out (Some IESETCONGESTION) (-1) test (logged (Closed s) w)
  | Some test =>
      let l := next_stream l in
      match flag l with
      | None => Undef
      | Some f =>
          if f =? -1 then Ok (Go_on l, test, w)
          else match new_stream e test s (set f) with
          | inl err => bail_out None (-1) (test <| i_errno := err |>) w
          | inr sp =>
              let test := iperf_add_stream test sp in
              let test := test <| max_fd := Z.max s (max_fd test) |> in
              Ok (Go_on (l <| flag := Some (-1) |>), test,
                  logged (On_new_stream (stream_id (length (streams test) - 1))) w)
          end
      end
  end.

(** All the QUIC streams that wait. *)
Fixpoint accept_quic_streams (fuel : nat) (l : accepting) (test : iperf_test) (w : world)
  : outcome (turn * iperf_test * world) :=
  match fuel with
  | O => NoFuel
  | S fuel =>
      let '(s, test) := prot_accept e test in
      if (s <? 0) || all_accepted l then Ok (Go_on l, test, w)
      else
        let l := next_stream l in
        match flag l with
        | None => Undef
        | Some f =>
            match new_stream e test s (set f) with
            | inl err => bail_out None (-1) (test <| i_errno := err |>) w
            | inr sp =>
                let test := iperf_add_stream test sp in
                let w := logged (On_new_stream (stream_id (length (streams test) - 1))) w in
                let l := l <| flag := Some (-1) |> in
                if all_accepted l then Ok (Go_on l, test, w) else accept_quic_streams fuel l test w
            end
        end
  end.

(** The listening socket once every stream is there. *)
Definition close_prot_listener (a : server_answer) (test : iperf_test) (w : world)
  : option iperf_test * world :=
  if is_quic test then (Some (test <| prot_listener := -1 |>), w)
  else if negb (protocol test =? Ptcp) then
    (Some (test <| read_set ::= (fun x => x ∖ {[prot_listener test]}) |> <| prot_listener := -1 |>),
     logged (Closed (prot_listener test)) w)
  else if set (no_delay test) || set (mss (settings test)) || set (socket_bufsize (settings test)) then
    let w := logged (Closed (listener test)) w in
    let test := test <| read_set ::= (fun x => x ∖ {[listener test]}) |> <| listener := -1 |> in
    if reannounced a <? 0 then (None, w)
    else (Some (test <| listener := reannounced a |> <| read_set ::= (fun x => {[reannounced a]} ∪ x) |>
                     <| max_fd := Z.max (reannounced a) (max_fd test) |> <| prot_listener := -1 |>), w)
  else (Some (test <| prot_listener := -1 |>), w).

(** Every stream is there: the test starts. *)
Definition begin_test (test : iperf_test) (w : world) : outcome (Z * iperf_test * world) :=
  let total_requested_rate :=
    u64 (num_streams test * rate (settings test) * (if mode test =? BIDIRECTIONAL then 2 else 1)) in
  if (0 <? bitrate_limit (settings test)) && (bitrate_limit (settings test) <? total_requested_rate)
  then Ok (-2, test, w)
  else
    '(r, test, w) ← set_send_state TEST_START test w;
    if negb (r =? 0) then Ok (-1, test, w)
    else
      let '(test, n) := iperf_init_test test (net w) in
      or_fail (create_timers grace_period test (w <| net := n |>)) (fun test w =>
      or_fail (create_omit_timer test w) (fun test w =>
      let test := if mode test =? RECEIVER then test else iperf_create_send_timers test in
      '(r, test, w) ← set_send_state TEST_RUNNING test w;
      Ok ((if negb (r =? 0) then -1 else 0), test, w))).

Definition start_if_complete (a : server_answer) (l : accepting) (test : iperf_test) (w : world)
  : outcome (turn * iperf_test * world) :=
  if all_accepted l then
    match close_prot_listener a test w with
    | (None, w) => bail_out (Some IELISTEN) (-1) test w
    | (Some test, w) =>
        '(r, test, w) ← begin_test test w;
        if r =? -2 then bail_out (Some IETOTALRATE) (-1) test w
        else if r <? 0 then bail_out None (-1) test w
        else let '(now, w) := time_now w in
             Ok (Go_on (l <| last_blocks := blocks_received test |> <| last_time := now |>), test, w)
    end
  else Ok (Go_on l, test, w).

(** The state [CREATE_STREAMS]. *)
Definition create_streams_turn (fuel : nat) (a : server_answer) (l : accepting) (test : iperf_test) (w : world)
  : outcome (turn * iperf_test * world) :=
  '(t, test, w) ← (if negb (prot_ready a) then Ok (Go_on l, test, w)
                    else if is_quic test then accept_quic_streams fuel l test w
                    else accept_stream a l test w);
  match t with
  | Go_on l => start_if_complete a l test w
  | _ => Ok (t, test, w)
  end.

(** The events of a turn in which [select] returned a positive number. *)
Definition serve_events (fuel : nat) (a : server_answer) (l : accepting) (test : iperf_test) (w : world)
  : outcome (turn * iperf_test * world) :=
  '(t, test, w) ←
    (if listener_ready a && negb (state test =? CREATE_STREAMS) then
       '(r, test, w) ← iperf_accept (connection a) test w;
       if r <? 0 then bail_out None (-1) test w
       else Ok (Go_on (set_stream_counts test l), test, w)
     else Ok (Go_on l, test, w));
  match t with
  | Go_on l =>
      '(r, test, w) ← (if srv_ctrl_ready a then iperf_handle_message_server test w else Ok (0, test, w));
      if r <? 0 then bail_out None (-1) test w
      else if state test =? CREATE_STREAMS then create_streams_turn fuel a l test w
      else Ok (Go_on l, test, w)
  | _ => Ok (t, test, w)
  end.

Definition server_timeout (timer_timeout : option (Z * Z)) (test : iperf_test) : option (Z * Z) :=
  let s := settings test in
  if state test =? IPERF_START then
    match timer_timeout with
    | None => if 0 <? idle_timeout s then Some (idle_timeout s, 0) else None
    | _ => timer_timeout
    end
  else if negb (mode test =? SENDER) then Some (select_timeout timer_timeout (rcv_timeout s))
  else timer_timeout.

(** Nothing happened before the timeout: restart when idle for too long.  The code
    computes the receive timeout once, before the loop; no handler of the server
    changes it. *)
Definition idle_turn (l : accepting) (test : iperf_test) (w : world)
  : outcome (option (turn * iperf_test * world) * iperf_time * world) :=
  let s := settings test in
  let '(now, w) := time_now w in
  let '(past, d) := iperf_time_diff now (last_time l) in
  if negb (past =? 0) then Ok (None, now, w)
  else
    let t_usecs := i64 (iperf_time_in_usecs d) in
    if state test =? IPERF_START then
      if (0 <? idle_timeout s) && (idle_timeout s * SEC_TO_US <=? t_usecs) then
        '(test, w) ← cleanup_server test w;
        Ok (Some (if set (one_off test) then Exit else Return 2, test, w), now, w)
      else Ok (None, now, w)
    else if negb (mode test =? SENDER) && (secs (rcv_timeout s) * SEC_TO_US + usecs (rcv_timeout s) <? t_usecs)
         && (blocks_received test =? last_blocks l) then
      '(test, w) ← cleanup_server (test <| i_errno := IENOMSG |>) w;
      Ok (Some (Return (-1), test, w), now, w)
    else Ok (None, now, w).

Definition server_turn (fuel : nat) (a : server_answer) (l : accepting) (test : iperf_test) (w : world)
  : outcome (turn * iperf_test * world) :=
  if set (bitrate_limit_exceeded test) then bail_out (Some IETOTALRATE) (-1) test w
  else
    let '(now, w) := time_now w in
    timer_timeout ← tmr_timeout now (wheel w);
    let timeout := server_timeout timer_timeout test in
    if (srv_sel a <? 0) && negb (srv_interrupted a) then bail_out (Some IESELECT) (-1) test w
    else
      '(over, now, w) ← (if srv_sel a =? 0 then idle_turn l test w else Ok (None, now, w));
      match over with
      | Some res => Ok res
      | None =>
          let l := if last_blocks l <? blocks_received test
                   then l <| last_blocks := blocks_received test |> <| last_time := now |> else l in
          '(t, test, w) ← (if 0 <? srv_sel a then serve_events fuel a l test w else Ok (Go_on l, test, w));
          match t with
          | Go_on l =>
              if (srv_sel a =? 0) || bool_decide (timeout = Some (0, 0)) then
                let '(now, w) := time_now w in
                '(test, w) ← run_timers e server_timer_proc fuel now test w;
                Ok (Go_on l, test, w)
              else Ok (t, test, w)
          | _ => Ok (t, test, w)
          end
      end.

Fixpoint server_loop (fuel : nat) (answers : list server_answer) (l : accepting) (test : iperf_test) (w : world)
  : outcome (turn * iperf_test * world) :=
  if state test =? IPERF_DONE then
    '(test, w) ← cleanup_server test w;
    let '(r, test) := if server_affinity test =? -1 then (0, test) else iperf_setaffinity e test None in
    Ok (Return (if r =? 0 then 0 else -1), test, w)
  else match answers with
  | [] => NoFuel
  | a :: answers =>
      '(t, test, w) ← server_turn fuel a l test w;
      match t with
      | Go_on l => server_loop fuel answers l test w
      | _ => Ok (t, test, w)
      end
  end.

(** [iperf_run_server] after the set-up of the process: [listening] is the answer
    of [netannounce]. *)
Definition iperf_run_server (listening : Z) (fuel : nat) (answers : list server_answer)
    (test : iperf_test) (w : world) : outcome (turn * iperf_test * world) :=
  let '(r, test) := if affinity test =? -1 then (0, test) else iperf_setaffinity e test (Some (affinity test)) in
  if negb (r =? 0) then '(test, w) ← cleanup_server test w; Ok (Return (-2), test, w)
  else if listening <? 0 then
    '(test, w) ← cleanup_server (test <| i_errno := IELISTEN |>) w; Ok (Return (-2), test, w)
  else
    let test := test <| listener := listening |> <| read_set := {[listening]} |> <| write_set := ∅ |>
                     <| max_fd := Z.max listening (max_fd test) |> in
    let '(now, w) := time_now w in
    let test := iperf_set_test_state test IPERF_START in
    server_loop fuel answers (mk_accepting 0 0 0 0 None now 0) test w.
End Server.

(** ** Accepting the streams of a test *)

(** The first [k] streams of a server that expects [R] streams to receive before
    those to send. *)
Definition accepted (R k : nat) : list (Z * bool) :=
  map (fun i => (stream_id i, bool_decide (R ≤ i)%nat)) (seq 0 k).

Lemma accepted_S R k : accepted R (S k) = accepted R k ++ [(stream_id k, bool_decide (R ≤ k)%nat)].
Proof. unfold accepted. by rewrite seq_S, map_app. Qed.

Lemma length_accepted R k : length (accepted R k) = k.
Proof. unfold accepted. by rewrite length_map, length_seq. Qed.

(** [k] of the [R + S] streams are there. *)
Record in_progress (R S k : nat) (l : accepting) (t : iperf_test) : Prop := {
  progress_rec : rec_streams_accepted l = Z.of_nat (min k R);
  progress_send : send_streams_accepted l = Z.of_nat (k - R);
  progress_to_rec : streams_to_rec l = Z.of_nat R;
  progress_to_send : streams_to_send l = Z.of_nat S;
  progress_flag : flag l = None ∨ flag l = Some (-1);
  progress_blocks : last_blocks l = 0;
  progress_streams : numbered t = accepted R k
}.

Lemma progress_complete R S k l t :
  in_progress R S k l t → (k ≤ R + S)%nat → all_accepted l = bool_decide (k = R + S)%nat.
Proof.
  intros [Hr Hs Htr Hts _ _ _] Hk. unfold all_accepted. rewrite Hr, Hs, Htr, Hts.
  destruct (bool_decide_reflect (k = R + S)%nat) as [->|Hne].
  - rewrite !(proj2 (Z.eqb_eq _ _)) by lia. done.
  - apply andb_false_iff. rewrite !Z.eqb_neq. lia.
Qed.

Section Accepting.
Context (e : env) (He : env_works e).

Lemma next_stream_ok R S k l t :
  in_progress R S k l t → (k < R + S)%nat →
  flag (next_stream l) = Some (if bool_decide (R ≤ k)%nat then 1 else 0) ∧
  ∀ t', numbered t' = accepted R (Datatypes.S k) →
        in_progress R S (Datatypes.S k) ((next_stream l) <| flag := Some (-1) |>) t'.
Proof.
  intros [Hr Hs Htr Hts Hf Hb Hn] Hk. unfold next_stream. rewrite Hr, Htr, Hs, Hts.
  destruct (bool_decide_reflect (R ≤ k)%nat) as [Hle|Hlt].
  - rewrite (proj2 (Z.eqb_eq _ _)) by lia. rewrite (proj2 (Z.eqb_neq _ _)) by lia. cbn -[accepted]. split; [done|].
    intros t' Ht'. split; cbn -[Nat.min Nat.sub accepted]; try lia; try done; by right.
  - rewrite (proj2 (Z.eqb_neq _ _)) by lia. cbn -[accepted]. split; [done|].
    intros t' Ht'. split; cbn -[Nat.min Nat.sub accepted]; try lia; try done; by right.
Qed.

(** Answers that let a stream in. *)
Definition admits (a : server_answer) : Prop :=
  (∀ s, is_closed a s = false) ∧ user_timeout_ok (connection a) = true ∧ 0 ≤ reannounced a.

Lemma accept_stream_ok a R S k l t w :
  admits a → in_progress R S k l t → (k < R + S)%nat → Z.of_nat (R + S) < 2 ^ 31 - 2 →
  ∃ l' t' w', accept_stream e a l t w = Ok (Go_on l', t', w') ∧ in_progress R S (Datatypes.S k) l' t' ∧
              plan t' = plan t ∧ net w' = net w ∧ wheel w' = wheel w.
Proof.
  intros (Hclosed & Huser & _) Hl Hk Hmax. unfold accept_stream.
  destruct (works_accept _ He t) as [Hs Ht]. destruct (prot_accept e t) as [s t0]. cbn [fst snd] in Hs, Ht. subst t0.
  ztest. rewrite (works_sockopts _ He), Hclosed, Huser, andb_false_r. cbn [negb].
  destruct (use_congestion_ok e true s t He) as (t1 & -> & Hp1 & Hs1).
  destruct (next_stream_ok _ _ _ _ _ Hl Hk) as [-> Hnext].
  assert ((if bool_decide (R ≤ k)%nat then 1 else 0) =? -1 = false) as -> by by case_goal.
  destruct (works_stream _ He t1 s (set (if bool_decide (R ≤ k)%nat then 1 else 0))) as (sp & -> & Hsp).
  eexists _, _, _. split; [done|].
  assert (length (streams t1) = k) as El.
  { rewrite Hs1, <- length_numbered, (progress_streams _ _ _ _ _ Hl). apply length_accepted. }
  split_and!; [|done|done|done].
  apply Hnext. change (numbered (iperf_add_stream t1 sp) = accepted R (Datatypes.S k)).
  rewrite add_stream_numbered by (rewrite El; lia). rewrite accepted_S, El, Hsp.
  unfold numbered at 1. rewrite Hs1. fold (numbered t). rewrite (progress_streams _ _ _ _ _ Hl).
  by destruct (bool_decide (R ≤ k)%nat).
Qed.
End Accepting.

(** ** The start of the test *)

Section Starting.
Context (v : Z) (e : env).

Lemma close_listener_ok a t w :
  admits a →
  ∃ t' w', close_prot_listener a t w = (Some t', w') ∧ plan t' = plan t ∧ streams t' = streams t ∧
           net w' = net w ∧ wheel w' = wheel w.
Proof.
  intros (_ & _ & Hre). unfold close_prot_listener.
  destruct (is_quic t); [by eexists _, _|]. destruct (negb (protocol t =? Ptcp)); [by eexists _, _|].
  case_goal; [|by eexists _, _]. ztest. by eexists _, _.
Qed.

Lemma begin_test_ok t w input out n m :
  0 ≤ ctrl_sck t → bitrate_limit (settings t) = 0 →
  period_ok (stats_interval t) → period_ok (reporter_interval t) → wheel_ok (wheel w) →
  conn v (net w) input out n (2 + m) →
  ∃ t' w', begin_test t w = Ok (0, t', w') ∧ plan t' = plan (t <| state := TEST_RUNNING |>) ∧
           numbered t' = numbered t ∧ wheel_ok (wheel w') ∧
           conn v (net w') input (out ++ [chr TEST_START; chr TEST_RUNNING]) n m.
Proof.
  intros Hc Hb Hs Hr Hw Hconn. unfold begin_test. rewrite Hb. cbn [Z.ltb Z.compare andb].
  destruct (conn_state v TEST_START t w input out n (1 + m) Hc Hconn) as (w1 & -> & H1 & Hw1 & _).
  rewrite Ok_bind. cbn [negb Z.eqb]. set (t1 := t <| state := TEST_START |>).
  destruct (init_test_ok t1 (net w1)) as (Hn2 & Hp2 & Hnet2).
  destruct (iperf_init_test t1 (net w1)) as [t2 n2]. cbn [fst snd] in Hn2, Hp2, Hnet2. subst n2.
  assert (stats_interval t2 = stats_interval t1) as E1 by plan_field Hp2.
  assert (reporter_interval t2 = reporter_interval t1) as E2 by plan_field Hp2.
  destruct (create_timers_ok grace_period t2 (w1 <| net := (os_now (net w1)).2 |>))
    as (t3 & w3 & -> & Hp3 & Hs3 & _ & Hnet3 & Hw3 & _); [by rewrite E1|by rewrite E2|by cbn; rewrite Hw1|].
  destruct (create_omit_timer_ok t3 w3 Hw3) as (t4 & w4 & Hc4 & Hp4 & Hs4 & Hnet4 & Hw4 & _).
  cbn [or_fail mbind outcome_bind Z.ltb Z.compare]. rewrite Hc4. cbn [or_fail mbind outcome_bind Z.ltb Z.compare].
  set (t5 := if mode t4 =? RECEIVER then t4 else iperf_create_send_timers t4).
  assert (plan t5 = plan t1 ∧ numbered t5 = numbered t) as [Hp5 Hn5].
  { assert (numbered t4 = numbered t) by (unfold numbered in *; rewrite Hs4, Hs3; exact Hn2).
    destruct (send_timers_ok t4) as [Hn Hp]. subst t5. case_goal; split; congruence. }
  assert (conn v (net w4) input (out ++ [chr TEST_START]) n (1 + m)) as H4.
  { eapply conn_clock; [|exact H1]. eapply clock_read_trans; [apply clock_read_once|].
    apply clock_read_trans with (net w3); [rewrite Hnet3; apply clock_read_once|].
    destruct Hnet4 as [-> | ->]; [constructor|apply clock_read_once]. }
  assert (0 ≤ ctrl_sck t5) as Hc5 by (assert (ctrl_sck t5 = ctrl_sck t1) as -> by plan_field Hp5; exact Hc).
  destruct (conn_state v TEST_RUNNING t5 w4 _ _ _ _ Hc5 H4) as (w6 & -> & H6 & Hw6 & _).
  cbn [mbind outcome_bind negb Z.eqb]. eexists _, w6. split_and!; [done| |exact Hn5|by rewrite Hw6|].
  - rewrite (plan_state _ _ _ Hp5). done.
  - by rewrite <- app_assoc in H6.
Qed.

Lemma start_ok a l R S t w input out n m :
  in_progress R S (R + S) l t → admits a →
  0 ≤ ctrl_sck t → bitrate_limit (settings t) = 0 →
  period_ok (stats_interval t) → period_ok (reporter_interval t) → wheel_ok (wheel w) →
  conn v (net w) input out n (2 + m) →
  ∃ l' t' w', start_if_complete e a l t w = Ok (Go_on l', t', w') ∧
    plan t' = plan (t <| state := TEST_RUNNING |>) ∧ numbered t' = numbered t ∧ wheel_ok (wheel w') ∧
    conn v (net w') input (out ++ [chr TEST_START; chr TEST_RUNNING]) n m.
Proof.
  intros Hl Ha Hc Hb Hs Hr Hw Hconn. unfold start_if_complete.
  rewrite (progress_complete _ _ _ _ _ Hl), bool_decide_true by lia.
  destruct (close_listener_ok a t w Ha) as (t1 & w1 & -> & Hp1 & Hs1 & Hn1 & Hw1).
  assert (ctrl_sck t1 = ctrl_sck t ∧ settings t1 = settings t ∧ stats_interval t1 = stats_interval t ∧
          reporter_interval t1 = reporter_interval t) as (E1 & E2 & E3 & E4) by (split_and!; plan_field Hp1).
  destruct (begin_test_ok t1 w1 input out n m) as (t2 & w2 & -> & Hp2 & Hn2 & Hw2 & H2);
    [by rewrite E1|by rewrite E2|by rewrite E3|by rewrite E4|by rewrite Hw1|by rewrite Hn1|].
  rewrite Ok_bind. cbn [Z.eqb Z.ltb Z.compare]. unfold time_now.
  destruct (conn_now _ _ _ _ _ _ H2) as (now & n3 & -> & H3).
  eexists _, _, _. split_and!; [done| | |done|done].
  - by rewrite Hp2, (plan_state _ _ _ Hp1).
  - rewrite Hn2. unfold numbered. by rewrite Hs1.
Qed.
End Starting.

(** ** Turns of the loop that set the test up *)

Section Turns.
Context (v : Z) (e : env) (He : env_works e) (fuel : nat).

Definition no_timers (s : tmr) : Prop := ∃ fs, wf s [] fs.

Lemma no_timers_timeout now s : no_timers s → tmr_timeout now s = Ok None.
Proof. intros (fs & [(Ht & _ & _) _ _ _ _]). unfold tmr_timeout. by rewrite Ht. Qed.

(** Without timers and with an event, a turn serves the events. *)
Lemma event_turn a l t w l' t' w' :
  bitrate_limit_exceeded t = 0 → no_timers (wheel w) → 0 < srv_sel a →
  last_blocks l = 0 → blocks_received t = 0 → server_timeout None t ≠ Some (0, 0) →
  serve_events e fuel a l t (w <| net := (os_now (net w)).2 |>) = Ok (Go_on l', t', w') →
  server_turn e fuel a l t w = Ok (Go_on l', t', w').
Proof.
  intros Hb Hw Ha Hl Ht Hto Hs. unfold server_turn, time_now. rewrite Hb. cbn [set Z.eqb negb].
  destruct (os_now (net w)) as [now n]. cbn [snd] in Hs.
  change (wheel (w <| net := n |>)) with (wheel w). rewrite (no_timers_timeout _ _ Hw), Ok_bind.
  ztest. cbn [andb]. rewrite Ok_bind, Hs, Ok_bind. by rewrite bool_decide_false.
Qed.

(** The answers of a turn in which a stream connects. *)
Definition stream_answer (a : server_answer) : Prop :=
  0 < srv_sel a ∧ srv_ctrl_ready a = false ∧ prot_ready a = true ∧ admits a.

(** What the loop relies on while the streams come in. *)
Record waiting (t : iperf_test) : Prop := {
  waiting_state : state t = CREATE_STREAMS;
  waiting_protocol : protocol t ≠ Pquic;
  waiting_ctrl : 0 ≤ ctrl_sck t;
  waiting_rate : bitrate_limit (settings t) = 0 ∧ bitrate_limit_exceeded t = 0 ∧ blocks_received t = 0;
  waiting_rcv : 0 < secs (rcv_timeout (settings t));
  waiting_periods : period_ok (stats_interval t) ∧ period_ok (reporter_interval t)
}.

Lemma waiting_plan t t' : plan t' = plan t → waiting t → waiting t'.
Proof.
  intros Hp [H1 H2 H3 (H4 & H5 & H6) H7 [H8 H9]].
  assert (state t' = state t ∧ protocol t' = protocol t ∧ ctrl_sck t' = ctrl_sck t ∧ settings t' = settings t ∧
    bitrate_limit_exceeded t' = bitrate_limit_exceeded t ∧ blocks_received t' = blocks_received t ∧
    stats_interval t' = stats_interval t ∧ reporter_interval t' = reporter_interval t)
    as (E1 & E2 & E3 & E4 & E5 & E6 & E7 & E8) by (split_and!; plan_field Hp).
  split; rewrite ?E1, ?E2, ?E3, ?E4, ?E5, ?E6, ?E7, ?E8; done.
Qed.

Lemma waiting_timeout t : waiting t → server_timeout None t ≠ Some (0, 0).
Proof.
  intros [Hs _ _ _ Hr _]. unfold server_timeout. rewrite Hs.
  change (CREATE_STREAMS =? IPERF_START) with false. cbv iota. case_goal; [|done].
  unfold select_timeout. cbn. intros [= H _]. lia.
Qed.

Lemma stream_turn a R S k l t w input out n m :
  stream_answer a → waiting t → in_progress R S k l t → (k < R + S)%nat → Z.of_nat (R + S) < 2 ^ 31 - 2 →
  no_timers (wheel w) → conn v (net w) input out n (2 + m) →
  ∃ l' t' w', server_turn e fuel a l t w = Ok (Go_on l', t', w') ∧
    if bool_decide (Datatypes.S k = R + S)%nat
    then plan t' = plan (t <| state := TEST_RUNNING |>) ∧ numbered t' = accepted R (R + S) ∧ wheel_ok (wheel w') ∧
         conn v (net w') input (out ++ [chr TEST_START; chr TEST_RUNNING]) n m
    else plan t' = plan t ∧ in_progress R S (Datatypes.S k) l' t' ∧ no_timers (wheel w') ∧
         conn v (net w') input out n (2 + m).
Proof.
  intros (Ha & Hctrl & Hready & Hadm) Ht Hl Hk Hmax Hw Hconn.
  pose proof Ht as [Hs Hq Hsck (Hr1 & Hr2 & Hr3) _ [Hp1 Hp2]].
  set (w0 := w <| net := (os_now (net w)).2 |>).
  destruct (accept_stream_ok e He a R S k l t w0 Hadm Hl Hk Hmax) as (l1 & t1 & w1 & Hacc & Hl1 & Hpl & Hn1 & Hw1).
  assert (conn v (net w1) input out n (2 + m)) as H1.
  { rewrite Hn1. eapply conn_clock; [apply clock_read_once|done]. }
  assert (serve_events e fuel a l t w0 = start_if_complete e a l1 t1 w1) as Hserve.
  { unfold serve_events. rewrite Hs, Hctrl. change (CREATE_STREAMS =? CREATE_STREAMS) with true.
    cbn [negb]. rewrite andb_false_r, !Ok_bind. change (0 <? 0) with false. cbv beta iota. rewrite Hs.
    change (CREATE_STREAMS =? CREATE_STREAMS) with true. cbv iota. unfold create_streams_turn.
    rewrite Hready. unfold is_quic. rewrite (proj2 (Z.eqb_neq _ _) Hq). cbn [negb]. by rewrite Hacc, Ok_bind. }
  assert (∀ l' t' w', serve_events e fuel a l t w0 = Ok (Go_on l', t', w') →
                      server_turn e fuel a l t w = Ok (Go_on l', t', w')) as Hturn.
  { intros l' t' w'. apply event_turn; [done|done|done|apply (progress_blocks _ _ _ _ _ Hl)|done|by apply waiting_timeout]. }
  pose proof (waiting_plan _ _ Hpl Ht) as [_ _ Hc1 (Hb1 & _ & _) _ [Hp3 Hp4]].
  destruct (bool_decide_reflect (Datatypes.S k = R + S)%nat) as [Ek|Hne].
  - rewrite Ek in Hl1.
    destruct (start_ok v e a l1 R S t1 w1 input out n m Hl1 Hadm Hc1 Hb1 Hp3 Hp4) as (l2 & t2 & w2 & Hst & Hpl2 & Hn2 & Hw2 & H2);
      [rewrite Hw1; destruct Hw as [fs Hw]; by exists [], fs|done|].
    exists l2, t2, w2. split; [apply Hturn; by rewrite Hserve|].
    split_and!; [|by rewrite Hn2, (progress_streams _ _ _ _ _ Hl1)|done|done].
    by rewrite Hpl2, (plan_state _ _ _ Hpl).
  - exists l1, t1, w1. split; [|by split_and!; [..|rewrite Hw1|]].
    apply Hturn. rewrite Hserve. unfold start_if_complete.
    rewrite (progress_complete _ _ _ _ _ Hl1) by lia. by rewrite bool_decide_false.
Qed.

(** The loop takes in all the streams and starts the test. *)
Lemma stream_turns answers R S k l t w input out n m later :
  Forall stream_answer answers → (length answers + k = R + S)%nat → (k < R + S)%nat →
  Z.of_nat (R + S) < 2 ^ 31 - 2 →
  waiting t → in_progress R S k l t → no_timers (wheel w) → conn v (net w) input out n (2 + m) →
  ∃ l' t' w', server_loop e fuel (answers ++ later) l t w = server_loop e fuel later l' t' w' ∧
    plan t' = plan (t <| state := TEST_RUNNING |>) ∧ numbered t' = accepted R (R + S) ∧ wheel_ok (wheel w') ∧
    conn v (net w') input (out ++ [chr TEST_START; chr TEST_RUNNING]) n m.
Proof.
  intros Ha. revert k l t w. induction Ha as [|a answers Ha Has IH]; intros k l t w Hlen Hk Hmax Ht Hl Hw Hconn.
  { cbn in Hlen. lia. }
  cbn [app server_loop]. rewrite (waiting_state _ Ht). change (CREATE_STREAMS =? IPERF_DONE) with false. cbv iota.
  destruct (stream_turn a R S k l t w input out n m Ha Ht Hl Hk Hmax Hw Hconn) as (l1 & t1 & w1 & -> & H).
  rewrite Ok_bind. cbn [length] in Hlen.
  destruct (bool_decide_reflect (Datatypes.S k = R + S)%nat) as [Ek|Hne].
  - destruct answers as [|b answers]; [|cbn in Hlen; lia]. exists l1, t1, w1. split; [done|exact H].
  - destruct H as (Hp & Hl1 & Hw1 & H1).
    destruct (IH (Datatypes.S k) l1 t1 w1) as (l2 & t2 & w2 & -> & Hp2 & Hrest); [lia|lia|done|by eapply waiting_plan|done|done|done|].
    exists l2, t2, w2. split_and!; [done| |apply Hrest|apply Hrest|apply Hrest].
    by rewrite Hp2, (plan_state _ _ _ Hp).
Qed.
End Turns.

(** ** What the server leaves behind *)

(** No control connection, no listener, no timer; and no stream and no protocol
    listener, which under QUIC belong to the library. *)
Record cleaned (t : iperf_test) : Prop := {
  cleaned_ctrl : ctrl_sck t ≤ -1;
  cleaned_listener : listener t ≤ -1;
  cleaned_streams : protocol t ≠ Pquic → Forall (fun sp => sp_socket sp ≤ -1) (streams t) ∧ prot_listener t ≤ -1;
  cleaned_timers : timer t = None ∧ omit_timer t = None ∧ stats_timer t = None ∧ reporter_timer t = None
}.

(** A turn that ends the loop has cleaned up; it ends the process only when that
    is to serve one client. *)
Definition ends_clean (r : turn * iperf_test * world) : Prop :=
  match r with
  | ((Go_on _, _), _) => True
  | ((Return rc, t), _) => cleaned t ∧ -1 ≤ rc
  | ((Exit, t), _) => cleaned t ∧ one_off t ≠ 0
  end.

(** Follow a computation that returned. *)
Ltac follow H :=
  lazymatch type of H with
  | Ok _ = Ok _ => injection H as H; subst
  | Undef = Ok _ => discriminate H
  | NoFuel = Ok _ => discriminate H
  | mbind _ _ = Ok _ => apply bind_Ok in H as (? & ? & H)
  | (if ?b then _ else _) = _ => destruct b eqn:?
  | match ?x with _ => _ end = _ => destruct x eqn:?
  end.

Section Leaving.
Context (e : env).

Lemma open_streams_closed t w : Forall (fun sp => sp_socket sp ≤ -1) (streams (close_open_streams t w).1).
Proof.
  cbn. rewrite Forall_map, Forall_forall. intros sp _. cbn. destruct (Z.ltb_spec (-1) (sp_socket sp)); cbn; lia.
Qed.

Definition sockets_closed (t : iperf_test) : Prop :=
  ctrl_sck t ≤ -1 ∧ listener t ≤ -1 ∧
  (protocol t ≠ Pquic → Forall (fun sp => sp_socket sp ≤ -1) (streams t) ∧ prot_listener t ≤ -1).

Lemma close_listeners_closed t w :
  (protocol t ≠ Pquic → Forall (fun sp => sp_socket sp ≤ -1) (streams t)) →
  sockets_closed (close_listeners t w).1.
Proof.
  intros Hs. unfold close_listeners. cbn [fst].
  set (t1 := if -1 <? ctrl_sck t then t <| ctrl_sck := -1 |> else t).
  assert (ctrl_sck t1 ≤ -1 ∧ protocol t1 = protocol t ∧ streams t1 = streams t) as (H1 & H2 & H3).
  { subst t1. destruct (Z.ltb_spec (-1) (ctrl_sck t)); split_and!; cbn; done || lia. }
  set (t2 := if -1 <? listener t1 then _ else t1).
  assert (ctrl_sck t2 ≤ -1 ∧ listener t2 ≤ -1 ∧ protocol t2 = protocol t ∧ streams t2 = streams t) as (H4 & H5 & H6 & H7).
  { subst t2. clearbody t1. destruct (Z.ltb_spec (-1) (listener t1)); [|split_and!; congruence || lia].
    by destruct (is_quic t1). }
  assert (is_quic t1 = is_quic t2) as -> by (unfold is_quic; by rewrite H2, H6).
  clearbody t2. clear t1 H1 H2 H3. unfold sockets_closed. rewrite <- H6, <- H7 in Hs. unfold is_quic.
  destruct (Z.ltb_spec (-1) (prot_listener t2)); [|split_and!; [done..|intros Hq; split; [by apply Hs|lia]]].
  destruct (Z.eqb_spec (protocol t2) Pquic) as [Eq|Hq]; split_and!; try done.
  intros Hq'. split; [by apply Hs|cbn; lia].
Qed.

Lemma close_sockets_closed t w : sockets_closed (close_sockets t w).1.
Proof.
  unfold close_sockets, is_quic. destruct (Z.eqb_spec (protocol t) Pquic) as [Eq|Hq].
  - by apply close_listeners_closed.
  - pose proof (open_streams_closed t w) as Ho. destruct (close_open_streams t w) as [t1 w1].
    by apply close_listeners_closed.
Qed.

Lemma cancel_timers_clean t w t' w' : sockets_closed t → cancel_timers t w = Ok (t', w') → cleaned t'.
Proof.
  intros (H1 & H2 & H3). unfold cancel_timers.
  destruct (cancel (stats_timer t) (wheel w)) as [s1| | |]; [cbn [mbind outcome_bind]|done..].
  destruct (cancel (reporter_timer t) s1) as [s2| | |]; [cbn [mbind outcome_bind]|done..].
  destruct (cancel (omit_timer t) s2) as [s3| | |]; [cbn [mbind outcome_bind]|done..].
  destruct (cancel (timer t) s3) as [s4| | |]; [cbn [mbind outcome_bind]|done..].
  intros [= <- <-]. by split.
Qed.

Lemma cleanup_clean t w t' w' : cleanup_server e t w = Ok (t', w') → cleaned t'.
Proof.
  unfold cleanup_server. intros H. apply bind_Ok in H as ([t1 w1] & _ & H).
  pose proof (close_sockets_closed t1 w1) as Hc. destruct (close_sockets t1 w1) as [t2 w2].
  by eapply cancel_timers_clean.
Qed.

Lemma cleaned_errno t err : cleaned t → cleaned (t <| i_errno := err |>).
Proof. by intros []. Qed.

Lemma bail_out_clean err t w res : bail_out e err (-1) t w = Ok res → ends_clean res.
Proof.
  unfold bail_out. intros H. apply bind_Ok in H as ([t1 w1] & Hc%cleanup_clean & [= <-]).
  destruct err; (split; [|lia]); [by apply cleaned_errno|done].
Qed.

Lemma accept_stream_clean a l t w res : accept_stream e a l t w = Ok res → ends_clean res.
Proof. unfold accept_stream. intros H. repeat follow H; try done; by eapply bail_out_clean. Qed.

Lemma accept_quic_clean fuel l t w res : accept_quic_streams e fuel l t w = Ok res → ends_clean res.
Proof.
  revert l t w. induction fuel as [|fuel IH]; intros l t w H; cbn [accept_quic_streams] in H; [done|].
  cbv zeta in H. repeat follow H; try done; first [by eapply bail_out_clean|by eapply IH].
Qed.

Lemma start_clean a l t w res : start_if_complete e a l t w = Ok res → ends_clean res.
Proof. unfold start_if_complete. intros H. repeat follow H; try done; by eapply bail_out_clean. Qed.

Lemma create_streams_turn_clean fuel a l t w res : create_streams_turn e fuel a l t w = Ok res → ends_clean res.
Proof.
  unfold create_streams_turn. intros H. apply bind_Ok in H as ([[r t1] w1] & Hr & H).
  assert (ends_clean (r, t1, w1)) as Hc.
  { repeat follow Hr; try done; [by eapply accept_quic_clean|by eapply accept_stream_clean]. }
  destruct r; [by eapply start_clean|by injection H as <-..].
Qed.

Lemma serve_events_clean fuel a l t w res : serve_events e fuel a l t w = Ok res → ends_clean res.
Proof.
  unfold serve_events. intros H. apply bind_Ok in H as ([[r t1] w1] & Hr & H).
  assert (ends_clean (r, t1, w1)) as Hc.
  { repeat follow Hr; try done; by eapply bail_out_clean. }
  destruct r; [|by injection H as <-..].
  repeat follow H; try done; [by eapply bail_out_clean|by eapply create_streams_turn_clean].
Qed.

Lemma idle_turn_clean l t w res now w' : idle_turn e l t w = Ok (Some res, now, w') → ends_clean res.
Proof.
  unfold idle_turn. intros H.
  repeat follow H; simplify_eq; try done; cbn; repeat case_goal; (split; [by eapply cleanup_clean|]); try lia.
  unfold set in *. by bool_to_prop.
Qed.

Lemma server_turn_clean fuel a l t w res : server_turn e fuel a l t w = Ok res → ends_clean res.
Proof.
  unfold server_turn. intros H. destruct (set (bitrate_limit_exceeded t)); [by eapply bail_out_clean|].
  destruct (time_now w) as [now w0]. apply bind_Ok in H as (to & _ & H). cbv zeta in H.
  destruct ((srv_sel a <? 0) && negb (srv_interrupted a)); [by eapply bail_out_clean|].
  apply bind_Ok in H as ([[over now1] w1] & Hover & H). destruct over as [res'|].
  { injection H as <-. repeat follow Hover; try done. by eapply idle_turn_clean. }
  apply bind_Ok in H as ([[r t1] w2] & Hr & H).
  assert (ends_clean (r, t1, w2)) as Hc.
  { repeat follow Hr; try done. by eapply serve_events_clean. }
  destruct r; [|by injection H as <-..]. repeat follow H; done.
Qed.
(** The loop is over. *)
Lemma loop_end_clean t w r t' w' :
  ('(test, w) ← cleanup_server e t w;
   let '(r, test) := if server_affinity test =? -1 then (0, test) else iperf_setaffinity e test None in
   Ok (Return (if r =? 0 then 0 else -1), test, w)) = Ok (r, t', w') → ends_clean (r, t', w') ∧ ∀ l', r ≠ Go_on l'.
Proof.
  intros H. apply bind_Ok in H as ([t1 w1] & Hc%cleanup_clean & H). unfold iperf_setaffinity in H.
  destruct (server_affinity t1 =? -1); [injection H as <- <- <-; by split|].
  destruct (affinity_ok e None); injection H as <- <- <-; (split; [split; [|cbn; lia]|done]); [done|by apply cleaned_errno].
Qed.

Lemma server_loop_clean fuel answers l t w r t' w' :
  server_loop e fuel answers l t w = Ok (r, t', w') → ends_clean (r, t', w') ∧ ∀ l', r ≠ Go_on l'.
Proof.
  revert l t w. induction answers as [|a answers IH]; intros l t w; cbn [server_loop]; intros H.
  - destruct (state t =? IPERF_DONE); [by eapply loop_end_clean|done].
  - destruct (state t =? IPERF_DONE); [by eapply loop_end_clean|].
    apply bind_Ok in H as ([[r1 t1] w1] & Hc%server_turn_clean & H).
    destruct r1; [by eapply IH|injection H as <- <- <-; by split..].
Qed.
End Leaving.

(** ** Properties *)


(** A client that closes its connection before it has sent its cookie. *)
Definition lost_client : server_answer :=
  mk_server_answer 1 false true false false (good_dial 4) (fun _ => false) 3.

