(* ===== verification/Session.v ===== *)
(** * A session: client and server together

    The two processes of a test run on one control connection: what one has sent
    is what the other reads.  The theorems follow the messages of a session
    through the handlers of both sides: a refused test, the set-up, and the end. *)

From S2P Require Import Prelude Errno CInt CDouble CStdio Json JsonPrint JsonParse JsonRoundtrip JsonBuild IperfTime Net.
From S2P Require Import Control Timer Test Params Auth Results Stats Endpoint Client Server.

Section Steps.
Context (v : Z).

(** ** Steps of both sides *)

(** The client reads one byte as its new state. *)
Lemma client_reads e s test w input out n m :
  in_s 8 s → conn v (net w) (chr s :: input) out n m →
  ∃ w', iperf_handle_message_client e test w = client_reaction e (test <| state := s |>) w' ∧
        conn v (net w') input out n m ∧ wheel w' = wheel w ∧ log w' = log w.
Proof.
  intros Hs Hconn. destruct (conn_recv _ _ _ _ _ _ _ Hconn) as (n' & Hr & Hconn').
  exists (w <| net := n' |>). unfold iperf_handle_message_client. rewrite Hr.
  rewrite u8_chr. change (s mod 256) with (wrapu 8 s).
  assert (i8 (wrapu 8 s) = s) as ->; [|by split_and!].
  unfold wraps. change (wrapu 8 s mod 2 ^ 8) with (wrapu 8 (wrapu 8 s)).
  rewrite wrapu_wrapu by done. change (wrapu 8 s) with (s mod 2 ^ 8). by apply (wraps_id 8).
Qed.

(** So does the server. *)
Lemma server_reads e s test w input out n m :
  in_s 8 s → conn v (net w) (chr s :: input) out (2 + n) m →
  ∃ w', iperf_handle_message_server e test w = server_reaction e (test <| state := s |>) w' ∧
        conn v (net w') input out n m ∧ wheel w' = wheel w ∧ log w' = log w.
Proof.
  intros Hs Hconn. destruct (conn_read v (net w) [chr s] input out n m) as (n' & Hr & Hconn'); [done|done|].
  exists (w <| net := n' |>). unfold iperf_handle_message_server. cbn [length] in Hr. rewrite Hr.
  cbn [mbind outcome_bind ret filled]. change (Z.of_nat 1 <=? 0) with false. cbv iota.
  rewrite u8_chr. change (s mod 256) with (wrapu 8 s).
  assert (i8 (wrapu 8 s) = s) as ->; [|by split_and!].
  unfold wraps. change (wrapu 8 s mod 2 ^ 8) with (wrapu 8 (wrapu 8 s)).
  rewrite wrapu_wrapu by done. change (wrapu 8 s) with (s mod 2 ^ 8). by apply (wraps_id 8).
Qed.

(** ** A refused test *)

Definition refusal (cause errno : Z) : bytes :=
  chr SERVER_ERROR :: be_split 4 cause ++ be_split 4 errno.

Lemma report_error_sent set_errno errno test w input out n m :
  0 ≤ ctrl_sck test → conn v w input out n (9 + m) →
  (∀ t, ctrl_sck (set_errno t) = ctrl_sck t) →
  ∃ w', report_error set_errno errno test w = Ok (-1, set_errno (test <| state := SERVER_ERROR |>), w') ∧
        conn v w' input (out ++ refusal (i_errno (set_errno (test <| state := SERVER_ERROR |>))) errno) n m.
Proof.
  intros Hc Hconn Hs. unfold report_error, iperf_set_send_state, iperf_set_test_state. ztest.
  destruct (conn_write v w input out n (8 + m) [chr SERVER_ERROR]) as (w1 & -> & H1); [done|done|].
  cbn [mbind outcome_bind]. ztest. cbn [mbind outcome_bind negb Z.eqb].
  set (test' := set_errno _).
  destruct (conn_write v w1 input (out ++ [chr SERVER_ERROR]) n (4 + m) (be_split 4 (i_errno test'))) as (w2 & Hw2 & H2);
    [by rewrite length_be_split|by rewrite length_be_split|].
  rewrite Hw2. cbn [mbind outcome_bind]. rewrite length_be_split. ztest.
  destruct (conn_write v w2 input ((out ++ [chr SERVER_ERROR]) ++ be_split 4 (i_errno test')) n m (be_split 4 errno))
    as (w3 & Hw3 & H3); [by rewrite length_be_split|by rewrite length_be_split|].
  rewrite Hw3. cbn [mbind outcome_bind]. rewrite length_be_split. ztest.
  exists w3. split; [done|]. unfold refusal. rewrite <- !app_assoc in H3. exact H3.
Qed.

Lemma read_int32_sent test w z input out n m :
  in_s 32 z → conn v (net w) (be_split 4 z ++ input) out (5 + n) m →
  ∃ w', read_int32 test w = Ok (Some z, w') ∧ conn v (net w') input out n m.
Proof.
  intros Hz Hconn. destruct (conn_read v (net w) (be_split 4 z) input out n m) as (n' & Hr & Hc);
    [by rewrite length_be_split|by rewrite length_be_split|].
  rewrite length_be_split in Hr. exists (w <| net := n' |>). unfold read_int32. rewrite Hr.
  cbn [mbind outcome_bind ret filled]. ztest. rewrite length_be_split, decide_False by lia.
  split; [|done]. rewrite be_combine_split. change (8 * Z.of_nat 4) with 32.
  do 3 f_equal. unfold wraps. rewrite Zmod_mod. by apply (wraps_id 32).
Qed.

Lemma client_learns e cause err c w input out n m :
  in_s 32 cause → in_s 32 err → conn v (net w) (refusal cause err ++ input) out (10 + n) m →
  ∃ c' w', iperf_handle_message_client e c w = Ok (-1, c', w') ∧ i_errno c' = cause ∧
           conn v (net w') input out n m.
Proof.
  intros Hcause Herr Hconn. unfold refusal in Hconn. cbn [app] in Hconn. rewrite <- app_assoc in Hconn.
  destruct (client_reads e SERVER_ERROR c w _ _ _ _ ltac:(done) Hconn) as (w1 & -> & H1 & _ & _).
  unfold client_reaction. cbn [state]. change (state (c <| state := SERVER_ERROR |>)) with SERVER_ERROR.
  cbn [Z.eqb]. unfold server_error.
  destruct (read_int32_sent (c <| state := SERVER_ERROR |>) w1 cause _ _ (5 + n) m Hcause H1) as (w2 & -> & H2).
  cbn [mbind outcome_bind].
  destruct (read_int32_sent (c <| state := SERVER_ERROR |> <| i_errno := cause |>) w2 err _ _ n m Herr H2)
    as (w3 & -> & H3).
  cbn [mbind outcome_bind]. by eexists _, w3.
Qed.
End Steps.

(** ** The server's verdict on a client *)

(** The test of the server once the connection is set up, and while it reads the
    client's parameters. *)
Definition connected (fd : Z) (cookie_text : bytes) (s : iperf_test) : iperf_test :=
  s <| ctrl_sck := fd |> <| cookie := cookie_text |> <| max_fd := Z.max fd (max_fd s) |>
    <| read_set ::= (fun x => {[fd]} ∪ x) |>.
Definition welcomed (fd : Z) (cookie_text : bytes) (s : iperf_test) : iperf_test :=
  (connected fd cookie_text s) <| state := PARAM_EXCHANGE |>.

(** What the server decides about the parameters [j]: the error it reports, or
    the test it goes on with. *)
Definition verdict (e : env) (j : cJSON) (s : iperf_test) : outcome (Z + iperf_test) :=
  let '(r, s) := apply_parameters j s in
  if r <? 0 then Ok (inl (i_errno s))
  else
    authorized ← test_is_authorized (key_size e) (rsa_decrypt e) (base64_read e) (SHA256 e) (read_file e)
                   (utc_seconds e) s;
    if authorized <? 0 then Ok (inl IEAUTHTEST)
    else
      let '(fd, s) := prot_listen e s in
      if fd <? 0 then Ok (inl (i_errno s))
      else Ok (inr (s <| read_set ::= (fun x => {[fd]} ∪ x) |> <| max_fd := Z.max fd (max_fd s) |>
                      <| prot_listener := fd |>)).

(** A kernel that lets the control connection be set up. *)
Definition kernel_accepts (a : dial_answers) : Prop :=
  0 ≤ dial_fd a ∧ nodelay_ok a = true ∧ keepalive_ok a = true ∧ user_timeout_ok a = true.

(** The protocol's [listen] does not touch the control connection. *)
Definition listen_law (e : env) : Prop := ∀ t, ctrl_sck (prot_listen e t).2 = ctrl_sck t.

Section Verdict.
Context (v : Z) (e : env).
Context (Hlisten : listen_law e).

(** The server that has read the parameters reports the error or asks for the
    streams. *)
Lemma exchange_judges s w input out n m j text r :
  role s = "s"%char → 0 ≤ ctrl_sck s →
  json_wf 0 j = true → render false 0 j = Some text → Z.of_nat (length text) ≤ MAX_PARAMS_JSON_STRING →
  verdict e (parsed j) s = Ok r →
  conn v w (frame text ++ input) out (6 + length text + n) (9 + m) →
  ∃ w', match r with
        | inl cause => ∃ s', exchange_parameters e s w = Ok (-1, s', w') ∧
                             conn v w' input (out ++ refusal cause (errno e)) n m
        | inr s1 => exchange_parameters e s w = Ok (0, s1 <| state := CREATE_STREAMS |>, w') ∧
                    conn v w' input (out ++ [chr CREATE_STREAMS]) n (8 + m)
        end.
Proof.
  intros Hr Hc Hw Ht Hl Hv Hconn.
  destruct (conn_JSON_read v w input out n (9 + m) j text MAX_PARAMS_JSON_STRING Hw Ht)
    as (w1 & Hrd & H1); [unfold MAX_PARAMS_JSON_STRING in *; lia|right; unfold MAX_PARAMS_JSON_STRING in *; lia|done|].
  unfold exchange_parameters, iperf_exchange_parameters, get_parameters.
  rewrite Hr, decide_False by done. rewrite Hrd, Ok_bind. cbv beta iota.
  unfold verdict in Hv. pose proof (apply_parameters_session (parsed j) s) as Hs.
  destruct (apply_parameters (parsed j) s) as [r1 s1]. cbn [snd] in Hs.
  assert (ctrl_sck s1 = ctrl_sck s) as Hs1 by (unfold session_fields in Hs; congruence). clear Hs.
  rewrite Ok_bind. cbv beta iota. destruct (r1 <? 0) eqn:E1.
  { injection Hv as <-.
    destruct (report_error_sent v id (errno e) s1 w1 input out n m) as (w2 & Hrep & H2); [lia|done|done|].
    exists w2, (s1 <| state := SERVER_ERROR |>). by split. }
  destruct (test_is_authorized _ _ _ _ _ _ s1) as [auth| | |]; [|done..].
  cbn [mbind outcome_bind] in Hv |- *. destruct (auth <? 0) eqn:E2.
  { injection Hv as <-.
    destruct (report_error_sent v (fun t => t <| i_errno := IEAUTHTEST |>) (errno e) s1 w1 input out n m)
      as (w2 & Hrep & H2); [lia|done|done|].
    exists w2. eexists. by split. }
  pose proof (Hlisten s1) as Hls. destruct (prot_listen e s1) as [fd s2]. cbn [snd] in Hls.
  destruct (fd <? 0) eqn:E3.
  { injection Hv as <-.
    destruct (report_error_sent v id (errno e) s2 w1 input out n m) as (w2 & Hrep & H2); [lia|done|done|].
    exists w2, (s2 <| state := SERVER_ERROR |>). by split. }
  injection Hv as <-. unfold iperf_set_send_state, iperf_set_test_state.
  destruct (conn_write v w1 input out n (8 + m) [chr CREATE_STREAMS]) as (w2 & Hw2 & H2); [done|done|].
  exists w2. cbn [ctrl_sck]. rewrite (proj2 (Z.leb_le 0 _)) by (cbn; lia).
  cbn [state]. rewrite Hw2, Ok_bind. by split.
Qed.

(** What [iperf_accept] does with a client that sends a cookie and parameters. *)
Lemma accept_judges a s w input out n m j text ck r :
  kernel_accepts a → ctrl_sck s = -1 → role s = "s"%char →
  length ck = COOKIE_SIZE → length (cookie s) = COOKIE_SIZE →
  json_wf 0 j = true → render false 0 j = Some text → Z.of_nat (length text) ≤ MAX_PARAMS_JSON_STRING →
  verdict e (parsed j) (welcomed (dial_fd a) ck s) = Ok r →
  (∀ s1, r = inr s1 → server_affinity s1 = -1 ∨ affinity_ok e (Some (server_affinity s1)) = true) →
  conn v (net w) (ck ++ frame text ++ input) out (S COOKIE_SIZE + (6 + length text + n)) (10 + m) →
  ∃ w', match r with
        | inl cause =>
            ∃ s', iperf_accept e a s w = Ok (-1, s', w') ∧ log w' = log w ++ [Closed (dial_fd a)] ∧
                  conn v (net w') input (out ++ chr PARAM_EXCHANGE :: refusal cause (errno e)) n m
        | inr s1 =>
            iperf_accept e a s w = Ok (0, s1 <| state := CREATE_STREAMS |>, w') ∧
            wheel w' = wheel w ∧ log w' = log w ++ [On_connect] ∧
            conn v (net w') input (out ++ [chr PARAM_EXCHANGE; chr CREATE_STREAMS]) n (8 + m)
        end.
Proof.
  intros (Ha1 & Ha2 & Ha3 & Ha4) Hc Hr Hck Hcs Hw Ht Hl Hv Haff Hconn.
  rewrite <- Hck in Hconn.
  destruct (conn_read v (net w) ck _ out _ _ ltac:(by rewrite Hck) Hconn) as (n1 & Hrd & H1).
  assert (iperf_accept e a s w =
    ('(r, test, w) ← set_send_state PARAM_EXCHANGE (connected (dial_fd a) ck s) (w <| net := n1 |>);
     if negb (r =? 0) then Ok (-1, test, logged (Closed (dial_fd a)) w)
     else
       '(r, test, w) ← on_net (exchange_parameters e) test w;
       if r <? 0 then Ok (-1, test, logged (Closed (dial_fd a)) w)
       else
         let '(r, test) := if server_affinity test =? -1 then (0, test)
                           else iperf_setaffinity e test (Some (server_affinity test)) in
         if negb (r =? 0) then Ok (-1, test, logged (Closed (dial_fd a)) w)
         else Ok (0, test, logged On_connect w))) as ->.
  { unfold iperf_accept. rewrite Hc, Ha2, Ha3, Ha4. ztest. rewrite andb_false_r. cbn [negb].
    rewrite <- Hck, Hrd, Ok_bind. cbn [ret filled]. rewrite Z.eqb_refl. cbn [negb].
    rewrite drop_ge by (cbn; lia). rewrite app_nil_r. done. }
  destruct (conn_state v PARAM_EXCHANGE (connected (dial_fd a) ck s) (w <| net := n1 |>) (frame text ++ input) out
              (6 + length text + n) (9 + m))
    as (w2 & -> & H2 & Hw2 & Hl2); [exact Ha1|exact H1|].
  rewrite Ok_bind. cbn [negb Z.eqb]. unfold on_net.
  change ((connected (dial_fd a) ck s) <| state := PARAM_EXCHANGE |>) with (welcomed (dial_fd a) ck s).
  destruct (exchange_judges (welcomed (dial_fd a) ck s) (net w2) input _ n m j text r Hr Ha1 Hw Ht Hl Hv H2) as (n3 & H3).
  exists (logged (match r with inl _ => Closed (dial_fd a) | inr _ => On_connect end) (w2 <| net := n3 |>)).
  destruct r as [cause|s1].
  - destruct H3 as (s' & -> & H3). exists s'. rewrite Ok_bind. cbn. rewrite Hl2. split_and!; [done|done|].
    by rewrite <- app_assoc in H3.
  - destruct H3 as (-> & H3). rewrite !Ok_bind. cbv beta iota. cbn [Z.ltb Z.compare].
    change (server_affinity (s1 <| state := CREATE_STREAMS |>)) with (server_affinity s1).
    rewrite <- app_assoc in H3.
    assert ((if server_affinity s1 =? -1 then (0, s1 <| state := CREATE_STREAMS |>)
             else iperf_setaffinity e (s1 <| state := CREATE_STREAMS |>) (Some (server_affinity s1)))
            = (0, s1 <| state := CREATE_STREAMS |>)) as ->.
    { destruct (Haff s1 eq_refl) as [-> | Hs]; [done|]. unfold iperf_setaffinity. rewrite Hs. by case_goal. }
    cbn. rewrite Hl2, Hw2. by split_and!.
Qed.
End Verdict.

(** ** The client's half of the parameter exchange *)

Section Describe.
Context (v : Z) (e : env).

Lemma set_authtoken_state enc c c' z :
  set_authtoken enc c = Some c' → set_authtoken enc (c <| state := z |>) = Some (c' <| state := z |>).
Proof.
  unfold set_authtoken. change (settings (c <| state := z |>)) with (settings c).
  destruct (client_username (settings c)), (client_password (settings c)), (client_rsa_pubkey (settings c)); try (by intros [= <-]).
  destruct (enc _ _ _); [|done]. by intros [= <-].
Qed.

Lemma set_authtoken_session enc c c' :
  set_authtoken enc c = Some c' → session_fields c' = session_fields c.
Proof.
  unfold set_authtoken.
  destruct (client_username (settings c)), (client_password (settings c)), (client_rsa_pubkey (settings c)); try (by intros [= <-]).
  destruct (enc _ _ _); [|done]. by intros [= <-].
Qed.

(** The client answers [PARAM_EXCHANGE] with its parameters. *)
Lemma client_describes c c' w text input out n m :
  role c = "c"%char → no_nul (IPERF_VERSION e) → set_authtoken (encode_credentials e) c = Some c' →
  exchangeable c' → render false 0 (object_of (params_members (IPERF_VERSION e) c')) = Some text →
  Z.of_nat (length text) ≤ MAX_PARAMS_JSON_STRING →
  conn v (net w) (chr PARAM_EXCHANGE :: input) out n (length (frame text) + m) →
  ∃ w', iperf_handle_message_client e c w = Ok (0, c' <| state := PARAM_EXCHANGE |>, w') ∧
        conn v (net w') input (out ++ frame text) n m ∧
        wheel w' = wheel w ∧ log w' = log w ++ [On_connect].
Proof.
  intros Hr HV Hauth Hc Ht Hl Hconn.
  destruct (client_reads v e PARAM_EXCHANGE c w _ _ _ _ ltac:(done) Hconn) as (w1 & -> & H1 & Hw1 & Hl1).
  destruct (conn_JSON_write v (net w1) input out n m _ text (params_wf _ HV c' Hc) Ht)
    as (n2 & Hwr & H2); [unfold MAX_PARAMS_JSON_STRING in Hl; lia|done|].
  exists (logged On_connect (w1 <| net := n2 |>)).
  unfold client_reaction, on_net, exchange_parameters, iperf_exchange_parameters.
  change (state (c <| state := PARAM_EXCHANGE |>)) with PARAM_EXCHANGE.
  change (role (c <| state := PARAM_EXCHANGE |>)) with (role c).
  rewrite Hr. cbn [Z.eqb decide]. unfold send_parameters.
  rewrite (set_authtoken_state _ _ _ _ Hauth).
  change (params_members (IPERF_VERSION e) (c' <| state := PARAM_EXCHANGE |>))
    with (params_members (IPERF_VERSION e) c').
  rewrite Hwr. cbn. rewrite Hw1, Hl1. by split_and!.
Qed.
End Describe.

(** ** The set-up of a test *)

(** The client's test once the control connection is set up. *)
Definition dialled (d : dial_answers) (ck : bytes) (c : iperf_test) : iperf_test :=
  let test := c <| write_set := ∅ |> <| read_set := ∅ |> <| cookie := ck |> <| ctrl_sck := dial_fd d |> in
  let test := test <| max_fd := Z.max (dial_fd d) (max_fd test) |>
                   <| read_set ::= (fun x => {[dial_fd d]} ∪ x) |> in
  let ctrl_sck_mss :=
    match maxseg d with
    | Some opt => if (0 <? opt) && (opt <=? MAX_UDP_BLOCKSIZE) then opt else 0
    | None => 0
    end in
  if (protocol test =? Pudp) && (blksize (settings test) =? 0)
  then on_settings (fun s => s <| blksize := if set ctrl_sck_mss then ctrl_sck_mss else DEFAULT_UDP_BLKSIZE |>) test
  else test.

Section SetUp.
Context (v : Z).

Lemma connect_ok ck d c w input out n m :
  kernel_accepts d → ctrl_sck c < 0 → length ck = COOKIE_SIZE →
  conn v (net w) input out n (length ck + m) →
  ∃ w', iperf_connect ck d c w = Ok (0, dialled d ck c, w') ∧ conn v (net w') input (out ++ ck) n m ∧
        wheel w' = wheel w.
Proof.
  intros (H1 & H2 & H3 & H4) Hc Hck Hconn.
  destruct (conn_write v (net w) input out n m ck) as (n' & Hw & H); [rewrite Hck; unfold COOKIE_SIZE; lia|done|].
  exists (w <| net := n' |>). unfold iperf_connect.
  change (ctrl_sck (c <| write_set := ∅ |> <| read_set := ∅ |> <| cookie := ck |>)) with (ctrl_sck c).
  ztest. cbn [ctrl_sck].
  change (ctrl_sck (c <| write_set := ∅ |> <| read_set := ∅ |> <| cookie := ck |> <| ctrl_sck := dial_fd d |>))
    with (dial_fd d). ztest. rewrite H2, H3, H4, andb_false_r. cbn [negb].
  change (cookie (c <| write_set := ∅ |> <| read_set := ∅ |> <| cookie := ck |> <| ctrl_sck := dial_fd d |>)) with ck.
  rewrite Hw, Ok_bind. ztest. unfold dialled. cbv zeta. split_and!; [reflexivity|exact H|reflexivity].
Qed.

(** Parameters the server agrees to. *)
Lemma verdict_agreed es V c s :
  env_works es → exchangeable c → ready_for c s → max_server_duration s < 2 ^ 31 → server_authorized_users s = None →
  ∃ s1, verdict es (parsed (object_of (params_members V c))) s = Ok (inr s1) ∧ agreed c s s1 ∧
        session_fields (s1 <| prot_listener := prot_listener s |>) = session_fields s.
Proof.
  intros He Hc Hr Hmax Hauth. destruct (apply_parameters_agreed V c s Hc Hr Hmax) as (s0 & Hap & Hag).
  pose proof (apply_parameters_session (parsed (object_of (params_members V c))) s) as Hs.
  unfold verdict. rewrite Hap in Hs |- *. cbn [snd] in Hs. cbn [Z.ltb Z.compare].
  assert (server_authorized_users s0 = None) as Ha by (rewrite <- Hauth; unfold session_fields in Hs; congruence).
  unfold test_is_authorized. rewrite Ha.
  destruct (works_listen _ He s0) as [Hfd Hls]. destruct (prot_listen es s0) as [fd s2]. cbn [fst snd] in Hfd, Hls. subst s2.
  eexists. split; [destruct (server_rsa_private_key s0); cbn; by ztest|]. split.
  - destruct Hag. by constructor.
  - unfold session_fields in Hs |- *. cbn. congruence.
Qed.
End SetUp.

(** The streams of the two sides are the same, seen from either end. *)
Definition mirrored (l : list (Z * bool)) : list (Z * bool) := map (fun '(i, b) => (i, negb b)) l.

(** How many streams a server receives and sends. *)
Definition to_receive (mode n : Z) : nat := if mode =? SENDER then 0 else Z.to_nat n.
Definition to_send (mode n : Z) : nat := if mode =? RECEIVER then 0 else Z.to_nat n.

Lemma mirrored_block k n b R :
  (∀ i, (k ≤ i < k + n)%nat → bool_decide (R ≤ i)%nat = negb b) →
  mirrored (stream_block k n b) = map (fun i => (stream_id i, bool_decide (R ≤ i)%nat)) (seq k n).
Proof.
  intros Hb. unfold mirrored, stream_block. rewrite map_map. apply map_ext_in.
  intros i [Hlo Hhi]%in_seq. rewrite Hb by lia. done.
Qed.

Lemma mirrored_app l l' : mirrored (l ++ l') = mirrored l ++ mirrored l'.
Proof. apply map_app. Qed.

Lemma streams_match (rev bidir : bool) n :
  let R := to_receive (mode_of "s" rev bidir) n in
  let S := to_send (mode_of "s" rev bidir) n in
  mirrored (client_streams (mode_of "c" rev bidir) n) = accepted R (R + S).
Proof.
  assert (∀ k j, mirrored (stream_block 0 k true) = accepted k k ∧
    mirrored (stream_block k j false) = map (fun i => (stream_id i, bool_decide (k ≤ i)%nat)) (seq k j)) as H.
  { intros k j. unfold accepted. split; apply mirrored_block; intros i Hi;
      [by rewrite bool_decide_false by lia|by rewrite bool_decide_true by lia]. }
  cbv zeta. destruct bidir; [|destruct rev].
  - change (mirrored (stream_block 0 (Z.to_nat n) true ++ stream_block (Z.to_nat n) (Z.to_nat n) false)
            = accepted (Z.to_nat n) (Z.to_nat n + Z.to_nat n)).
    destruct (H (Z.to_nat n) (Z.to_nat n)) as [H1 H2]. rewrite mirrored_app, H1, H2.
    unfold accepted. by rewrite seq_app, map_app.
  - change (mirrored (stream_block 0 (Z.to_nat n) false) = accepted 0 (Z.to_nat n)). apply (H 0%nat).
  - change (mirrored (stream_block 0 (Z.to_nat n) true) = accepted (Z.to_nat n) (Z.to_nat n + 0)).
    rewrite Nat.add_0_r. apply (H _ 0%nat).
Qed.

(** A server between two tests, without a users file and without a rate limit. *)
Record free_server (s : iperf_test) (w : world) : Prop := {
  free_state : state s = IPERF_START ∧ ctrl_sck s = -1 ∧ streams s = [];
  free_cookie : length (cookie s) = COOKIE_SIZE;
  free_users : server_authorized_users s = None;
  free_limits : bitrate_limit (settings s) = 0 ∧ bitrate_limit_exceeded s = 0 ∧ max_server_duration s < 2 ^ 31;
  free_blocks : blocks_received s = 0;
  free_rcv : 0 < secs (rcv_timeout (settings s));
  free_periods : period_ok (stats_interval s) ∧ period_ok (reporter_interval s);
  free_timers : no_timers (wheel w)
}.

(** The answers of the turn in which a client connects. *)
Definition arrival (a : server_answer) : Prop :=
  0 < srv_sel a ∧ listener_ready a = true ∧ srv_ctrl_ready a = false ∧ prot_ready a = false ∧
  kernel_accepts (connection a).

(** A client that has not connected. *)
Record new_client (c : iperf_test) (w : world) : Prop := {
  new_role : role c = "c"%char;
  new_ctrl : ctrl_sck c < 0;
  new_streams : streams c = [];
  new_periods : period_ok (stats_interval c) ∧ period_ok (reporter_interval c);
  new_timers : wheel_ok (wheel w)
}.

(** The parameters of a test, as sent, fit their message; QUIC apart. *)
Record describes (V : bytes) (c : iperf_test) (text : bytes) : Prop := {
  describes_version : no_nul V;
  describes_exactly : exchangeable c;
  describes_text : render false 0 (object_of (params_members V c)) = Some text;
  describes_length : Z.of_nat (length text) ≤ MAX_PARAMS_JSON_STRING;
  describes_mode : mode c = mode_of "c" (set (reverse c)) (set (bidirectional c));
  describes_streams : 0 < num_streams c ∧ 2 * num_streams c < 2 ^ 31 - 2;
  describes_protocol : protocol c ≠ Pquic
}.

Section SetUpTurns.
Context (v : Z).

(** The client answers the four messages of the set-up. *)
Lemma client_sets_up ec c c' w text out n m :
  env_works ec → role c = "c"%char → streams c = [] →
  period_ok (stats_interval c) → period_ok (reporter_interval c) → wheel_ok (wheel w) → set_authtoken (encode_credentials ec) c = Some c' →
  describes (IPERF_VERSION ec) c' text →
  conn v (net w) (map chr [PARAM_EXCHANGE; CREATE_STREAMS; TEST_START; TEST_RUNNING]) out n
    (length (frame text) + m) →
  ∃ c1 w1 c2 w2 c3 w3 c4 w4,
    iperf_handle_message_client ec c w = Ok (0, c1, w1) ∧
    iperf_handle_message_client ec c1 w1 = Ok (0, c2, w2) ∧
    iperf_handle_message_client ec c2 w2 = Ok (0, c3, w3) ∧
    iperf_handle_message_client ec c3 w3 = Ok (0, c4, w4) ∧
    conn v (net w4) [] (out ++ frame text) n m ∧
    plan c4 = plan (c' <| state := TEST_RUNNING |>) ∧
    numbered c4 = client_streams (mode c') (num_streams c').
Proof.
  intros He Hr Hst Hs1 Hs2 Hw Hauth [HV Hc Ht Hl _ [_ Hn] _] Hconn.
  pose proof (set_authtoken_session _ _ _ Hauth) as Hses. unfold session_fields in Hses.
  destruct (client_describes v ec c c' w text _ out n m Hr HV Hauth Hc Ht Hl Hconn) as (w1 & Hh1 & H1 & Hw1 & _).
  destruct (client_reads v ec CREATE_STREAMS (c' <| state := PARAM_EXCHANGE |>) w1 _ _ _ _ ltac:(done) H1)
    as (w1' & Hh2 & H1' & Hw1' & _).
  unfold client_reaction at 1 in Hh2. cbn [state Z.eqb] in Hh2.
  destruct (create_streams_ok ec (c' <| state := PARAM_EXCHANGE |> <| state := CREATE_STREAMS |>) w1' He)
    as (c2 & w2 & Hcr & Hp2 & Hn2 & Hnet2 & Hw2); [change (streams c' = []); congruence|exact Hn|].
  assert (wheel_ok (wheel w2)) as Hwh2 by (by rewrite Hw2, Hw1', Hw1).
  rewrite <- Hnet2 in H1'.
  destruct (client_reads v ec TEST_START c2 w2 _ _ _ _ ltac:(done) H1') as (w2' & Hh3 & H2' & Hw2' & _).
  set (c2' := c2 <| state := TEST_START |>) in *.
  assert (stats_interval c2' = stats_interval c ∧ reporter_interval c2' = reporter_interval c) as [E1 E2].
  { split; [transitivity (stats_interval c2)|transitivity (reporter_interval c2)]; try done;
      [transitivity (stats_interval c')|transitivity (reporter_interval c')]; try plan_field Hp2; congruence. }
  destruct (start_test_ok c2' w2') as (c3 & w3 & Hst3 & Hp3 & Hn3 & Hw3 & Hclk);
    [by rewrite E1|by rewrite E2|by rewrite Hw2'|].
  pose proof (conn_clock _ _ _ _ _ _ _ Hclk H2') as H3.
  destruct (client_reads v ec TEST_RUNNING c3 w3 _ _ _ _ ltac:(done) H3) as (w4 & Hh4 & H4 & _ & _).
  exists (c' <| state := PARAM_EXCHANGE |>), w1, c2, w2, c3, w3, (c3 <| state := TEST_RUNNING |>), w4.
  split_and!; [done|by rewrite Hh2|by rewrite Hh3|by rewrite Hh4|done| |].
  - rewrite (plan_state _ _ _ Hp3). unfold c2'.
    change (c2 <| state := TEST_START |> <| state := TEST_RUNNING |>) with (c2 <| state := TEST_RUNNING |>).
    rewrite (plan_state _ _ _ Hp2). done.
  - change (numbered c3 = client_streams (mode c') (num_streams c')). rewrite Hn3. exact Hn2.
Qed.

(** The first turn of the server: a client connects. *)
Lemma accept_turn es fuel a s w input out n m V c ck text t0 :
  env_works es → arrival a → free_server s w → describes V c text → ready_for c s → length ck = COOKIE_SIZE →
  conn v (net w) (ck ++ frame text ++ input) out (S COOKIE_SIZE + (6 + length text + n)) (10 + m) →
  ∃ s1 w1 l1, server_turn es fuel a (mk_accepting 0 0 0 0 None t0 0) s w
                = Ok (Go_on l1, s1 <| state := CREATE_STREAMS |>, w1) ∧
    agreed c s s1 ∧ session_fields (s1 <| prot_listener := prot_listener s |>) = session_fields (welcomed (dial_fd (connection a)) ck s) ∧
    in_progress (to_receive (mode s1) (num_streams c)) (to_send (mode s1) (num_streams c)) 0 l1 (s1 <| state := CREATE_STREAMS |>) ∧
    wheel w1 = wheel w ∧
    conn v (net w1) input (out ++ [chr PARAM_EXCHANGE; chr CREATE_STREAMS]) n (8 + m).
Proof.
  intros He (Ha1 & Ha2 & Ha3 & Ha4 & Hka) [(Hst & Hcs & Hstr) Hcks Hauth (_ & Hbit & Hmax) Hblk _ _ Hwh]
    [HV Hc Ht Hl _ [Hn _] _] Hr Hck Hconn.
  set (s0 := welcomed (dial_fd (connection a)) ck s).
  destruct (verdict_agreed es V c s0 He Hc) as (s1 & Hv & Hag & Hses); [by destruct Hr|done|done|].
  assert (listen_law es) as Hlaw by (intros t; by destruct (works_listen _ He t) as [_ ->]).
  destruct (accept_judges v es Hlaw (connection a) s (w <| net := (os_now (net w)).2 |>) input out n m
              (object_of (params_members V c)) text ck (inr s1) Hka Hcs)
    as (w1 & Hacc & Hw1 & _ & H1);
    [apply Hr|done|done|by apply params_wf|done|done|done|intros; right; apply (works_affinity _ He)| |].
  { eapply conn_clock; [apply clock_read_once|done]. }
  pose proof (agreed_numbers _ _ _ Hag) as (_ & _ & Hns & _).
  set (s2 := s1 <| state := CREATE_STREAMS |>) in *.
  set (l1 := set_stream_counts s2 (mk_accepting 0 0 0 0 None t0 0)).
  assert (in_progress (to_receive (mode s1) (num_streams c)) (to_send (mode s1) (num_streams c)) 0 l1 s2) as Hl1.
  { assert (numbered s2 = []) as Hnum.
    { assert (streams s1 = streams s) as E by (unfold session_fields in Hses; cbn in Hses; congruence).
      change (numbered s2) with (map (fun sp => (sp_id sp, sp_sender sp)) (streams s1)). by rewrite E, Hstr. }
    subst l1. unfold set_stream_counts, to_receive, to_send.
    change (mode s2) with (mode s1). change (num_streams s2) with (num_streams s1). rewrite Hns.
    destruct (Z.eqb_spec (mode s1) BIDIRECTIONAL) as [->|Hnb]; [|destruct (Z.eqb_spec (mode s1) RECEIVER) as [->|Hnr]].
    - split; cbn; try done; try lia; by left.
    - split; cbn; try done; try lia; by left.
    - rewrite (agreed_mode _ _ _ Hag) in Hnb, Hnr |- *. unfold mode_of in *.
      destruct (set (bidirectional c)), (set (reverse c)); try done. split; cbn; try done; try lia; by left. }
  exists s1, w1, l1. split_and!; [|destruct Hag; by constructor|done|done|by rewrite Hw1|done].
  apply event_turn; [done|done|done|done|done| |].
  { unfold server_timeout. rewrite Hst. change (IPERF_START =? IPERF_START) with true. cbv iota.
    destruct (Z.ltb_spec 0 (idle_timeout (settings s))); [|done]. intros [= E]. lia. }
  unfold serve_events. rewrite Ha2, Ha3, Hst. change (IPERF_START =? CREATE_STREAMS) with false. cbn [negb andb].
  rewrite Hacc. cbn [mbind outcome_bind Z.ltb Z.compare]. fold l1.
  change (state s2 =? CREATE_STREAMS) with true. cbv iota. unfold create_streams_turn. rewrite Ha4. cbn [negb].
  rewrite Ok_bind. unfold start_if_complete. rewrite (progress_complete _ _ _ _ _ Hl1) by lia.
  rewrite bool_decide_false; [done|].
  unfold to_receive, to_send. destruct (Z.eqb_spec (mode s1) SENDER) as [->|]; cbn; [lia|].
  destruct (mode s1 =? RECEIVER); lia.
Qed.
Lemma stream_total mode n :
  0 < n → (1 ≤ to_receive mode n + to_send mode n ≤ 2 * Z.to_nat n)%nat.
Proof.
  intros Hn. unfold to_receive, to_send. destruct (Z.eqb_spec mode SENDER) as [->|]; cbn; [lia|].
  destruct (mode =? RECEIVER); lia.
Qed.

(** After the parameters the server waits for the streams. *)
Lemma setup_waiting a c ck s w s1 V text :
  arrival a → free_server s w → describes V c text → agreed c s s1 →
  session_fields (s1 <| prot_listener := prot_listener s |>) = session_fields (welcomed (dial_fd (connection a)) ck s) →
  waiting (s1 <| state := CREATE_STREAMS |>).
Proof.
  intros (_ & _ & _ & _ & Hka) [_ _ _ (Hbl & Hbe & _) Hblk Hrcv [Hp1 Hp2] _] Hd Hag Hses.
  unfold session_fields in Hses. cbn in Hses.
  split; cbn; [done| | |split_and!; congruence| |split; congruence].
  - rewrite (agreed_protocol _ _ _ Hag). apply Hd.
  - assert (ctrl_sck s1 = dial_fd (connection a)) as -> by congruence. apply Hka.
  - assert (rcv_timeout (settings s1) = rcv_timeout (settings s)) as -> by congruence. done.
Qed.

(** The loop of the server from an idle server to a running test. *)
Lemma server_sets_up es fuel a answers later s w input out V c ck text t0 :
  env_works es → arrival a → Forall stream_answer answers →
  length answers = length (client_streams (mode c) (num_streams c)) →
  free_server s w → describes V c text → ready_for c s → length ck = COOKIE_SIZE →
  conn v (net w) (ck ++ frame text ++ input) out (44 + length text) 10 →
  ∃ s1 l s' w', server_loop es fuel (a :: answers ++ later) (mk_accepting 0 0 0 0 None t0 0) s w
                  = server_loop es fuel later l s' w' ∧
    agreed c s s1 ∧ plan s' = plan (s1 <| state := TEST_RUNNING |>) ∧
    numbered s' = mirrored (client_streams (mode c) (num_streams c)) ∧
    conn v (net w') input (out ++ map chr [PARAM_EXCHANGE; CREATE_STREAMS; TEST_START; TEST_RUNNING]) 0 6.
Proof.
  intros He Ha Hans Hlen Hs Hd Hready Hck Hconn.
  destruct (accept_turn es fuel a s w input out 0 0 V c ck text t0 He Ha Hs Hd Hready Hck)
    as (s1 & w1 & l1 & Hturn & Hag & Hses & Hl1 & Hw1 & H1);
    [eapply conn_le; [done|unfold COOKIE_SIZE; lia|lia]|].
  pose proof (agreed_mode _ _ _ Hag) as Hm1.
  pose proof Hd as [_ _ _ _ Hmode [Hn Hn2] _].
  pose proof (streams_match (set (reverse c)) (set (bidirectional c)) (num_streams c)) as Hmatch.
  cbv zeta in Hmatch. rewrite <- Hm1, <- Hmode in Hmatch.
  assert (length answers = to_receive (mode s1) (num_streams c) + to_send (mode s1) (num_streams c))%nat as Hlen2.
  { rewrite Hlen, <- (length_accepted (to_receive (mode s1) (num_streams c))), <- Hmatch. symmetry. apply length_map. }
  destruct (stream_total (mode s1) (num_streams c) Hn) as [Hpos Hle].
  destruct (stream_turns v es He fuel answers (to_receive (mode s1) (num_streams c)) (to_send (mode s1) (num_streams c)) 0 l1
              (s1 <| state := CREATE_STREAMS |>) w1 input
              (out ++ [chr PARAM_EXCHANGE; chr CREATE_STREAMS]) 0 6 later Hans)
    as (l2 & s2 & w2 & Hloop & Hp2 & Hn2' & _ & H2);
    [lia|lia|lia|exact (setup_waiting a c ck s w s1 V text Ha Hs Hd Hag Hses)|done|rewrite Hw1; apply Hs|done|].
  exists s1, l2, s2, w2. split_and!; [|done|done|by rewrite Hn2'|by rewrite <- app_assoc in H2].
  cbn [app server_loop]. rewrite (proj1 (free_state _ _ Hs)). change (IPERF_START =? IPERF_DONE) with false.
  cbv iota. by rewrite Hturn, Ok_bind.
Qed.
End SetUpTurns.

Lemma dialled_fields d ck c :
  role (dialled d ck c) = role c ∧ streams (dialled d ck c) = streams c ∧
  stats_interval (dialled d ck c) = stats_interval c ∧ reporter_interval (dialled d ck c) = reporter_interval c.
Proof. unfold dialled. by case_goal. Qed.

(** ** The end of a test *)

Section Finish.
Context (v : Z).

Lemma conn_send_results a w input out n m text :
  results_ok a → render false 0 (object_of (results_members a)) = Some text →
  Z.of_nat (length text) + 8 < 2 ^ 31 → conn v w input out n (length (frame text) + m) →
  ∃ w', send_results a w = Ok (0, a, w') ∧ conn v w' input (out ++ frame text) n m.
Proof.
  intros Ha Ht Hl Hc. destruct (conn_JSON_write v w input out n m _ text (results_wf a Ha) Ht Hl Hc) as (w' & Hw & H).
  exists w'. unfold send_results. rewrite Hw. by split.
Qed.

Lemma conn_get_results a b w input out n m text :
  results_ok a → render false 0 (object_of (results_members a)) = Some text →
  NoDup (map sp_id (streams b)) → map sp_id (streams a) ⊆ map sp_id (streams b) →
  Z.of_nat (length text) + 8 < 2 ^ 31 → conn v w (frame text ++ input) out (6 + length text + n) m →
  ∃ w', get_results b w = Ok (0, results_applied a b, w') ∧ conn v w' input out n m.
Proof.
  intros Ha Ht Hb Hincl Hl Hc.
  destruct (conn_JSON_read v w input out n m _ text 0 (results_wf a Ha) Ht Hl) as (w' & Hr & H); [by left|done|].
  exists w'. unfold get_results. rewrite Hr. cbn [mbind outcome_bind]. by rewrite apply_results_sent.
Qed.

(** The server's test when it exchanges the results. *)
Definition ended (s1 : iperf_test) : iperf_test := (drop_sockets s1) <| state := EXCHANGE_RESULTS |>.

(** The server reacts to [TEST_END]: [n0] is its connection after the message,
    [s1] its test after the last statistics. *)
Lemma server_ends es s w n0 s1 n1 a input out n m text text_s :
  let s0 := s <| state := TEST_END |> <| done := 1 |> in
  Nread (net w) 1 = Ok (mk_received 1 [chr TEST_END], n0) →
  iperf_stats_callback (total_retransmits es) (garbage es) (measure_cpu es s0 (w <| net := n0 |>)) n0 = Ok (s1, n1) →
  role s = "s"%char → 0 ≤ ctrl_sck s → protocol s ≠ Pquic →
  results_ok a → render false 0 (object_of (results_members a)) = Some text → Z.of_nat (length text) + 8 < 2 ^ 31 →
  NoDup (map sp_id (streams s)) → map sp_id (streams a) ⊆ map sp_id (streams s) →
  results_ok (results_applied a (ended s1)) →
  render false 0 (object_of (results_members (results_applied a (ended s1)))) = Some text_s →
  Z.of_nat (length text_s) + 8 < 2 ^ 31 →
  conn v (net w) (chr TEST_END :: frame text ++ input) out (8 + length text + n) (2 + length (frame text_s) + m) →
  ∃ s' w', iperf_handle_message_server es s w = Ok (0, s', w') ∧ state s' = DISPLAY_RESULTS ∧
    streams s' = streams (results_applied a (ended s1)) ∧
    conn v (net w') input (out ++ chr EXCHANGE_RESULTS :: frame text_s ++ [chr DISPLAY_RESULTS]) n m.
Proof.
  intros s0 Hread Hstats Hr Hc Hq Ha Ht Hl Hnd Hincl Hs1 Hts Hls Hconn.
  destruct (conn_read v (net w) [chr TEST_END] (frame text ++ input) out (6 + length text + n) _ ltac:(done) Hconn)
    as (n0' & Hread' & H0). cbn [length] in Hread'. rewrite Hread in Hread'. injection Hread' as <-.
  set (s0' := measure_cpu es s0 (w <| net := n0 |>)) in *.
  destruct (stats_done (total_retransmits es) (garbage es) s0' n0) as (l & n1' & Hst & Hids & Hclk); [done|].
  rewrite Hstats in Hst. injection Hst as -> ->. apply (conn_clock v _ _ _ _ _ _ Hclk) in H0.
  set (s1 := s0' <| streams := l |>) in *. change (map sp_id l = map sp_id (streams s)) in Hids.
  assert (iperf_handle_message_server es s w = test_end es (s <| state := TEST_END |>) (w <| net := n0 |>)) as ->.
  { unfold iperf_handle_message_server. rewrite Hread. reflexivity. }
  unfold test_end, stats. change (net (w <| net := n0 |>)) with n0. fold s0 s0'.
  rewrite Hstats, !Ok_bind. unfold is_quic.
  change (protocol s1) with (protocol s). rewrite (proj2 (Z.eqb_neq _ _) Hq).
  unfold drop_streams.
  destruct (conn_state v EXCHANGE_RESULTS (drop_sockets s1) (close_streams s1 (w <| net := n0 |> <| net := n1' |>))
              (frame text ++ input) out (6 + length text + n) (1 + length (frame text_s) + m)) as (w2 & -> & H2 & _ & _);
    [exact Hc|rewrite (proj1 (close_streams_net _ _)); exact H0|].
  fold (ended s1). rewrite Ok_bind. change (0 =? 0) with true. cbn [negb andb].
  destruct (conn_get_results a (ended s1) (net w2) input (out ++ [chr EXCHANGE_RESULTS]) n
              (1 + length (frame text_s) + m) text Ha Ht) as (n3 & Hget & H3);
    [change (streams (ended s1)) with l; by rewrite Hids|change (streams (ended s1)) with l; by rewrite Hids|done|exact H2|].
  destruct (conn_send_results (results_applied a (ended s1)) n3 input (out ++ [chr EXCHANGE_RESULTS]) n (1 + m) text_s Hs1 Hts Hls) as (n4 & Hsend & H4);
    [eapply conn_le; [exact H3|lia|lia]|].
  unfold on_net, iperf_exchange_results. change (role (ended s1)) with (role s). rewrite Hr.
  rewrite decide_False by done. rewrite Hget, Ok_bind. change (0 <? 0) with false. cbv iota. rewrite Hsend, !Ok_bind.
  change (0 <? 0) with false. cbn [negb andb]. cbv beta iota.
  destruct (conn_state v DISPLAY_RESULTS ((results_applied a (ended s1)) <| summary_printed := 1 |>)
              (logged Summary (w2 <| net := n4 |>)) input ((out ++ [chr EXCHANGE_RESULTS]) ++ frame text_s) n m) as (w5 & -> & H5 & _ & _);
    [|exact H4|].
  { change (0 ≤ ctrl_sck (results_applied a (ended s1))).
    assert (ctrl_sck (results_applied a (ended s1)) = ctrl_sck (ended s1)) as -> by apply applied_fields. exact Hc. }
  rewrite Ok_bind. change (0 =? 0) with true. cbn [negb andb].
  assert (protocol (results_applied a (ended s1)) = protocol s) as Ep.
  { transitivity (protocol (ended s1)); [apply applied_fields|done]. }
  change (protocol ((results_applied a (ended s1)) <| summary_printed := 1 |> <| state := DISPLAY_RESULTS |>))
    with (protocol (results_applied a (ended s1))).
  rewrite Ep, (proj2 (Z.eqb_neq _ _) Hq). cbn [andb].
  eexists _, _. split_and!; [reflexivity|reflexivity|reflexivity|].
  by rewrite <- !app_assoc in H5.
Qed.
Lemma ended_streams es s w n0 s1 n1 :
  iperf_stats_callback (total_retransmits es) (garbage es)
    (measure_cpu es (s <| state := TEST_END |> <| done := 1 |>) (w <| net := n0 |>)) n0 = Ok (s1, n1) →
  role (ended s1) = role s ∧ map sp_id (streams (ended s1)) = map sp_id (streams s).
Proof.
  intros Hst. destruct (stats_done (total_retransmits es) (garbage es)
    (measure_cpu es (s <| state := TEST_END |> <| done := 1 |>) (w <| net := n0 |>)) n0) as (l & n & Hst' & Hids & _); [done|].
  rewrite Hst in Hst'. injection Hst' as -> _. by split.
Qed.

(** The client's two messages of the end. *)
Lemma client_finishes ec c w b input out n m text text_b :
  let c0 := c <| state := EXCHANGE_RESULTS |> in
  role c = "c"%char → 0 ≤ ctrl_sck c → protocol c ≠ Pquic →
  results_ok c0 → render false 0 (object_of (results_members c0)) = Some text → Z.of_nat (length text) + 8 < 2 ^ 31 →
  results_ok b → render false 0 (object_of (results_members b)) = Some text_b → Z.of_nat (length text_b) + 8 < 2 ^ 31 →
  map sp_id (streams b) ⊆ map sp_id (streams c) →
  conn v (net w) (chr EXCHANGE_RESULTS :: frame text_b ++ chr DISPLAY_RESULTS :: input) out
    (6 + length text_b + n) (length (frame text) + (1 + m)) →
  ∃ c1 w1 c2 w2, iperf_handle_message_client ec c w = Ok (0, c1, w1) ∧
    iperf_handle_message_client ec c1 w1 = Ok (0, c2, w2) ∧
    state c2 = IPERF_DONE ∧ streams c2 = streams (results_applied b c0) ∧
    conn v (net w2) input (out ++ frame text ++ [chr IPERF_DONE]) n m.
Proof.
  intros c0 Hr Hc Hq Hc0 Ht Hl Hb Htb Hlb Hids Hconn.
  destruct (client_reads v ec EXCHANGE_RESULTS c w _ _ _ _ ltac:(done) Hconn) as (w1 & -> & H1 & _ & _). fold c0.
  destruct (conn_send_results c0 (net w1) (frame text_b ++ chr DISPLAY_RESULTS :: input) out (6 + length text_b + n)
              (1 + m) text Hc0 Ht Hl H1) as (n2 & Hsend & H2).
  destruct (conn_get_results b c0 n2 (chr DISPLAY_RESULTS :: input) (out ++ frame text) n (1 + m) text_b Hb Htb)
    as (n3 & Hget & H3); [apply Hc0|exact Hids|done|exact H2|].
  set (c1 := results_applied b c0) in *.
  destruct (applied_fields b c0) as (_ & _ & Ep & _ & Ec & _). fold c1 in Ep, Ec.
  assert (client_reaction ec c0 w1 = Ok (0, c1, w1 <| net := n3 |>)) as ->.
  { unfold client_reaction. change (state c0) with EXCHANGE_RESULTS. cbn [Z.eqb EXCHANGE_RESULTS].
    unfold on_net, iperf_exchange_results. change (role c0) with (role c). rewrite Hr.
    rewrite Hsend, Ok_bind. change (0 <? 0) with false. cbv iota. rewrite Hget, !Ok_bind. done. }
  destruct (client_reads v ec DISPLAY_RESULTS c1 (w1 <| net := n3 |>) _ _ _ _ ltac:(done) H3) as (w4 & Hh & H4 & _ & _).
  set (c2 := c1 <| state := DISPLAY_RESULTS |>) in *.
  destruct (conn_state v IPERF_DONE c2 (reporter c2 (close_streams c2 (logged On_test_finish w4)))
              input (out ++ frame text) n m) as (w5 & Hs & H5 & _ & _).
  { change (0 ≤ ctrl_sck c1). rewrite Ec. exact Hc. }
  { change (conn v (net (close_streams c2 (logged On_test_finish w4))) input (out ++ frame text) n (1 + m)).
    rewrite (proj1 (close_streams_net _ _)). exact H4. }
  exists c1, (w1 <| net := n3 |>), (c2 <| state := IPERF_DONE |>), (logged (Closed (ctrl_sck c2)) w5).
  split_and!; [done| |done|done|by rewrite <- app_assoc in H5].
  rewrite Hh. change (client_reaction ec c2 w4)
    with ('(_, test, w) ← iperf_client_end c2 (logged On_test_finish w4); Ok (0, test, w)).
  unfold iperf_client_end. change (protocol c2) with (protocol c1). rewrite Ep.
  change (protocol c0) with (protocol c). rewrite (proj2 (Z.eqb_neq _ _) Hq).
  change (0 <? state c2) with true. cbv iota.
  rewrite Hs, !Ok_bind. change (ctrl_sck (c2 <| state := IPERF_DONE |>)) with (ctrl_sck c1).
  change (ctrl_sck c2) with (ctrl_sck c1). rewrite Ec. change (ctrl_sck c0) with (ctrl_sck c). by ztest.
Qed.
End Finish.

(** ** Properties *)

(** C8: a server that refuses a test tells the client why.  When the client's
    parameters fit the message, the server's decision about them ([verdict]: the
    protocol, the limit on the duration, the authorization, the protocol's
    listener) is the error [cause], and the connection works, [iperf_accept]
    fails and closes the connection after sending [SERVER_ERROR] with [cause] and
    [errno]; the client, which reads exactly what the server sent, fails too and
    has [cause] as its own error. *)
Theorem refusal_reaches_client v ec es a c c' s wc ws ck text cause restc rests outc outs :
  listen_law es → kernel_accepts a → ctrl_sck s = -1 → role s = "s"%char → role c = "c"%char →
  length ck = COOKIE_SIZE → length (cookie s) = COOKIE_SIZE →
  no_nul (IPERF_VERSION ec) → set_authtoken (encode_credentials ec) c = Some c' → exchangeable c' →
  render false 0 (object_of (params_members (IPERF_VERSION ec) c')) = Some text →
  Z.of_nat (length text) ≤ MAX_PARAMS_JSON_STRING →
  verdict es (parsed (object_of (params_members (IPERF_VERSION ec) c'))) (welcomed (dial_fd a) ck s)
    = Ok (inl cause) →
  in_s 32 cause → in_s 32 (errno es) →
  conn v (net ws) (ck ++ frame text ++ rests) outs (44 + length text) 10 →
  conn v (net wc) (chr PARAM_EXCHANGE :: refusal cause (errno es) ++ restc) outc 10 (length (frame text)) →
  ∃ s' ws' c1 wc1 c2 wc2,
    iperf_accept es a s ws = Ok (-1, s', ws') ∧
    sent (net ws') = outs ++ chr PARAM_EXCHANGE :: refusal cause (errno es) ∧
    flat (reads (net ws')) = rests ∧ log ws' = log ws ++ [Closed (dial_fd a)] ∧
    iperf_handle_message_client ec c wc = Ok (0, c1, wc1) ∧ sent (net wc1) = outc ++ frame text ∧
    iperf_handle_message_client ec c1 wc1 = Ok (-1, c2, wc2) ∧ i_errno c2 = cause ∧
    flat (reads (net wc2)) = restc.
Proof.
  intros Hlis Ha Hcs Hrs Hrc Hck Hcks HV Hauth Hc Ht Hl Hv Hcause Herr Hs Hcl.
  destruct (accept_judges v es Hlis a s ws rests outs 0 0 _ text ck (inl cause) Ha Hcs Hrs Hck Hcks
              (params_wf _ HV c' Hc) Ht Hl Hv) as (ws' & s' & Hacc & Hlog & Hs'); [done|eapply conn_le; [done| |]; unfold COOKIE_SIZE; lia|].
  destruct (client_describes v ec c c' wc text (refusal cause (errno es) ++ restc) outc 10 0)
    as (wc1 & Hh & Hc1 & _ & _); [done..|by rewrite Nat.add_0_r|].
  destruct (client_learns v ec cause (errno es) (c' <| state := PARAM_EXCHANGE |>) wc1 restc (outc ++ frame text) 0 0)
    as (c2 & wc2 & Hh2 & He & Hc2); [done..|].
  exists s', ws', (c' <| state := PARAM_EXCHANGE |>), wc1, c2, wc2.
  destruct Hs' as [_ _ Hi Ho], Hc1 as [_ _ _ Ho1], Hc2 as [_ _ Hi2 _]. by split_and!.
Qed.

(** A server that runs tests of at most five seconds; the client asks for ten. *)
Definition hurried_server : iperf_test := sample_server <| max_server_duration := 5 |>.
Definition sample_cookie : bytes := replicate 36 "k"%char ++ [NUL].

Lemma refusal_reaches_client_witness :
  let ws := mk_world (wire (sample_cookie ++ frame sample_text ++ B "x") 600 20) tmr_empty [] in
  let wc := mk_world (wire (chr PARAM_EXCHANGE :: refusal IEMAXSERVERTESTDURATIONEXCEEDED 0 ++ B "y") 20 600)
              tmr_empty [] in
  ∃ s' ws' c1 wc1 c2 wc2,
    iperf_accept plain_env (good_dial 4) hurried_server ws = Ok (-1, s', ws') ∧
    sent (net ws') = [] ++ chr PARAM_EXCHANGE :: refusal IEMAXSERVERTESTDURATIONEXCEEDED 0 ∧
    flat (reads (net ws')) = B "x" ∧ log ws' = [] ++ [Closed 4] ∧
    iperf_handle_message_client plain_env sample_client wc = Ok (0, c1, wc1) ∧
    sent (net wc1) = [] ++ frame sample_text ∧
    iperf_handle_message_client plain_env c1 wc1 = Ok (-1, c2, wc2) ∧
    i_errno c2 = IEMAXSERVERTESTDURATIONEXCEEDED ∧ flat (reads (net wc2)) = B "y".
Proof.
  intros ws wc.
  apply (refusal_reaches_client 5000000 plain_env plain_env (good_dial 4) sample_client sample_client hurried_server
    wc ws sample_cookie sample_text IEMAXSERVERTESTDURATIONEXCEEDED (B "y") (B "x") [] []).
  - done.
  - by split_and!.
  - reflexivity.
  - reflexivity.
  - reflexivity.
  - reflexivity.
  - reflexivity.
  - decided.
  - reflexivity.
  - decided.
  - vm_compute. reflexivity.
  - vm_compute. congruence.
  - vm_compute. reflexivity.
  - decided.
  - decided.
  - eapply conn_le; [by apply wire_conn|vm_compute; lia|vm_compute; lia].
  - eapply conn_le; [by apply wire_conn|vm_compute; lia|vm_compute; lia].
Defined.

(** C1: a client and a server that reach each other agree on the test.  For a
    client with a free server that is ready for its parameters, when no call of
    the kernel fails, the periods of the reports fit, and each side reads exactly
    what the other sends, the client's handlers of the four messages succeed, and
    the server's main loop gets through the turn in which it accepts the client
    and those in which it accepts the streams.  Then both run the test: the
    server's test describes the client's ([agreed]), nothing of either plan has
    changed since ([plan]), and both have the same streams, with the numbers the
    data connections were made in, sending on one side what the other receives. *)
Theorem session_sets_up v ec es d a answers later fuel c c' s wc ws ck text rests outc outs t0 :
  env_works ec → env_works es → kernel_accepts d → arrival a → Forall stream_answer answers →
  new_client c wc → set_authtoken (encode_credentials ec) (dialled d ck c) = Some c' →
  describes (IPERF_VERSION ec) c' text → length ck = COOKIE_SIZE →
  free_server s ws → ready_for c' s →
  length answers = length (client_streams (mode c') (num_streams c')) →
  conn v (net wc) (map chr [PARAM_EXCHANGE; CREATE_STREAMS; TEST_START; TEST_RUNNING]) outc 0
    (37 + length (frame text)) →
  conn v (net ws) (ck ++ frame text ++ rests) outs (44 + length text) 10 →
  ∃ c1 w1 c2 w2 c3 w3 c4 w4 wc0 s0 l s' ws',
    iperf_connect ck d c wc = Ok (0, dialled d ck c, wc0) ∧
    iperf_handle_message_client ec (dialled d ck c) wc0 = Ok (0, c1, w1) ∧
    iperf_handle_message_client ec c1 w1 = Ok (0, c2, w2) ∧
    iperf_handle_message_client ec c2 w2 = Ok (0, c3, w3) ∧
    iperf_handle_message_client ec c3 w3 = Ok (0, c4, w4) ∧
    server_loop es fuel (a :: answers ++ later) (mk_accepting 0 0 0 0 None t0 0) s ws
      = server_loop es fuel later l s' ws' ∧
    sent (net w4) = outc ++ ck ++ frame text ∧
    sent (net ws') = outs ++ map chr [PARAM_EXCHANGE; CREATE_STREAMS; TEST_START; TEST_RUNNING] ∧
    agreed c' s s0 ∧ plan s' = plan (s0 <| state := TEST_RUNNING |>) ∧
    plan c4 = plan (c' <| state := TEST_RUNNING |>) ∧
    numbered c4 = client_streams (mode c') (num_streams c') ∧ numbered s' = mirrored (numbered c4).
Proof.
  intros Hec Hes Hd Ha Hans [Hr Hctrl Hst [Hp1 Hp2] Hw] Hauth Hdes Hck Hs Hready Hlen Hconnc Hconns.
  destruct (dialled_fields d ck c) as (F1 & F2 & F3 & F4).
  destruct (connect_ok v ck d c wc (map chr [PARAM_EXCHANGE; CREATE_STREAMS; TEST_START; TEST_RUNNING]) outc 0
              (length (frame text)) Hd Hctrl Hck) as (wc0 & Hconnect & Hc0 & Hw0); [by rewrite Hck|].
  destruct (client_sets_up v ec (dialled d ck c) c' wc0 text (outc ++ ck) 0 0 Hec) as
    (c1 & w1 & c2 & w2 & c3 & w3 & c4 & w4 & Hh1 & Hh2 & Hh3 & Hh4 & H4 & Hp4 & Hn4);
    [congruence|congruence|congruence|congruence|by rewrite Hw0|done|done|by rewrite Nat.add_0_r|].
  destruct (server_sets_up v es fuel a answers later s ws rests outs (IPERF_VERSION ec) c' ck text t0 Hes Ha Hans Hlen Hs Hdes Hready Hck Hconns)
    as (s1 & l & s' & ws' & Hloop & Hag & Hps & Hns & H2).
  exists c1, w1, c2, w2, c3, w3, c4, w4, wc0, s1, l, s', ws'. split_and!; try done.
  - destruct H4 as [_ _ _ ->]. by rewrite <- app_assoc.
  - by destruct H2 as [_ _ _ ->].
  - by rewrite Hn4.
Qed.

Lemma plain_works : env_works plain_env.
Proof.
  split; try done.
  - intros t s b. by exists (quiet_stream s b).
Qed.

Definition idle_server : iperf_test := sample_server <| state := IPERF_START |>.
Definition arrives : server_answer := mk_server_answer 1 false true false false (good_dial 4) (fun _ => false) 3.
Definition streams_in : server_answer := mk_server_answer 1 false false false true (good_dial 4) (fun _ => false) 3.
Definition dialled_client : iperf_test := dialled (good_dial 6) sample_cookie sample_client.

Lemma sample_describes : describes (B "3.18") dialled_client sample_text.
Proof.
  split.
  - decided.
  - decided.
  - vm_compute. reflexivity.
  - vm_compute. congruence.
  - reflexivity.
  - vm_compute. split; congruence.
  - vm_compute. congruence.
Qed.

Lemma idle_free l : free_server idle_server (mk_world l tmr_empty []).
Proof.
  split.
  - by split_and!.
  - reflexivity.
  - reflexivity.
  - by split_and!.
  - reflexivity.
  - reflexivity.
  - split; right; vm_compute; by eexists.
  - exists []. apply wf_empty.
Qed.

Lemma session_sets_up_witness :
  let four := map chr [PARAM_EXCHANGE; CREATE_STREAMS; TEST_START; TEST_RUNNING] in
  let wc := mk_world (wire four 10 700) tmr_empty [] in
  let ws := mk_world (wire (sample_cookie ++ frame sample_text ++ B "x") 700 20) tmr_empty [] in
  let answers := [streams_in; streams_in; streams_in; streams_in] in
  ∃ c1 w1 c2 w2 c3 w3 c4 w4 wc0 s0 l s' ws',
    iperf_connect sample_cookie (good_dial 6) sample_client wc = Ok (0, dialled_client, wc0) ∧
    iperf_handle_message_client plain_env dialled_client wc0 = Ok (0, c1, w1) ∧
    iperf_handle_message_client plain_env c1 w1 = Ok (0, c2, w2) ∧
    iperf_handle_message_client plain_env c2 w2 = Ok (0, c3, w3) ∧
    iperf_handle_message_client plain_env c3 w3 = Ok (0, c4, w4) ∧
    server_loop plain_env 5 (arrives :: answers ++ []) (mk_accepting 0 0 0 0 None zero_time 0) idle_server ws
      = server_loop plain_env 5 [] l s' ws' ∧
    sent (net w4) = [] ++ sample_cookie ++ frame sample_text ∧ sent (net ws') = [] ++ four ∧
    agreed dialled_client idle_server s0 ∧ plan s' = plan (s0 <| state := TEST_RUNNING |>) ∧
    plan c4 = plan (dialled_client <| state := TEST_RUNNING |>) ∧
    numbered c4 = [(1, false); (3, false); (4, false); (5, false)] ∧ numbered s' = mirrored (numbered c4).
Proof.
  intros four wc ws answers.
  apply (session_sets_up 5000000 plain_env plain_env (good_dial 6) arrives answers [] 5 sample_client dialled_client
    idle_server wc ws sample_cookie sample_text (B "x") [] [] zero_time).
  - apply plain_works.
  - apply plain_works.
  - by split_and!.
  - by split_and!.
  - by repeat constructor.
  - split; [done|done|done|split; right; vm_compute; by eexists|exists [], []; apply wf_empty].
  - vm_compute. reflexivity.
  - apply sample_describes.
  - reflexivity.
  - apply idle_free.
  - split; [by split_and!|split; decided|reflexivity|by left].
  - reflexivity.
  - eapply conn_le; [by apply wire_conn|vm_compute; lia|vm_compute; lia].
  - eapply conn_le; [by apply wire_conn|vm_compute; lia|vm_compute; lia].
Defined.

(** C2: a test ends on both sides with complete accounts.  The server reads
    [TEST_END], takes its last statistics ([s1]), and both exchange their results;
    when these fit and each side reads exactly what the other sends, every
    handler succeeds: the client is done after it has shown the results, and the
    server when it reads the client's [IPERF_DONE]; in both tests every stream
    holds the other side's half of the account. *)
Theorem session_finishes v ec es c s wc ws n0 s1 n1 text_c text_s restc rests outc outs :
  let c0 := c <| state := EXCHANGE_RESULTS |> in
  let s0 := s <| state := TEST_END |> <| done := 1 |> in
  let b := results_applied c0 (ended s1) in
  role c = "c"%char → role s = "s"%char → 0 ≤ ctrl_sck c → 0 ≤ ctrl_sck s →
  protocol c ≠ Pquic → protocol s ≠ Pquic →
  Nread (net ws) 1 = Ok (mk_received 1 [chr TEST_END], n0) →
  iperf_stats_callback (total_retransmits es) (garbage es) (measure_cpu es s0 (ws <| net := n0 |>)) n0 = Ok (s1, n1) →
  results_ok c0 → render false 0 (object_of (results_members c0)) = Some text_c →
  results_ok b → render false 0 (object_of (results_members b)) = Some text_s →
  Z.of_nat (length text_c) + 8 < 2 ^ 31 → Z.of_nat (length text_s) + 8 < 2 ^ 31 →
  NoDup (map sp_id (streams s)) → (∀ id, id ∈ map sp_id (streams c) ↔ id ∈ map sp_id (streams s)) →
  conn v (net ws) (chr TEST_END :: frame text_c ++ chr IPERF_DONE :: rests) outs
    (10 + length text_c) (2 + length (frame text_s)) →
  conn v (net wc) (chr EXCHANGE_RESULTS :: frame text_s ++ chr DISPLAY_RESULTS :: restc) outc
    (6 + length text_s) (1 + length (frame text_c)) →
  ∃ s2 w2 c1 v1 c2 v2 s3 w3,
    iperf_handle_message_server es s ws = Ok (0, s2, w2) ∧ state s2 = DISPLAY_RESULTS ∧
    iperf_handle_message_client ec c wc = Ok (0, c1, v1) ∧
    iperf_handle_message_client ec c1 v1 = Ok (0, c2, v2) ∧ state c2 = IPERF_DONE ∧
    iperf_handle_message_server es s2 w2 = Ok (0, s3, w3) ∧ state s3 = IPERF_DONE ∧
    sent (net v2) = outc ++ frame text_c ++ [chr IPERF_DONE] ∧
    sent (net w3) = outs ++ chr EXCHANGE_RESULTS :: frame text_s ++ [chr DISPLAY_RESULTS] ∧
    ∀ i k x y, streams c !! i = Some x → streams s1 !! k = Some y → sp_id x = sp_id y →
      ∃ x' y', streams c2 !! i = Some x' ∧ streams s3 !! k = Some y' ∧ accounted c0 (ended s1) x y x' y'.
Proof.
  intros c0 s0 b Hrc Hrs Hcc Hcs Hqc Hqs Hread Hstats Hc0 Htc Hb Hts Hlc Hls Hnd Hids Hconns Hconnc.
  destruct (server_ends v es s ws n0 s1 n1 c0 (chr IPERF_DONE :: rests) outs 2 0 text_c text_s Hread Hstats Hrs Hcs Hqs
              Hc0 Htc Hlc Hnd) as (s2 & w2 & Hh1 & Hst2 & Hstr2 & H2);
    [intros id; apply Hids|done|done|done|by eapply conn_le; [exact Hconns|lia|lia]|].
  destruct (ended_streams es s ws n0 s1 n1 Hstats) as (Hrole & Hsids).
  destruct (client_finishes v ec c wc b restc outc 0 0 text_c text_s Hrc Hcc Hqc Hc0 Htc Hlc Hb Hts Hls)
    as (c1 & v1 & c2 & v2 & Hh2 & Hh3 & Hst3 & Hstr3 & H3);
    [subst b; rewrite results_same_ids, Hsids; intros id; apply Hids|by eapply conn_le; [exact Hconnc|lia|lia]|].
  destruct (server_reads v es IPERF_DONE s2 w2 rests _ 0 0 ltac:(done) H2) as (w3 & Hh4 & H4 & _ & _).
  exists s2, w2, c1, v1, c2, v2, (s2 <| state := IPERF_DONE |>), w3.
  split_and!; try done; [by destruct H3 as [_ _ _ ->]|by destruct H4 as [_ _ _ ->]|].
  intros i k x y Hx Hy Exy. rewrite Hstr3. change (streams (s2 <| state := IPERF_DONE |>)) with (streams s2).
  rewrite Hstr2. apply results_accounted; [congruence|done|by rewrite Hsids|done|exact Hy|done].
Qed.

(** The test of [Results.v], with its control connections. *)
Definition over_client : iperf_test := finished_client <| ctrl_sck := 6 |>.
Definition over_server : iperf_test := finished_server <| ctrl_sck := 4 |>.
Definition over_text_c : bytes := results_text (over_client <| state := EXCHANGE_RESULTS |>).
Definition over_ws : world :=
  mk_world (wire (chr TEST_END :: frame over_text_c ++ chr IPERF_DONE :: B "x") 700 700) tmr_empty [].
Definition over_n0 : os := match Nread (net over_ws) 1 with Ok (_, n) => n | _ => net over_ws end.
Definition over_stats : iperf_test * os :=
  let s := over_server <| state := TEST_END |> <| done := 1 |> in
  match iperf_stats_callback (total_retransmits plain_env) (garbage plain_env)
          (measure_cpu plain_env s (over_ws <| net := over_n0 |>)) over_n0 with
  | Ok r => r
  | _ => (over_server, over_n0)
  end.
Definition over_b : iperf_test := results_applied (over_client <| state := EXCHANGE_RESULTS |>) (ended over_stats.1).
Definition over_text_s : bytes := results_text over_b.

Lemma session_finishes_witness :
  let c0 := over_client <| state := EXCHANGE_RESULTS |> in
  let wc := mk_world (wire (chr EXCHANGE_RESULTS :: frame over_text_s ++ chr DISPLAY_RESULTS :: B "y") 700 700)
              tmr_empty [] in
  ∃ s2 w2 c1 v1 c2 v2 s3 w3,
    iperf_handle_message_server plain_env over_server over_ws = Ok (0, s2, w2) ∧ state s2 = DISPLAY_RESULTS ∧
    iperf_handle_message_client plain_env over_client wc = Ok (0, c1, v1) ∧
    iperf_handle_message_client plain_env c1 v1 = Ok (0, c2, v2) ∧ state c2 = IPERF_DONE ∧
    iperf_handle_message_server plain_env s2 w2 = Ok (0, s3, w3) ∧ state s3 = IPERF_DONE ∧
    sent (net v2) = [] ++ frame over_text_c ++ [chr IPERF_DONE] ∧
    sent (net w3) = [] ++ chr EXCHANGE_RESULTS :: frame over_text_s ++ [chr DISPLAY_RESULTS] ∧
    ∀ i k x y, streams over_client !! i = Some x → streams over_stats.1 !! k = Some y → sp_id x = sp_id y →
      ∃ x' y', streams c2 !! i = Some x' ∧ streams s3 !! k = Some y' ∧
               accounted c0 (ended over_stats.1) x y x' y'.
Proof.
  intros c0 wc.
  apply (session_finishes 5000000 plain_env plain_env over_client over_server wc over_ws over_n0 over_stats.1 over_stats.2
    over_text_c over_text_s (B "y") (B "x") [] []).
  - reflexivity.
  - reflexivity.
  - vm_compute. congruence.
  - vm_compute. congruence.
  - vm_compute. congruence.
  - vm_compute. congruence.
  - vm_compute. reflexivity.
  - vm_compute. reflexivity.
  - split; [vm_compute; done|decided|split; decided|vm_compute; reflexivity|split_and!; decided].
  - vm_compute. reflexivity.
  - split; [vm_compute; done|decided|split; decided|vm_compute; reflexivity|split_and!; decided].
  - vm_compute. reflexivity.
  - vm_compute. reflexivity.
  - vm_compute. reflexivity.
  - decided.
  - intros id. by replace (map sp_id (streams over_server)) with [1; 3] by (vm_compute; reflexivity).
  - eapply conn_le; [by apply wire_conn|vm_compute; lia|vm_compute; lia].
  - eapply conn_le; [by apply wire_conn|vm_compute; lia|vm_compute; lia].
Defined.
