(* ===== verification/Kernel.v ===== *)
(** * Sockets as the kernel keeps them

    System calls on sockets and address lists for the set-up of connections:
    the open descriptors of the process with what was done to each of them, the
    address lists [getaddrinfo] allocated, [errno], and a script of answers.
    The theorems hold for every script.  A call on a descriptor that is not open
    fails with [EBADF] and is noted in [bad_fds]; the use of an address list
    after it was freed is undefined.  [wp] is the weakest precondition of a
    program over this state. *)

From S2P Require Import Prelude CInt CStdio Net.

Definition EBADF : Z := 9.
Definition EAFNOSUPPORT : Z := 97.
Definition ETIMEDOUT : Z := 110.
Definition EINPROGRESS : Z := 115.

Definition SOCK_STREAM : Z := 1.
Definition SOCK_DGRAM : Z := 2.
Definition IPPROTO_MPTCP : Z := 262.
Definition INT_MAX : Z := 2 ^ 31 - 1.
Definition O_NONBLOCK : Z := 2048.

(** ** Data *)

Record sockaddr := mk_sockaddr { sa_family : Z; sa_port : Z; sa_host : bytes; sa_flowinfo : Z }.

(** The list that [getaddrinfo] returns: its first element, and the families and
    addresses of the others. *)
Record addrinfo := mk_addrinfo { ai_family : Z; ai_addr : sockaddr; ai_next : list (Z * sockaddr) }.

Record hints := mk_hints { hint_family : Z; hint_socktype : Z; hint_passive : bool }.

(** The options the program sets, with their values. *)
Inductive sockopt :=
| SO_BINDTODEVICE (dev : bytes)
| SO_REUSEADDR (v : Z)
| SO_RCVBUF (v : Z)
| SO_SNDBUF (v : Z)
| SO_MAX_PACING_RATE (v : Z)
| SO_RCVTIMEO (seconds : Z)
| IPV6_V6ONLY (v : Z)
| IPV6_FLOWLABEL_MGR (label : Z)
| IPV6_FLOWINFO_SEND (v : Z)
| IPV6_TCLASS (v : Z)
| IP_TOS (v : Z)
| IP_MTU_DISCOVER (v : Z)
| TCP_NODELAY (v : Z)
| TCP_MAXSEG (v : Z)
| TCP_USER_TIMEOUT (v : Z)
| SO_KEEPALIVE (v : Z)
| TCP_KEEPIDLE (v : Z)
| TCP_KEEPINTVL (v : Z)
| TCP_KEEPCNT (v : Z)
| SCTP_NODELAY (v : Z)
| SCTP_MAXSEG (v : Z)
| SCTP_INITMSG (num_ostreams : Z)
| SCTP_DISABLE_FRAGMENTS (v : Z).

(** What can be read back of a socket. *)
Inductive sockquery :=
| Get_SO_ERROR | Get_SO_SNDBUF | Get_SO_RCVBUF | Get_TCP_KEEPIDLE | Get_TCP_KEEPINTVL | Get_TCP_KEEPCNT.

(** A call on a socket that went well. *)
Inductive sockcall :=
| Set_option (o : sockopt)
| Bound (a : sockaddr)
| Bound_more (l : list sockaddr)
| Listening (backlog : Z).

Inductive connection :=
| Unconnected
| Pending (a : sockaddr)
| Connected (a : sockaddr).

Record sock := mk_sock {
  sk_family : Z;
  sk_type : Z;
  sk_proto : Z;
  sk_flags : Z;
  sk_calls : list sockcall;   (* in the order of the calls *)
  sk_peer : connection;
  sk_data : os
}.
#[export] Instance eta_sock : Settable sock := fun r =>
  mk_sock (sk_family r) (sk_type r) (sk_proto r) (sk_flags r) (sk_calls r) (sk_peer r) (sk_data r).

Definition did (c : sockcall) (sk : sock) : sock := sk <| sk_calls ::= (fun l => l ++ [c]) |>.

(** The kernel's answer to a call: [errno] (0 for success), a number (a
    descriptor, the value of an option, the result of [poll]), an address (of a
    peer), and the data of a connection that is made. *)
Record answer := mk_answer { an_errno : Z; an_value : Z; an_addr : sockaddr; an_data : os }.

Definition no_addr : sockaddr := mk_sockaddr 0 0 [] 0.
Definition no_data : os := mk_os false [] [] [] [] [].
Definition fine : answer := mk_answer 0 0 no_addr no_data.
Definition fails (e : Z) : answer := mk_answer e 0 no_addr no_data.
Definition value (v : Z) : answer := mk_answer 0 v no_addr no_data.

Record kernel := mk_kernel {
  open_fds : gmap Z sock;
  infos : gmap positive addrinfo;
  k_errno : Z;
  gerror : Z;
  bad_fds : list Z;
  script : list answer
}.
#[export] Instance eta_kernel : Settable kernel := fun r =>
  mk_kernel (open_fds r) (infos r) (k_errno r) (gerror r) (bad_fds r) (script r).

(** ** Programs *)

Definition sys (A : Type) : Type := kernel → outcome (A * kernel).

#[export] Instance sys_ret : MRet sys := fun A a k => Ok (a, k).
#[export] Instance sys_bind : MBind sys := fun A B f m k => '(a, k) ← m k; f a k.

Definition get_errno : sys Z := fun k => Ok (k_errno k, k).
Definition set_errno (e : Z) : sys () := fun k => Ok ((), k <| k_errno := e |>).

(** The next answer; [fine] when the script has run out. *)
Definition next : sys answer := fun k =>
  match script k with
  | [] => Ok (fine, k)
  | a :: rest => Ok (a, k <| script := rest |>)
  end.

(** A descriptor that is not open: the one the answer names, if it is free. *)
Definition pick_fd (v : Z) (m : gmap Z sock) : Z :=
  if decide (0 ≤ v ∧ m !! v = None) then v else 1 + foldr Z.max 0 (map_to_list m).*1.

Definition add_fd (v : Z) (sk : sock) : sys Z := fun k =>
  let s := pick_fd v (open_fds k) in Ok (s, k <| open_fds ::= insert s sk |>).

(** The socket of a descriptor; [EBADF] when there is none. *)
Definition on_fd {A} (failed : A) (s : Z) (f : sock → sys A) : sys A := fun k =>
  match open_fds k !! s with
  | None => Ok (failed, k <| k_errno := EBADF |> <| bad_fds ::= (fun l => l ++ [s]) |>)
  | Some sk => f sk k
  end.

Definition put_fd (s : Z) (sk : sock) : sys () := fun k => Ok ((), k <| open_fds ::= insert s sk |>).

(** A call that either fails with the [errno] of the answer or goes on. *)
Definition answered {A} (failed : A) (f : answer → sys A) : sys A :=
  a ← next; if an_errno a =? 0 then f a else set_errno (an_errno a);; mret failed.

(** ** Calls on sockets *)

(** A new connection has not sent anything. *)
Definition unused (type : Z) (w : os) : os := w <| sent := [] |> <| dgram := type =? SOCK_DGRAM |>.

Definition os_socket (family type proto : Z) : sys Z :=
  answered (-1) (fun a => add_fd (an_value a) (mk_sock family type proto 0 [] Unconnected (unused type (an_data a)))).

(** The descriptor is gone whatever [close] returns; [errno] may change. *)
Definition os_close (s : Z) : sys () :=
  on_fd () s (fun _ =>
    (fun k => Ok ((), k <| open_fds ::= delete s |>));;
    answered () (fun _ => mret ())).

Definition os_setsockopt (s : Z) (o : sockopt) : sys Z :=
  on_fd (-1) s (fun sk => answered (-1) (fun _ => put_fd s (did (Set_option o) sk);; mret 0)).

(** [SO_ERROR] without an error means that a pending connection is made. *)
Definition os_getsockopt (s : Z) (q : sockquery) : sys (Z * Z) :=
  on_fd (-1, 0) s (fun sk => answered (-1, 0) (fun a =>
    match q, sk_peer sk with
    | Get_SO_ERROR, Pending p =>
        (if an_value a =? 0 then put_fd s (sk <| sk_peer := Connected p |>) else mret ());;
        mret (0, an_value a)
    | _, _ => mret (0, an_value a)
    end)).

Definition os_getflags (s : Z) : sys Z := on_fd (-1) s (fun sk => mret (sk_flags sk)).
Definition os_setflags (s flags : Z) : sys Z :=
  on_fd (-1) s (fun sk => answered (-1) (fun _ => put_fd s (sk <| sk_flags := flags |>);; mret 0)).

Definition os_bind (s : Z) (addr : sockaddr) : sys Z :=
  on_fd (-1) s (fun sk => answered (-1) (fun _ => put_fd s (did (Bound addr) sk);; mret 0)).

(** [sctp_bindx(s, addrs, n, SCTP_BINDX_ADD_ADDR)] *)
Definition sctp_bindx (s : Z) (addrs : list sockaddr) : sys Z :=
  on_fd (-1) s (fun sk => answered (-1) (fun _ => put_fd s (did (Bound_more addrs) sk);; mret 0)).

Definition os_listen (s backlog : Z) : sys Z :=
  on_fd (-1) s (fun sk => answered (-1) (fun _ => put_fd s (did (Listening backlog) sk);; mret 0)).

Definition os_connect (s : Z) (addr : sockaddr) : sys Z :=
  on_fd (-1) s (fun sk =>
    a ← next;
    if an_errno a =? 0 then put_fd s (sk <| sk_peer := Connected addr |>);; mret 0
    else
      (if an_errno a =? EINPROGRESS then put_fd s (sk <| sk_peer := Pending addr |>) else mret ());;
      set_errno (an_errno a);; mret (-1)).

(** [poll] on one descriptor. *)
Definition os_poll (s timeout : Z) : sys Z :=
  on_fd (-1) s (fun _ => answered (-1) (fun a => mret (an_value a))).

Definition os_accept (s : Z) : sys Z :=
  on_fd (-1) s (fun sk => answered (-1) (fun a =>
    add_fd (an_value a)
      (mk_sock (sk_family sk) (sk_type sk) (sk_proto sk) 0 [] (Connected (an_addr a)) (unused (sk_type sk) (an_data a))))).

(** The family of [getsockname]. *)
Definition os_getsockname (s : Z) : sys (option Z) :=
  on_fd None s (fun sk => answered None (fun _ => mret (Some (sk_family sk)))).

(** A transfer routine on the data of a socket. *)
Definition on_data {A} (s : Z) (f : os → outcome (A * os)) : sys A := fun k =>
  match open_fds k !! s with
  | None => Undef
  | Some sk => '(a, w) ← f (sk_data sk); Ok (a, k <| open_fds ::= insert s (sk <| sk_data := w |>) |>)
  end.

(** ** Address lists *)

Definition hosts : Type := option bytes → option bytes → hints → Z + addrinfo.

Section Resolver.
Context (resolve : hosts).

(** [gerror = getaddrinfo(...)]: the list, if there is one. *)
Definition os_getaddrinfo (node service : option bytes) (h : hints) : sys (option positive) := fun k =>
  match resolve node service h with
  | inl e => Ok (None, k <| gerror := e |>)
  | inr ai =>
      let p := fresh (dom (infos k)) in
      Ok (Some p, k <| gerror := 0 |> <| infos ::= insert p ai |>)
  end.
End Resolver.

Definition deref (p : positive) : sys addrinfo := fun k =>
  match infos k !! p with None => Undef | Some ai => Ok (ai, k) end.

(** glibc takes a null list for an empty one. *)
Definition os_freeaddrinfo (p : option positive) : sys () := fun k =>
  match p with
  | None => Ok ((), k)
  | Some p => match infos k !! p with
              | None => Undef
              | Some _ => Ok ((), k <| infos ::= delete p |>)
              end
  end.

(** [saved_errno = errno; ...; errno = saved_errno; return -1]. *)
Definition clean_exit {A} (result : A) (cleanup : sys ()) : sys A :=
  saved ← get_errno; cleanup;; set_errno saved;; mret result.

(** [sin6_flowinfo = label] in the address of a list. *)
Definition set_flowinfo (p : positive) (label : Z) : sys () := fun k =>
  match infos k !! p with
  | None => Undef
  | Some ai =>
      let a := ai_addr ai in
      Ok ((), k <| infos ::= insert p (mk_addrinfo (ai_family ai)
                               (mk_sockaddr (sa_family a) (sa_port a) (sa_host a) label) (ai_next ai)) |>)
  end.

(** A call that is made under a condition. *)
Definition set_if (b : bool) (s : Z) (o : sockopt) : sys Z :=
  if b then os_setsockopt s o else mret 0.

(** A step that closes the socket, frees the list and gives up when it fails. *)
Definition or_close {A} (s : Z) (res : option positive) (result : A) (m : sys Z) (k : sys A) : sys A :=
  r ← m; if r <? 0 then clean_exit result (os_close s;; os_freeaddrinfo res) else k.

(** ** Weakest preconditions *)

Definition wp {A} (m : sys A) (Q : A → kernel → Prop) (k : kernel) : Prop :=
  ∃ a k', m k = Ok (a, k') ∧ Q a k'.

Section Wp.
Context {A : Type}.
Implicit Types (Q : A → kernel → Prop) (k : kernel).

Lemma wp_ret (a : A) Q k : Q a k → wp (mret a) Q k.
Proof. intros HQ. by exists a, k. Qed.

Lemma wp_bind {C} (m : sys C) (f : C → sys A) Q k :
  wp m (fun c k' => wp (f c) Q k') k → wp (m ≫= f) Q k.
Proof.
  intros (c & k' & Hm & a & k'' & Hf & HQ). exists a, k''. split; [|done].
  cbv [mbind sys_bind]. rewrite Hm. by cbn.
Qed.

Lemma wp_mono (m : sys A) Q Q' k : wp m Q k → (∀ a k', Q a k' → Q' a k') → wp m Q' k.
Proof. intros (a & k' & Hm & HQ) Himp. exists a, k'. auto. Qed.

Lemma wp_run (m : sys A) Q k a k' : wp m Q k → m k = Ok (a, k') → Q a k'.
Proof. intros (a' & k'' & Hm & HQ) Hr. rewrite Hm in Hr. by simplify_eq. Qed.

Lemma wp_clean_exit (r : A) cleanup Q k :
  wp cleanup (fun _ k' => Q r (k' <| k_errno := k_errno k |>)) k → wp (clean_exit r cleanup) Q k.
Proof.
  intros ([] & k' & Hm & HQ). exists r, (k' <| k_errno := k_errno k |>). split; [|done].
  unfold clean_exit, get_errno. cbv [mbind sys_bind outcome_bind]. by rewrite Hm.
Qed.
End Wp.

(** The resources of the process: its sockets, its address lists and the calls
    it made on descriptors that were not open. *)
Definition owns (fds : gmap Z sock) (ais : gmap positive addrinfo) (bad : list Z) (k : kernel) : Prop :=
  open_fds k = fds ∧ infos k = ais ∧ bad_fds k = bad.

Lemma owns_self k : owns (open_fds k) (infos k) (bad_fds k) k.
Proof. done. Qed.

(** The two ends of a set-up: the process has what it had, or one socket more. *)
Definition unchanged (k k' : kernel) : Prop := owns (open_fds k) (infos k) (bad_fds k) k'.
Definition one_more (k : kernel) (s : Z) (sk : sock) (k' : kernel) : Prop :=
  0 ≤ s ∧ open_fds k !! s = None ∧ owns (<[s := sk]> (open_fds k)) (infos k) (bad_fds k) k'.

Lemma owns_errno fds ais bad k e : owns fds ais bad k → owns fds ais bad (k <| k_errno := e |>).
Proof. by intros (<- & <- & <-). Qed.

Lemma pick_fd_free v fds : 0 ≤ pick_fd v fds ∧ fds !! pick_fd v fds = None.
Proof.
  unfold pick_fd. case_decide as Hv; [done|].
  assert (∀ l x, x ∈ l → x ≤ foldr Z.max 0 l) as Hmax.
  { induction l as [|y l IH]; intros x; [by intros ?%elem_of_nil|].
    intros [->|Hx]%elem_of_cons; cbn; [lia|]. specialize (IH x Hx). lia. }
  assert (0 ≤ foldr Z.max 0 (map_to_list fds).*1) by (induction ((map_to_list fds).*1); cbn; lia).
  split; [lia|]. apply eq_None_not_Some. intros (sk & Hs).
  apply elem_of_map_to_list in Hs. assert (1 + foldr Z.max 0 (map_to_list fds).*1 ∈ (map_to_list fds).*1) as Hin.
  { apply list_elem_of_fmap. eexists (_, sk). by split. }
  specialize (Hmax _ _ Hin). lia.
Qed.

#[global] Create Rewrite HintDb sock.

(** ** Rules of the calls *)

Section Rules.
Context (fds : gmap Z sock) (ais : gmap positive addrinfo) (bad : list Z).
Implicit Types (k : kernel) (s : Z) (sk : sock).

Lemma wp_answered {A} (failed : A) (f : answer → sys A) Q k :
  owns fds ais bad k →
  (∀ a k', owns fds ais bad k' → an_errno a = 0 → wp (f a) Q k') →
  (∀ k', owns fds ais bad k' → k_errno k' ≠ 0 → Q failed k') →
  wp (answered failed f) Q k.
Proof.
  intros Hk Hok Hf. unfold answered. apply wp_bind. unfold next.
  destruct (script k) as [|a rest] eqn:Es.
  - exists fine, k. split; [by rewrite Es|]. by apply (Hok fine k Hk).
  - exists a, (k <| script := rest |>). split; [by rewrite Es|].
    assert (owns fds ais bad (k <| script := rest |>)) as Hk' by done.
    case_goal; bool_to_prop; [by apply Hok|].
    exists failed, (k <| script := rest |> <| k_errno := an_errno a |>). split; [done|].
    by apply Hf; [apply owns_errno|].
Qed.

Lemma wp_on_fd {A} (failed : A) s sk (f : sock → sys A) Q k :
  owns fds ais bad k → fds !! s = Some sk → wp (f sk) Q k → wp (on_fd failed s f) Q k.
Proof.
  intros (<- & _ & _) Hs (a & k' & Hf & HQ). exists a, k'. split; [|done].
  unfold on_fd. by rewrite Hs.
Qed.

Lemma wp_put_fd s sk Q k :
  owns fds ais bad k → (∀ k', owns (<[s := sk]> fds) ais bad k' → Q () k') → wp (put_fd s sk) Q k.
Proof.
  intros (<- & <- & <-) HQ. eexists (), _. split; [done|]. by apply HQ.
Qed.

Lemma wp_add_fd v sk Q k :
  owns fds ais bad k →
  (∀ s k', 0 ≤ s → fds !! s = None → owns (<[s := sk]> fds) ais bad k' → Q s k') →
  wp (add_fd v sk) Q k.
Proof.
  intros (<- & <- & <-) HQ. eexists _, _. split; [done|].
  destruct (pick_fd_free v (open_fds k)). by apply HQ.
Qed.

Definition new_data (type : Z) (w : os) : Prop := sent w = [] ∧ dgram w = (type =? SOCK_DGRAM).

(** A new socket, or none. *)
Lemma wp_socket family type proto Q k :
  owns fds ais bad k →
  (∀ s w k', 0 ≤ s → fds !! s = None → new_data type w →
     owns (<[s := mk_sock family type proto 0 [] Unconnected w]> fds) ais bad k' → Q s k') →
  (∀ k', owns fds ais bad k' → k_errno k' ≠ 0 → Q (-1) k') →
  wp (os_socket family type proto) Q k.
Proof.
  intros Hk Hok Hf. apply wp_answered; [done| |done]. intros a k' Hk' _.
  apply wp_add_fd; [done|]. intros s k'' Hs Hn Hk''. by apply (Hok s (unused type (an_data a))).
Qed.

Lemma wp_accept l lsk Q k :
  owns fds ais bad k → fds !! l = Some lsk →
  (∀ s addr w k', 0 ≤ s → fds !! s = None → sent w = [] → dgram w = (sk_type lsk =? SOCK_DGRAM) →
     owns (<[s := mk_sock (sk_family lsk) (sk_type lsk) (sk_proto lsk) 0 [] (Connected addr) w]> fds) ais bad k' →
     Q s k') →
  (∀ k', owns fds ais bad k' → Q (-1) k') →
  wp (os_accept l) Q k.
Proof.
  intros Hk Hl Hok Hf. eapply wp_on_fd; [done|done|].
  apply wp_answered; [done| |intros; by apply Hf]. intros a k' Hk' _.
  apply wp_add_fd; [done|]. intros s k'' Hs Hn Hk''.
  by apply (Hok s (an_addr a) (unused (sk_type lsk) (an_data a))).
Qed.

Lemma wp_getaddrinfo resolve node service h Q k :
  owns fds ais bad k →
  (∀ e k', resolve node service h = inl e → owns fds ais bad k' → gerror k' = e → k_errno k' = k_errno k → Q None k') →
  (∀ p ai k', resolve node service h = inr ai → ais !! p = None → owns fds (<[p := ai]> ais) bad k' →
     Q (Some p) k') →
  wp (os_getaddrinfo resolve node service h) Q k.
Proof.
  intros (<- & <- & <-) Hno Hyes. unfold wp, os_getaddrinfo.
  destruct (resolve node service h) as [e|ai]; eexists _, _; (split; [reflexivity|]).
  - by apply (Hno e).
  - apply (Hyes _ ai); [done| |done]. apply not_elem_of_dom. apply is_fresh.
Qed.
End Rules.

Section Fd_rules.
Context (fds : gmap Z sock) (ais : gmap positive addrinfo) (bad : list Z) (s : Z).
Implicit Types (k : kernel) (sk : sock).
Local Abbreviation has sk := (owns (<[s := sk]> fds) ais bad).

Lemma wp_close sk Q k :
  has sk k → fds !! s = None → (∀ k', owns fds ais bad k' → Q () k') → wp (os_close s) Q k.
Proof.
  intros Hk Hn HQ. eapply wp_on_fd; [done|apply lookup_insert_eq|].
  apply wp_bind. destruct Hk as (Ho & Hi & Hb).
  eexists (), _. split; [reflexivity|]. apply (wp_answered fds ais bad).
  - split_and!; [|done..]. cbn. rewrite Ho. by apply delete_insert_id.
  - intros a k' Hk' _. apply wp_ret. by apply HQ.
  - intros k' Hk' _. by apply HQ.
Qed.

(** A call that is noted when it goes well. *)
Lemma wp_noted (c : sockcall) sk Q k :
  has sk k →
  (∀ k', has (did c sk) k' → Q 0 k') →
  (∀ k', has sk k' → k_errno k' ≠ 0 → Q (-1) k') →
  wp (on_fd (-1) s (fun sk => answered (-1) (fun _ => put_fd s (did c sk);; mret 0))) Q k.
Proof.
  intros Hk Hok Hf. eapply wp_on_fd; [done|apply lookup_insert_eq|].
  apply (wp_answered _ _ _ _ _ _ _ Hk); [|done]. intros a k' Hk' _.
  apply wp_bind. eapply wp_put_fd; [done|]. intros k'' Hk''. rewrite insert_insert_eq in Hk''.
  apply wp_ret. by apply Hok.
Qed.

Lemma wp_getsockopt q sk Q k :
  has sk k → q ≠ Get_SO_ERROR →
  (∀ v k', has sk k' → Q (0, v) k') →
  (∀ k', has sk k' → k_errno k' ≠ 0 → Q (-1, 0) k') →
  wp (os_getsockopt s q) Q k.
Proof.
  intros Hk Hq Hok Hf. eapply wp_on_fd; [done|apply lookup_insert_eq|].
  apply (wp_answered _ _ _ _ _ _ _ Hk); [|done]. intros a k' Hk' _.
  destruct q; [done|..]; apply wp_ret; by apply Hok.
Qed.

Lemma wp_so_error addr sk Q k :
  has sk k → sk_peer sk = Pending addr →
  (∀ k', has (sk <| sk_peer := Connected addr |>) k' → Q (0, 0) k') →
  (∀ v k', v ≠ 0 → has sk k' → Q (0, v) k') →
  (∀ k', has sk k' → k_errno k' ≠ 0 → Q (-1, 0) k') →
  wp (os_getsockopt s Get_SO_ERROR) Q k.
Proof.
  intros Hk Hp H0 Hv Hf. eapply wp_on_fd; [done|apply lookup_insert_eq|].
  apply (wp_answered _ _ _ _ _ _ _ Hk); [|done]. intros a k' Hk' _. rewrite Hp.
  apply wp_bind. case_goal; bool_to_prop.
  - eapply wp_put_fd; [done|]. intros k'' Hk''. rewrite insert_insert_eq in Hk''.
    apply wp_ret. rewrite Heqb. by apply H0.
  - apply wp_ret, wp_ret. by apply Hv.
Qed.

Lemma wp_setflags flags sk Q k :
  has sk k →
  (∀ k', has (sk <| sk_flags := flags |>) k' → Q 0 k') →
  (∀ k', has sk k' → k_errno k' ≠ 0 → Q (-1) k') →
  wp (os_setflags s flags) Q k.
Proof.
  intros Hk Hok Hf. eapply wp_on_fd; [done|apply lookup_insert_eq|].
  apply (wp_answered _ _ _ _ _ _ _ Hk); [|done]. intros a k' Hk' _.
  apply wp_bind. eapply wp_put_fd; [done|]. intros k'' Hk''. rewrite insert_insert_eq in Hk''.
  apply wp_ret. by apply Hok.
Qed.

Lemma wp_getflags sk Q k : has sk k → Q (sk_flags sk) k → wp (os_getflags s) Q k.
Proof. intros Hk HQ. eapply wp_on_fd; [done|apply lookup_insert_eq|]. by apply wp_ret. Qed.

Lemma wp_connect addr sk Q k :
  has sk k →
  (∀ k', has (sk <| sk_peer := Connected addr |>) k' → Q 0 k') →
  (∀ k', has (sk <| sk_peer := Pending addr |>) k' → k_errno k' = EINPROGRESS → Q (-1) k') →
  (∀ k', has sk k' → k_errno k' ≠ EINPROGRESS → Q (-1) k') →
  wp (os_connect s addr) Q k.
Proof.
  intros Hk H0 H1 H2. eapply wp_on_fd; [done|apply lookup_insert_eq|].
  assert (∀ a k', has sk k' → wp (
    if an_errno a =? 0 then put_fd s (sk <| sk_peer := Connected addr |>);; mret 0
    else
      (if an_errno a =? EINPROGRESS then put_fd s (sk <| sk_peer := Pending addr |>) else mret ());;
      set_errno (an_errno a);; mret (-1)) Q k') as Hgo.
  { intros a k' Hk'. case_goal; bool_to_prop.
    - apply wp_bind. eapply wp_put_fd; [done|]. intros k'' Hk''. rewrite insert_insert_eq in Hk''.
      apply wp_ret. by apply H0.
    - apply wp_bind. case_goal; bool_to_prop.
      + eapply wp_put_fd; [done|]. intros k'' Hk''. rewrite insert_insert_eq in Hk''.
        eexists _, _. split; [reflexivity|]. by apply H1.
      + apply wp_ret. eexists _, _. split; [reflexivity|]. by apply H2. }
  apply wp_bind. unfold next. destruct (script k) as [|a rest] eqn:Es.
  - exists fine, k. split; [by rewrite Es|]. by apply Hgo.
  - exists a, (k <| script := rest |>). split; [by rewrite Es|]. by apply Hgo.
Qed.

Lemma wp_poll timeout sk Q k :
  has sk k →
  (∀ v k', has sk k' → Q v k') →
  wp (os_poll s timeout) Q k.
Proof.
  intros Hk Hok. eapply wp_on_fd; [done|apply lookup_insert_eq|].
  apply (wp_answered _ _ _ _ _ _ _ Hk); intros; [by apply wp_ret, Hok|by apply Hok].
Qed.

Lemma wp_getsockname sk Q k :
  has sk k →
  (∀ k', has sk k' → Q (Some (sk_family sk)) k') →
  (∀ k', has sk k' → Q None k') →
  wp (os_getsockname s) Q k.
Proof.
  intros Hk Hok Hf. eapply wp_on_fd; [done|apply lookup_insert_eq|].
  apply (wp_answered _ _ _ _ _ _ _ Hk); intros; [by apply wp_ret, Hok|by apply Hf].
Qed.

Lemma wp_on_data {A} (f : os → outcome (A * os)) sk Q k :
  has sk k →
  (∃ a w, f (sk_data sk) = Ok (a, w) ∧ ∀ k', has (sk <| sk_data := w |>) k' → Q a k') →
  wp (on_data s f) Q k.
Proof.
  intros (Ho & Hi & Hb) (a & w & Hf & HQ). eexists a, _. split.
  - unfold on_data. rewrite Ho, lookup_insert_eq. cbv [mbind outcome_bind]. by rewrite Hf.
  - apply HQ. split_and!; [|done..]. cbn. rewrite Ho. apply insert_insert_eq.
Qed.
End Fd_rules.

Section Info_rules.
Context (fds : gmap Z sock) (ais : gmap positive addrinfo) (bad : list Z).

Lemma wp_deref p ai Q k : owns fds ais bad k → ais !! p = Some ai → Q ai k → wp (deref p) Q k.
Proof. intros (_ & <- & _) Hp HQ. exists ai, k. split; [|done]. unfold deref. by rewrite Hp. Qed.

Lemma wp_freeaddrinfo p ai Q k :
  owns fds ais bad k → ais !! p = Some ai →
  (∀ k', owns fds (delete p ais) bad k' → k_errno k' = k_errno k → Q () k') →
  wp (os_freeaddrinfo (Some p)) Q k.
Proof.
  intros (<- & <- & <-) Hp HQ. eexists (), _. split; [unfold os_freeaddrinfo; by rewrite Hp|].
  by apply HQ.
Qed.

Lemma wp_free_none (Q : () → kernel → Prop) k : Q () k → wp (os_freeaddrinfo None) Q k.
Proof. intros HQ. by exists (), k. Qed.

Lemma wp_set_flowinfo ais' p ai label Q k :
  owns fds (<[p := ai]> ais') bad k →
  (∀ k', owns fds (<[p := mk_addrinfo (ai_family ai) (mk_sockaddr (sa_family (ai_addr ai)) (sa_port (ai_addr ai))
                             (sa_host (ai_addr ai)) label) (ai_next ai)]> ais') bad k' → Q () k') →
  wp (set_flowinfo p label) Q k.
Proof.
  intros (Ho & Hi & Hb) HQ. eexists (), _. split.
  - unfold set_flowinfo. rewrite Hi, lookup_insert_eq. reflexivity.
  - apply HQ. split_and!; [done| |done]. cbn. rewrite Hi. apply insert_insert_eq.
Qed.

Lemma wp_set_errno e (Q : () → kernel → Prop) k : owns fds ais bad k →
  (∀ k', owns fds ais bad k' → k_errno k' = e → Q () k') → wp (set_errno e) Q k.
Proof. intros Hk HQ. eexists (), _. split; [done|]. apply HQ; [by apply owns_errno|done]. Qed.
End Info_rules.

(** ** Automation

    [sys_step] executes the next call of the program in the goal by its rule;
    [sys_steps] goes on until a goal needs thought.  A freed list is taken out of
    [infos], an inserted and deleted entry disappears. *)

Lemma delete_under (ais : gmap positive addrinfo) p q (a b : addrinfo) :
  ais !! q = None → p ≠ q → delete q (<[p := a]> (<[q := b]> ais)) = <[p := a]> ais.
Proof. intros Hq Hn. rewrite delete_insert_ne by done. by rewrite delete_insert_id. Qed.

Ltac tidy_infos :=
  repeat match goal with
  | H : owns _ (delete ?p (<[?p := ?x]> ?m)) _ _ |- _ => rewrite (delete_insert_id m p x) in H by done
  | H : owns _ (delete ?q (<[?p := ?x]> (<[?q := ?y]> ?m))) _ _ |- _ =>
      rewrite (delete_under m p q x y) in H by (done || congruence)
  end.

Ltac fresh_infos :=
  repeat match goal with H : <[_ := _]> _ !! _ = None |- _ => apply lookup_insert_None in H as [? ?] end.

Ltac has_info :=
  first [ apply lookup_insert_eq
        | rewrite lookup_insert_ne by congruence; apply lookup_insert_eq
        | done ].

(** A test whose outcome is known, or a case distinction. *)
Ltac sys_test b :=
  let v := eval lazy in b in
  lazymatch v with
  | true => change b with true
  | false => change b with false
  | _ => first [ progress ztest | destruct b eqn:? ]
  end.

Ltac sys_step :=
  lazymatch goal with
  | |- wp (_ ≫= _) _ _ => apply wp_bind
  | |- wp (mret _) _ _ => apply wp_ret
  | |- wp (clean_exit _ _) _ _ => apply wp_clean_exit
  | |- wp (os_socket _ _ _) _ _ => eapply wp_socket; [eassumption|intros|intros]
  | |- wp (os_getaddrinfo _ _ _ _) _ _ => eapply wp_getaddrinfo; [eassumption|intros|intros; fresh_infos]
  | |- wp (os_close _) _ _ => eapply wp_close; [eassumption|eassumption|intros]
  | |- wp (os_setsockopt _ _) _ _ => eapply wp_noted; [eassumption|intros|intros]
  | |- wp (os_bind _ _) _ _ => eapply wp_noted; [eassumption|intros|intros]
  | |- wp (sctp_bindx _ _) _ _ => eapply wp_noted; [eassumption|intros|intros]
  | |- wp (os_listen _ _) _ _ => eapply wp_noted; [eassumption|intros|intros]
  | |- wp (os_setflags _ _) _ _ => eapply wp_setflags; [eassumption|intros|intros]
  | |- wp (os_getflags _) _ _ => eapply wp_getflags; [eassumption|]
  | |- wp (os_getsockname _) _ _ => eapply wp_getsockname; [eassumption|intros|intros]
  | |- wp (os_connect _ _) _ _ => eapply wp_connect; [eassumption|intros|intros|intros]
  | |- wp (os_getsockopt _ Get_SO_ERROR) _ _ =>
      eapply wp_so_error; [eassumption|reflexivity|intros|intros|intros]
  | |- wp (os_getsockopt _ _) _ _ => eapply wp_getsockopt; [eassumption|discriminate|intros|intros]
  | |- wp (os_poll _ _) _ _ => eapply wp_poll; [eassumption|intros]
  | |- wp (deref _) _ _ => eapply wp_deref; [eassumption|has_info|]
  | |- wp (os_freeaddrinfo (Some _)) _ _ =>
      eapply wp_freeaddrinfo; [eassumption|has_info|intros; tidy_infos]
  | |- wp (os_freeaddrinfo None) _ _ => apply wp_free_none
  | |- wp (set_errno _) _ _ => eapply wp_set_errno; [eassumption|intros]
  | |- wp get_errno _ ?k => exists (k_errno k), k; split; [done|]
  | |- wp (if ?b then _ else _) _ _ => sys_test b
  end; cbv beta iota.
Ltac sys_steps := repeat sys_step.

Definition with_calls (l : list sockcall) (sk : sock) : sock := sk <| sk_calls ::= (fun c => c ++ l) |>.

Lemma with_calls_nil sk : with_calls [] sk = sk.
Proof. destruct sk as [f t p fl calls peer data]. unfold with_calls, update_field. cbn. by rewrite app_nil_r. Qed.

Lemma did_with_calls c sk : did c sk = with_calls [c] sk.
Proof. done. Qed.

Lemma with_calls_app l l' sk : with_calls l' (with_calls l sk) = with_calls (l ++ l') sk.
Proof. destruct sk as [f t p fl calls peer data]. unfold with_calls, update_field. cbn. by rewrite app_assoc. Qed.

Lemma calls_with_calls l sk : sk_calls (with_calls l sk) = sk_calls sk ++ l.
Proof. done. Qed.
Lemma calls_peer c sk : sk_calls (sk <| sk_peer := c |>) = sk_calls sk.
Proof. done. Qed.
Lemma calls_data w sk : sk_calls (sk <| sk_data := w |>) = sk_calls sk.
Proof. done. Qed.
#[export] Hint Rewrite calls_with_calls calls_peer calls_data : sock.

Definition option_call (b : bool) (o : sockopt) : list sockcall := if b then [Set_option o] else [].

Section Option_rules.
Context (fds : gmap Z sock) (ais : gmap positive addrinfo) (bad : list Z) (s : Z).

Lemma wp_set_if ais' sk b o Q k :
  owns (<[s := sk]> fds) ais' bad k →
  (∀ k', owns (<[s := with_calls (option_call b o) sk]> fds) ais' bad k' → Q 0 k') →
  (∀ k', owns (<[s := sk]> fds) ais' bad k' → Q (-1) k') →
  wp (set_if b s o) Q k.
Proof.
  intros Hk Hok Hno. destruct b; unfold set_if; sys_steps; [by apply Hok|by apply Hno|].
  apply Hok. by rewrite with_calls_nil.
Qed.

(** An option that must be set: done, or everything is given back. *)
Lemma wp_required {A} sk b o p ai (result : A) cont Q k :
  owns (<[s := sk]> fds) (<[p := ai]> ais) bad k → fds !! s = None → ais !! p = None →
  (∀ k', owns fds ais bad k' → Q result k') →
  (∀ k', owns (<[s := with_calls (option_call b o) sk]> fds) (<[p := ai]> ais) bad k' → wp cont Q k') →
  wp (or_close s (Some p) result (set_if b s o) cont) Q k.
Proof.
  intros Hk Hs Hp Hno Hok. unfold or_close. apply wp_bind.
  eapply wp_set_if; [done|intros k' Hk'; cbn; by apply Hok|intros; sys_steps]. by apply Hno, owns_errno.
Qed.
End Option_rules.

(** The socket of the goal is the one at hand: the same calls in another bracketing. *)
Ltac same_sock :=
  match goal with
  | H : owns (<[?s := ?x]> ?fds) ?ais ?bad ?k |- owns (<[?s := ?y]> ?fds) ?ais ?bad ?k =>
      replace y with x; [exact H|]; unfold did, update_field; cbn; f_equal;
      repeat match goal with
      | E : ?b = true |- context [?b] => rewrite E
      | E : ?b = false |- context [?b] => rewrite E
      end; cbn;
      rewrite <- ?app_assoc, ?app_nil_r; reflexivity
  end.
