(* ===== verification/Sockets.v ===== *)
(** * Making and announcing connections ([src/net.c])

    [create_socket], [timeout_connect], [netdial], [netannounce],
    [setnonblocking] and [getsockdomain] as programs over the kernel of
    [Kernel.v].  The resolver behind [getaddrinfo] is a parameter. *)

From S2P Require Import Prelude CInt CStdio Net Test Kernel.

(** [snprintf(portstr, 6, "%d", port)] *)
Definition portstr (port : Z) : bytes := take 5 (dec_Z port).

(** [sin_port = htons(port)] in an address. *)
Definition with_port (a : sockaddr) (port : Z) : sockaddr :=
  mk_sockaddr (sa_family a) (port mod 2 ^ 16) (sa_host a) (sa_flowinfo a).

(** The wildcard address of a family, in its bytes. *)
Definition any_host (family : Z) : bytes := replicate (if family =? AF_INET then 4 else 16) NUL.

(** ** Connecting with a timeout *)

Definition timeout_connect (s : Z) (name : sockaddr) (timeout : Z) : sys Z :=
  flags ← (if timeout =? -1 then mret 0 else os_getflags s);
  r ← (if timeout =? -1 then mret 0 else os_setflags s (Z.lor flags O_NONBLOCK));
  if r =? -1 then mret (-1)
  else
    r ← os_connect s name;
    e ← get_errno;
    r ← (if negb (r =? 0) && (e =? EINPROGRESS) then
           n ← os_poll s timeout;
           if n =? 1 then
             '(r, optval) ← os_getsockopt s Get_SO_ERROR;
             if r =? 0 then set_errno optval;; mret (if optval =? 0 then 0 else -1) else mret r
           else if n =? 0 then set_errno ETIMEDOUT;; mret (-1)
           else mret (-1)
         else mret r);
    if timeout =? -1 then mret r
    else (f ← os_setflags s flags; mret (if f =? -1 then -1 else r)).

Section Resolver.
Context (resolve : hosts).

(** ** [create_socket] *)

(** The local end of the socket: an address, or a port alone.  In the latter case
    the source leaves [sin6_flowinfo] and [sin6_scope_id] of an IPv6 address
    uninitialised; here they are 0. *)
Definition bind_local (s : Z) (local_res : option positive) (local_port : Z) (server_res : positive) : sys Z :=
  match local_res with
  | Some l =>
      ai ← deref l;
      let a := if local_port =? 0 then ai_addr ai else with_port (ai_addr ai) local_port in
      r ← os_bind s a;
      if r <? 0 then
        clean_exit (-1) (os_close s;; os_freeaddrinfo local_res;; os_freeaddrinfo (Some server_res))
      else os_freeaddrinfo local_res;; mret 0
  | None =>
      if local_port =? 0 then mret 0
      else
        ai ← deref server_res;
        let family := ai_family ai in
        if (family =? AF_INET) || (family =? AF_INET6) then
          r ← os_bind s (mk_sockaddr family (local_port mod 2 ^ 16) (any_host family) 0);
          if r <? 0 then clean_exit (-1) (os_close s;; os_freeaddrinfo (Some server_res)) else mret 0
        else os_close s;; os_freeaddrinfo (Some server_res);; set_errno EAFNOSUPPORT;; mret (-1)
  end.

Definition create_socket (domain type proto : Z) (local bind_dev : option bytes) (local_port : Z)
    (server : option bytes) (port : Z) : sys (Z * option positive) :=
  let fail : sys (Z * option positive) := mret (-1, None) in
  local_res ← match local with
              | None => mret (Some None)
              | Some _ => r ← os_getaddrinfo resolve local None (mk_hints domain type false);
                          mret (match r with None => None | Some l => Some (Some l) end)
              end;
  match local_res with
  | None => fail
  | Some local_res =>
      server_res ← os_getaddrinfo resolve server (Some (portstr port)) (mk_hints domain type false);
      match server_res with
      | None => os_freeaddrinfo local_res;; fail
      | Some server_res =>
          ai ← deref server_res;
          s ← os_socket (ai_family ai) type proto;
          if s <? 0 then os_freeaddrinfo local_res;; os_freeaddrinfo (Some server_res);; fail
          else
            r ← match bind_dev with None => mret 0 | Some d => os_setsockopt s (SO_BINDTODEVICE d) end;
            if r <? 0 then
              clean_exit (-1, None) (os_close s;; os_freeaddrinfo local_res;; os_freeaddrinfo (Some server_res))
            else
              r ← bind_local s local_res local_port server_res;
              if r <? 0 then fail else mret (s, Some server_res)
      end
  end.

(** [if (x) freeaddrinfo(x)] and the dereference of a result that was returned. *)
Definition deref_result (p : option positive) : sys addrinfo :=
  match p with None => fun _ => Undef | Some p => deref p end.

(** ** [netdial], [netannounce] *)

Definition netdial (domain proto : Z) (local bind_dev : option bytes) (local_port : Z)
    (server : option bytes) (port timeout : Z) : sys Z :=
  '(s, server_res) ← create_socket domain proto 0 local bind_dev local_port server port;
  if s <? 0 then mret (-1)
  else
    ai ← deref_result server_res;
    r ← timeout_connect s (ai_addr ai) timeout;
    e ← get_errno;
    if (r <? 0) && negb (e =? EINPROGRESS) then
      clean_exit (-1) (os_close s;; os_freeaddrinfo server_res)
    else os_freeaddrinfo server_res;; mret s.

(** The family asked of [getaddrinfo] for a listening socket. *)
Definition listen_family (domain : Z) (local : option bytes) : Z :=
  match local with None => if domain =? AF_UNSPEC then AF_INET6 else domain | Some _ => domain end.

Definition netannounce (domain proto : Z) (local bind_dev : option bytes) (port : Z) : sys Z :=
  res ← os_getaddrinfo resolve local (Some (portstr port))
          (mk_hints (listen_family domain local) proto true);
  match res with
  | None => mret (-1)
  | Some p =>
      ai ← deref p;
      s ← os_socket (ai_family ai) proto 0;
      if s <? 0 then os_freeaddrinfo res;; mret (-1)
      else
        or_close s res (-1)
          (match bind_dev with None => mret 0 | Some d => os_setsockopt s (SO_BINDTODEVICE d) end) (
        or_close s res (-1) (os_setsockopt s (SO_REUSEADDR 1)) (
        or_close s res (-1)
          (if (ai_family ai =? AF_INET6) && ((domain =? AF_UNSPEC) || (domain =? AF_INET6))
           then os_setsockopt s (IPV6_V6ONLY (if domain =? AF_UNSPEC then 0 else 1))
           else mret 0) (
        or_close s res (-1) (os_bind s (ai_addr ai)) (
        os_freeaddrinfo res;;
        if proto =? SOCK_STREAM then or_close s None (-1) (os_listen s INT_MAX) (mret s)
        else mret s))))
  end.
End Resolver.

(** ** [setnonblocking], [getsockdomain] *)

Definition setnonblocking (fd : Z) (nonblocking : bool) : sys Z :=
  flags ← os_getflags fd;
  if flags <? 0 then mret (-1)
  else
    let newflags := if nonblocking then Z.lor flags O_NONBLOCK else Z.land flags (Z.lnot O_NONBLOCK) in
    if newflags =? flags then mret 0
    else (r ← os_setflags fd newflags; mret (if r <? 0 then -1 else 0)).

Definition getsockdomain (s : Z) : sys Z :=
  f ← os_getsockname s; mret (match f with None => -1 | Some f => f end).

(** ** Rules of the programs *)

Section Rules.
Context (resolve : hosts).
Context (fds : gmap Z sock) (ais : gmap positive addrinfo) (bad : list Z).
Implicit Types (k : kernel).

(** The calls [create_socket] makes on its socket. *)
Definition device_call (bind_dev : option bytes) : list sockcall :=
  match bind_dev with None => [] | Some d => [Set_option (SO_BINDTODEVICE d)] end.

Definition local_call (domain type : Z) (local : option bytes) (local_port family : Z) : list sockcall :=
  match local with
  | Some _ =>
      match resolve local None (mk_hints domain type false) with
      | inr l => [Bound (if local_port =? 0 then ai_addr l else with_port (ai_addr l) local_port)]
      | inl _ => []
      end
  | None => if local_port =? 0 then []
            else [Bound (mk_sockaddr family (local_port mod 2 ^ 16) (any_host family) 0)]
  end.

Lemma wp_bind_device s sk bind_dev ais' Q k :
  owns (<[s := sk]> fds) ais' bad k →
  (∀ k', owns (<[s := with_calls (device_call bind_dev) sk]> fds) ais' bad k' → Q 0 k') →
  (∀ k', owns (<[s := sk]> fds) ais' bad k' → Q (-1) k') →
  wp (match bind_dev with None => mret 0 | Some d => os_setsockopt s (SO_BINDTODEVICE d) end) Q k.
Proof.
  intros Hk Hok Hno. destruct bind_dev as [d|]; sys_steps; [by apply Hok|by apply Hno|].
  apply Hok. by rewrite with_calls_nil.
Qed.

(** [bind_local] with a resolved address, and with a port alone. *)
Lemma wp_bind_address s sk l lai p ai local_port Q k :
  owns (<[s := sk]> fds) (<[p := ai]> (<[l := lai]> ais)) bad k → fds !! s = None →
  ais !! l = None → ais !! p = None → p ≠ l →
  (∀ k', owns fds ais bad k' → Q (-1) k') →
  (∀ k', owns (<[s := did (Bound (if local_port =? 0 then ai_addr lai
                                  else with_port (ai_addr lai) local_port)) sk]> fds)
              (<[p := ai]> ais) bad k' → Q 0 k') →
  wp (bind_local s (Some l) local_port p) Q k.
Proof.
  intros Hk Hs Hl Hp Hn Hno Hyes. unfold bind_local. sys_steps; [by apply Hyes|].
  by apply Hno, owns_errno.
Qed.

Lemma wp_bind_port s sk p ai local_port Q k :
  owns (<[s := sk]> fds) (<[p := ai]> ais) bad k → fds !! s = None → ais !! p = None →
  (∀ k', owns fds ais bad k' → Q (-1) k') →
  (∀ k', owns (<[s := if local_port =? 0 then sk
                      else did (Bound (mk_sockaddr (ai_family ai) (local_port mod 2 ^ 16)
                                         (any_host (ai_family ai)) 0)) sk]> fds)
              (<[p := ai]> ais) bad k' → Q 0 k') →
  wp (bind_local s None local_port p) Q k.
Proof.
  intros Hk Hs Hp Hno Hyes. unfold bind_local.
  destruct (local_port =? 0) eqn:E; sys_steps; [by apply Hyes|by apply Hyes| |by apply Hno].
  by apply Hno, owns_errno.
Qed.

Lemma wp_create_socket domain type proto local bind_dev local_port server port Q k :
  owns fds ais bad k →
  (∀ k', owns fds ais bad k' → Q (-1, None) k') →
  (∀ s p ai w k', 0 ≤ s → fds !! s = None → ais !! p = None → new_data type w →
     resolve server (Some (portstr port)) (mk_hints domain type false) = inr ai →
     owns (<[s := mk_sock (ai_family ai) type proto 0
                    (device_call bind_dev ++ local_call domain type local local_port (ai_family ai))
                    Unconnected w]> fds) (<[p := ai]> ais) bad k' →
     Q (s, Some p) k') →
  wp (create_socket resolve domain type proto local bind_dev local_port server port) Q k.
Proof.
  intros Hk Hno Hyes. unfold create_socket. unfold local_call in Hyes.
  destruct local as [l|]; sys_steps.
  - by apply Hno.
  - by apply Hno.
  - eapply wp_bind_device; [done|intros ? Hd|intros]; sys_steps; [|by apply Hno, owns_errno].
    eapply wp_bind_address; [done..| |]; intros; sys_steps; [by apply Hno|].
    eapply Hyes; [done..|]. destruct (resolve (Some l)); by simplify_eq.
  - by apply Hno.
  - by apply Hno.
  - eapply wp_bind_device; [done|intros ? Hd|intros]; sys_steps; [|by apply Hno, owns_errno].
    eapply wp_bind_port; [done..| |]; intros; sys_steps; [by apply Hno|].
    eapply Hyes; [done..|]. destruct (local_port =? 0); [by rewrite app_nil_r|done].
  - by apply Hno.
Qed.

(** [timeout_connect]: connected with the flags as they were, or a failure. *)
Lemma wp_timeout_connect ais' s sk name timeout Q k :
  owns (<[s := sk]> fds) ais' bad k → 
  (∀ k', owns (<[s := sk <| sk_peer := Connected name |>]> fds) ais' bad k' → Q 0 k') →
  (∀ f c k', owns (<[s := sk <| sk_peer := c |> <| sk_flags := f |>]> fds) ais' bad k' → Q (-1) k') →
  wp (timeout_connect s name timeout) Q k.
Proof.
  intros Hk Hok Hno. unfold timeout_connect. destruct sk as [fam ty pr fl calls peer data].
  destruct (timeout =? -1); sys_steps.
  all: unfold update_field in *; cbn in *.
  all: ztest; first [ by eapply Hok | by eapply Hno ].
Qed.

Lemma wp_netdial domain proto local bind_dev local_port server port timeout Q k :
  owns fds ais bad k →
  (∀ k', owns fds ais bad k' → Q (-1) k') →
  (∀ s ai c f w k', 0 ≤ s → fds !! s = None → new_data proto w →
     resolve server (Some (portstr port)) (mk_hints domain proto false) = inr ai →
     owns (<[s := mk_sock (ai_family ai) proto 0 f
                    (device_call bind_dev ++ local_call domain proto local local_port (ai_family ai))
                    c w]> fds) ais bad k' →
     (c = Connected (ai_addr ai) ∧ f = 0) ∨ k_errno k' = EINPROGRESS → Q s k') →
  wp (netdial resolve domain proto local bind_dev local_port server port timeout) Q k.
Proof.
  intros Hk Hno Hyes. unfold netdial. apply wp_bind. eapply wp_create_socket; [done| |].
  - intros k' Hk'. sys_steps. by apply Hno.
  - intros s p ai w k' Hs Hfree Hp Hw Hr Hk'. cbn [deref_result]. sys_steps.
    eapply wp_timeout_connect; [done| |]; intros; sys_steps.
    + eapply Hyes; [done..|]. by left.
    + by apply Hno, owns_errno.
    + eapply Hyes; [done..|]. right. cbn in Heqb. bool_to_prop. congruence.
Qed.

(** [netannounce]: the calls on the listening socket. *)
Definition v6only_call (domain family : Z) : list sockcall :=
  if (family =? AF_INET6) && ((domain =? AF_UNSPEC) || (domain =? AF_INET6))
  then [Set_option (IPV6_V6ONLY (if domain =? AF_UNSPEC then 0 else 1))] else [].

Definition listen_call (proto : Z) : list sockcall :=
  if proto =? SOCK_STREAM then [Listening INT_MAX] else [].

Definition announced (domain proto : Z) (bind_dev : option bytes) (ai : addrinfo) (w : os) : sock :=
  mk_sock (ai_family ai) proto 0 0
    (device_call bind_dev ++ [Set_option (SO_REUSEADDR 1)] ++ v6only_call domain (ai_family ai) ++
     [Bound (ai_addr ai)] ++ listen_call proto) Unconnected w.

Lemma wp_netannounce domain proto local bind_dev port Q k :
  owns fds ais bad k →
  (∀ k', owns fds ais bad k' → Q (-1) k') →
  (∀ s ai w k', 0 ≤ s → fds !! s = None →
     resolve local (Some (portstr port)) (mk_hints (listen_family domain local) proto true) = inr ai →
     owns (<[s := announced domain proto bind_dev ai w]> fds) ais bad k' → Q s k') →
  wp (netannounce resolve domain proto local bind_dev port) Q k.
Proof.
  intros Hk Hno Hyes. unfold netannounce, or_close. unfold announced, v6only_call, listen_call in Hyes. sys_steps.
  - by apply Hno.
  - eapply wp_bind_device; [done|intros ? Hd|intros ? Hd]; unfold with_calls in Hd; sys_steps.
    all: first [ by apply Hno, owns_errno | eapply Hyes; [done..|]; same_sock ].
  - by apply Hno.
Qed.
End Rules.

(** ** Properties *)


(** C22: [netannounce] leaves a listening socket or nothing: the result is -1 with
    the descriptors and address lists of before, or a new socket that had
    exactly the calls of an announcement in their order (the device if asked
    for, address reuse, for an IPv6 socket the restriction to IPv6 unless no
    family was asked for, the address of the resolver, [listen] for a stream
    socket). *)
Theorem netannounce_all_or_nothing resolve domain proto local bind_dev port k :
  wp (netannounce resolve domain proto local bind_dev port)
    (fun s k' =>
       (s = -1 ∧ unchanged k k') ∨
       ∃ ai w,
         resolve local (Some (portstr port)) (mk_hints (listen_family domain local) proto true) = inr ai ∧
         one_more k s (announced domain proto bind_dev ai w) k') k.
Proof.
  eapply wp_netannounce; [apply owns_self|by left|].
  intros s ai w k' Hs Hfree Hr Hk'. right. by exists ai, w.
Qed.
