(* ===== verification/Tcp.v ===== *)
(** * TCP streams ([src/iperf_tcp.c], [iperf_common_sockopts])

    Sending and receiving with their counters, and the set-up of stream sockets:
    [iperf_tcp_listen], [iperf_tcp_accept], [iperf_tcp_connect] as programs over
    the kernel of [Kernel.v], with every early return. *)

From S2P Require Import Prelude Errno CInt CDouble CStdio IperfTime Json JsonBuild Net Test Udp Kernel Sockets.

Definition IPV6_FLOWINFO_FLOWLABEL : Z := 0x000fffff.

(** ** Transfers *)

Definition iperf_tcp_recv (test : iperf_test) (sp : iperf_stream) (w : os)
  : outcome (Z * iperf_stream * os) :=
  let size := blksize (settings test) in
  let sock_opt := if negb (skip_rx_copy (settings test) =? 0) then MSG_TRUNC else 0 in
  if decide (Z.of_nat (length (sp_buffer sp)) < size) then Undef
  else
    '(rc, w) ← Nrecv_no_select w (Z.to_nat size) sock_opt;
    let sp := sp <| sp_buffer ::= overlay (filled rc) |> in
    let r := ret rc in
    if r <? 0 then Ok (r, sp, w)
    else if state test =? TEST_RUNNING then
      Ok (r, on_result (fun x => x <| rs_bytes_received ::= fun b => u64 (b + r) |>
                                   <| rs_bytes_received_this_interval ::= fun b => u64 (b + r) |>) sp, w)
    else Ok (r, sp, w).

(** [file] is what the descriptor behind the buffer holds. *)
Definition iperf_tcp_send (file : bytes) (test : iperf_test) (sp : iperf_stream) (w : os)
  : outcome (Z * iperf_stream * os) :=
  let sp := if sp_pending_size sp =? 0 then sp <| sp_pending_size := blksize (settings test) |> else sp in
  let n := Z.to_nat (sp_pending_size sp) in
  '(r, w) ← (if sp_pending_size sp <? 0 then Undef       (* a count of almost 2^64 *)
             else if negb (zerocopy test =? 0) then Nsendfile w file n
             else if decide (length (sp_buffer sp) < n)%nat then Undef
             else Nwrite w (take n (sp_buffer sp)));
  if r <? 0 then Ok (r, sp, w)
  else
    Ok (r, on_result (fun x => x <| rs_bytes_sent ::= fun b => u64 (b + r) |>
                                 <| rs_bytes_sent_this_interval ::= fun b => u64 (b + r) |>)
             (sp <| sp_pending_size ::= fun p => i32 (p - r) |>), w).

(** Several calls in a row, up to the first failure. *)
Fixpoint tcp_sends (n : nat) (file : bytes) (test : iperf_test) (sp : iperf_stream) (w : os)
  : outcome (iperf_stream * os) :=
  match n with
  | O => Ok (sp, w)
  | S n' => '(r, sp, w) ← iperf_tcp_send file test sp w;
            if r <? 0 then Fail else tcp_sends n' file test sp w
  end.

Fixpoint tcp_recvs (n : nat) (test : iperf_test) (sp : iperf_stream) (w : os)
  : outcome (iperf_stream * os) :=
  match n with
  | O => Ok (sp, w)
  | S n' => '(r, sp, w) ← iperf_tcp_recv test sp w;
            if r <? 0 then Fail else tcp_recvs n' test sp w
  end.

(** The state of a sending stream: a block of the buffer, or part of one, is due. *)
Definition can_send (file : bytes) (test : iperf_test) (sp : iperf_stream) : Prop :=
  let size := blksize (settings test) in
  0 ≤ sp_pending_size sp ≤ size ∧ 0 < size < 2 ^ 31 ∧ size ≤ Z.of_nat (length (sp_buffer sp)) ∧
  (zerocopy test = 0 ∨ size ≤ Z.of_nat (length file)).

Definition can_recv (test : iperf_test) (sp : iperf_stream) (w : os) : Prop :=
  let size := blksize (settings test) in
  0 < size < 2 ^ 31 ∧ size ≤ Z.of_nat (length (sp_buffer sp)) ∧ skip_rx_copy (settings test) = 0 ∧
  state test = TEST_RUNNING ∧ dgram w = false.

Lemma tcp_send_step file test sp w :
  can_send file test sp →
  ∃ r sp' w', iperf_tcp_send file test sp w = Ok (r, sp', w') ∧
    (0 ≤ r → can_send file test sp' ∧ ∃ d, sent w' = sent w ++ d ∧ Z.of_nat (length d) = r ∧
       rs_bytes_sent (sp_result sp') = u64 (rs_bytes_sent (sp_result sp) + r)).
Proof.
  intros (Hp & Hb & Hl & Hz). unfold iperf_tcp_send.
  set (sp1 := if sp_pending_size sp =? 0 then _ else sp).
  assert (0 < sp_pending_size sp1 ≤ blksize (settings test) ∧ sp_buffer sp1 = sp_buffer sp ∧ sp_result sp1 = sp_result sp)
    as (Hp1 & Hb1 & Hr1) by (unfold sp1; case_goal; bool_to_prop; (split_and!; [| |done|done]); cbn; lia).
  clearbody sp1. set (n := Z.to_nat (sp_pending_size sp1)).
  assert (Z.of_nat n = sp_pending_size sp1) as Hn by lia.
  ztest.
  assert (∃ r w' k src, (if negb (zerocopy test =? 0) then Nsendfile w file n
             else if decide (length (sp_buffer sp1) < n)%nat then Undef
             else Nwrite w (take n (sp_buffer sp1))) = Ok (r, w') ∧ sent w' = sent w ++ take k src ∧
             (k ≤ n)%nat ∧ (k ≤ length src)%nat ∧ (r = Z.of_nat k ∨ r < 0)) as (r & w' & k & src & Hm & Hsent & Hk & Hks & Hr).
  { destruct (negb (zerocopy test =? 0)) eqn:Ez; bool_to_prop.
    - destruct (Nsendfile_prefix w file n) as (r & w' & k & H1 & H2 & H3 & H4); [lia|lia|].
      exists r, w', k, file. split_and!; [done|done|done|lia|]. unfold NET_SOFTERROR, NET_HARDERROR in *; lia.
    - rewrite decide_False by (rewrite Hb1; lia).
      destruct (Nwrite_prefix w (take n (sp_buffer sp1))) as (r & w' & k & H1 & H2 & H3 & _ & _ & _ & _ & H4);
        [rewrite length_take; lia|].
      exists r, w', k, (take n (sp_buffer sp1)). split_and!; [done|done|rewrite length_take in H3; lia|done|].
      unfold NET_SOFTERROR, NET_HARDERROR in *; lia. }
  rewrite Hm. cbn [mbind outcome_bind outcome_ret]. destruct (r <? 0) eqn:Er; bool_to_prop.
  { eexists _, _, _. split; [reflexivity|]. lia. }
  assert (r = Z.of_nat k) as -> by lia. eexists _, _, _. split; [reflexivity|]. intros _. split.
  - unfold can_send. cbn. rewrite Hb1. rewrite wraps_id by (unfold in_s; lia). split_and!; lia.
  - exists (take k src). split_and!; [done|rewrite length_take; lia|]. cbn. by rewrite Hr1.
Qed.
Lemma tcp_recv_step test sp w :
  can_recv test sp w →
  ∃ r sp' w', iperf_tcp_recv test sp w = Ok (r, sp', w') ∧
    (0 ≤ r → can_recv test sp' w' ∧ ∃ d, flat (reads w) = d ++ flat (reads w') ∧ Z.of_nat (length d) = r ∧
       rs_bytes_received (sp_result sp') = u64 (rs_bytes_received (sp_result sp) + r)).
Proof.
  intros (Hb & Hl & Hskip & Hst & Hd). unfold iperf_tcp_recv. rewrite Hskip, decide_False by lia.
  destruct (Nrecv_no_select_reads_stream w (Z.to_nat (blksize (settings test)))) as (rc & w' & Hr & Hd' & Hf & Hlen & Hret);
    [lia|done|]. cbn [Z.eqb negb]. rewrite Hr. cbn [mbind outcome_bind outcome_ret].
  destruct (ret rc <? 0) eqn:Er; bool_to_prop; [eexists _, _, _; split; [reflexivity|]; lia|].
  rewrite Hst. ztest. eexists _, _, _. split; [reflexivity|]. intros _. split.
  - unfold can_recv, overlay. cbn. rewrite length_app, length_drop. split_and!; try done; lia.
  - exists (filled rc). split_and!; [done| |done]. unfold NET_HARDERROR in Hret. destruct Hret as [E|E]; lia.
Qed.

Lemma tcp_sends_run n file test sp w :
  can_send file test sp →
  tcp_sends n file test sp w = Fail ∨
  ∃ sp' w' d, tcp_sends n file test sp w = Ok (sp', w') ∧ sent w' = sent w ++ d ∧
    u64 (rs_bytes_sent (sp_result sp')) = u64 (rs_bytes_sent (sp_result sp) + Z.of_nat (length d)).
Proof.
  revert sp w. induction n as [|n IH]; intros sp w Hc; cbn [tcp_sends].
  { right. exists sp, w, []. by rewrite app_nil_r, Z.add_0_r. }
  destruct (tcp_send_step file test sp w Hc) as (r & sp1 & w1 & -> & Hok). cbn [mbind outcome_bind].
  destruct (r <? 0) eqn:Er; bool_to_prop; [by left|].
  destruct (Hok Er) as (Hc1 & d & Hs & Hd & Hb).
  destruct (IH sp1 w1 Hc1) as [->|(sp2 & w2 & d2 & -> & Hs2 & Hb2)]; [by left|right].
  exists sp2, w2, (d ++ d2). split_and!; [done|by rewrite Hs2, Hs, app_assoc|].
  rewrite Hb2, Hb, wrapu_add_l, length_app. f_equal. lia.
Qed.

Lemma tcp_recvs_run n test sp w :
  can_recv test sp w →
  tcp_recvs n test sp w = Fail ∨
  ∃ sp' w' d, tcp_recvs n test sp w = Ok (sp', w') ∧ flat (reads w) = d ++ flat (reads w') ∧
    u64 (rs_bytes_received (sp_result sp')) = u64 (rs_bytes_received (sp_result sp) + Z.of_nat (length d)).
Proof.
  revert sp w. induction n as [|n IH]; intros sp w Hc; cbn [tcp_recvs].
  { right. exists sp, w, []. by rewrite Z.add_0_r. }
  destruct (tcp_recv_step test sp w Hc) as (r & sp1 & w1 & -> & Hok). cbn [mbind outcome_bind].
  destruct (r <? 0) eqn:Er; bool_to_prop; [by left|].
  destruct (Hok Er) as (Hc1 & d & Hs & Hd & Hb).
  destruct (IH sp1 w1 Hc1) as [->|(sp2 & w2 & d2 & -> & Hs2 & Hb2)]; [by left|right].
  exists sp2, w2, (d ++ d2). split_and!; [done|by rewrite Hs, Hs2, app_assoc|].
  rewrite Hb2, Hb, wrapu_add_l, length_app. f_equal. lia.
Qed.

(** ** Options *)

Definition on (n : Z) : bool := negb (n =? 0).

(** [iperf_common_sockopts]; a failure of the second call is ignored. *)
Definition iperf_common_sockopts (test : iperf_test) (s : Z) : sys (Z * iperf_test) :=
  let opt := tos (settings test) in
  if on opt then
    family ← getsockdomain s;
    if family =? AF_INET6 then
      r ← os_setsockopt s (IPV6_TCLASS opt);
      if r <? 0 then mret (-1, test <| i_errno := IESETCOS |>)
      else set_if (on (mapped_v4 test)) s (IP_TOS opt);; mret (0, test)
    else
      r ← os_setsockopt s (IP_TOS opt);
      if r <? 0 then mret (-1, test <| i_errno := IESETTOS |>) else mret (0, test)
  else mret (0, test).

(** Fair-queue pacing; a failure is a warning. *)
Definition fq_pacing (test : iperf_test) (s : Z) : sys () :=
  let rate := fqrate (settings test) / 8 in
  set_if (on (fqrate (settings test)) && (0 <? rate)) s (SO_MAX_PACING_RATE rate);; mret ().

Definition failed (test : iperf_test) (e : Z) : Z * iperf_test := (-1, test <| i_errno := e |>).

(** A buffer's size is read back and compared with the one asked for. *)
Definition check_buffer (test : iperf_test) (s : Z) (res : option positive) (q : sockquery)
    (k : Z → sys (Z * iperf_test)) : sys (Z * iperf_test) :=
  let want := socket_bufsize (settings test) in
  '(r, actual) ← os_getsockopt s q;
  if r <? 0 then clean_exit (failed test IESETBUF) (os_close s;; os_freeaddrinfo res)
  else if on want && (actual <? want) then
    os_close s;; os_freeaddrinfo res;; mret (failed test IESETBUF2)
  else k actual.

(** The sizes in the report: [iperf_tcp_listen] adds them, [iperf_tcp_connect]
    adds those that are not there. *)
Definition report_buffers (add : bytes → Z → cJSON → cJSON) (sndbuf rcvbuf : Z) (test : iperf_test)
  : iperf_test :=
  if on (json_output test) then
    test <| json_start ::= fmap (fun js =>
      add (B "rcvbuf_actual") rcvbuf (add (B "sndbuf_actual") sndbuf
        (add (B "sock_bufsize") (socket_bufsize (settings test)) js))) |>
  else test.

Definition add_number (name : bytes) (v : Z) (js : cJSON) : cJSON := cJSON_AddNumberToObject js name (D_of_Z v).

Definition stream_proto (test : iperf_test) : Z := if on (mptcp test) then IPPROTO_MPTCP else 0.

Section Streams.
Context (resolve : hosts).

(** ** [iperf_tcp_listen] *)

(** The settings for which the listening socket is made anew. *)
Definition relisten (test : iperf_test) : bool :=
  on (no_delay test) || on (mptcp test) || on (mss (settings test)) || on (socket_bufsize (settings test)).

Definition new_listener (test : iperf_test) (k : Z → iperf_test → sys (Z * iperf_test)) : sys (Z * iperf_test) :=
  let st := settings test in
  let dom := domain (cmdline test) in
  let local := bind_address (cmdline test) in
  res ← os_getaddrinfo resolve local (Some (portstr (server_port test)))
          (mk_hints (listen_family dom local) SOCK_STREAM true);
  match res with
  | None => mret (failed test IESTREAMLISTEN)
  | Some p =>
      ai ← deref p;
      s ← os_socket (ai_family ai) SOCK_STREAM (stream_proto test);
      if s <? 0 then os_freeaddrinfo res;; mret (failed test IESTREAMLISTEN)
      else
        or_close s res (failed test IESETNODELAY) (set_if (on (no_delay test)) s (TCP_NODELAY 1)) (
        or_close s res (failed test IESETMSS) (set_if (on (mss st)) s (TCP_MAXSEG (mss st))) (
        or_close s res (failed test IESETBUF)
          (set_if (on (socket_bufsize st)) s (SO_RCVBUF (socket_bufsize st))) (
        or_close s res (failed test IESETBUF)
          (set_if (on (socket_bufsize st)) s (SO_SNDBUF (socket_bufsize st))) (
        or_close s res (failed test IEREUSEADDR) (set_if true s (SO_REUSEADDR 1)) (
        or_close s res (failed test IEV6ONLY)
          (set_if ((ai_family ai =? AF_INET6) && ((dom =? AF_UNSPEC) || (dom =? AF_INET))) s
                  (IPV6_V6ONLY (if dom =? AF_UNSPEC then 0 else 1))) (
        or_close s res (failed test IESTREAMLISTEN) (os_bind s (ai_addr ai)) (
        os_freeaddrinfo res;;
        r ← os_listen s INT_MAX;
        if r <? 0 then os_close s;; mret (failed test IESTREAMLISTEN)
        else k s (test <| listener := s |>))))))))
  end.

Definition check_buffers (s : Z) (test : iperf_test) : sys (Z * iperf_test) :=
  check_buffer test s None Get_SO_SNDBUF (fun sndbuf =>
  check_buffer test s None Get_SO_RCVBUF (fun rcvbuf =>
  mret (s, report_buffers add_number sndbuf rcvbuf test))).

Definition iperf_tcp_listen (test : iperf_test) : sys (Z * iperf_test) :=
  let s := listener test in
  if relisten test then
    os_close s;; new_listener (test <| read_set ::= (fun x => x ∖ {[s]}) |>) check_buffers
  else check_buffers s test.

(** ** [iperf_tcp_accept] *)

(** [strncmp(a, b, n) == 0] *)
Definition strncmp_equal (a b : bytes) (n : nat) : bool := bool_decide (c_str (take n a) = c_str (take n b)).

Definition iperf_tcp_accept (test : iperf_test) : sys (Z * iperf_test) :=
  s ← os_accept (listener test);
  if s <? 0 then mret (failed test IESTREAMCONNECT)
  else
    fq_pacing test s;;
    rc ← on_data s (fun w => Nread w COOKIE_SIZE);
    let cookie_read := overlay (filled rc) (replicate COOKIE_SIZE NUL) in
    if ret rc <? 0 then os_close s;; mret (failed test IERECVCOOKIE)
    else if strncmp_equal (cookie test) cookie_read COOKIE_SIZE then mret (s, test)
    else
      on_data s (fun w => Nwrite w [chr ACCESS_DENIED]);;
      os_close s;; mret (s, test).

(** ** [iperf_tcp_connect] *)

(** The flow label goes into the socket's options and into the address. *)
Definition set_flowlabel (test : iperf_test) (s : Z) (p : positive) (k : sys (Z * iperf_test))
  : sys (Z * iperf_test) :=
  let label := Z.land (flowlabel (settings test)) IPV6_FLOWINFO_FLOWLABEL in
  if on (flowlabel (settings test)) then
    ai ← deref p;
    if negb (sa_family (ai_addr ai) =? AF_INET6) then
      clean_exit (failed test IESETFLOW) (os_close s;; os_freeaddrinfo (Some p))
    else
      or_close s (Some p) (failed test IESETFLOW) (set_if true s (IPV6_FLOWLABEL_MGR label)) (
      set_flowinfo p label;;
      or_close s (Some p) (failed test IESETFLOW) (set_if true s (IPV6_FLOWINFO_SEND 1)) k)
  else k.

(** The last steps: best-effort options, [connect], the cookie. *)
Definition finish_connect (test : iperf_test) (s : Z) (p : positive) : sys (Z * iperf_test) :=
  fq_pacing test s;;
  '(_, test) ← iperf_common_sockopts test s;
  ai ← deref p;
  r ← os_connect s (ai_addr ai);
  e ← get_errno;
  if (r <? 0) && negb (e =? EINPROGRESS) then
    clean_exit (failed test IESTREAMCONNECT) (os_close s;; os_freeaddrinfo (Some p))
  else
    os_freeaddrinfo (Some p);;
    r ← on_data s (fun w => Nwrite w (take COOKIE_SIZE (cookie test)));
    if r <? 0 then clean_exit (failed test IESENDCOOKIE) (os_close s) else mret (s, test).

Definition iperf_tcp_connect (test : iperf_test) : sys (Z * iperf_test) :=
  let st := settings test in
  let c := cmdline test in
  '(s, server_res) ← create_socket resolve (domain c) SOCK_STREAM (stream_proto test) (bind_address c)
                       (bind_dev c) (bind_port test) (server_hostname c) (server_port test);
  if s <? 0 then mret (failed test IESTREAMCONNECT)
  else match server_res with
  | None => fun _ => Undef
  | Some p =>
      or_close s server_res (failed test IESETNODELAY) (set_if (on (no_delay test)) s (TCP_NODELAY 1)) (
      or_close s server_res (failed test IESETMSS) (set_if (on (mss st)) s (TCP_MAXSEG (mss st))) (
      or_close s server_res (failed test IESETBUF)
        (set_if (on (socket_bufsize st)) s (SO_RCVBUF (socket_bufsize st))) (
      or_close s server_res (failed test IESETBUF)
        (set_if (on (socket_bufsize st)) s (SO_SNDBUF (socket_bufsize st))) (
      or_close s server_res (failed test IESETUSERTIMEOUT)
        (set_if (on (snd_timeout st)) s (TCP_USER_TIMEOUT (snd_timeout st))) (
      check_buffer test s server_res Get_SO_SNDBUF (fun sndbuf =>
      check_buffer test s server_res Get_SO_RCVBUF (fun rcvbuf =>
      let test := report_buffers add_once sndbuf rcvbuf test in
      set_flowlabel test s p (finish_connect test s p))))))))
  end.
End Streams.

(** ** [iperf_set_control_keepalive]: the control connection *)

(** A value that is not given is read from the system. *)
Definition ka_value (s given : Z) (q : sockquery) (test : iperf_test) (e : Z)
    (k : Z → sys (Z * iperf_test)) : sys (Z * iperf_test) :=
  if on given then k given
  else
    '(r, v) ← os_getsockopt s q;
    if on r then mret (failed test e) else k v.

(** A value that is given is set. *)
Definition ka_set (s given : Z) (o : sockopt) (test : iperf_test) (e : Z) (k : sys (Z * iperf_test))
  : sys (Z * iperf_test) :=
  r ← set_if (on given) s o;
  if on r then mret (failed test e) else k.

Definition iperf_set_control_keepalive (test : iperf_test) : sys (Z * iperf_test) :=
  let c := cmdline test in
  let s := ctrl_sck test in
  if on (cntl_ka c) then
    r ← os_setsockopt s (SO_KEEPALIVE 1);
    if on r then mret (failed test IESETCNTLKA)
    else
      ka_value s (cntl_ka_keepidle c) Get_TCP_KEEPIDLE test IESETCNTLKAINTERVAL (fun kaidle =>
      ka_value s (cntl_ka_interval c) Get_TCP_KEEPINTVL test IESETCNTLKAINTERVAL (fun kainterval =>
      ka_value s (cntl_ka_count c) Get_TCP_KEEPCNT test IESETCNTLKACOUNT (fun kacount =>
      if on (cntl_ka_keepidle c) && (cntl_ka_keepidle c <=? i32 (kainterval * kacount))
      then mret (failed test IECNTLKA)
      else
        ka_set s (cntl_ka_keepidle c) (TCP_KEEPIDLE (cntl_ka_keepidle c)) test IESETCNTLKAKEEPIDLE (
        ka_set s (cntl_ka_interval c) (TCP_KEEPINTVL (cntl_ka_interval c)) test IESETCNTLKAINTERVAL (
        ka_set s (cntl_ka_count c) (TCP_KEEPCNT (cntl_ka_count c)) test IESETCNTLKACOUNT (
        mret (0, test)))))))
  else mret (0, test).

(** ** Rules *)

(** The calls for the options that are asked for. *)
Definition buffer_calls (test : iperf_test) : list sockcall :=
  let size := socket_bufsize (settings test) in
  option_call (on size) (SO_RCVBUF size) ++ option_call (on size) (SO_SNDBUF size).

Definition tcp_calls (test : iperf_test) : list sockcall :=
  option_call (on (no_delay test)) (TCP_NODELAY 1) ++
  option_call (on (mss (settings test))) (TCP_MAXSEG (mss (settings test))) ++ buffer_calls test.

Definition timeout_call (test : iperf_test) : list sockcall :=
  option_call (on (snd_timeout (settings test))) (TCP_USER_TIMEOUT (snd_timeout (settings test))).

Definition flow_label (test : iperf_test) : Z := Z.land (flowlabel (settings test)) IPV6_FLOWINFO_FLOWLABEL.

Definition flow_calls (test : iperf_test) : list sockcall :=
  let b := on (flowlabel (settings test)) in
  option_call b (IPV6_FLOWLABEL_MGR (flow_label test)) ++ option_call b (IPV6_FLOWINFO_SEND 1).

Definition flow_addr (test : iperf_test) (a : sockaddr) : sockaddr :=
  if on (flowlabel (settings test))
  then mk_sockaddr (sa_family a) (sa_port a) (sa_host a) (flow_label test) else a.

(** The calls whose failure is not an error. *)
Definition best_effort (test : iperf_test) : list sockcall :=
  [Set_option (SO_MAX_PACING_RATE (fqrate (settings test) / 8));
   Set_option (IPV6_TCLASS (tos (settings test))); Set_option (IP_TOS (tos (settings test)))].

(** Equal but for the error number. *)
Definition same_but_errno (t t' : iperf_test) : Prop := t' = t ∨ ∃ e, t' = t <| i_errno := e |>.

Section Rules.
Context (fds : gmap Z sock) (ais : gmap positive addrinfo) (bad : list Z) (s : Z).

Lemma wp_fq_pacing ais' test sk Q k :
  owns (<[s := sk]> fds) ais' bad k →
  (∀ l k', l `sublist_of` take 1 (best_effort test) →
     owns (<[s := with_calls l sk]> fds) ais' bad k' → Q () k') →
  wp (fq_pacing test s) Q k.
Proof.
  intros Hk HQ. unfold fq_pacing. apply wp_bind.
  eapply wp_set_if; [done|intros k' Hk'|intros k' Hk']; sys_steps.
  - eapply HQ, Hk'. unfold option_call. case_goal; [done|]. apply sublist_nil_l.
  - apply (HQ []); [apply sublist_nil_l|]. by rewrite with_calls_nil.
Qed.

Lemma wp_common_sockopts ais' test sk Q k :
  owns (<[s := sk]> fds) ais' bad k →
  (∀ l r test' k', l `sublist_of` drop 1 (best_effort test) → same_but_errno test test' →
     owns (<[s := with_calls l sk]> fds) ais' bad k' → Q (r, test') k') →
  wp (iperf_common_sockopts test s) Q k.
Proof.
  intros Hk HQ. unfold iperf_common_sockopts, getsockdomain.
  assert (∀ r test' k', owns (<[s := sk]> fds) ais' bad k' → same_but_errno test test' → Q (r, test') k') as Hnone.
  { intros r test' k' Hk' Ht. apply (HQ []); [apply sublist_nil_l|done|]. by rewrite with_calls_nil. }
  assert (∀ e, same_but_errno test (test <| i_errno := e |>)) as He by (intros e; right; by exists e).
  sys_steps; try (by apply Hnone; [|left]); try (by apply Hnone).
  - rewrite did_with_calls in H0.
    eapply wp_set_if; [done|intros k'1 Hk'1|intros k'1 Hk'1]; sys_steps.
    + rewrite with_calls_app in Hk'1. eapply HQ; [|by left|exact Hk'1]. unfold option_call, best_effort. cbn.
      apply sublist_skip. case_goal; [done|apply sublist_nil_l].
    + eapply HQ; [|by left|exact Hk'1]. apply sublist_skip, sublist_nil_l.
  - rewrite did_with_calls in H0. eapply HQ; [|by left|exact H0]. by apply sublist_cons.
  - rewrite did_with_calls in H0. eapply HQ; [|by left|exact H0]. by apply sublist_cons.
Qed.

(** A buffer is large enough or everything is given back, in front of [connect]
    with a list and in front of a listener without one. *)
Lemma wp_check_buffer test sk p ai q cont Q k :
  q ≠ Get_SO_ERROR → owns (<[s := sk]> fds) (<[p := ai]> ais) bad k → fds !! s = None → ais !! p = None →
  (∀ e k', owns fds ais bad k' → e = IESETBUF ∨ e = IESETBUF2 → Q (failed test e) k') →
  (∀ v k', socket_bufsize (settings test) = 0 ∨ socket_bufsize (settings test) ≤ v →
     owns (<[s := sk]> fds) (<[p := ai]> ais) bad k' → wp (cont v) Q k') →
  wp (check_buffer test s (Some p) q cont) Q k.
Proof.
  intros Hq Hk Hs Hp Hno Hok. unfold check_buffer, on. destruct q; [done|..].
  all: sys_steps; [by apply Hno; [|right]| |by apply Hno; [apply owns_errno|left]].
  all: apply Hok; [|done]; destruct (Z.eqb_spec (socket_bufsize (settings test)) 0); [by left|right]; cbn in *; bool_to_prop; lia.
Qed.

Lemma wp_check_listener test sk q cont Q k :
  q ≠ Get_SO_ERROR → owns (<[s := sk]> fds) ais bad k → fds !! s = None →
  (∀ e k', owns fds ais bad k' → e = IESETBUF ∨ e = IESETBUF2 → Q (failed test e) k') →
  (∀ v k', socket_bufsize (settings test) = 0 ∨ socket_bufsize (settings test) ≤ v →
     owns (<[s := sk]> fds) ais bad k' → wp (cont v) Q k') →
  wp (check_buffer test s None q cont) Q k.
Proof.
  intros Hq Hk Hs Hno Hok. unfold check_buffer, on. destruct q; [done|..].
  all: sys_steps; [by apply Hno; [|right]| |by apply Hno; [apply owns_errno|left]].
  all: apply Hok; [|done]; destruct (Z.eqb_spec (socket_bufsize (settings test)) 0); [by left|right]; cbn in *; bool_to_prop; lia.
Qed.

Lemma wp_set_flowlabel test sk p ai cont Q k :
  owns (<[s := sk]> fds) (<[p := ai]> ais) bad k → fds !! s = None → ais !! p = None →
  (∀ k', owns fds ais bad k' → Q (failed test IESETFLOW) k') →
  (∀ k', owns (<[s := with_calls (flow_calls test) sk]> fds)
              (<[p := mk_addrinfo (ai_family ai) (flow_addr test (ai_addr ai)) (ai_next ai)]> ais) bad k' →
     wp cont Q k') →
  wp (set_flowlabel test s p cont) Q k.
Proof.
  intros Hk Hs Hp Hno Hok. unfold set_flowlabel. unfold flow_calls, flow_addr in Hok.
  destruct (on (flowlabel (settings test))).
  - sys_steps; [by apply Hno, owns_errno|].
    eapply wp_required; [done..|by intros; apply Hno|]. intros k1 Hk1. apply wp_bind.
    eapply wp_set_flowinfo; [done|]. intros k2 Hk2.
    eapply wp_required; [done..|by intros; apply Hno|]. intros k3 Hk3. rewrite with_calls_app in Hk3.
    by apply Hok.
  - apply Hok. cbn [option_call app]. rewrite with_calls_nil. by destruct ai.
Qed.

(** A write on a new connection: a prefix leaves, or an error comes back. *)
Lemma wp_first_write sk buf Q k :
  owns (<[s := sk]> fds) ais bad k → sent (sk_data sk) = [] → (length buf ≤ 37)%nat →
  (∀ r w n k', sent w = take n buf → owns (<[s := sk <| sk_data := w |>]> fds) ais bad k' → Q r k') →
  wp (on_data s (fun w => Nwrite w buf)) Q k.
Proof.
  intros Hk Hw Hl HQ. eapply wp_on_data; [done|].
  destruct (Nwrite_prefix (sk_data sk) buf ltac:(lia)) as (r & w & n & Hr & Hsent & _).
  exists r, w. split; [done|]. intros k' Hk'. eapply (HQ r w n); [|done]. by rewrite Hsent, Hw.
Qed.

Lemma same_cookie t t' : same_but_errno t t' → cookie t' = cookie t.
Proof. by intros [->|[e ->]]. Qed.

(** The end of [iperf_tcp_connect]: connected and introduced by (a part of) the
    cookie, or nothing is left. *)
Lemma wp_finish_connect test sk p ai Q k :
  owns (<[s := sk]> fds) (<[p := ai]> ais) bad k → fds !! s = None → ais !! p = None →
  sent (sk_data sk) = [] → 0 ≤ s →
  (∀ t e k', owns fds ais bad k' → same_but_errno test t → e = IESTREAMCONNECT ∨ e = IESENDCOOKIE →
     Q (failed t e) k') →
  (∀ t l c w n k', same_but_errno test t → l `sublist_of` best_effort test →
     c = Connected (ai_addr ai) ∨ c = Pending (ai_addr ai) →
     sent w = take n (take COOKIE_SIZE (cookie test)) →
     owns (<[s := (with_calls l sk) <| sk_peer := c |> <| sk_data := w |>]> fds) ais bad k' →
     Q (s, t) k') →
  wp (finish_connect test s p) Q k.
Proof.
  intros Hk Hs Hp Hw Hpos Hno Hok. unfold finish_connect. apply wp_bind.
  eapply wp_fq_pacing; [done|]. intros l1 k1 Hl1 Hk1. apply wp_bind.
  eapply wp_common_sockopts; [done|]. intros l2 r t k2 Hl2 Ht Hk2.
  rewrite with_calls_app in Hk2. 
  assert (l1 ++ l2 `sublist_of` best_effort test) as Hl.
  { rewrite <- (take_drop 1 (best_effort test)). by apply sublist_app. }
  sys_steps.
  1,2: eapply wp_first_write; [done|done|rewrite length_take; unfold COOKIE_SIZE; lia|];
       intros r' w n k9 Hn Hk9; sys_steps.
  5: by apply Hno; [apply owns_errno| |left].
  1,3: by apply Hno; [apply owns_errno| |right].
  1: eapply Hok; [done|done|by left| |done]. 2: eapply Hok; [done|done|by right| |done].
  all: by rewrite Hn, (same_cookie _ _ Ht).
Qed.
End Rules.

(** ** The listener *)

Definition tcp_v6only_call (domain family : Z) : list sockcall :=
  option_call ((family =? AF_INET6) && ((domain =? AF_UNSPEC) || (domain =? AF_INET)))
    (IPV6_V6ONLY (if domain =? AF_UNSPEC then 0 else 1)).

Definition listener_sock (test : iperf_test) (ai : addrinfo) (w : os) : sock :=
  mk_sock (ai_family ai) SOCK_STREAM (stream_proto test) 0
    (tcp_calls test ++ [Set_option (SO_REUSEADDR 1)] ++
     tcp_v6only_call (domain (cmdline test)) (ai_family ai) ++ [Bound (ai_addr ai); Listening INT_MAX])
    Unconnected w.

(** The address a listener is bound to. *)
Definition listen_address (resolve : hosts) (test : iperf_test) : Z + addrinfo :=
  let c := cmdline test in
  resolve (bind_address c) (Some (portstr (server_port test)))
    (mk_hints (listen_family (domain c) (bind_address c)) SOCK_STREAM true).

Section Listen_rules.
Context (resolve : hosts) (fds : gmap Z sock) (ais : gmap positive addrinfo) (bad : list Z).

Lemma wp_check_buffers s sk test Q k :
  owns (<[s := sk]> fds) ais bad k → fds !! s = None →
  (∀ e k', owns fds ais bad k' → Q (failed test e) k') →
  (∀ snd rcv k', owns (<[s := sk]> fds) ais bad k' → Q (s, report_buffers add_number snd rcv test) k') →
  wp (check_buffers s test) Q k.
Proof.
  intros Hk Hs Hno Hok. unfold check_buffers.
  do 2 (eapply wp_check_listener; [done|eassumption..|intros; by apply Hno|intros ? ? ? ?]).
  apply wp_ret. by apply Hok.
Qed.

Lemma wp_new_listener test cont Q k :
  owns fds ais bad k →
  (∀ e k', owns fds ais bad k' → Q (failed test e) k') →
  (∀ s ai w k', 0 ≤ s → fds !! s = None → listen_address resolve test = inr ai →
     owns (<[s := listener_sock test ai w]> fds) ais bad k' → wp (cont s (test <| listener := s |>)) Q k') →
  wp (new_listener resolve test cont) Q k.
Proof.
  intros Hk Hno Hok. unfold new_listener. sys_steps; [by apply Hno| |by apply Hno].
  do 6 (eapply wp_required; [eassumption..|intros; by apply Hno|intros ? ?]).
  unfold or_close. sys_steps; [|by apply Hno|by apply Hno, owns_errno].
  eapply Hok; [done|done|done|].
  match goal with H : owns (<[_ := ?x]> _) _ _ ?k |- owns (<[_ := ?y]> _) _ _ ?k => replace y with x; [exact H|] end.
  rewrite !did_with_calls, !with_calls_app.
  assert (∀ l f t p w, with_calls l (mk_sock f t p 0 [] Unconnected w) = mk_sock f t p 0 l Unconnected w) as -> by done.
  unfold listener_sock, tcp_calls, buffer_calls, tcp_v6only_call. f_equal.
  by rewrite <- !app_assoc.
Qed.
End Listen_rules.

(** ** Properties *)

Definition tcp_connect_errors : list Z :=
  [IESTREAMCONNECT; IESETNODELAY; IESETMSS; IESETBUF; IESETBUF2; IESETUSERTIMEOUT; IESETFLOW; IESENDCOOKIE].

(** A client's stream socket: the calls made on it, its peer, and the cookie. *)
Definition client_stream (resolve : hosts) (test : iperf_test) (sk : sock) : Prop :=
  ∃ ai l n,
    let c := cmdline test in
    resolve (server_hostname c) (Some (portstr (server_port test)))
      (mk_hints (domain c) SOCK_STREAM false) = inr ai ∧
    sk_family sk = ai_family ai ∧ sk_type sk = SOCK_STREAM ∧ sk_proto sk = stream_proto test ∧
    sk_calls sk = device_call (bind_dev c) ++
      local_call resolve (domain c) SOCK_STREAM (bind_address c) (bind_port test) (ai_family ai) ++
      tcp_calls test ++ timeout_call test ++ flow_calls test ++ l ∧
    l `sublist_of` best_effort test ∧
    (sk_peer sk = Connected (flow_addr test (ai_addr ai)) ∨ sk_peer sk = Pending (flow_addr test (ai_addr ai))) ∧
    sent (sk_data sk) = take n (take COOKIE_SIZE (cookie test)).

Lemma report_buffers_same add sndbuf rcvbuf test :
  let t := report_buffers add sndbuf rcvbuf test in
  flow_calls t = flow_calls test ∧ best_effort t = best_effort test ∧ cookie t = cookie test ∧
  flow_addr t = flow_addr test ∧ listener t = listener test.
Proof. unfold report_buffers. by case_goal. Qed.


(** [iperf_tcp_listen] with a listener that is open: on success the result is
    an open listening socket, which is [test->listener]: the one there was or,
    when an option asks for it, one made anew with these options in place of
    the old; on every failure the old listener is closed, nothing else is left
    open, but [test->listener] still names a descriptor, which is not open any
    more (and which [cleanup_server] is going to close again). *)
Lemma wp_tcp_listen resolve test k sk :
  open_fds k !! listener test = Some sk → 0 ≤ listener test →
  wp (iperf_tcp_listen resolve test)
    (fun '(s, t) k' =>
       let old := open_fds k in
       let rest := delete (listener test) old in
       (s = -1 ∧ owns rest (infos k) (bad_fds k) k' ∧ 0 ≤ listener t ∧ open_fds k' !! listener t = None) ∨
       (0 ≤ s ∧ listener t = s ∧
        if relisten test then
          ∃ ai w, listen_address resolve test = inr ai ∧ rest !! s = None ∧
                  owns (<[s := listener_sock test ai w]> rest) (infos k) (bad_fds k) k'
        else unchanged k k')) k.
Proof.
  intros Hsk Hpos.
  assert (owns (<[listener test := sk]> (delete (listener test) (open_fds k))) (infos k) (bad_fds k) k) as Hk.
  { rewrite insert_delete_id by done. apply owns_self. }
  unfold iperf_tcp_listen. destruct (relisten test).
  - apply wp_bind. eapply wp_close; [exact Hk|apply lookup_delete_eq|]. intros k1 Hk1.
    eapply wp_new_listener; [exact Hk1| |].
    + intros e k' Hk'. left. split_and!; [done|exact Hk'|done|]. destruct Hk' as (-> & _). apply lookup_delete_eq.
    + intros s ai w k2 Hs Hfree Ha Hk2. eapply wp_check_buffers; [exact Hk2|exact Hfree| |].
      * intros e k' Hk'. left. split_and!; [done|exact Hk'|done|]. by destruct Hk' as (-> & _).
      * intros snd rcv k' Hk'. right. split_and!; [done| |by exists ai, w].
        by destruct (report_buffers_same add_number snd rcv
          ((test <| read_set ::= (fun x => x ∖ {[listener test]}) |>) <| listener := s |>)) as (_ & _ & _ & _ & ->).
  - eapply wp_check_buffers; [exact Hk|apply lookup_delete_eq| |].
    + intros e k' Hk'. left. split_and!; [done|exact Hk'|done|]. destruct Hk' as (-> & _). apply lookup_delete_eq.
    + intros snd rcv k' Hk'. right. rewrite insert_delete_id in Hk' by done.
      split_and!; [done| |exact Hk'].
      by destruct (report_buffers_same add_number snd rcv test) as (_ & _ & _ & _ & ->).
Qed.

(** [iperf_tcp_listen], called with an open listener: on success the result
    is an open listening socket and is [test->listener], the one there was or,
    when an option asks for it, one made anew with these options in place of
    the old; on every failure the old listener is closed, nothing else is left
    open, but [test->listener] still names a descriptor, which is not open any
    more (and which [cleanup_server] is going to close again). *)
Theorem tcp_listen_outcome resolve test k sk :
  open_fds k !! listener test = Some sk → 0 ≤ listener test →
  ∃ s t k', iperf_tcp_listen resolve test k = Ok ((s, t), k') ∧
    let rest := delete (listener test) (open_fds k) in
    ((s = -1 ∧ owns rest (infos k) (bad_fds k) k' ∧ 0 ≤ listener t ∧ open_fds k' !! listener t = None) ∨
     (0 ≤ s ∧ listener t = s ∧
      if relisten test then
        ∃ ai w, listen_address resolve test = inr ai ∧ rest !! s = None ∧
                owns (<[s := listener_sock test ai w]> rest) (infos k) (bad_fds k) k'
      else unchanged k k')).
Proof.
  intros Hsk Hpos. destruct (wp_tcp_listen resolve test k sk Hsk Hpos) as ([s t] & k' & Hr & HQ).
  by exists s, t, k'.
Qed.

(** the listener [iperf_tcp_listen] makes anew under [-6] also takes IPv4
    connections: no socket it returns was restricted to IPv6, while the one of
    [netannounce], which its comment refers to, always is (the test of the
    family asks for [AF_INET] where that of [netannounce] asks for [AF_INET6]). *)
Theorem tcp_listen_not_v6only resolve test k sk s t k' :
  open_fds k !! listener test = Some sk → 0 ≤ listener test →
  relisten test = true → domain (cmdline test) = AF_INET6 →
  iperf_tcp_listen resolve test k = Ok ((s, t), k') → 0 ≤ s →
  (∃ sk', open_fds k' !! s = Some sk' ∧ ∀ v, Set_option (IPV6_V6ONLY v) ∉ sk_calls sk') ∧
  ∀ dev ai w, ai_family ai = AF_INET6 →
    Set_option (IPV6_V6ONLY 1) ∈ sk_calls (announced AF_INET6 SOCK_STREAM dev ai w).
Proof.
  intros Hsk Hpos Hre Hd Hr Hs. split.
  - pose proof (wp_run _ _ _ _ _ (wp_tcp_listen resolve test k sk Hsk Hpos) Hr) as [[-> _]|(_ & _ & Hl)]; [lia|].
    rewrite Hre in Hl. destruct Hl as (ai & w & _ & _ & (-> & _)).
    eexists. split; [apply lookup_insert_eq|]. intros v. unfold listener_sock. cbn [sk_calls].
    rewrite Hd. unfold tcp_v6only_call, tcp_calls, buffer_calls, option_call.
    replace ((AF_INET6 =? AF_UNSPEC) || (AF_INET6 =? AF_INET)) with false by done. rewrite andb_false_r.
    rewrite !elem_of_app. intros Hin.
    repeat match goal with
    | H : _ ∨ _ |- _ => destruct H
    | H : _ ∈ (if ?b then _ else _) |- _ => destruct b
    | H : _ ∈ [] |- _ => by apply elem_of_nil in H
    | H : _ ∈ _ :: _ |- _ => apply elem_of_cons in H
    | H : Set_option _ = _ |- _ => discriminate H
    end.
  - intros dev ai w Ha. unfold announced, v6only_call. cbn [sk_calls]. rewrite Ha.
    rewrite !elem_of_app. right. right. left. by left.
Qed.

(** [iperf_tcp_accept] with an open listener. *)
Lemma wp_tcp_accept test k lsk :
  open_fds k !! listener test = Some lsk → sk_type lsk = SOCK_STREAM →
  wp (iperf_tcp_accept test)
    (fun '(s, t) k' =>
       (s = -1 ∧ unchanged k k' ∧ (i_errno t = IESTREAMCONNECT ∨ i_errno t = IERECVCOOKIE)) ∨
       (0 ≤ s ∧ open_fds k !! s = None ∧ t = test ∧
        (unchanged k k' ∨
         ∃ sk got, one_more k s sk k' ∧ sk_type sk = SOCK_STREAM ∧
           strncmp_equal (cookie test) (overlay got (replicate COOKIE_SIZE NUL)) COOKIE_SIZE = true))) k.
Proof.
  intros Hl Ht. unfold iperf_tcp_accept. apply wp_bind. eapply wp_accept; [apply owns_self|exact Hl| |].
  2: { intros k' Hk'. cbn. apply wp_ret. left. by split_and!; [| |left]. }
  intros s addr w k1 Hs Hfree Hw Hd Hk1. rewrite Ht in *. ztest. apply wp_bind.
  eapply wp_fq_pacing; [exact Hk1|]. intros l k2 _ Hk2. apply wp_bind.
  eapply wp_on_data; [exact Hk2|].
  destruct (Nrecv_reads_stream w COOKIE_SIZE ltac:(done) Hd) as (rc & w' & Hr & _).
  exists rc, w'. split; [exact Hr|]. intros k3 Hk3.
  destruct (ret rc <? 0) eqn:Er.
  { sys_steps. left. by split_and!; [| |right]. }
  destruct (strncmp_equal _ _ _) eqn:Ec.
  { apply wp_ret. right. split_and!; [done..|]. right. eexists _, (filled rc). split; [split_and!; [done|done|exact Hk3]|]. done. }
  apply wp_bind. eapply wp_on_data; [exact Hk3|].
  match goal with |- ∃ a w, Nwrite ?u ?b = _ ∧ _ => destruct (Nwrite_prefix u b ltac:(done)) as (r & w2 & n & Hwr & _) end.
  exists r, w2. split; [exact Hwr|]. intros k4 Hk4. sys_steps. right. split_and!; [done..|]. by left.
Qed.

(** On a descriptor that was closed (a connection without the cookie) a type of
    service cannot be set: the server, which asks for the options before it
    looks whether the connection is closed, takes that for an error of the test. *)
Lemma common_sockopts_closed test s k :
  tos (settings test) ≠ 0 → open_fds k !! s = None →
  ∃ k', iperf_common_sockopts test s k = Ok (failed test IESETTOS, k').
Proof.
  intros Ht Hs. unfold iperf_common_sockopts, on. rewrite (proj2 (Z.eqb_neq _ _)) by done. cbn [negb].
  unfold getsockdomain, os_getsockname, os_setsockopt, on_fd, mbind, sys_bind, mret, sys_ret. rewrite Hs. cbn.
  rewrite Hs. cbn. by eexists.
Qed.

Lemma os_accept_answer k l lsk a rest :
  open_fds k !! l = Some lsk → script k = a :: rest → an_errno a = 0 →
  let s := pick_fd (an_value a) (open_fds k) in
  os_accept l k = Ok (s, k <| script := rest |> <| open_fds ::= insert s
    (mk_sock (sk_family lsk) (sk_type lsk) (sk_proto lsk) 0 [] (Connected (an_addr a))
       (unused (sk_type lsk) (an_data a))) |>).
Proof.
  intros Hl Hs He. unfold os_accept, on_fd. rewrite Hl. unfold answered, next, mbind, sys_bind. rewrite Hs. cbn.
  by rewrite He.
Qed.

(** C34: the stream listener of a server lets in the clients that know the cookie:
    when a connection is there and 37 bytes arrive on it in time,
    [iperf_tcp_accept] returns its descriptor, and the connection is open, with
    the bytes behind the cookie still to be read, if these bytes are the
    cookie of the test; if they are not, it has been closed, although its
    number is returned. *)
Theorem tcp_accept_checks_cookie v test k lsk a rest c more :
  open_fds k !! listener test = Some lsk → sk_type lsk = SOCK_STREAM → fqrate (settings test) = 0 →
  script k = a :: rest → an_errno a = 0 →
  prompt v (S COOKIE_SIZE) (unused SOCK_STREAM (an_data a)) →
  flat (reads (an_data a)) = c ++ more → length c = COOKIE_SIZE →
  ∃ s k', iperf_tcp_accept test k = Ok ((s, test), k') ∧ 0 ≤ s ∧ open_fds k !! s = None ∧
    if strncmp_equal (cookie test) c COOKIE_SIZE
    then ∃ sk, one_more k s sk k' ∧ flat (reads (sk_data sk)) = more
    else unchanged k k'.
Proof.
  intros Hl Ht Hfq Hs He Hp Hf Hc.
  destruct (pick_fd_free (an_value a) (open_fds k)) as [Hpos Hfree].
  set (s := pick_fd (an_value a) (open_fds k)) in *.
  destruct (Nread_complete v 0 (unused SOCK_STREAM (an_data a)) COOKIE_SIZE) as (w & Hr & _ & Hw);
    [done|by rewrite Nat.add_0_r|cbn -[COOKIE_SIZE]; rewrite Hf, length_app; lia|].
  cbn [unused reads] in Hr, Hw. change (reads (unused SOCK_STREAM (an_data a))) with (reads (an_data a)) in Hr, Hw.
  rewrite Hf, <- Hc in Hr. rewrite take_app_length in Hr.
  rewrite Hf, <- Hc in Hw. rewrite drop_app_length in Hw.
  assert (wp (iperf_tcp_accept test) (fun '(s', t) k' => s' = s ∧ t = test ∧
    if strncmp_equal (cookie test) c COOKIE_SIZE
    then ∃ sk, one_more k s sk k' ∧ flat (reads (sk_data sk)) = more else unchanged k k') k)
    as ([s' t] & k' & Hrun & -> & -> & HQ); [|by exists s, k'].
  unfold iperf_tcp_accept. apply wp_bind.
  exists s. eexists. split; [apply os_accept_answer; [exact Hl|exact Hs|exact He]|]. fold s. cbv beta. ztest.
  match goal with |- wp _ _ ?u => set (k1 := u) end.
  assert (owns (<[s := mk_sock (sk_family lsk) (sk_type lsk) (sk_proto lsk) 0 [] (Connected (an_addr a))
                  (unused (sk_type lsk) (an_data a))]> (open_fds k)) (infos k) (bad_fds k) k1) as Hk1 by done.
  rewrite Ht in Hk1. clearbody k1. unfold fq_pacing, on. rewrite Hfq. cbn [Z.eqb negb andb set_if]. sys_steps.
  eapply wp_on_data; [exact Hk1|]. eexists _, w. split; [rewrite <- Hc; exact Hr|]. intros k2 Hk2.
  cbn [ret filled]. ztest.
  replace (overlay c (replicate COOKIE_SIZE NUL)) with c
    by (unfold overlay; by rewrite drop_ge, app_nil_r by (rewrite length_replicate; lia)).
  destruct (strncmp_equal (cookie test) c COOKIE_SIZE).
  - apply wp_ret. split_and!; [done..|]. eexists. split; [split_and!; [done|done|exact Hk2]|exact Hw].
  - apply wp_bind. eapply wp_on_data; [exact Hk2|].
    match goal with |- ∃ a w, Nwrite ?u ?b = _ ∧ _ => destruct (Nwrite_prefix u b ltac:(done)) as (r & w2 & n & Hwr & _) end.
    exists r, w2. split; [exact Hwr|]. intros k4 Hk4. sys_steps. by split_and!.
Qed.

(** C35: a TCP stream's two counters agree: however the bytes are cut up on their
    way (blocks that leave in pieces, with or without [sendfile], reads of any
    length), if every call of the sender and of the receiver succeeds and the
    receiver has taken all that the sender put on the connection, then the
    receiver has counted as many bytes as the sender (modulo the width of the
    counters).  Neither side leaves its buffer. *)
Theorem tcp_counters_agree n m file ts tr sps spr ws wr sps' ws' spr' wr' :
  can_send file ts sps → can_recv tr spr wr →
  rs_bytes_sent (sp_result sps) = 0 → rs_bytes_received (sp_result spr) = 0 → sent ws = [] →
  tcp_sends n file ts sps ws = Ok (sps', ws') → tcp_recvs m tr spr wr = Ok (spr', wr') →
  flat (reads wr) = sent ws' → flat (reads wr') = [] →
  u64 (rs_bytes_received (sp_result spr')) = u64 (rs_bytes_sent (sp_result sps')).
Proof.
  intros Hs Hr Hs0 Hr0 Hw0 Hsend Hrecv Hall Hend.
  destruct (tcp_sends_run n file ts sps ws Hs) as [E|(sp1 & w1 & d & E & Hd & Hb)]; [congruence|].
  destruct (tcp_recvs_run m tr spr wr Hr) as [E'|(sp2 & w2 & d' & E' & Hd' & Hb')]; [congruence|].
  rewrite Hsend in E. rewrite Hrecv in E'. simplify_eq. rewrite Hb, Hb', Hs0, Hr0.
  rewrite Hw0 in Hd. rewrite Hend, app_nil_r in Hd'. cbn in Hd. congruence.
Qed.

(** ** The control connection *)

Section Keepalive.
Context (fds : gmap Z sock) (ais : gmap positive addrinfo) (bad : list Z) (s : Z).

Lemma wp_ka_value sk given q test e cont Q k :
  q ≠ Get_SO_ERROR → owns (<[s := sk]> fds) ais bad k →
  (∀ k', owns (<[s := sk]> fds) ais bad k' → Q (failed test e) k') →
  (∀ v k', owns (<[s := sk]> fds) ais bad k' → wp (cont v) Q k') →
  wp (ka_value s given q test e cont) Q k.
Proof.
  intros Hq Hk Hno Hok. unfold ka_value. destruct (on given); [by apply Hok|].
  apply wp_bind. eapply wp_getsockopt; [done|done| |]; intros; cbn; [by apply Hok|apply wp_ret; by apply Hno].
Qed.

Lemma wp_ka_set sk given o test e cont Q k :
  owns (<[s := sk]> fds) ais bad k →
  (∀ k', owns (<[s := sk]> fds) ais bad k' → Q (failed test e) k') →
  (∀ k', owns (<[s := with_calls (option_call (on given) o) sk]> fds) ais bad k' → wp cont Q k') →
  wp (ka_set s given o test e cont) Q k.
Proof.
  intros Hk Hno Hok. unfold ka_set. apply wp_bind.
  eapply wp_set_if; [done|intros k' Hk'; cbn; by apply Hok|intros; cbn; apply wp_ret; by apply Hno].
Qed.
End Keepalive.

(** The options of a kept-alive connection, those that are given. *)
Definition ka_calls (c : iperf_cmdline) : list sockcall :=
  if on (cntl_ka c) then
    Set_option (SO_KEEPALIVE 1) ::
    option_call (on (cntl_ka_keepidle c)) (TCP_KEEPIDLE (cntl_ka_keepidle c)) ++
    option_call (on (cntl_ka_interval c)) (TCP_KEEPINTVL (cntl_ka_interval c)) ++
    option_call (on (cntl_ka_count c)) (TCP_KEEPCNT (cntl_ka_count c))
  else [].

(** [iperf_set_control_keepalive] never closes the control connection; when it
    succeeds, the connection has exactly the options that were given, in their
    order, and when it fails, the first of them. *)
Lemma keepalive_sets_options test k sk :
  open_fds k !! ctrl_sck test = Some sk →
  wp (iperf_set_control_keepalive test)
    (fun '(r, t) k' => ∃ l, owns (<[ctrl_sck test := with_calls l sk]> (open_fds k)) (infos k) (bad_fds k) k' ∧
       (r = 0 ∧ t = test ∧ l = ka_calls (cmdline test) ∨ r = -1 ∧ l `prefix_of` ka_calls (cmdline test))) k.
Proof.
  intros Hs.
  assert (owns (<[ctrl_sck test := sk]> (open_fds k)) (infos k) (bad_fds k) k) as H0 by (by rewrite insert_id).
  generalize dependent (open_fds k). generalize (infos k) (bad_fds k). intros ais bad fds _ H0.
  unfold iperf_set_control_keepalive, ka_calls. set (c := cmdline test).
  destruct (on (cntl_ka c)).
  2: { apply wp_ret. exists []. rewrite with_calls_nil. split; [done|by left]. }
  set (l0 := [Set_option (SO_KEEPALIVE 1)]).
  set (l1 := option_call _ (TCP_KEEPIDLE _)). set (l2 := option_call _ (TCP_KEEPINTVL _)). set (l3 := option_call _ (TCP_KEEPCNT _)).
  change (Set_option (SO_KEEPALIVE 1) :: l1 ++ l2 ++ l3) with (l0 ++ l1 ++ l2 ++ l3).
  assert (∀ l r t k', l `prefix_of` (l0 ++ l1 ++ l2 ++ l3) → r = -1 →
    owns (<[ctrl_sck test := with_calls l sk]> fds) ais bad k' →
    ∃ l', owns (<[ctrl_sck test := with_calls l' sk]> fds) ais bad k' ∧
       (r = 0 ∧ t = test ∧ l' = l0 ++ l1 ++ l2 ++ l3 ∨ r = -1 ∧ l' `prefix_of` (l0 ++ l1 ++ l2 ++ l3))) as Hfail.
  { intros l r t k' Hl Hr Hk'. exists l. split; [done|by right]. }
  assert (l0 `prefix_of` (l0 ++ l1 ++ l2 ++ l3)) as P0 by by apply prefix_app_r.
  assert ((l0 ++ l1) `prefix_of` (l0 ++ l1 ++ l2 ++ l3)) as P1 by (rewrite app_assoc; by apply prefix_app_r).
  assert ((l0 ++ l1 ++ l2) `prefix_of` (l0 ++ l1 ++ l2 ++ l3)) as P2 by (rewrite !app_assoc; by apply prefix_app_r).
  apply wp_bind. eapply wp_noted; [exact H0| |].
  2: { intros k1 Hk1 _. cbn. apply wp_ret. eapply (Hfail []); [apply prefix_nil|done|by rewrite with_calls_nil]. }
  intros k1 Hk1. rewrite did_with_calls in Hk1. fold l0 in Hk1. cbn [on Z.eqb negb].
  eapply wp_ka_value; [done|exact Hk1|intros; by eapply (Hfail l0)|]. intros v1 k2 Hk2.
  eapply wp_ka_value; [done|exact Hk2|intros; by eapply (Hfail l0)|]. intros v2 k3 Hk3.
  eapply wp_ka_value; [done|exact Hk3|intros; by eapply (Hfail l0)|]. intros v3 k4 Hk4. cbv beta.
  case_goal; [apply wp_ret; by eapply (Hfail l0)|].
  eapply wp_ka_set; [exact Hk4|intros; by eapply (Hfail l0)|]. intros k5 Hk5. rewrite with_calls_app in Hk5.
  eapply wp_ka_set; [exact Hk5|intros; by eapply (Hfail (l0 ++ l1))|]. intros k6 Hk6. rewrite with_calls_app, <- app_assoc in Hk6.
  eapply wp_ka_set; [exact Hk6|intros; by eapply (Hfail (l0 ++ l1 ++ l2))|]. intros k7 Hk7.
  rewrite with_calls_app, <- !app_assoc in Hk7. apply wp_ret. eexists. split; [exact Hk7|by left].
Qed.

(** ** Concrete runs *)

(** A resolver that knows one address of each family. *)
Definition sample_resolve : hosts := fun _ _ h =>
  let family := if hint_family h =? AF_UNSPEC then AF_INET6 else hint_family h in
  inr (mk_addrinfo family (mk_sockaddr family 5201 (any_host family) 0) []).

Definition sample_listener : sock :=
  mk_sock AF_INET6 SOCK_STREAM 0 0 [Listening INT_MAX] Unconnected no_data.

Definition sample_kernel (l : list answer) : kernel :=
  mk_kernel {[3 := sample_listener]} ∅ 0 0 [] l.

(** A server started with [-6] whose client asks for no delay. *)
Definition sample_server : iperf_test :=
  on_cmdline (fun c => c <| domain := AF_INET6 |>)
    ((iperf_defaults false iperf_new_test) <| listener := 3 |> <| no_delay := 1 |>).

Lemma tcp_listen_outcome_witness :
  ∃ s t k', iperf_tcp_listen sample_resolve sample_server (sample_kernel []) = Ok ((s, t), k') ∧
    let rest := delete 3 (open_fds (sample_kernel [])) in
    ((s = -1 ∧ owns rest ∅ [] k' ∧ 0 ≤ listener t ∧ open_fds k' !! listener t = None) ∨
     (0 ≤ s ∧ listener t = s ∧
      if relisten sample_server then
        ∃ ai w, listen_address sample_resolve sample_server = inr ai ∧ rest !! s = None ∧
                owns (<[s := listener_sock sample_server ai w]> rest) ∅ [] k'
      else unchanged (sample_kernel []) k')).
Proof.
  apply (tcp_listen_outcome sample_resolve sample_server (sample_kernel []) sample_listener);
    [vm_compute; reflexivity|vm_compute; congruence].
Defined.

Lemma tcp_listen_not_v6only_witness :
  let k := sample_kernel [] in
  match iperf_tcp_listen sample_resolve sample_server k with
  | Ok ((s, _), k') => ∃ sk', open_fds k' !! s = Some sk' ∧ ∀ v, Set_option (IPV6_V6ONLY v) ∉ sk_calls sk'
  | _ => False
  end.
Proof.
  intros k.
  set (r := iperf_tcp_listen sample_resolve sample_server k).
  assert (∃ s t k', r = Ok ((s, t), k') ∧ 0 ≤ s) as (s & t & k' & Hr & Hs).
  { eexists _, _, _. split; [vm_compute; reflexivity|vm_compute; congruence]. }
  rewrite Hr.
  refine (proj1 (tcp_listen_not_v6only sample_resolve sample_server k sample_listener s t k' _ _ _ _ Hr Hs));
    vm_compute; congruence.
Defined.

Definition sample_cookie : bytes := replicate 36 "c"%char ++ [NUL].

Definition sample_connection (c : bytes) : answer :=
  mk_answer 0 5 (mk_sockaddr AF_INET6 40000 [] 0)
    (mk_os false [Data (take 20 c); Data (drop 20 c ++ B "more")] [Accept 1] (replicate 40 1)
       (replicate 40 (mk_time 5 0)) []).

Lemma tcp_accept_checks_cookie_witness :
  let t := sample_server <| cookie := sample_cookie |> in
  let k := sample_kernel [sample_connection sample_cookie] in
  ∃ s k', iperf_tcp_accept t k = Ok ((s, t), k') ∧ 0 ≤ s ∧ open_fds k !! s = None ∧
    if strncmp_equal (cookie t) sample_cookie COOKIE_SIZE
    then ∃ sk, one_more k s sk k' ∧ flat (reads (sk_data sk)) = B "more"
    else unchanged k k'.
Proof.
  intros t k.
  apply (tcp_accept_checks_cookie 5000000 t k sample_listener (sample_connection sample_cookie) []);
    [vm_compute; reflexivity..| | |].
  - split; [done|repeat constructor|split; [done|decided]|vm_compute; split; congruence|].
    split; [vm_compute; repeat constructor|vm_compute; lia].
  - vm_compute. reflexivity.
  - vm_compute. reflexivity.
Defined.

Definition sample_tcp (b : bytes) : iperf_stream := sample_stream <| sp_buffer := b |>.

Lemma tcp_counters_agree_witness :
  let t := on_settings (fun s => s <| blksize := 8 |>) ((iperf_defaults false iperf_new_test) <| state := TEST_RUNNING |>) in
  let ws := mk_os false [] [Accept 3; Accept 9; Accept 5; Accept 9] [] [] [] in
  let wr := mk_os false [Data (B "iperf3ipip"); Data (B "erf3ip")] [] [] [] [] in
  match tcp_sends 2 [] t (sample_tcp (B "iperf3iper")) ws, tcp_recvs 2 t (sample_tcp (B "0123456789")) wr with
  | Ok (sps, _), Ok (spr, _) => u64 (rs_bytes_received (sp_result spr)) = u64 (rs_bytes_sent (sp_result sps))
  | _, _ => False
  end.
Proof.
  intros t ws wr.
  assert (∃ sps ws', tcp_sends 2 [] t (sample_tcp (B "iperf3iper")) ws = Ok (sps, ws') ∧
                     sent ws' = B "iperf3ipiperf3ip") as (sps & ws' & Hs & Hw)
    by (eexists _, _; split; vm_compute; reflexivity).
  assert (∃ spr wr', tcp_recvs 2 t (sample_tcp (B "0123456789")) wr = Ok (spr, wr') ∧
                     flat (reads wr') = []) as (spr & wr' & Hr & Hw')
    by (eexists _, _; split; vm_compute; reflexivity).
  rewrite Hs, Hr.
  refine (tcp_counters_agree 2 2 [] t t _ _ ws wr sps ws' spr wr' _ _ _ _ _ Hs Hr _ Hw');
    [vm_compute; intuition congruence..|vm_compute; reflexivity|vm_compute; reflexivity|vm_compute; reflexivity|].
  rewrite Hw. vm_compute. reflexivity.
Defined.
