(* ===== verification/Sctp.v ===== *)
(** * SCTP streams ([src/iperf_sctp.c])

    The transfers of a stream and the set-up of its sockets, with the addresses
    of [-X], as programs over the kernel of [Kernel.v]; the build has
    [HAVE_SCTP_H] and [HAVE_STRUCT_SCTP_ASSOC_VALUE].  Unlike their TCP
    counterparts the set-up routines do not give everything back on each of
    their error paths: the theorems say what each of them leaves. *)

From S2P Require Import Prelude Errno CInt CDouble CStdio IperfTime Json JsonBuild Net Test Udp Kernel Sockets Tcp.

Definition IPPROTO_SCTP : Z := 132.
Definition ENOPROTOOPT : Z := 92.

(** ** Transfers *)

Definition iperf_sctp_recv (test : iperf_test) (sp : iperf_stream) (w : os) : outcome (Z * iperf_stream * os) :=
  let size := blksize (settings test) in
  if decide (Z.of_nat (length (sp_buffer sp)) < size) then Undef
  else
    '(rc, w) ← Nread_no_select w (Z.to_nat size);
    let sp := sp <| sp_buffer ::= overlay (filled rc) |> in
    let r := ret rc in
    if r <? 0 then Ok (r, sp, w)
    else if state test =? TEST_RUNNING then
      Ok (r, on_result (fun x => x <| rs_bytes_received ::= fun b => u64 (b + r) |>
                                   <| rs_bytes_received_this_interval ::= fun b => u64 (b + r) |>) sp, w)
    else Ok (r, sp, w).

Definition iperf_sctp_send (test : iperf_test) (sp : iperf_stream) (w : os) : outcome (Z * iperf_stream * os) :=
  let n := Z.to_nat (blksize (settings test)) in
  if decide (length (sp_buffer sp) < n)%nat then Undef
  else
    '(r, w) ← Nwrite w (take n (sp_buffer sp));
    if r <? 0 then Ok (r, sp, w)
    else Ok (r, on_result (fun x => x <| rs_bytes_sent ::= fun b => u64 (b + r) |>
                                      <| rs_bytes_sent_this_interval ::= fun b => u64 (b + r) |>) sp, w).

(** Receiving is that of TCP without [--skip-rx-copy]. *)
Lemma sctp_recv_tcp test sp w :
  skip_rx_copy (settings test) = 0 → iperf_sctp_recv test sp w = iperf_tcp_recv test sp w.
Proof. intros Hs. unfold iperf_sctp_recv, iperf_tcp_recv, Nread_no_select. by rewrite Hs. Qed.

(** ** [iperf_sctp_bindx] *)

(** [struct xbind_entry]; the lists of a test are empty between two calls. *)
Record xbind_entry := mk_xbind { xb_name : bytes; xb_ai : option positive }.

Definition entries (names : list bytes) : list xbind_entry := map (fun n => mk_xbind n None) names.

(** The addresses of a list that have the family asked for. *)
Definition wanted (domain : Z) (ai : addrinfo) : list sockaddr :=
  map snd (List.filter (fun x => (domain =? AF_UNSPEC) || (domain =? x.1)) ((ai_family ai, ai_addr ai) :: ai_next ai)).

Section Bindx.
Context (resolve : hosts).

(** The first pass: resolve each name and count its addresses. *)
Fixpoint resolve_all (domain : Z) (service : option bytes) (h : hints) (l : list xbind_entry)
  : sys (option nat * list xbind_entry) :=
  match l with
  | [] => mret (Some O, [])
  | xbe :: l =>
      match xb_ai xbe with Some p => os_freeaddrinfo (Some p) | None => mret () end;;
      r ← os_getaddrinfo resolve (Some (xb_name xbe)) service h;
      match r with
      | None => mret (None, xbe :: l)
      | Some p =>
          ai ← deref p;
          '(n, l) ← resolve_all domain service h l;
          mret (Nat.add (length (wanted domain ai)) <$> n, mk_xbind (xb_name xbe) (Some p) :: l)
      end
  end.

(** The second pass: copy the addresses. *)
Fixpoint collect (domain : Z) (l : list xbind_entry) : sys (list sockaddr) :=
  match l with
  | [] => mret []
  | xbe :: l =>
      here ← match xb_ai xbe with Some p => (ai ← deref p; mret (wanted domain ai)) | None => mret [] end;
      more ← collect domain l;
      mret (here ++ more)
  end.

Fixpoint free_all (l : list xbind_entry) : sys () :=
  match l with
  | [] => mret ()
  | xbe :: l => match xb_ai xbe with Some p => os_freeaddrinfo (Some p) | None => mret () end;; free_all l
  end.

(** [retval = r; goto out]; the entries that are left, in their order. *)
Definition out {A} (r : A) (l : list xbind_entry) : sys A := free_all l;; mret r.

(** What client and server have in common; [head] is the entry the client has
    taken off the list. *)
Definition add_addresses (test : iperf_test) (s : Z) (service : option bytes) (h : hints)
    (head l : list xbind_entry) : sys (Z * iperf_test) :=
  let dom := domain (cmdline test) in
  '(nxaddrs, l) ← resolve_all dom service h l;
  match nxaddrs with
  | None => out (failed test IESETSCTPBINDX) (head ++ l)
  | Some n =>
      xaddrs ← collect dom l;
      r ← (if decide (length xaddrs = n) then sctp_bindx s xaddrs else fun _ => Undef);
      if r =? -1 then
        clean_exit () (os_close s);; out (failed test IESETSCTPBINDX) (head ++ l)
      else out (0, test) (head ++ l)
  end.

Definition iperf_sctp_bindx (test : iperf_test) (s : Z) (is_server : bool) : sys (Z * iperf_test) :=
  let dom := domain (cmdline test) in
  let h := mk_hints (if dom =? AF_UNSPEC then AF_INET6 else dom) SOCK_STREAM is_server in
  match entries (xbind_addrs (cmdline test)) with
  | [] => mret (0, test)
  | xbe0 :: l =>
      if is_server then add_addresses test s (Some (portstr (server_port test))) h [] (xbe0 :: l)
      else
        let fail head := out (failed test IESETSCTPBINDX) (head :: l) in
        r ← os_getaddrinfo resolve (Some (xb_name xbe0)) None h;
        match r with
        | None => fail xbe0
        | Some p =>
            let xbe0 := mk_xbind (xb_name xbe0) (Some p) in
            ai ← deref p;
            if negb (dom =? AF_UNSPEC) && negb (dom =? ai_family ai) then fail xbe0
            else
              r ← os_bind s (ai_addr ai);
              if r <? 0 then fail xbe0
              else match l with
              | [] => out (0, test) [xbe0]
              | _ =>
                  let family := sa_family (ai_addr ai) in
                  if (family =? AF_INET) || (family =? AF_INET6) then
                    add_addresses test s (Some (portstr (sa_port (ai_addr ai)))) h [xbe0] l
                  else fail xbe0
              end
        end
  end.

(** ** [iperf_sctp_accept] *)

(** [strncmp(a, b, n) == 0] when of [b] only the bytes of [known] are
    initialised; [None] when the result depends on others. *)
Fixpoint strncmp_known (a known : bytes) (n : nat) : option bool :=
  match n with
  | O => Some true
  | S n =>
      match known with
      | [] => None
      | c :: known =>
          if decide (nth 0 a NUL = c) then
            if decide (c = NUL) then Some true else strncmp_known (drop 1 a) known n
          else Some false
      end
  end.

Definition iperf_sctp_accept (test : iperf_test) : sys (Z * iperf_test) :=
  s ← os_accept (listener test);
  if s <? 0 then mret (failed test IESTREAMCONNECT)
  else
    rc ← on_data s (fun w => Nread w COOKIE_SIZE);
    if ret rc <? 0 then os_close s;; mret (failed test IERECVCOOKIE)
    else
      match strncmp_known (cookie test) (filled rc) COOKIE_SIZE with
      | None => fun _ => Undef
      | Some true => mret (s, test)
      | Some false =>
          r ← on_data s (fun w => Nwrite w [chr ACCESS_DENIED]);
          os_close s;; mret (if r <? 0 then failed test IESENDMESSAGE else (s, test))
      end.

(** ** [iperf_sctp_listen] *)

(** [sctp_bindx] instead of [bind] when there are addresses of [-X]. *)
Definition bind_listener (test : iperf_test) (s : Z) (p : positive) (k : iperf_test → sys (Z * iperf_test))
  : sys (Z * iperf_test) :=
  match xbind_addrs (cmdline test) with
  | [] => ai ← deref p; or_close s (Some p) (failed test IESTREAMLISTEN) (os_bind s (ai_addr ai)) (k test)
  | _ => '(r, test) ← iperf_sctp_bindx test s true;
         if on r then os_close s;; os_freeaddrinfo (Some p);; mret (-1, test) else k test
  end.

Definition bind_device (s : Z) (dev : option bytes) : sys Z :=
  match dev with None => mret 0 | Some d => os_setsockopt s (SO_BINDTODEVICE d) end.

Definition iperf_sctp_listen (test : iperf_test) : sys (Z * iperf_test) :=
  os_close (listener test);;
  let test := test <| listener := -1 |> in
  let size := socket_bufsize (settings test) in
  let dom := domain (cmdline test) in
  let local := bind_address (cmdline test) in
  res ← os_getaddrinfo resolve local (Some (portstr (server_port test)))
          (mk_hints (listen_family dom local) SOCK_STREAM true);
  match res with
  | None => mret (failed test IESTREAMLISTEN)
  | Some p =>
      ai ← deref p;
      s ← os_socket (ai_family ai) SOCK_STREAM IPPROTO_SCTP;
      if s <? 0 then os_freeaddrinfo res;; mret (failed test IESTREAMLISTEN)
      else
        or_close s res (failed test IESETBUF) (set_if (on size) s (SO_RCVBUF size)) (
        or_close s res (failed test IESETBUF) (set_if (on size) s (SO_SNDBUF size)) (
        or_close s res (failed test IEBINDDEV) (bind_device s (bind_dev (cmdline test))) (
        or_close s res (failed test IEPROTOCOL)
          (set_if ((ai_family ai =? AF_INET6) && ((dom =? AF_UNSPEC) || (dom =? AF_INET6))) s
                  (IPV6_V6ONLY (if dom =? AF_UNSPEC then 0 else 1))) (
        or_close s res (failed test IEREUSEADDR) (set_if true s (SO_REUSEADDR 1)) (
        bind_listener test s p (fun test =>
        os_freeaddrinfo res;;
        r ← os_listen s INT_MAX;
        if r <? 0 then mret (failed test IESTREAMLISTEN)        (* the socket stays open *)
        else mret (s, test <| listener := s |>)))))))
  end.

(** ** [iperf_sctp_connect] *)

(** The local end: [--bind] with or without [--cport], or [--cport] alone. *)
Definition bind_client (test : iperf_test) (s : Z) (local_res : option positive) (p : positive)
    (k : sys (Z * iperf_test)) : sys (Z * iperf_test) :=
  match local_res with
  | Some l =>
      lai ← deref l;
      r ← os_bind s (with_port (ai_addr lai) (bind_port test));
      if r <? 0 then
        clean_exit (failed test IESTREAMCONNECT) (os_close s;; os_freeaddrinfo local_res;; os_freeaddrinfo (Some p))
      else os_freeaddrinfo local_res;; k
  | None =>
      if on (bind_port test) then
        ai ← deref p;
        let family := ai_family ai in
        if (family =? AF_INET) || (family =? AF_INET6) then
          or_close s (Some p) (failed test IESTREAMCONNECT)
            (os_bind s (mk_sockaddr family (bind_port test mod 2 ^ 16) (any_host family) 0)) k
        else clean_exit (failed test IEPROTOCOL) (os_close s;; os_freeaddrinfo (Some p))
      else k
  end.

Definition connect_and_introduce (test : iperf_test) (s : Z) (p : positive) : sys (Z * iperf_test) :=
  let give_back e := clean_exit (failed test e) (os_close s;; os_freeaddrinfo (Some p)) in
  ai ← deref p;
  r ← os_connect s (ai_addr ai);
  e ← get_errno;
  if (r <? 0) && negb (e =? EINPROGRESS) then give_back IESTREAMCONNECT
  else
    r ← on_data s (fun w => Nwrite w (take COOKIE_SIZE (cookie test)));
    if r <? 0 then give_back IESENDCOOKIE
    else
      r ← os_setsockopt s (SCTP_DISABLE_FRAGMENTS 0);
      e ← get_errno;
      if (r <? 0) && negb (e =? ENOPROTOOPT) then give_back IESETSCTPDISABLEFRAG
      else os_freeaddrinfo (Some p);; mret (s, test).

(** The addresses of [-X], in front of [connect]. *)
Definition bind_more (test : iperf_test) (s : Z) (p : positive) (k : iperf_test → sys (Z * iperf_test))
  : sys (Z * iperf_test) :=
  match xbind_addrs (cmdline test) with
  | [] => k test
  | _ => '(r, test) ← iperf_sctp_bindx test s false;
         if on r then os_freeaddrinfo (Some p);; os_close s;; mret (-1, test) else k test
  end.

Definition maxseg_ok (mss : Z) : bool := (512 <=? mss) && (mss <=? 131072).

Definition connect_socket (test : iperf_test) (local_res : option positive) (p : positive) : sys (Z * iperf_test) :=
  let st := settings test in
  let size := socket_bufsize st in
  let streams := num_ostreams (cmdline test) in
  let res := Some p in
  ai ← deref p;
  s ← os_socket (ai_family ai) SOCK_STREAM IPPROTO_SCTP;
  if s <? 0 then os_freeaddrinfo local_res;; os_freeaddrinfo res;; mret (failed test IESTREAMCONNECT)
  else
    or_close s res (failed test IESETBUF) (set_if (on size) s (SO_RCVBUF size)) (
    or_close s res (failed test IESETBUF) (set_if (on size) s (SO_SNDBUF size)) (
    r ← bind_device s (bind_dev (cmdline test));
    if r <? 0 then
      clean_exit (failed test IEBINDDEV) (os_close s;; os_freeaddrinfo local_res;; os_freeaddrinfo res)
    else
    bind_client test s local_res p (
    or_close s res (failed test IESETNODELAY) (set_if (on (no_delay test)) s (SCTP_NODELAY 1)) (
    or_close s res (failed test IESETMSS) (set_if (maxseg_ok (mss st)) s (SCTP_MAXSEG (mss st))) (
    or_close s res (failed test IESETSCTPNSTREAM) (set_if (0 <? streams) s (SCTP_INITMSG (streams mod 2 ^ 16))) (
    bind_more test s p (fun test => connect_and_introduce test s p))))))).

Definition iperf_sctp_connect (test : iperf_test) : sys (Z * iperf_test) :=
  let c := cmdline test in
  let h := mk_hints (domain c) SOCK_STREAM false in
  local_res ← match bind_address c with
              | None => mret (Some None)
              | Some _ => r ← os_getaddrinfo resolve (bind_address c) None h;
                          mret (match r with None => None | Some l => Some (Some l) end)
              end;
  match local_res with
  | None => mret (failed test IESTREAMCONNECT)
  | Some local_res =>
      server_res ← os_getaddrinfo resolve (server_hostname c) (Some (portstr (server_port test))) h;
      match server_res with
      | None => os_freeaddrinfo local_res;; mret (failed test IESTREAMCONNECT)
      | Some p => connect_socket test local_res p
      end
  end.
End Bindx.

(** ** What [iperf_sctp_bindx] asks of the kernel *)

Section Calls.
Context (resolve : hosts).

Definition bindx_hints (dom : Z) (is_server : bool) : hints :=
  mk_hints (if dom =? AF_UNSPEC then AF_INET6 else dom) SOCK_STREAM is_server.

(** The addresses of a name. *)
Definition addresses (dom : Z) (service : option bytes) (h : hints) (name : bytes) : list sockaddr :=
  match resolve (Some name) service h with inl _ => [] | inr ai => wanted dom ai end.

(** A server adds the addresses of all names; a client binds to the first
    address of the first name and adds those of the others, with the port of
    this first address. *)
Definition bindx_calls (test : iperf_test) (is_server : bool) : list sockcall :=
  let dom := domain (cmdline test) in
  let h := bindx_hints dom is_server in
  match xbind_addrs (cmdline test) with
  | [] => []
  | name :: names =>
      if is_server then
        [Bound_more (flat_map (addresses dom (Some (portstr (server_port test))) h) (name :: names))]
      else
        match resolve (Some name) None h with
        | inl _ => []
        | inr ai =>
            Bound (ai_addr ai) ::
            match names with
            | [] => []
            | _ => [Bound_more (flat_map (addresses dom (Some (portstr (sa_port (ai_addr ai)))) h) names)]
            end
        end
  end.

(** ** The lists that the entries hold *)

(** [ais] has the lists of [base] and those the entries point to. *)
Fixpoint held (l : list xbind_entry) (base ais : gmap positive addrinfo) : Prop :=
  match l with
  | [] => ais = base
  | xbe :: l =>
      match xb_ai xbe with
      | None => held l base ais
      | Some p => is_Some (ais !! p) ∧ base !! p = None ∧ held l base (delete p ais)
      end
  end.

Lemma held_entries names base : held (entries names) base base.
Proof. by induction names as [|n names IH]. Qed.

Lemma held_under l base p ai ais :
  held l (<[p := ai]> base) ais → base !! p = None → ais !! p = Some ai ∧ held l base (delete p ais).
Proof.
  revert ais. induction l as [|[n [q|]] l IH]; intros ais; cbn.
  - intros -> Hp. split; [apply lookup_insert_eq|by apply delete_insert_id].
  - intros (Hq & Hb & Hl) Hp. apply lookup_insert_None in Hb as [Hb Hn].
    destruct (IH _ Hl Hp) as [Ha Hd]. rewrite lookup_delete_ne in Ha by congruence.
    rewrite delete_delete in Hd. split_and!; [done| |done|done]. by rewrite lookup_delete_ne by congruence.
  - apply IH.
Qed.

Lemma held_app l1 l2 base ais1 ais2 : held l1 base ais1 → held l2 ais1 ais2 → held (l1 ++ l2) base ais2.
Proof.
  revert ais1 ais2. induction l1 as [|[n [p|]] l1 IH]; intros ais1 ais2; cbn.
  - by intros ->.
  - intros ((ai & Hp) & Hb & Hl) H2. rewrite <- (insert_delete_id _ _ _ Hp) in H2.
    destruct (held_under _ _ _ _ _ H2 (lookup_delete_eq _ _)) as [Ha Hd].
    split_and!; [by exists ai|done|by eapply IH].
  - apply IH.
Qed.

Section Rules.
Context (fds : gmap Z sock) (bad : list Z).

Lemma wp_free_all l base ais Q k :
  owns fds ais bad k → held l base ais →
  (∀ k', owns fds base bad k' → k_errno k' = k_errno k → Q () k') →
  wp (free_all l) Q k.
Proof.
  revert ais k. induction l as [|[n [p|]] l IH]; intros ais k Hk Hl HQ; cbn in *.
  - subst ais. by apply wp_ret, HQ.
  - destruct Hl as ((ai & Hp) & _ & Hl). apply wp_bind. cbn. eapply wp_freeaddrinfo; [exact Hk|exact Hp|].
    intros k1 Hk1 He. eapply IH; [exact Hk1|exact Hl|]. intros k2 Hk2 He2. apply HQ; [done|congruence].
  - apply wp_bind, wp_ret. by eapply IH.
Qed.

Lemma wp_out {A} (r : A) l base ais Q k :
  owns fds ais bad k → held l base ais →
  (∀ k', owns fds base bad k' → Q r k') → wp (out r l) Q k.
Proof.
  intros Hk Hl HQ. unfold out. apply wp_bind. eapply wp_free_all; [done|done|]. intros. by apply wp_ret, HQ.
Qed.

(** An entry that was resolved. *)
Definition resolved (service : option bytes) (h : hints) (ais : gmap positive addrinfo) (xbe : xbind_entry) : Prop :=
  ∃ p ai, xb_ai xbe = Some p ∧ ais !! p = Some ai ∧ resolve (Some (xb_name xbe)) service h = inr ai.

Lemma wp_resolve_all dom service h names base Q k :
  owns fds base bad k →
  (∀ l ais k', owns fds ais bad k' → held l base ais → Q (None, l) k') →
  (∀ l ais k', owns fds ais bad k' → held l base ais → map xb_name l = names →
     Forall (resolved service h ais) l →
     Q (Some (length (flat_map (addresses dom service h) names)), l) k') →
  wp (resolve_all resolve dom service h (entries names)) Q k.
Proof.
  revert base Q k. induction names as [|name names IH]; intros base Q k Hk Hno Hyes.
  { apply wp_ret. by apply (Hyes [] base). }
  cbn [entries map resolve_all xb_ai xb_name]. apply wp_bind, wp_ret, wp_bind.
  eapply wp_getaddrinfo; [done|intros e k1 Hr Hk1 _ _|intros p ai k1 Hr Hp Hk1].
  { apply wp_ret. apply (Hno _ base); [done|]. apply (held_entries (name :: names)). }
  apply wp_bind. eapply wp_deref; [done|apply lookup_insert_eq|]. apply wp_bind.
  eapply IH; [exact Hk1|intros l ais k2 Hk2 Hl|intros l ais k2 Hk2 Hl Hnames Hres]; apply wp_ret; cbn [fmap option_fmap option_map];
    destruct (held_under _ _ _ _ _ Hl Hp) as [Ha Hd].
  - eapply Hno; [exact Hk2|]. cbn. by split_and!; [exists ai| |].
  - cbn [flat_map] in Hyes. rewrite length_app in Hyes. unfold addresses at 1 in Hyes. rewrite Hr in Hyes.
    eapply (Hyes _ ais); [exact Hk2|cbn; by split_and!; [exists ai| |]|cbn; by rewrite Hnames|].
    constructor; [by exists p, ai|done].
Qed.

Lemma wp_collect dom service h l ais Q k :
  owns fds ais bad k → Forall (resolved service h ais) l →
  Q (flat_map (addresses dom service h) (map xb_name l)) k →
  wp (collect dom l) Q k.
Proof.
  intros Hk Hl. revert Q. induction Hl as [|[n a] l (p & ai & Ha & Hp & Hr) _ IH]; intros Q HQ.
  { by apply wp_ret. }
  cbn in Ha, Hr. subst a. cbn [collect xb_ai]. apply wp_bind, wp_bind.
  eapply wp_deref; [exact Hk|exact Hp|]. apply wp_ret, wp_bind, IH, wp_ret.
  cbn in HQ. unfold addresses at 1 in HQ. by rewrite Hr in HQ.
Qed.
End Rules.

Section Bind_rules.
Context (fds : gmap Z sock) (bad : list Z) (s : Z) (sk : sock) (test : iperf_test).
Local Abbreviation dom := (domain (cmdline test)).
Local Abbreviation no_bindx := (failed test IESETSCTPBINDX).

Lemma wp_add_addresses service h head names base base1 Q k :
  owns (<[s := sk]> fds) base1 bad k → fds !! s = None → held head base base1 →
  (∀ k', owns (<[s := did (Bound_more (flat_map (addresses dom service h) names)) sk]> fds) base bad k' → Q (0, test) k') →
  (∀ k', owns (<[s := sk]> fds) base bad k' → Q no_bindx k') →
  (∀ k', owns fds base bad k' → Q no_bindx k') →
  wp (add_addresses resolve test s service h head (entries names)) Q k.
Proof.
  intros Hk Hs Hh Hok Hopen Hclosed. unfold add_addresses. apply wp_bind.
  eapply wp_resolve_all; [exact Hk| |].
  { intros l ais k1 Hk1 Hl. eapply wp_out; [exact Hk1|by eapply held_app|done]. }
  intros l ais k1 Hk1 Hl Hnames Hres. pose proof (held_app _ _ _ _ _ Hh Hl) as Hall.
  apply wp_bind. eapply wp_collect; [exact Hk1|exact Hres|]. rewrite Hnames, decide_True by done.
  sys_steps; (eapply wp_out; [eassumption|exact Hall|]); [exact Hok|].
  intros ? ?. by apply Hclosed.
Qed.

End Bind_rules.

Section Bindx_rules.
Context (fds : gmap Z sock) (bad : list Z) (s : Z) (sk : sock) (test : iperf_test).
Local Abbreviation dom := (domain (cmdline test)).
Local Abbreviation no_bindx := (failed test IESETSCTPBINDX).

(** All addresses are bound; or an error, with the socket open or closed. *)
Lemma wp_bindx is_server base Q k :
  owns (<[s := sk]> fds) base bad k → fds !! s = None →
  (∀ k', owns (<[s := with_calls (bindx_calls test is_server) sk]> fds) base bad k' → Q (0, test) k') →
  (∀ l k', owns (<[s := with_calls l sk]> fds) base bad k' → Q no_bindx k') →
  (∀ k', owns fds base bad k' → Q no_bindx k') →
  wp (iperf_sctp_bindx resolve test s is_server) Q k.
Proof.
  intros Hk Hs Hok Hopen Hclosed. unfold iperf_sctp_bindx. unfold bindx_calls, bindx_hints in Hok.
  set (h := mk_hints _ SOCK_STREAM is_server) in *.
  destruct (xbind_addrs (cmdline test)) as [|name names]; cbn [entries map].
  { apply wp_ret, Hok. by rewrite with_calls_nil. }
  assert (∀ k', owns (<[s:=sk]> fds) base bad k' → Q no_bindx k') as Hsame.
  { intros k' Hk'. apply (Hopen []). by rewrite with_calls_nil. }
  destruct is_server.
  { eapply (wp_add_addresses _ _ _ _ _ _ _ [] (name :: names)); [exact Hk|exact Hs|done|exact Hok|exact Hsame|exact Hclosed]. }
  cbn [xb_name]. apply wp_bind. eapply wp_getaddrinfo; [exact Hk|intros e k1 Hr Hk1 _ _|intros p ai k1 Hr Hp Hk1].
  { eapply wp_out; [exact Hk1|apply (held_entries (name :: names))|done]. }
  rewrite Hr in Hok.
  set (xbe0 := mk_xbind name (Some p)). change (map _ names) with (entries names).
  assert (held [xbe0] base (<[p := ai]> base)) as Hh.
  { cbn. split_and!; [rewrite lookup_insert_eq; by exists ai|done|by apply delete_insert_id]. }
  assert (held (xbe0 :: entries names) base (<[p := ai]> base)) as Hall.
  { apply (held_app [xbe0] _ _ _ _ Hh). apply held_entries. }
  destruct names as [|name2 names]; [cbn [entries map] in *|cbn [entries map]]; sys_steps.
  1,2,3,4,6,7: eapply wp_out; [eassumption|exact Hall|intros; first [by apply Hsame|by apply (Hopen [Bound (ai_addr ai)])|by apply Hok]].
  - eapply (wp_add_addresses _ _ _ _ _ _ _ [xbe0] (name2 :: names)); [eassumption|done|exact Hh|..].
    + intros k2 Hk2. apply Hok. by rewrite !did_with_calls, with_calls_app in Hk2.
    + intros k2 Hk2. by apply (Hopen [Bound (ai_addr ai)]).
    + exact Hclosed.
Qed.
End Bindx_rules.

(** ** Listening *)

Definition listen_binding (test : iperf_test) (ai : addrinfo) : list sockcall :=
  match xbind_addrs (cmdline test) with [] => [Bound (ai_addr ai)] | _ => bindx_calls test true end.

Definition sctp_listen_calls (test : iperf_test) (ai : addrinfo) : list sockcall :=
  buffer_calls test ++ device_call (bind_dev (cmdline test)) ++
  v6only_call (domain (cmdline test)) (ai_family ai) ++ [Set_option (SO_REUSEADDR 1)] ++ listen_binding test ai.

Definition sctp_sock (ai : addrinfo) (calls : list sockcall) (w : os) : sock :=
  mk_sock (ai_family ai) SOCK_STREAM IPPROTO_SCTP 0 calls Unconnected w.

Section Socket_rules.
Context (fds : gmap Z sock) (ais : gmap positive addrinfo) (bad : list Z) (s : Z).
Context (p : positive) (ai : addrinfo).
Context (Hs : fds !! s = None) (Hp : ais !! p = None).
Implicit Types (test : iperf_test) (k : kernel) (sk : sock).
Local Abbreviation has sk := (owns (<[s := sk]> fds) (<[p := ai]> ais) bad).

(** A descriptor that is closed a second time. *)
Lemma wp_close_again ais' (Q : () → kernel → Prop) k :
  owns fds ais' bad k → (∀ k', owns fds ais' (bad ++ [s]) k' → Q () k') → wp (os_close s) Q k.
Proof.
  intros (Hf & Ha & Hb) HQ. unfold wp, os_close, on_fd. rewrite Hf, Hs. eexists _, _. split; [reflexivity|].
  apply HQ. split_and!; [done|done|]. cbn. by rewrite Hb.
Qed.

(** A step under [or_close] that makes some calls or fails. *)
Lemma wp_or_close {A} sk calls (m : sys Z) (result : A) cont Q k :
  has sk k →
  (∀ R k0, has sk k0 → (∀ k', has (with_calls calls sk) k' → R 0 k') → (∀ k', has sk k' → R (-1) k') → wp m R k0) →
  (∀ k', owns fds ais bad k' → Q result k') →
  (∀ k', has (with_calls calls sk) k' → wp cont Q k') →
  wp (or_close s (Some p) result m cont) Q k.
Proof using Hs Hp.
  intros Hk Hm Hno Hok. unfold or_close. apply wp_bind. eapply Hm; [exact Hk|exact Hok|].
  intros k' Hk'. cbn. sys_steps. by apply Hno, owns_errno.
Qed.

Lemma wp_bind_listener test sk cont Q k :
  has sk k →
  (∀ e k', e = IESTREAMLISTEN ∨ e = IESETSCTPBINDX → owns fds ais bad k' → Q (failed test e) k') →
  (∀ k', xbind_addrs (cmdline test) ≠ [] → owns fds ais (bad ++ [s]) k' → Q (failed test IESETSCTPBINDX) k') →
  (∀ k', has (with_calls (listen_binding test ai) sk) k' → wp (cont test) Q k') →
  wp (bind_listener resolve test s p cont) Q k.
Proof using Hs Hp.
  intros Hk Hno Htwice Hok. unfold bind_listener. unfold listen_binding in Hok.
  destruct (xbind_addrs (cmdline test)) as [|name names].
  - apply wp_bind. eapply wp_deref; [exact Hk|apply lookup_insert_eq|].
    eapply wp_or_close; [exact Hk| |intros; by apply Hno; [left|]|exact Hok].
    intros R k0 Hk0 H0 H1. eapply wp_noted; [exact Hk0|done|]. intros k' Hk' _. by apply H1.
  - apply wp_bind. eapply wp_bindx; [exact Hk|exact Hs|exact Hok| |].
    + intros l k1 Hk1. cbn [failed]. unfold failed. change (on (-1)) with true. cbn beta iota. sys_steps. by apply Hno; [right|].
    + intros k1 Hk1. cbn [failed]. unfold failed. change (on (-1)) with true. cbn beta iota. apply wp_bind.
      eapply wp_close_again; [exact Hk1|]. intros k2 Hk2. apply wp_bind.
      eapply wp_freeaddrinfo; [exact Hk2|apply lookup_insert_eq|]. intros k3 Hk3 _. tidy_infos. apply wp_ret.
      by apply Htwice.
Qed.
End Socket_rules.

Definition sctp_listen_errors : list Z :=
  [IESTREAMLISTEN; IESETBUF; IEBINDDEV; IEPROTOCOL; IEREUSEADDR; IESETSCTPBINDX].

(** What [iperf_sctp_listen] leaves when it fails: nothing, but that the new
    socket was closed a second time behind [iperf_sctp_bindx], or that it is
    still open because [listen] failed. *)
Definition listen_leaves (test : iperf_test) (e : Z) (fds : gmap Z sock) (k k' : kernel) : Prop :=
  owns fds (infos k) (bad_fds k) k' ∨
  (e = IESETSCTPBINDX ∧ xbind_addrs (cmdline test) ≠ [] ∧
   ∃ s, fds !! s = None ∧ owns fds (infos k) (bad_fds k ++ [s]) k') ∨
  (e = IESTREAMLISTEN ∧
   ∃ s ai w, fds !! s = None ∧
     owns (<[s := sctp_sock ai (sctp_listen_calls test ai) w]> fds) (infos k) (bad_fds k) k').

Lemma sctp_calls l ai w : with_calls l (sctp_sock ai [] w) = sctp_sock ai l w.
Proof. done. Qed.

Lemma wp_sctp_listen test k sk :
  open_fds k !! listener test = Some sk →
  wp (iperf_sctp_listen resolve test)
    (fun '(s, t) k' =>
       let rest := delete (listener test) (open_fds k) in
       (s = -1 ∧ listener t = -1 ∧ i_errno t ∈ sctp_listen_errors ∧ listen_leaves test (i_errno t) rest k k') ∨
       (0 ≤ s ∧ listener t = s ∧ rest !! s = None ∧
        ∃ ai w, listen_address resolve test = inr ai ∧
          owns (<[s := sctp_sock ai (sctp_listen_calls test ai ++ [Listening INT_MAX]) w]> rest)
               (infos k) (bad_fds k) k')) k.
Proof.
  intros Hsk. set (rest := delete (listener test) (open_fds k)).
  assert (owns (<[listener test := sk]> rest) (infos k) (bad_fds k) k) as Hk.
  { unfold rest. rewrite insert_delete_id by done. apply owns_self. }
  unfold iperf_sctp_listen. apply wp_bind.
  eapply wp_close; [exact Hk|apply lookup_delete_eq|]. intros k1 Hk1. fold rest in Hk1.
  set (t := test <| listener := -1 |>).
  assert (∀ e k', e ∈ sctp_listen_errors → owns rest (infos k) (bad_fds k) k' →
    (-1 = -1 ∧ listener (t <| i_errno := e |>) = -1 ∧ i_errno (t <| i_errno := e |>) ∈ sctp_listen_errors ∧
     listen_leaves test (i_errno (t <| i_errno := e |>)) rest k k')) as Hno.
  { intros e k' He Hk'. split_and!; [done|done|done|by left]. }
  sys_steps; [left; apply Hno; [decided|done]| |left; apply Hno; [decided|done]].
  do 2 (eapply wp_required; [eassumption..|intros; left; apply Hno; [decided|done]|intros ? ?]).
  eapply wp_or_close; [eassumption..| |intros; left; apply Hno; [decided|done]|].
  { intros R k0 Hk0 HR0 HR1. eapply wp_bind_device; [exact Hk0|exact HR0|exact HR1]. }
  intros ? ?.
  do 2 (eapply wp_required; [eassumption..|intros; left; apply Hno; [decided|done]|intros ? ?]).
  eapply wp_bind_listener; [eassumption..|intros ? ? [-> | ->] ?; left; apply Hno; [decided|done|decided|done]| |].
  { intros k9 Hx Hk9. left. split_and!; [done|done|decided|]. right. left. split_and!; [done|done|]. by exists s. }
  intros k9 Hk9.
  match type of Hk9 with owns (<[s := ?x]> _) _ _ _ =>
    replace x with (sctp_sock ai (sctp_listen_calls test ai) w) in Hk9 end.
  2: { rewrite !with_calls_app. fold (sctp_sock ai [] w). rewrite sctp_calls. f_equal.
       unfold sctp_listen_calls, buffer_calls. by rewrite <- !app_assoc. }
  sys_steps.
  - right. split_and!; [done|done|done|]. exists ai, w. by split.
  - left. split_and!; [done|done|decided|]. right. right. split; [done|]. by exists s, ai, w.
Qed.

(** ** Connecting *)

Definition client_hints (test : iperf_test) : hints := mk_hints (domain (cmdline test)) SOCK_STREAM false.

Definition sctp_local_call (test : iperf_test) (ai : addrinfo) : list sockcall :=
  let port := bind_port test in
  match bind_address (cmdline test) with
  | Some a => match resolve (Some a) None (client_hints test) with
              | inr lai => [Bound (with_port (ai_addr lai) port)]
              | inl _ => []
              end
  | None => if on port then [Bound (mk_sockaddr (ai_family ai) (port mod 2 ^ 16) (any_host (ai_family ai)) 0)] else []
  end.

Definition sctp_option_calls (test : iperf_test) : list sockcall :=
  let streams := num_ostreams (cmdline test) in
  let mss := mss (settings test) in
  option_call (on (no_delay test)) (SCTP_NODELAY 1) ++ option_call (maxseg_ok mss) (SCTP_MAXSEG mss) ++
  option_call (0 <? streams) (SCTP_INITMSG (streams mod 2 ^ 16)).

Definition sctp_client_calls (test : iperf_test) (ai : addrinfo) : list sockcall :=
  buffer_calls test ++ device_call (bind_dev (cmdline test)) ++ sctp_local_call test ai ++
  sctp_option_calls test ++ bindx_calls test false.

(** A client's stream socket: the calls made on it, its peer, and the cookie. *)
Definition sctp_stream (test : iperf_test) (sk : sock) : Prop :=
  ∃ ai calls c w n,
    resolve (server_hostname (cmdline test)) (Some (portstr (server_port test))) (client_hints test) = inr ai ∧
    sk = (sctp_sock ai calls w) <| sk_peer := c |> ∧
    (calls = sctp_client_calls test ai ∨
     calls = sctp_client_calls test ai ++ [Set_option (SCTP_DISABLE_FRAGMENTS 0)]) ∧
    (c = Connected (ai_addr ai) ∨ c = Pending (ai_addr ai)) ∧
    sent w = take n (take COOKIE_SIZE (cookie test)).

Section Connect_rules.
Context (fds : gmap Z sock) (ais : gmap positive addrinfo) (bad : list Z) (s : Z).
Context (p : positive) (ai : addrinfo).
Context (Hs : fds !! s = None) (Hp : ais !! p = None).
Implicit Types (test : iperf_test) (k : kernel) (sk : sock).
Local Abbreviation has sk := (owns (<[s := sk]> fds) (<[p := ai]> ais) bad).

Lemma wp_connect_and_introduce test calls w Q k :
  has (sctp_sock ai calls w) k → sent w = [] →
  (∀ e k', e ∈ [IESTREAMCONNECT; IESENDCOOKIE; IESETSCTPDISABLEFRAG] → owns fds ais bad k' → Q (failed test e) k') →
  (∀ more c w' n k',
     more = [] ∨ more = [Set_option (SCTP_DISABLE_FRAGMENTS 0)] →
     c = Connected (ai_addr ai) ∨ c = Pending (ai_addr ai) →
     sent w' = take n (take COOKIE_SIZE (cookie test)) →
     owns (<[s := (sctp_sock ai (calls ++ more) w') <| sk_peer := c |>]> fds) ais bad k' → Q (s, test) k') →
  wp (connect_and_introduce test s p) Q k.
Proof using Hs Hp.
  intros Hk Hw Hno Hok. unfold connect_and_introduce. sys_steps.
  1,2: eapply wp_first_write; [done|done|rewrite length_take; unfold COOKIE_SIZE; lia|];
       intros r w' n k1 Hn Hk1; sys_steps.
  1,3,5,7,9: by apply Hno; [decided|apply owns_errno].
  1: by eapply (Hok [Set_option (SCTP_DISABLE_FRAGMENTS 0)] (Connected (ai_addr ai)) w' n); [right|left|..].
  1: by eapply (Hok [] (Connected (ai_addr ai)) w' n); [left|left|..|rewrite app_nil_r].
  1: by eapply (Hok [Set_option (SCTP_DISABLE_FRAGMENTS 0)] (Pending (ai_addr ai)) w' n); [right|right|..].
  1: by eapply (Hok [] (Pending (ai_addr ai)) w' n); [left|right|..|rewrite app_nil_r].
Qed.

Lemma wp_bind_more test sk cont Q k :
  has sk k →
  (∀ k', owns fds ais bad k' → Q (failed test IESETSCTPBINDX) k') →
  (∀ k', xbind_addrs (cmdline test) ≠ [] → owns fds ais (bad ++ [s]) k' → Q (failed test IESETSCTPBINDX) k') →
  (∀ k', has (with_calls (bindx_calls test false) sk) k' → wp (cont test) Q k') →
  wp (bind_more resolve test s p cont) Q k.
Proof using Hs Hp.
  intros Hk Hno Htwice Hok. unfold bind_more.
  destruct (xbind_addrs (cmdline test)) as [|name names] eqn:Ex.
  { apply Hok. unfold bindx_calls. by rewrite Ex, with_calls_nil. }
  apply wp_bind. eapply wp_bindx; [exact Hk|exact Hs|exact Hok| |].
  - intros l k1 Hk1. unfold failed. change (on (-1)) with true. cbn beta iota. sys_steps. by apply Hno.
  - intros k1 Hk1. unfold failed. change (on (-1)) with true. cbn beta iota. apply wp_bind.
    eapply wp_freeaddrinfo; [exact Hk1|apply lookup_insert_eq|]. intros k2 Hk2 _. tidy_infos. apply wp_bind.
    eapply wp_close_again; [exact Hs|exact Hk2|]. intros k3 Hk3. apply wp_ret. by apply Htwice.
Qed.
End Connect_rules.

(** The list of the local address is on top of the others. *)
Definition local_held (test : iperf_test) (local_res : option positive) (ais base : gmap positive addrinfo) : Prop :=
  match local_res with
  | None => bind_address (cmdline test) = None ∧ base = ais
  | Some l => ∃ a lai, bind_address (cmdline test) = Some a ∧
      resolve (Some a) None (client_hints test) = inr lai ∧ ais !! l = None ∧ base = <[l := lai]> ais
  end.

Section Local_rules.
Context (fds : gmap Z sock) (ais base : gmap positive addrinfo) (bad : list Z).
Context (test : iperf_test) (local_res : option positive).
Context (Hl : local_held test local_res ais base).

Context (s : Z) (p : positive) (ai : addrinfo).
Context (Hs : fds !! s = None) (Hp : base !! p = None).

(** Only the list of the server is left. *)
Lemma wp_free_local (Q : () → kernel → Prop) k :
  owns fds (<[p := ai]> base) bad k → (∀ k', owns fds (<[p := ai]> ais) bad k' → Q () k') →
  wp (os_freeaddrinfo local_res) Q k.
Proof using Hl Hp.
  intros Hk HQ. destruct local_res as [l|]; cbn in Hl.
  - destruct Hl as (a & lai & _ & _ & Hn & ->). apply lookup_insert_None in Hp as [Hpa Hlp].
    assert (p ≠ l) as Hpl by congruence. sys_steps. by apply HQ.
  - destruct Hl as [_ ->]. by apply wp_free_none, HQ.
Qed.

(** The local address is bound, or both lists are freed. *)
Lemma wp_bind_client sk cont Q k :
  owns (<[s := sk]> fds) (<[p := ai]> base) bad k →
  (∀ e k', e = IESTREAMCONNECT ∨ e = IEPROTOCOL → owns fds ais bad k' → Q (failed test e) k') →
  (∀ k', owns (<[s := with_calls (sctp_local_call test ai) sk]> fds) (<[p := ai]> ais) bad k' → wp cont Q k') →
  wp (bind_client test s local_res p cont) Q k.
Proof using Hl Hs Hp.
  intros Hk Hno Hok. unfold bind_client. unfold sctp_local_call in Hok.
  destruct local_res as [l|]; cbn in Hl.
  - destruct Hl as (a & lai & Ha & Hr & Hn & ->). rewrite Ha, Hr in Hok.
    apply lookup_insert_None in Hp as [Hpa Hlp]. assert (p ≠ l) as Hpl by congruence.
    sys_steps; [by apply Hok|]. apply Hno; [by left|by apply owns_errno].
  - destruct Hl as [Ha ->]. rewrite Ha in Hok. destruct (on (bind_port test)).
    + apply wp_bind. eapply wp_deref; [exact Hk|apply lookup_insert_eq|]. sys_step.
      * eapply wp_or_close; [exact Hs|exact Hp|exact Hk| |intros; by apply Hno; [left|]|exact Hok].
        intros R k0 Hk0 H0 H1. eapply wp_noted; [exact Hk0|done|]. intros k' Hk' _. by apply H1.
      * sys_steps. apply Hno; [by right|by apply owns_errno].
    + apply Hok. by rewrite with_calls_nil.
Qed.
End Local_rules.

Definition sctp_connect_errors : list Z :=
  [IESTREAMCONNECT; IESETBUF; IEBINDDEV; IEPROTOCOL; IESETNODELAY; IESETMSS; IESETSCTPNSTREAM; IESETSCTPBINDX;
   IESENDCOOKIE; IESETSCTPDISABLEFRAG].

(** What [iperf_sctp_connect] leaves when it fails: nothing, but that the list of
    the local address stays allocated behind the buffers' options, and that the
    socket was closed a second time behind [iperf_sctp_bindx]. *)
Definition connect_leaves (test : iperf_test) (e : Z) (k k' : kernel) : Prop :=
  unchanged k k' ∨
  (e = IESETBUF ∧ ∃ l ais, local_held test (Some l) (infos k) ais ∧ owns (open_fds k) ais (bad_fds k) k') ∨
  (e = IESETSCTPBINDX ∧ xbind_addrs (cmdline test) ≠ [] ∧
   ∃ s, open_fds k !! s = None ∧ owns (open_fds k) (infos k) (bad_fds k ++ [s]) k').

Definition connect_outcome (test : iperf_test) (k : kernel) : Z * iperf_test → kernel → Prop := fun '(s, t) k' =>
  (s = -1 ∧ i_errno t ∈ sctp_connect_errors ∧ connect_leaves test (i_errno t) k k') ∨
  (t = test ∧ ∃ sk, one_more k s sk k' ∧ sctp_stream test sk).

Lemma connect_fails test k e k' :
  e ∈ sctp_connect_errors → connect_leaves test e k k' → connect_outcome test k (failed test e) k'.
Proof. intros He Hl. left. by split_and!. Qed.

Lemma wp_connect_socket test local_res base p ai k k1 :
  local_held test local_res (infos k) base → base !! p = None →
  resolve (server_hostname (cmdline test)) (Some (portstr (server_port test))) (client_hints test) = inr ai →
  owns (open_fds k) (<[p := ai]> base) (bad_fds k) k1 →
  wp (connect_socket resolve test local_res p) (connect_outcome test k) k1.
Proof.
  intros Hl Hp Hr Hk1. assert (infos k !! p = None) as Hpk.
  { destruct local_res as [l|]; cbn in Hl; [|by destruct Hl as [_ <-]].
    destruct Hl as (a & lai & _ & _ & _ & ->). by apply lookup_insert_None in Hp as [? _]. }
  assert (∀ k', owns (open_fds k) base (bad_fds k) k' → connect_outcome test k (failed test IESETBUF) k') as Hbuf.
  { intros k' Hk'. apply connect_fails; [decided|]. destruct local_res as [l|].
    - right. left. split; [done|]. by exists l, base.
    - destruct Hl as [_ ->]. by left. }
  unfold connect_socket. apply wp_bind. eapply wp_deref; [exact Hk1|apply lookup_insert_eq|]. apply wp_bind.
  eapply wp_socket; [exact Hk1| |].
  2: { intros k2 Hk2 _. ztest. apply wp_bind. eapply wp_free_local; [done..|]. intros k3 Hk3. sys_steps.
       apply connect_fails; [decided|by left]. }
  intros s w k2 Hs Hfree [Hw _] Hk2. ztest.
  do 2 (eapply wp_required; [eassumption..|intros; by apply Hbuf|intros ? ?]).
  assert (∀ e k', e ∈ sctp_connect_errors → unchanged k k' → connect_outcome test k (failed test e) k') as Hno.
  { intros e k3 He Hk3. apply connect_fails; [done|by left]. }
  apply wp_bind. eapply wp_bind_device; [eassumption| |].
  2: { intros k5 Hk5. ztest. apply wp_clean_exit, wp_bind. eapply wp_close; [exact Hk5|done|]. intros k6 Hk6.
       apply wp_bind. eapply wp_free_local; [done..|]. intros k7 Hk7. sys_steps.
       apply Hno; [decided|by apply owns_errno]. }
  intros k5 Hk5. ztest. eapply wp_bind_client; [exact Hl|exact Hfree|exact Hp|exact Hk5| |].
  { intros e k6 [-> | ->] Hk6; apply Hno; [decided|done|decided|done]. }
  intros k6 Hk6.
  do 3 (eapply wp_required; [eassumption..|intros; apply Hno; [decided|done]|intros ? ?]).
  eapply wp_bind_more; [eassumption..|intros; apply Hno; [decided|done]| |].
  { intros k7 Hx Hk7. apply connect_fails; [decided|]. right. right. split_and!; [done|done|by exists s]. }
  intros k7 Hk7.
  match type of Hk7 with owns (<[s := ?x]> _) _ _ _ =>
    replace x with (sctp_sock ai (sctp_client_calls test ai) w) in Hk7 end.
  2: { rewrite !with_calls_app. fold (sctp_sock ai [] w). rewrite sctp_calls. f_equal.
       unfold sctp_client_calls, buffer_calls, sctp_option_calls. by rewrite <- !app_assoc. }
  eapply wp_connect_and_introduce; [exact Hfree|exact Hpk|exact Hk7|exact Hw| |].
  { intros e k10 He Hk10. apply Hno; [|done]. revert He. clear. unfold sctp_connect_errors. set_solver. }
  intros more c w' n k10 Hm Hc Hsent Hk10. right. split; [done|]. eexists. split; [split_and!; [done|done|exact Hk10]|].
  exists ai. eexists _, c, w', n. split_and!; [exact Hr|reflexivity| |done|done].
  destruct Hm as [-> | ->]; [left; by rewrite app_nil_r|by right].
Qed.
End Calls.

(** ** Properties *)


(** C40: [iperf_sctp_listen], called with an open listener, for every resolver and
    all answers of the kernel: the old listener is closed, and either the
    result is a listening socket, which is [test->listener], with the calls of
    the code (buffers, device, the restriction to IPv6 exactly under [-6],
    address reuse, the addresses of [-X] or the one of the resolver); or the
    result is -1, [test->listener] is -1, and nothing is left over, but with
    two defects: the new socket stays open when [listen] fails, and it is
    closed a second time behind a failing [sctp_bindx]. *)
Theorem sctp_listen_outcome resolve test k sk :
  open_fds k !! listener test = Some sk →
  ∃ s t k', iperf_sctp_listen resolve test k = Ok ((s, t), k') ∧
    let rest := delete (listener test) (open_fds k) in
    ((s = -1 ∧ listener t = -1 ∧ i_errno t ∈ sctp_listen_errors ∧ listen_leaves resolve test (i_errno t) rest k k') ∨
     (0 ≤ s ∧ listener t = s ∧ rest !! s = None ∧
      ∃ ai w, listen_address resolve test = inr ai ∧
        owns (<[s := sctp_sock ai (sctp_listen_calls resolve test ai ++ [Listening INT_MAX]) w]> rest)
             (infos k) (bad_fds k) k')).
Proof.
  intros Hsk. destruct (wp_sctp_listen resolve test k sk Hsk) as ([s t] & k' & Hr & HQ). by exists s, t, k'.
Qed.

(** ** Concrete runs *)

(** A resolver that knows one address of each family; the port is that of the
    service, 0 without one. *)
Definition sctp_resolve : hosts := fun _ service h =>
  let family := if hint_family h =? AF_UNSPEC then AF_INET6 else hint_family h in
  let port := match service with
              | Some t => if decide (t = portstr 0) then 0 else 5201
              | None => 0
              end in
  inr (mk_addrinfo family (mk_sockaddr family port (any_host family) 0) []).

Definition sctp_server : iperf_test := (iperf_defaults true iperf_new_test) <| listener := 3 |>.

Lemma sctp_listen_outcome_witness :
  ∃ s t k', iperf_sctp_listen sctp_resolve sctp_server (sample_kernel []) = Ok ((s, t), k') ∧
    let rest := delete 3 (open_fds (sample_kernel [])) in
    ((s = -1 ∧ listener t = -1 ∧ i_errno t ∈ sctp_listen_errors ∧
      listen_leaves sctp_resolve sctp_server (i_errno t) rest (sample_kernel []) k') ∨
     (0 ≤ s ∧ listener t = s ∧ rest !! s = None ∧
      ∃ ai w, listen_address sctp_resolve sctp_server = inr ai ∧
        owns (<[s := sctp_sock ai (sctp_listen_calls sctp_resolve sctp_server ai ++ [Listening INT_MAX]) w]> rest)
             ∅ [] k')).
Proof.
  apply (sctp_listen_outcome sctp_resolve sctp_server (sample_kernel []) sample_listener). vm_compute. reflexivity.
Defined.

(** What a run leaves: its result, the open descriptors, the number of address
    lists and the calls on closed descriptors. *)
Definition leftover (m : sys (Z * iperf_test)) (k : kernel) : option (Z * Z * list Z * nat * list Z) :=
  match m k with
  | Ok ((s, t), k') => Some (s, i_errno t, (map_to_list (open_fds k')).*1, size (infos k'), bad_fds k')
  | _ => None
  end.

Definition EINVAL : Z := 22.

(** [listen] fails: the socket 4 is still open, although nothing names it. *)
Example failed_listen_leaks :
  leftover (iperf_sctp_listen sctp_resolve sctp_server)
    (sample_kernel [fine; value 4; fine; fine; fine; fails EINVAL]) = Some (-1, IESTREAMLISTEN, [4], O, []).
Proof. vm_compute. reflexivity. Qed.

Definition sctp_client : iperf_test :=
  on_cmdline (fun c => c <| bind_address := Some (B "::1") |> <| server_hostname := Some (B "::1") |>)
    (on_settings (fun s => s <| socket_bufsize := 65536 |>) (iperf_defaults true iperf_new_test)).

(** The size of a buffer is refused: the list of the local address is lost. *)
Example refused_buffer_leaks :
  leftover (iperf_sctp_connect sctp_resolve sctp_client)
    (mk_kernel ∅ ∅ 0 0 [] [value 4; fails EINVAL]) = Some (-1, IESETBUF, [], 1%nat, []).
Proof. vm_compute. reflexivity. Qed.

Definition xbind_client : iperf_test :=
  on_cmdline (fun c => c <| xbind_addrs := [B "::1"; B "::2"] |>) (iperf_defaults true iperf_new_test).

(** [sctp_bindx] fails: the socket 4 is closed twice. *)
Example failed_bindx_closes_twice :
  leftover (iperf_sctp_connect sctp_resolve xbind_client)
    (mk_kernel ∅ ∅ 0 0 [] [value 4; fine; fails EINVAL]) = Some (-1, IESETSCTPBINDX, [], O, [4]).
Proof. vm_compute. reflexivity. Qed.

(** A client's further addresses have the port that the resolver gave the first
    one, which is 0, not the one that [bind] chose. *)
Example xbind_port_is_zero :
  let a := mk_sockaddr AF_INET6 0 (any_host AF_INET6) 0 in
  bindx_calls sctp_resolve xbind_client false = [Bound a; Bound_more [a]].
Proof. vm_compute. reflexivity. Qed.

(** A connection that ends behind a part of the cookie: what is compared with
    the cookie was never written. *)
Example short_cookie_is_undefined :
  let t := sctp_server <| cookie := sample_cookie |> in
  iperf_sctp_accept t (sample_kernel [mk_answer 0 5 no_addr
    (mk_os false [Data (B "ccc"); Eof] [] (replicate 40 1) (replicate 40 (mk_time 5 0)) [])]) = Undef.
Proof. vm_compute. reflexivity. Qed.
