(* ===== verification/UdpStreams.v ===== *)
(** * UDP streams, the server's listener and the end of a stream's set-up

    [iperf_udp_listen], [iperf_udp_accept], [iperf_udp_connect]
    ([src/iperf_udp.c]), [iperf_server_listen] ([src/iperf_server_api.c]) and
    [iperf_init_stream] ([src/iperf_api.c]) as programs over the kernel of
    [Kernel.v].  The check of the buffers and the recognition of the reply are
    those of [Udp.v]. *)

From S2P Require Import Prelude Errno CInt CDouble CStdio IperfTime Json JsonBuild Net Test Udp Kernel Sockets Tcp.

Definition IP_PMTUDISC_DO : Z := 2.

(** ** Datagrams *)

Definition os_send (s : Z) (buf : bytes) : sys Z :=
  r ← on_data s (fun w => Ok (os_write w buf));
  match r with inl n => mret (Z.of_nat n) | inr e => set_errno e;; mret (-1) end.

(** [recv] on a socket with a receive timeout: when nothing more comes, it fails. *)
Definition dgram_recv (n : nat) (w : os) : outcome (read_result * os) :=
  Ok (match reads w with [] => (Rd_error EAGAIN, w) | _ => os_recv w n 0 end).

Definition os_recv_dgram (s : Z) (n : nat) : sys (Z * bytes) :=
  r ← on_data s (dgram_recv n);
  match r with Rd r d => mret (r, d) | Rd_error e => set_errno e;; mret (-1, []) end.

(** [recvfrom]: also the address of the sender. *)
Definition os_recvfrom (s : Z) (n : nat) : sys (Z * sockaddr) :=
  on_fd (-1, no_addr) s (fun _ => answered (-1, no_addr) (fun a =>
    '(r, _) ← os_recv_dgram s n; mret (r, an_addr a))).

(** ** Buffers *)

(** The system calls of [iperf_udp_buffercheck], up to the one that ends it. *)
Definition buffer_answers_of (test : iperf_test) (s : Z) : sys buffer_answers :=
  let want := socket_bufsize (settings test) in
  r ← set_if (on want) s (SO_RCVBUF want);
  if r <? 0 then mret (mk_buffers false false None None)
  else
    r ← set_if (on want) s (SO_SNDBUF want);
    if r <? 0 then mret (mk_buffers true false None None)
    else
      '(r, snd) ← os_getsockopt s Get_SO_SNDBUF;
      if r <? 0 then mret (mk_buffers true true None None)
      else if on want && (snd <? want) then mret (mk_buffers true true (Some snd) None)
      else
        '(r, rcv) ← os_getsockopt s Get_SO_RCVBUF;
        mret (mk_buffers true true (Some snd) (if r <? 0 then None else Some rcv)).

Definition udp_buffercheck (test : iperf_test) (s : Z) : sys (Z * iperf_test) :=
  a ← buffer_answers_of test s; mret (iperf_udp_buffercheck test a).

(** Default-sized buffers that are too small are enlarged once. *)
Definition udp_buffers (test : iperf_test) (s : Z) : sys (Z * iperf_test) :=
  '(rc, test) ← udp_buffercheck test s;
  if rc <? 0 then mret (rc, test)
  else if (0 <? rc) && (socket_bufsize (settings test) =? 0) then
    udp_buffercheck (on_settings (fun x => x <| socket_bufsize := i32 (blksize x + UDP_BUFFER_EXTRA) |>) test) s
  else mret (rc, test).

(** A word in the order of the host. *)
Definition word (v : Z) : bytes := List.rev (be_split 4 v).

Section Streams.
Context (resolve : hosts).

Definition announce (test : iperf_test) (type : Z) : sys Z :=
  let c := cmdline test in
  netannounce resolve (domain c) type (bind_address c) (bind_dev c) (server_port test).

(** ** [iperf_udp_listen], [iperf_udp_accept] *)

Definition iperf_udp_listen (test : iperf_test) : sys (Z * iperf_test) :=
  s ← announce test Pudp;
  mret (if s <? 0 then failed test IESTREAMLISTEN else (s, test)).

Definition iperf_udp_accept (test : iperf_test) : sys (Z * iperf_test) :=
  let s := prot_listener test in
  '(sz, sa_peer) ← os_recvfrom s 4;
  if sz <? 0 then mret (failed test IESTREAMACCEPT)
  else
    r ← os_connect s sa_peer;
    if r <? 0 then mret (failed test IESTREAMACCEPT)
    else
      '(rc, test) ← udp_buffers test s;
      if rc <? 0 then mret (rc, test)
      else
        fq_pacing test s;;
        let test := test <| read_set ::= (fun x => x ∖ {[s]}) |> in
        p ← announce test Pudp;
        let test := test <| prot_listener := p |> in
        if p <? 0 then mret (failed test IESTREAMLISTEN)
        else
          let test := test <| read_set ::= (fun x => {[p]} ∪ x) |> <| max_fd ::= Z.max p |> in
          r ← os_send s (word UDP_CONNECT_REPLY);
          if r <? 0 then mret (failed test IESTREAMWRITE) else mret (s, test).

(** ** [iperf_udp_connect] *)

(** The loop that waits for the reply; every turn takes one answer. *)
Fixpoint reply_loop (fuel : nat) (s : Z) (buf : bytes) (i max_len_wait_for_reply : Z) : sys Z :=
  match fuel with
  | O => fun _ => NoFuel
  | S fuel' =>
      '(sz, got) ← os_recv_dgram s 4;
      if sz <? 0 then mret (-1)
      else
        let buf := overlay got buf in
        let i := i32 (i + sz) in
        if negb (is_reply buf) && (i <? max_len_wait_for_reply)
        then reply_loop fuel' s buf i max_len_wait_for_reply
        else mret (if is_reply buf then 0 else -1)
  end.

(** The answers that can come on a socket bound the turns of the loop. *)
Definition await_reply (test : iperf_test) (s : Z) : sys Z := fun k =>
  match open_fds k !! s with
  | None => Undef
  | Some sk =>
      reply_loop (S (length (reads (sk_data sk)))) s (word UDP_CONNECT_MSG) 0
        (if on (reverse test) then i32 (4 + MAX_REVERSE_OUT_OF_ORDER_PACKETS * blksize (settings test)) else 4) k
  end.

(** The receive timeout, the connect message and the wait for the reply. *)
Definition introduce (test : iperf_test) (s : Z) : sys (Z * iperf_test) :=
  os_setsockopt s (SO_RCVTIMEO 30);;
  r ← os_send s (word UDP_CONNECT_MSG);
  if r <? 0 then mret (failed test IESTREAMWRITE)
  else
    r ← await_reply test s;
    mret (if r <? 0 then failed test IESTREAMREAD else (s, test)).

Definition iperf_udp_connect (test : iperf_test) : sys (Z * iperf_test) :=
  let c := cmdline test in
  s ← netdial resolve (domain c) Pudp (bind_address c) (bind_dev c) (bind_port test)
        (server_hostname c) (server_port test) (-1);
  if s <? 0 then mret (failed test IESTREAMCONNECT)
  else
    '(rc, test) ← udp_buffers test s;
    if rc <? 0 then mret (rc, test)
    else
      fq_pacing test s;;
      '(_, test) ← iperf_common_sockopts test s;
      introduce test s.

(** ** [iperf_server_listen] *)

(** One turn of [retry]; [None] to go on with IPv4 alone. *)
Definition listen_turn (test : iperf_test) : sys (option (Z * iperf_test) * iperf_test) :=
  s ← announce test Ptcp;
  e ← get_errno;
  let dom := domain (cmdline test) in
  let test := test <| listener := s |> in
  if s <? 0 then
    if (e =? EAFNOSUPPORT) && ((dom =? AF_INET6) || (dom =? AF_UNSPEC))
    then mret (None, on_cmdline (fun c => c <| domain := AF_INET |>) test)
    else mret (Some (failed test IELISTEN), test)
  else
    mret (Some (0, test <| read_set := {[s]} |> <| write_set := ∅ |> <| max_fd ::= Z.max s |>), test).

Fixpoint listen_loop (fuel : nat) (test : iperf_test) : sys (Z * iperf_test) :=
  match fuel with
  | O => fun _ => NoFuel
  | S fuel' =>
      '(r, test) ← listen_turn test;
      match r with Some r => mret r | None => listen_loop fuel' test end
  end.

(** The second turn asks for IPv4 and does not retry. *)
Definition iperf_server_listen (test : iperf_test) : sys (Z * iperf_test) := listen_loop 2 test.
End Streams.

(** ** [iperf_init_stream] *)

(** The addresses go into the stream, whose report alone uses them. *)
Definition iperf_init_stream (sp : iperf_stream) (test : iperf_test) : sys (Z * iperf_test) :=
  let s := sp_socket sp in
  if protocol test =? Pquic then mret (0, test)
  else
    local_addr ← os_getsockname s;
    match local_addr with
    | None => mret (failed test IEINITSTREAM)
    | Some _ =>
        remote_addr ← os_getsockname s;    (* getpeername: the same family *)
        match remote_addr with
        | None => mret (failed test IEINITSTREAM)
        | Some _ =>
            family ← (if protocol test =? Pudp then getsockdomain s else mret (-1));
            if (protocol test =? Pudp) && (family =? AF_INET) && on (dont_fragment (settings test)) then
              r ← os_setsockopt s (IP_MTU_DISCOVER IP_PMTUDISC_DO);
              mret (if r <? 0 then failed test IESETDONTFRAGMENT else (0, test))
            else mret (0, test)
        end
    end.

(** ** Rules *)

Section Rules.
Context (fds : gmap Z sock) (ais : gmap positive addrinfo) (bad : list Z) (s : Z).
Implicit Types (k : kernel) (sk : sock).
Local Abbreviation has sk := (owns (<[s := sk]> fds) ais bad).

(** The data of a socket does not end its being open. *)
Definition with_data (w : os) (sk : sock) : sock := sk <| sk_data := w |>.

Lemma wp_os_send buf sk Q k :
  has sk k →
  (∀ n w k', (n ≤ length buf)%nat → sent w = sent (sk_data sk) ++ take n buf → dgram w = dgram (sk_data sk) →
     has (with_data w sk) k' → Q (Z.of_nat n) k') →
  (∀ w k', sent w = sent (sk_data sk) → has (with_data w sk) k' → Q (-1) k') →
  wp (os_send s buf) Q k.
Proof.
  intros Hk Hok Hno. unfold os_send. apply wp_bind. eapply wp_on_data; [done|].
  destruct (os_write (sk_data sk) buf) as [res w] eqn:Ew. exists res, w. split; [done|]. intros k' Hk'.
  pose proof (os_write_spec _ _ _ _ Ew) as (_ & _ & _ & Hdg & Hs). destruct res as [n|e].
  - destruct Hs as (Hn & Hs). apply wp_ret. by apply (Hok n w).
  - apply wp_bind. eapply wp_set_errno; [done|]. intros k2 Hk2 _. apply wp_ret. by apply (Hno w).
Qed.

Lemma wp_recv_dgram n sk Q k :
  has sk k →
  (∀ r d w k', (reads (sk_data sk) = [] → r = -1) → (length (reads w) ≤ length (reads (sk_data sk)) - 1)%nat →
     dgram w = dgram (sk_data sk) → sent w = sent (sk_data sk) →
     dgram (sk_data sk) = true → has (with_data w sk) k' → Q (r, d) k') →
  dgram (sk_data sk) = true →
  wp (os_recv_dgram s n) Q k.
Proof.
  intros Hk HQ Hd. unfold os_recv_dgram. apply wp_bind. eapply wp_on_data; [done|]. unfold dgram_recv.
  assert (∃ res w, (match reads (sk_data sk) with [] => (Rd_error EAGAIN, sk_data sk)
                    | _ => os_recv (sk_data sk) n 0 end) = (res, w) ∧
      (reads (sk_data sk) = [] → res = Rd_error EAGAIN) ∧
      (length (reads w) ≤ length (reads (sk_data sk)) - 1)%nat ∧ dgram w = dgram (sk_data sk) ∧
      sent w = sent (sk_data sk)) as (res & w & -> & He & Hl & Hdg & Hs).
  { unfold os_recv. destruct (reads (sk_data sk)) as [|[l| |e] rest] eqn:Er.
    - eexists _, _. split; [done|]. rewrite Er. split_and!; [done|cbn; lia|done|done].
    - rewrite Hd. eexists _, _. split; [done|]. cbn. split_and!; [done|lia|done|done].
    - eexists _, _. split; [done|]. cbn. split_and!; [done|lia|done|done].
    - eexists _, _. split; [done|]. cbn. split_and!; [done|lia|done|done]. }
  exists res, w. split; [done|]. intros k' Hk'. destruct res as [r d|e].
  - apply wp_ret. eapply HQ; [|done..]. intros E. by specialize (He E).
  - apply wp_bind. eapply wp_set_errno; [done|]. intros k2 Hk2 _. apply wp_ret. by eapply HQ.
Qed.

(** The loop ends, with a verdict and the socket still open. *)
Lemma wp_reply_loop fuel sk buf i max Q k :
  has sk k → dgram (sk_data sk) = true → (length (reads (sk_data sk)) < fuel)%nat →
  (∀ r w k', r = 0 ∨ r = -1 → sent w = sent (sk_data sk) → has (with_data w sk) k' → Q r k') →
  wp (reply_loop fuel s buf i max) Q k.
Proof.
  revert sk buf i k. induction fuel as [|fuel IH]; intros sk buf i k Hk Hd Hf HQ; [lia|].
  cbn [reply_loop]. apply wp_bind. eapply wp_recv_dgram; [done| |done].
  intros sz got w k' Hemp Hl Hdg Hs _ Hk'. cbv beta iota.
  destruct (sz <? 0) eqn:Esz; [apply wp_ret; eapply HQ; [by right|exact Hs|exact Hk']|].
  cbv zeta. case_goal.
  - apply (IH (with_data w sk)); [done|cbn; congruence| |].
    + bool_to_prop. cbn. destruct (reads (sk_data sk)) eqn:Er; [by specialize (Hemp eq_refl); lia|]. cbn in *. lia.
    + intros r w2 k2 Hr Hs2 Hk2. apply (HQ r w2); [done| |done]. cbn in Hs2. congruence.
  - apply wp_ret. eapply HQ; [|exact Hs|exact Hk']. case_goal; [by left|by right].
Qed.

(** What the buffers do not touch. *)
Definition same_setup (t t' : iperf_test) : Prop :=
  cmdline t' = cmdline t ∧ server_port t' = server_port t ∧ prot_listener t' = prot_listener t.

Lemma buffercheck_setup test a : same_setup test (snd (iperf_udp_buffercheck test a)).
Proof. unfold iperf_udp_buffercheck, same_setup. by repeat case_goal. Qed.

Lemma wp_udp_buffercheck test sk Q k :
  has sk k →
  (∀ rc t l k', has (with_calls l sk) k' → same_setup test t → (0 ≤ rc → l = buffer_calls test) → Q (rc, t) k') →
  wp (udp_buffercheck test s) Q k.
Proof.
  intros Hk HQ. unfold udp_buffercheck. apply wp_bind.
  assert (∀ a l k', has (with_calls l sk) k' →
    (0 ≤ (iperf_udp_buffercheck test a).1 → l = buffer_calls test) → Q (iperf_udp_buffercheck test a) k') as Hret.
  { intros a l k' Hk' Hl. pose proof (buffercheck_setup test a) as Hs.
    destruct (iperf_udp_buffercheck test a) as [rc t]. by eapply HQ. }
  unfold buffer_answers_of. set (want := socket_bufsize (settings test)).
  assert (∀ n s r, on want = true → (iperf_udp_buffercheck test (mk_buffers n false s r)).1 = -1) as Hno.
  { intros n s0 r Hw. unfold iperf_udp_buffercheck. fold want. unfold on in Hw. by rewrite Hw, andb_false_r. }
  assert (on want = false → buffer_calls test = []) as Hnil by (intros E; unfold buffer_calls; fold want; by rewrite E).
  apply wp_bind. eapply wp_set_if; [done|intros k1 Hk1|intros k1 Hk1].
  2: { cbn. apply wp_ret, wp_ret. eapply (Hret _ []); [by rewrite with_calls_nil|].
       destruct (on want) eqn:Ew; [rewrite Hno by done; lia|by rewrite Hnil]. }
  cbn beta iota. change (0 <? 0) with false. cbn iota.
  apply wp_bind. eapply wp_set_if; [done|intros k2 Hk2|intros k2 Hk2].
  2: { cbn. apply wp_ret, wp_ret. eapply (Hret _ _ _ Hk2).
       destruct (on want) eqn:Ew; [rewrite Hno by done; lia|by rewrite Hnil]. }
  cbn beta iota. change (0 <? 0) with false. cbn iota. rewrite with_calls_app in Hk2.
  assert (∀ a k', has (with_calls (option_call (on want) (SO_RCVBUF want) ++ option_call (on want) (SO_SNDBUF want)) sk) k' →
    Q (iperf_udp_buffercheck test a) k') as Hret' by (intros; by eapply Hret).
  sys_steps; by eapply Hret'.
Qed.

Lemma wp_udp_buffers test sk Q k :
  has sk k →
  (∀ rc t l k', has (with_calls l sk) k' → same_setup test t →
     (0 ≤ rc → ∃ l2, l = buffer_calls test ++ l2) → Q (rc, t) k') →
  wp (udp_buffers test s) Q k.
Proof.
  intros Hk HQ. unfold udp_buffers. apply wp_bind. eapply wp_udp_buffercheck; [done|].
  intros rc t l k1 Hk1 Hs Hl. cbn beta iota. destruct (rc <? 0) eqn:E1; [|destruct ((0 <? rc) && _) eqn:E2]; bool_to_prop.
  - apply wp_ret. eapply HQ; [done|done|lia].
  - eapply wp_udp_buffercheck; [done|]. intros rc2 t2 l2 k2 Hk2 Hs2 Hl2. rewrite with_calls_app in Hk2.
    eapply HQ; [done| |].
    + unfold same_setup in *. destruct Hs as (<- & <- & <-), Hs2 as (-> & -> & ->). done.
    + intros _. exists l2. by rewrite Hl by lia.
  - apply wp_ret. eapply HQ; [done|done|]. intros _. exists []. by rewrite app_nil_r, Hl by lia.
Qed.

Lemma wp_introduce test sk Q k :
  has sk k → sent (sk_data sk) = [] → dgram (sk_data sk) = true →
  (∀ r t n l w k', r = s ∨ r = -1 → sent w = take n (word UDP_CONNECT_MSG) →
     has (with_data w (with_calls l sk)) k' → Q (r, t) k') →
  wp (introduce test s) Q k.
Proof.
  intros Hk Hw Hd HQ. unfold introduce.
  assert (∀ l k', has (with_calls l sk) k' → wp (
    r ← os_send s (word UDP_CONNECT_MSG);
    if r <? 0 then mret (failed test IESTREAMWRITE)
    else r ← await_reply test s; mret (if r <? 0 then failed test IESTREAMREAD else (s, test))) Q k') as Hgo.
  { intros l k1 Hk1. apply wp_bind. eapply wp_os_send; [exact Hk1| |].
    - intros n w k2 _ Hs Hdg Hk2. ztest. apply wp_bind.
      set (sk' := with_data w (with_calls l sk)) in *.
      assert (∀ Q', wp (reply_loop (S (length (reads (sk_data sk')))) s (word UDP_CONNECT_MSG) 0
        (if on (reverse test) then i32 (4 + MAX_REVERSE_OUT_OF_ORDER_PACKETS * blksize (settings test)) else 4)) Q' k2 →
        wp (await_reply test s) Q' k2) as Hawait.
      { intros Q' (r & k3 & Hr & HQ'). exists r, k3. split; [|done]. unfold await_reply.
        destruct Hk2 as (-> & _). by rewrite lookup_insert_eq. }
      apply Hawait. eapply wp_reply_loop; [exact Hk2|cbn; rewrite Hdg; done|lia|].
      intros r w2 k3 Hr Hs2 Hk3. apply wp_ret. cbn in Hs, Hs2. rewrite Hs, Hw in Hs2.
      destruct Hr as [-> | ->]; cbn; eapply (HQ _ _ n l w2); [by left| | |by right| |]; done.
    - intros w k2 Hs Hk2. cbn. apply wp_ret. eapply (HQ _ _ O); [by right| |exact Hk2].
      cbn in Hs. by rewrite Hs. }
  apply wp_bind. eapply wp_noted; [done|intros k1 Hk1|intros k1 Hk1 _].
  - rewrite did_with_calls in Hk1. by eapply Hgo.
  - eapply (Hgo []). by rewrite with_calls_nil.
Qed.

Lemma wp_recvfrom n sk Q k :
  has sk k → dgram (sk_data sk) = true →
  (∀ r a w k', sent w = sent (sk_data sk) → has (with_data w sk) k' → Q (r, a) k') →
  wp (os_recvfrom s n) Q k.
Proof.
  intros Hk Hd HQ. unfold os_recvfrom. eapply wp_on_fd; [done|apply lookup_insert_eq|].
  apply (wp_answered _ _ _ _ _ _ _ Hk).
  - intros a k1 Hk1 _. apply wp_bind. eapply wp_recv_dgram; [done| |done].
    intros r d w k2 _ _ _ Hs _ Hk2. apply wp_ret. by eapply HQ.
  - intros k1 Hk1 _. apply (HQ _ _ (sk_data sk)); [done|].
    by replace (with_data (sk_data sk) sk) with sk by (by destruct sk).
Qed.
End Rules.



(** ** Properties *)

Lemma wp_udp_connect resolve test k :
  wp (iperf_udp_connect resolve test)
    (fun '(r, t) k' =>
       (r = -1 ∧ i_errno t = IESTREAMCONNECT ∧ unchanged k k') ∨
       ∃ s sk, one_more k s sk k' ∧ sk_type sk = SOCK_DGRAM ∧ (r = s ∨ r < 0) ∧
         ∃ n, sent (sk_data sk) = take n (word UDP_CONNECT_MSG)) k.
Proof.
  unfold iperf_udp_connect. apply wp_bind. eapply wp_netdial; [apply owns_self| |].
  { intros k' Hk'. cbn. apply wp_ret. by left. }
  intros s ai c f w k1 Hs Hfree [Hw Hd] Hr Hk1 _. cbn beta. ztest.
  change (Pudp =? SOCK_DGRAM) with true in Hd.
  assert (∀ sk k' r t n, owns (<[s := sk]> (open_fds k)) (infos k) (bad_fds k) k' →
    sk_type sk = SOCK_DGRAM → (r = s ∨ r < 0) → sent (sk_data sk) = take n (word UDP_CONNECT_MSG) →
    (r = -1 ∧ i_errno t = IESTREAMCONNECT ∧ unchanged k k') ∨
       ∃ s sk, one_more k s sk k' ∧ sk_type sk = SOCK_DGRAM ∧ (r = s ∨ r < 0) ∧
         ∃ n, sent (sk_data sk) = take n (word UDP_CONNECT_MSG)) as Hopen.
  { intros sk k' r t n Hk' Ht Hrs Hsent. right. exists s, sk. split; [done|]. split; [done|]. split; [done|]. by exists n. }
  apply wp_bind. eapply wp_udp_buffers; [done|]. intros rc t1 l1 k2 Hk2 _ _. cbn beta iota.
  destruct (rc <? 0) eqn:Erc; bool_to_prop.
  { apply wp_ret. eapply (Hopen _ _ _ _ O Hk2); [done|by right|done]. }
  apply wp_bind. eapply wp_fq_pacing; [done|]. intros l2 k3 _ Hk3.
  apply wp_bind. eapply wp_common_sockopts; [done|]. intros l3 r3 t3 k4 _ _ Hk4. cbn beta iota.
  eapply wp_introduce; [exact Hk4|exact Hw|exact Hd|].
  intros r t n l w' k5 Hrs Hs5 Hk5. eapply (Hopen _ _ _ _ n Hk5); [done| |exact Hs5].
  destruct Hrs as [-> | ->]; [by left|by right].
Qed.

(** What [iperf_udp_accept] leaves: [s] is the socket that was waiting for clients. *)
Definition udp_accepted (test : iperf_test) (k : kernel) (r : Z) (t : iperf_test) (k' : kernel) : Prop :=
  let s := prot_listener test in
  let p := prot_listener t in
  ∃ sk,
    let one := <[s := sk]> (delete s (open_fds k)) in
    (r < 0 ∧ p = s ∧ owns one (infos k) (bad_fds k) k') ∨
    (r = -1 ∧ i_errno t = IESTREAMLISTEN ∧ p = -1 ∧ owns one (infos k) (bad_fds k) k') ∨
    (one !! p = None ∧ 0 ≤ p ∧
     (∃ ai w, owns (<[p := announced (domain (cmdline test)) Pudp (bind_dev (cmdline test)) ai w]> one)
                (infos k) (bad_fds k) k') ∧
     (∃ a, sk_peer sk = Connected a) ∧
     ((r = s ∧ ∃ n, sent (sk_data sk) = take n (word UDP_CONNECT_REPLY)) ∨ (r = -1 ∧ i_errno t = IESTREAMWRITE))).

Lemma wp_udp_accept resolve test k sk0 :
  open_fds k !! prot_listener test = Some sk0 → 0 ≤ prot_listener test →
  dgram (sk_data sk0) = true → sent (sk_data sk0) = [] →
  wp (iperf_udp_accept resolve test) (fun '(r, t) k' => udp_accepted test k r t k') k.
Proof.
  intros Hsk Hpos Hd Hw. set (s := prot_listener test). set (F := delete s (open_fds k)).
  assert (F !! s = None) as HF by apply lookup_delete_eq.
  assert (owns (<[s := sk0]> F) (infos k) (bad_fds k) k) as Hk.
  { unfold F. rewrite insert_delete_id by done. apply owns_self. }
  assert (∀ r t sk k', owns (<[s := sk]> F) (infos k) (bad_fds k) k' → r < 0 → prot_listener t = s →
            udp_accepted test k r t k') as Hearly.
  { intros r t sk k' Hk' Hr Ht. exists sk. left. done. }
  unfold iperf_udp_accept. fold s. apply wp_bind. eapply wp_recvfrom; [exact Hk|exact Hd|].
  intros sz a w k1 Hs1 Hk1. cbn beta iota. destruct (sz <? 0) eqn:Esz.
  { apply wp_ret. by eapply Hearly. }
  apply wp_bind. eapply wp_connect; [exact Hk1|intros k2 Hk2|intros k2 Hk2 _|intros k2 Hk2 _]; cbn beta.
  2,3: change (-1 <? 0) with true; cbn iota; apply wp_ret; by eapply Hearly.
  change (0 <? 0) with false; cbn iota.
  apply wp_bind. eapply wp_udp_buffers; [exact Hk2|]. intros rc t l k3 Hk3 (Ht1 & Ht2 & Ht3) _. cbn beta iota.
  destruct (rc <? 0) eqn:Erc; bool_to_prop.
  { apply wp_ret. eapply Hearly; [exact Hk3|done|done]. }
  apply wp_bind. eapply wp_fq_pacing; [exact Hk3|]. intros l2 k4 _ Hk4. rewrite with_calls_app in Hk4.
  apply wp_bind. unfold announce. eapply wp_netannounce; [exact Hk4| |].
  { intros k5 Hk5. cbn. apply wp_ret. eexists. right. left. done. }
  intros p ai w5 k5 Hp Hfree _ Hk5. cbn beta zeta. ztest.
  change (domain (cmdline (t <| read_set ::= (fun x => x ∖ {[s]}) |>))) with (domain (cmdline t)) in Hk5.
  change (bind_dev (cmdline (t <| read_set ::= (fun x => x ∖ {[s]}) |>))) with (bind_dev (cmdline t)) in Hk5.
  rewrite Ht1 in Hk5.
  apply lookup_insert_None in Hfree as [HFp Hps].
  rewrite insert_insert_ne in Hk5 by done.
  apply wp_bind. eapply wp_os_send; [exact Hk5| |].
  - intros n w6 k6 _ Hs6 _ Hk6. ztest. apply wp_ret. rewrite insert_insert_ne in Hk6 by done.
    eexists. right. right. fold s. split; [|split; [exact Hp|split; [by eexists ai, w5; exact Hk6|split]]].
    + cbn. fold F. by rewrite lookup_insert_ne.
    + by exists a.
    + left. split; [done|]. exists n. cbn in Hs6. rewrite Hs1, Hw in Hs6. exact Hs6.
  - intros w6 k6 Hs6 Hk6. cbn beta iota. change (-1 <? 0) with true. cbn iota. apply wp_ret.
    rewrite insert_insert_ne in Hk6 by done.
    eexists. right. right. fold s. split; [|split; [exact Hp|split; [by eexists ai, w5; exact Hk6|split]]].
    + cbn. fold F. by rewrite lookup_insert_ne.
    + by exists a.
    + by right.
Qed.

(** [iperf_udp_connect] dials at most one socket and never closes it: the
    result is -1 with nothing left over only when [netdial] failed; on every
    later way out exactly one new datagram socket is open, over which nothing
    but (a part of) the connect message was sent, and it is either the
    result or, when the result is an error, a descriptor that no field of the
    test names: it is lost.  The wait for the reply always ends. *)
Theorem udp_connect_keeps_socket resolve test k :
  ∃ r t k', iperf_udp_connect resolve test k = Ok ((r, t), k') ∧
    ((r = -1 ∧ i_errno t = IESTREAMCONNECT ∧ unchanged k k') ∨
     ∃ s sk, one_more k s sk k' ∧ sk_type sk = SOCK_DGRAM ∧ (r = s ∨ r < 0) ∧
       ∃ n, sent (sk_data sk) = take n (word UDP_CONNECT_MSG)).
Proof. destruct (wp_udp_connect resolve test k) as ([r t] & k' & Hr & HQ). by exists r, t, k'. Qed.

(** [iperf_udp_accept], called with an open waiting socket: on success the
    result is that socket, now connected to the client whose datagram it read
    and over which the reply was sent, and [prot_listener] is a new socket
    announced in its place; on an early failure the waiting socket is still
    the listener; when the new announcement or the reply fails, the waiting
    socket stays open while [prot_listener] names another descriptor or
    none. *)
Theorem udp_accept_outcome resolve test k sk0 :
  open_fds k !! prot_listener test = Some sk0 → 0 ≤ prot_listener test →
  dgram (sk_data sk0) = true → sent (sk_data sk0) = [] →
  ∃ r t k', iperf_udp_accept resolve test k = Ok ((r, t), k') ∧ udp_accepted test k r t k'.
Proof.
  intros Hsk Hpos Hd Hw. destruct (wp_udp_accept resolve test k sk0 Hsk Hpos Hd Hw) as ([r t] & k' & Hr & HQ).
  by exists r, t, k'.
Qed.

Definition sample_udp_kernel (l : list answer) : kernel :=
  mk_kernel {[4 := mk_sock AF_INET6 SOCK_DGRAM 0 0 [] Unconnected
                     (mk_os true [Data (word UDP_CONNECT_MSG)] [Accept 4] [] [] [])]} ∅ 0 0 [] l.

Lemma udp_accept_outcome_witness :
  let t := (iperf_defaults false iperf_new_test) <| prot_listener := 4 |> in
  let k := sample_udp_kernel [] in
  ∃ r t' k', iperf_udp_accept sample_resolve t k = Ok ((r, t'), k') ∧ udp_accepted t k r t' k'.
Proof.
  intros t k. eapply (udp_accept_outcome sample_resolve t k);
    [vm_compute; reflexivity|vm_compute; congruence|vm_compute; reflexivity|vm_compute; reflexivity].
Defined.

Lemma wp_listen_turn resolve test k :
  wp (listen_turn resolve test)
    (fun '(r, t) k' =>
       match r with
       | None => unchanged k k' ∧ domain (cmdline test) ≠ AF_INET ∧
                 t = on_cmdline (fun c => c <| domain := AF_INET |>) (test <| listener := -1 |>)
       | Some (r, t') =>
           (r = -1 ∧ unchanged k k' ∧ i_errno t' = IELISTEN ∧ listener t' = -1) ∨
           (r = 0 ∧ ∃ ai w, one_more k (listener t')
              (announced (domain (cmdline test)) Ptcp (bind_dev (cmdline test)) ai w) k' ∧
              read_set t' = {[listener t']} ∧ cmdline t' = cmdline test)
       end) k.
Proof.
  unfold listen_turn, announce. apply wp_bind. eapply wp_netannounce; [apply owns_self| |].
  - intros k' Hk'. sys_steps.
    + split; [done|split; [|done]]. intros E. rewrite E in Heqb. by rewrite andb_false_r in Heqb.
    + by left.
  - intros s ai w k' Hs Hfree _ Hk'. sys_steps. right. split; [done|]. exists ai, w. split; [split_and!; [done|done|exact Hk']|done].
Qed.

(** C36: [iperf_server_listen] ends: it tries at most twice, the second time with
    IPv4 alone (an explicit [-4] is never retried), and either returns 0 with
    one new listening socket, which is [test->listener] and the one descriptor
    [select] waits on, or -1 with [IELISTEN], no listener and nothing open. *)
Theorem server_listen_ends resolve test k :
  ∃ r t k', iperf_server_listen resolve test k = Ok ((r, t), k') ∧
    ((r = -1 ∧ unchanged k k' ∧ i_errno t = IELISTEN ∧ listener t = -1) ∨
     (r = 0 ∧ read_set t = {[listener t]} ∧
      (domain (cmdline t) = domain (cmdline test) ∨ domain (cmdline t) = AF_INET) ∧
      ∃ ai w, one_more k (listener t) (announced (domain (cmdline t)) Ptcp (bind_dev (cmdline t)) ai w) k')).
Proof.
  unfold iperf_server_listen. cbn [listen_loop].
  destruct (wp_listen_turn resolve test k) as ([[[r t']|] t] & k1 & Hrun & HQ); cbv [mbind sys_bind outcome_bind]; rewrite Hrun.
  - exists r, t', k1. split; [done|]. destruct HQ as [HQ|(-> & ai & w & Hone & Hrs & Hc)]; [by left|right].
    rewrite Hc. split_and!; [done|done|by left|by exists ai, w].
  - destruct HQ as ((Ho & Hi & Hb) & Hne & ->).
    destruct (wp_listen_turn resolve (on_cmdline (fun c => c <| domain := AF_INET |>) (test <| listener := -1 |>)) k1)
      as ([[[r t']|] t2] & k2 & Hrun2 & HQ2); rewrite Hrun2; [|by destruct HQ2 as (_ & [] & _)].
    exists r, t', k2. split; [done|]. unfold unchanged, one_more in HQ2. rewrite Ho, Hi, Hb in HQ2.
    destruct HQ2 as [HQ2|(-> & ai & w & Hone & Hrs & Hc)]; [by left|right].
    rewrite Hc. split_and!; [done|done|by right|by exists ai, w].
Qed.
