(* ===== verification/Streams.v ===== *)
(** * The resources of a stream ([iperf_new_stream], [iperf_free_stream])

    A stream owns two blocks of memory, a temporary file that is mapped as its
    buffer, and with [-F] a descriptor of the file that is sent or written.  The
    [machine] keeps track of what the process holds; the answers of the system
    to each request are a script.  Also the random bytes and the pattern that
    fill the buffer, and the cookie ([src/iperf_util.c]).  The stream's send
    timer is cancelled by [tmr_cancel] ([Timer.v]), and over QUIC
    [iperf_free_stream] begins with [iperf_quic_stream_cleanup] ([QuicTest.v]). *)

From S2P Require Import Prelude Errno CInt CDouble CStdio IperfTime Json Net Test Endpoint.
From S2P Require Import Kernel Sockets Tcp UdpStreams.

(** ** What fills a buffer *)

(** [buf[i] = '0' + counter], counting from 0 to 9 and again from 0. *)
Fixpoint fill_from (n : nat) (counter : Z) : bytes :=
  match n with
  | O => []
  | S n => chr (48 + counter) :: fill_from n (if 9 <=? counter then 0 else counter + 1)
  end.

Definition fill_with_repeating_pattern (outsize : nat) : bytes := fill_from outsize 0.

Definition rndchars : bytes := B "abcdefghijklmnopqrstuvwxyz234567".

(** The cookie made of [COOKIE_SIZE] random bytes; its last byte ends it. *)
Definition make_cookie (random : bytes) : bytes :=
  map (fun c => nth (Z.to_nat (u8 c mod 32)) rndchars NUL) (take (COOKIE_SIZE - 1) random) ++ [NUL].

(** ** What a process holds *)

Record machine := mk_machine {
  kern : kernel;                  (* sockets and errno *)
  files : gset Z;                 (* descriptors of regular files *)
  mappings : gset positive;
  heap : gset positive;           (* blocks of [malloc] *)
  temp_files : gset positive;     (* names left in the directory for temporary files *)
  refusals : list Z;              (* the answers to come: 0 or an [errno] *)
  urandom : option bytes          (* what /dev/urandom delivers, if it can be opened *)
}.
#[export] Instance eta_machine : Settable machine := fun m =>
  mk_machine (kern m) (files m) (mappings m) (heap m) (temp_files m) (refusals m) (urandom m).

(** [None] as a result: the process has exited. *)
Definition proc (A : Type) : Type := machine → outcome (option A * machine).

#[export] Instance proc_ret : MRet proc := fun A a m => Ok (Some a, m).
#[export] Instance proc_bind : MBind proc := fun A B f x m =>
  '(a, m) ← x m; match a with Some a => f a m | None => Ok (None, m) end.

Definition exit_process {A} : proc A := fun m => Ok (None, m).

Definition on_kernel {A} (x : sys A) : proc A := fun m =>
  '(a, k) ← x (kern m); Ok (Some a, m <| kern := k |>).

(** A request that the system refuses or carries out. *)
Definition request {A} (refused : A) (f : proc A) : proc A := fun m =>
  match refusals m with
  | [] => f m
  | e :: l =>
      let m := m <| refusals := l |> in
      if e =? 0 then f m else Ok (Some refused, m <| kern ::= (fun k => k <| k_errno := e |>) |>)
  end.

(** The next descriptor: above all that are in use. *)
Definition next_fd (m : machine) : Z :=
  1 + foldr Z.max 0 (elements (files m ∪ dom (open_fds (kern m)))).

Definition new_file : proc Z := fun m =>
  let fd := next_fd m in Ok (Some fd, m <| files ::= (fun s => {[fd]} ∪ s) |>).

Definition malloc : proc (option positive) :=
  request None (fun m => let p := fresh (heap m) in Ok (Some (Some p), m <| heap ::= (fun s => {[p]} ∪ s) |>)).

Definition free (p : positive) : proc () := fun m =>
  if decide (p ∈ heap m) then Ok (Some (), m <| heap ::= (fun s => s ∖ {[p]}) |>) else Undef.

Definition new_name : proc positive := fun m =>
  let name := fresh (temp_files m) in Ok (Some name, m <| temp_files ::= (fun s => {[name]} ∪ s) |>).

(** A file of its own; the template must end in six X; the result is the descriptor and the name. *)
Definition mkstemp (template : bytes) : proc (Z * positive) :=
  if decide (B "XXXXXX" `suffix_of` template) then
    request (-1, 1%positive) (fd ← new_file; name ← new_name; mret (fd, name))
  else mret (-1, 1%positive).

Definition unlink (name : positive) : proc Z :=
  request (-1) (fun m => Ok (Some 0, m <| temp_files ::= (fun s => s ∖ {[name]}) |>)).

Definition ftruncate : proc Z := request (-1) (mret 0).

Definition mmap : proc (option positive) :=
  request None (fun m => let p := fresh (mappings m) in Ok (Some (Some p), m <| mappings ::= (fun s => {[p]} ∪ s) |>)).

Definition munmap (p : positive) : proc () := fun m =>
  if decide (p ∈ mappings m) then Ok (Some (), m <| mappings ::= (fun s => s ∖ {[p]}) |>) else Undef.

Definition open_file : proc Z := request (-1) new_file.

(** A descriptor that is not open is noted, as in [Kernel.v]. *)
Definition close_file (fd : Z) : proc () := fun m =>
  if decide (fd ∈ files m) then Ok (Some (), m <| files ::= (fun s => s ∖ {[fd]}) |>)
  else Ok (Some (), m <| kern ::= (fun k => k <| k_errno := EBADF |> <| bad_fds ::= (fun l => l ++ [fd]) |>) |>).

(** Errors are fatal. *)
Definition readentropy (outsize : nat) : proc bytes := fun m =>
  if decide (outsize = O) then Ok (Some [], m)
  else match urandom m with
  | None => Ok (None, m)
  | Some l =>
      if decide (length l < outsize)%nat then Ok (None, m)
      else Ok (Some (take outsize l), m <| urandom := Some (drop outsize l) |>)
  end.

(** ** [iperf_new_stream] *)

(** What the stream's pointers and descriptors are. *)
Record stream_parts := mk_parts {
  block : positive;          (* the stream itself *)
  result_block : positive;
  buffer : positive;         (* the mapping *)
  buffer_fd : Z;
  diskfile_fd : Z
}.

(** [memset(sp, 0, ...)], its result likewise. *)
Definition zero_stream : iperf_stream :=
  mk_stream 0 0 false 0 (mk_result 0 0 0 0 0 0 0 zero_time zero_time zero_time D0 D0 [])
    false [] 0 0 0 0 0 D0 D0 0 0 0 0 0.

Section New_stream.
(** [test->tmp_template], the environment, and [iperf_quic_attach_stream]. *)
Context (tmp_template : option bytes) (getenv : bytes → option bytes) (quic_attach : Z → Z).

Definition tempdir : bytes :=
  match getenv (B "TMPDIR"), getenv (B "TEMP"), getenv (B "TMP") with
  | Some d, _, _ => d
  | None, Some d, _ => d
  | None, None, Some d => d
  | None, None, None => B "/tmp"
  end.

(** [char template[1024]] *)
Definition template : bytes :=
  take 1023 match tmp_template with Some t => t | None => tempdir ++ B "/iperf3.XXXXXX" end.

Definition no_stream (test : iperf_test) (e : Z) : option (iperf_stream * stream_parts) * iperf_test :=
  (None, test <| i_errno := e |>).

(** The file of [-F]; -1 without one. *)
Definition open_diskfile (test : iperf_test) : proc (option Z) :=
  match diskfile_name test with
  | None => mret (Some (-1))
  | Some _ => fd ← open_file; mret (if fd =? -1 then None else Some fd)
  end.

Definition fill_buffer (test : iperf_test) : proc bytes :=
  let size := Z.to_nat (blksize (settings test)) in
  if negb (repeating_payload test =? 0) then mret (fill_with_repeating_pattern size) else readentropy size.

(** From the open files on. *)
Definition start_stream (test : iperf_test) (s : Z) (sender : bool) (sp result p : positive) (fd disk : Z)
  : proc (option (iperf_stream * stream_parts) * iperf_test) :=
  data ← fill_buffer test;
  let stream := zero_stream <| sp_sender := sender |> <| sp_socket := s |> <| sp_buffer := data |> in
  '(r, test) ← on_kernel (iperf_init_stream stream test);
  if r <? 0 then
    close_file fd;; munmap p;; free result;; free sp;; mret (None, test)
  else mret (Some (stream, mk_parts sp result p fd disk), iperf_add_stream test stream).

(** From the mapped buffer on. *)
Definition complete_stream (test : iperf_test) (s : Z) (sender : bool) (sp result p : positive) (fd : Z)
  : proc (option (iperf_stream * stream_parts) * iperf_test) :=
  if (protocol test =? Pquic) && (quic_attach s <? 0) then
    close_file fd;; munmap p;; free result;; free sp;; mret (None, test)
  else
    disk ← open_diskfile test;
    match disk with
    | None => munmap p;; free result;; free sp;; mret (no_stream test IEFILE)
    | Some disk => start_stream test s sender sp result p fd disk
    end.

Definition iperf_new_stream (test : iperf_test) (s : Z) (sender : bool)
  : proc (option (iperf_stream * stream_parts) * iperf_test) :=
  let none := no_stream test IECREATESTREAM in
  sp ← malloc;
  match sp with
  | None => mret none
  | Some sp =>
      result ← malloc;
      match result with
      | None => free sp;; mret none
      | Some result =>
          let give_back := free result;; free sp;; mret none in
          '(fd, name) ← mkstemp template;
          if fd =? -1 then give_back
          else
            r ← unlink name;
            if r <? 0 then give_back
            else
              r ← ftruncate;
              if r <? 0 then give_back
              else
                p ← mmap;
                match p with
                | None => give_back
                | Some p => complete_stream test s sender sp result p fd
                end
      end
  end.
End New_stream.

(** ** [iperf_free_stream] *)

(** The intervals go with the result. *)
Definition iperf_free_stream (parts : stream_parts) : proc () :=
  munmap (buffer parts);;
  close_file (buffer_fd parts);;
  (if 0 <=? diskfile_fd parts then close_file (diskfile_fd parts) else mret ());;
  free (result_block parts);;
  free (block parts).

(** ** Filling *)

Lemma fill_from_spec n c i :
  0 ≤ c ≤ 9 → (i < n)%nat → fill_from n c !! i = Some (chr (48 + (c + Z.of_nat i) mod 10)).
Proof.
  revert c i. induction n as [|n IH]; intros c i Hc Hi; [lia|]. destruct i as [|i]; cbn [fill_from lookup list_lookup].
  { by rewrite Z.add_0_r, Z.mod_small by lia. }
  case_goal; bool_to_prop; (rewrite IH by lia); do 3 f_equal.
  - replace (c + Z.of_nat (S i)) with (0 + Z.of_nat i + 1 * 10) by lia. by rewrite Z.mod_add.
  - f_equal. lia.
Qed.

Lemma fill_from_length n c : length (fill_from n c) = n.
Proof. revert c. induction n as [|n IH]; intros c; cbn; [done|by rewrite IH]. Qed.

(** ** Rules *)

Definition wpp {A} (x : proc A) (Q : option A → machine → Prop) (m : machine) : Prop :=
  ∃ a m', x m = Ok (a, m') ∧ Q a m'.

Lemma wpp_ret {A} (a : A) Q m : Q (Some a) m → wpp (mret a) Q m.
Proof. intros HQ. by exists (Some a), m. Qed.

Lemma wpp_bind {A C} (x : proc C) (f : C → proc A) Q m :
  wpp x (fun c m' => match c with Some c => wpp (f c) Q m' | None => Q None m' end) m → wpp (x ≫= f) Q m.
Proof.
  intros (c & m' & Hx & Hc). unfold wpp. cbv [mbind proc_bind outcome_bind]. rewrite Hx.
  destruct c as [c|]; [exact Hc|by exists None, m'].
Qed.

Lemma next_fd_free m : 0 ≤ next_fd m ∧ next_fd m ∉ files m ∧ next_fd m ∉ dom (open_fds (kern m)).
Proof.
  unfold next_fd. set (l := elements _).
  assert (∀ x, x ∈ l → x ≤ foldr Z.max 0 l) as Hmax.
  { induction l as [|y l IH]; intros x; [by intros ?%elem_of_nil|].
    intros [->|Hx]%elem_of_cons; cbn; [lia|]. specialize (IH x Hx). lia. }
  assert (0 ≤ foldr Z.max 0 l) by (clearbody l; clear Hmax; induction l; cbn; lia).
  assert (1 + foldr Z.max 0 l ∉ files m ∪ dom (open_fds (kern m))) as Hn.
  { intros Hin. apply elem_of_elements in Hin. fold l in Hin. specialize (Hmax _ Hin). lia. }
  set_solver by lia.
Qed.

Section Rules.
Context (sockets : gset Z) (ais : gmap positive addrinfo) (bad : list Z).

(** What the process holds. *)
Definition has (F : gset Z) (M H T : gset positive) (m : machine) : Prop :=
  files m = F ∧ mappings m = M ∧ heap m = H ∧ temp_files m = T ∧
  dom (open_fds (kern m)) = sockets ∧ infos (kern m) = ais ∧ bad_fds (kern m) = bad.

Context (F : gset Z) (M H T : gset positive).

Lemma wpp_request {A} (refused : A) f Q m :
  has F M H T m → (∀ m', has F M H T m' → Q (Some refused) m') → (∀ m', has F M H T m' → wpp f Q m') →
  wpp (request refused f) Q m.
Proof.
  intros Hm Hno Hok. unfold wpp, request. destruct (refusals m) as [|e l]; [by apply Hok|].
  assert (has F M H T (m <| refusals := l |>)) as Hm' by done. case_goal; [by apply Hok|].
  eexists _, _. split; [reflexivity|]. by apply Hno.
Qed.

Lemma wpp_malloc Q m :
  has F M H T m → (∀ m', has F M H T m' → Q (Some None) m') →
  (∀ p m', p ∉ H → has F M ({[p]} ∪ H) T m' → Q (Some (Some p)) m') → wpp malloc Q m.
Proof.
  intros Hm Hno Hok. apply wpp_request; [done|done|]. intros m' (<- & <- & <- & <- & Hm').
  eexists _, _. split; [reflexivity|]. by apply Hok; [apply is_fresh|].
Qed.

Lemma wpp_free p Q m :
  has F M H T m → p ∈ H → (∀ m', has F M (H ∖ {[p]}) T m' → Q (Some ()) m') → wpp (free p) Q m.
Proof.
  intros (<- & <- & <- & <- & Hm) Hp HQ. eexists _, _. split; [unfold free; by rewrite decide_True|]. by apply HQ.
Qed.

Lemma wpp_mmap Q m :
  has F M H T m → (∀ m', has F M H T m' → Q (Some None) m') →
  (∀ p m', p ∉ M → has F ({[p]} ∪ M) H T m' → Q (Some (Some p)) m') → wpp mmap Q m.
Proof.
  intros Hm Hno Hok. apply wpp_request; [done|done|]. intros m' (<- & <- & <- & <- & Hm').
  eexists _, _. split; [reflexivity|]. by apply Hok; [apply is_fresh|].
Qed.

Lemma wpp_munmap p Q m :
  has F M H T m → p ∈ M → (∀ m', has F (M ∖ {[p]}) H T m' → Q (Some ()) m') → wpp (munmap p) Q m.
Proof.
  intros (<- & <- & <- & <- & Hm) Hp HQ. eexists _, _. split; [unfold munmap; by rewrite decide_True|]. by apply HQ.
Qed.

Lemma wpp_new_file Q m :
  has F M H T m → (∀ fd m', 0 ≤ fd → fd ∉ F → has ({[fd]} ∪ F) M H T m' → Q (Some fd) m') → wpp new_file Q m.
Proof.
  intros (<- & <- & <- & <- & Hm) HQ. eexists _, _. split; [reflexivity|].
  destruct (next_fd_free m) as (H0 & Hf & _). by apply HQ.
Qed.

Lemma wpp_close_file fd Q m :
  has F M H T m → fd ∈ F → (∀ m', has (F ∖ {[fd]}) M H T m' → Q (Some ()) m') → wpp (close_file fd) Q m.
Proof.
  intros (<- & <- & <- & <- & Hm) Hp HQ. eexists _, _. split; [unfold close_file; by rewrite decide_True|]. by apply HQ.
Qed.

Lemma wpp_unlink name Q m :
  has F M H T m → (∀ m', has F M H T m' → Q (Some (-1)) m') →
  (∀ m', has F M H (T ∖ {[name]}) m' → Q (Some 0) m') → wpp (unlink name) Q m.
Proof.
  intros Hm Hno Hok. apply wpp_request; [done|done|]. intros m' (<- & <- & <- & <- & Hm').
  eexists _, _. split; [reflexivity|]. by apply Hok.
Qed.

Lemma wpp_ftruncate Q m :
  has F M H T m → (∀ r m', has F M H T m' → Q (Some r) m') → wpp ftruncate Q m.
Proof. intros Hm HQ. apply wpp_request; [done|by apply HQ|]. intros m' Hm'. by apply wpp_ret, HQ. Qed.

Lemma wpp_open_file Q m :
  has F M H T m → (∀ m', has F M H T m' → Q (Some (-1)) m') →
  (∀ fd m', 0 ≤ fd → fd ∉ F → has ({[fd]} ∪ F) M H T m' → Q (Some fd) m') → wpp open_file Q m.
Proof. intros Hm Hno Hok. apply wpp_request; [done|done|]. intros m' Hm'. by eapply wpp_new_file. Qed.

Lemma wpp_mkstemp template Q m :
  has F M H T m → (∀ n m', has F M H T m' → Q (Some (-1, n)) m') →
  (∀ fd name m', 0 ≤ fd → fd ∉ F → name ∉ T → has ({[fd]} ∪ F) M H ({[name]} ∪ T) m' → Q (Some (fd, name)) m') →
  wpp (mkstemp template) Q m.
Proof.
  intros Hm Hno Hok. unfold mkstemp. case_decide; [|by apply wpp_ret, Hno].
  apply wpp_request; [done|intros; by apply Hno|]. intros m1 Hm1. apply wpp_bind.
  eapply wpp_new_file; [exact Hm1|]. intros fd m2 Hpos Hf (HF & <- & <- & <- & Hm2).
  apply wpp_bind. eexists _, _. split; [reflexivity|]. apply wpp_ret. by apply Hok; [..|apply is_fresh|].
Qed.

(** [iperf_init_stream] opens and closes nothing. *)
Lemma wpp_init_stream sp test Q m :
  has F M H T m → sp_socket sp ∈ sockets →
  (∀ r t m', same_but_errno test t → has F M H T m' → Q (Some (r, t)) m') →
  wpp (on_kernel (iperf_init_stream sp test)) Q m.
Proof.
  intros (HF & HM & HH & HT & Hd & Hi & Hb) Hs HQ.
  assert (wp (iperf_init_stream sp test)
    (fun '(r, t) k' => same_but_errno test t ∧ dom (open_fds k') = sockets ∧ infos k' = ais ∧ bad_fds k' = bad)
    (kern m)) as ([r t] & k' & Hr & Ht & Hk').
  { rewrite <- Hd in Hs. apply elem_of_dom in Hs as [sk Hsk].
    assert (owns (<[sp_socket sp := sk]> (open_fds (kern m))) ais bad (kern m)) as Hk by (by rewrite insert_id).
    assert (∀ e, same_but_errno test (test <| i_errno := e |>)) as He by (intros e; right; by exists e).
    assert (same_but_errno test test) as He0 by (by left).
    assert (∀ sk' k', owns (<[sp_socket sp := sk']> (open_fds (kern m))) ais bad k' →
      dom (open_fds k') = sockets ∧ infos k' = ais ∧ bad_fds k' = bad) as Hdom.
    { intros sk' k' (-> & -> & ->). split_and!; [|done|done].
      rewrite dom_insert_L, <- Hd. apply subseteq_union_1_L, singleton_subseteq_l, elem_of_dom. by exists sk. }
    unfold iperf_init_stream, getsockdomain. sys_steps; (split; [done|by eapply Hdom]). }
  eexists _, _. split; [unfold on_kernel; rewrite Hr; reflexivity|]. by apply HQ.
Qed.
End Rules.

(** [proc_step] executes the next request by its rule; the sets are compared at
    the end. *)
Ltac proc_step :=
  lazymatch goal with
  | |- wpp (_ ≫= _) _ _ => apply wpp_bind
  | |- wpp (mret _) _ _ => apply wpp_ret
  | |- wpp malloc _ _ => eapply wpp_malloc; [eassumption|intros|intros]
  | |- wpp (free _) _ _ => eapply wpp_free; [eassumption|set_solver|intros]
  | |- wpp mmap _ _ => eapply wpp_mmap; [eassumption|intros|intros]
  | |- wpp (munmap _) _ _ => eapply wpp_munmap; [eassumption|set_solver|intros]
  | |- wpp (close_file _) _ _ => eapply wpp_close_file; [eassumption|set_solver|intros]
  | |- wpp (unlink _) _ _ => eapply wpp_unlink; [eassumption|intros|intros]
  | |- wpp ftruncate _ _ => eapply wpp_ftruncate; [eassumption|intros]
  | |- wpp open_file _ _ => eapply wpp_open_file; [eassumption|intros|intros]
  | |- wpp new_file _ _ => eapply wpp_new_file; [eassumption|intros]
  | |- wpp (mkstemp _) _ _ => eapply wpp_mkstemp; [eassumption|intros|intros]
  | |- wpp (if ?b then _ else _) _ _ => sys_test b
  end; cbv beta iota.
Ltac proc_steps := repeat proc_step.

(** ** What a failure loses *)

(** The memory and the sockets are those of before. *)
Definition same_memory (m m' : machine) : Prop :=
  mappings m' = mappings m ∧ heap m' = heap m ∧ dom (open_fds (kern m')) = dom (open_fds (kern m)) ∧
  infos (kern m') = infos (kern m) ∧ bad_fds (kern m') = bad_fds (kern m).

Definition same_holdings (m m' : machine) : Prop :=
  same_memory m m' ∧ files m' = files m ∧ temp_files m' = temp_files m.

Definition lost_descriptor (m m' : machine) : Prop := ∃ fd, fd ∉ files m ∧ files m' = {[fd]} ∪ files m.

(** What is left of a stream that could not be made, with the error [e]. *)
Inductive lost (test : iperf_test) (e : Z) (m m' : machine) : Prop :=
| Lost_nothing : same_holdings m m' → lost test e m m'
| Lost_buffer_file :
    e = IECREATESTREAM ∨ e = IEFILE →
    same_memory m m' → lost_descriptor m m' → temp_files m' = temp_files m → lost test e m m'
| Lost_buffer_file_and_name :
    e = IECREATESTREAM →
    same_memory m m' → lost_descriptor m m' →
    (∃ name, name ∉ temp_files m ∧ temp_files m' = {[name]} ∪ temp_files m) → lost test e m m'
| Lost_diskfile :
    diskfile_name test ≠ None →
    same_memory m m' → lost_descriptor m m' → temp_files m' = temp_files m → lost test e m m'.

(** The random bytes have run out: the process has exited. *)
Definition no_entropy (test : iperf_test) (m : machine) : Prop :=
  repeating_payload test = 0 ∧
  match urandom m with
  | None => True
  | Some l => (length l < Z.to_nat (blksize (settings test)))%nat
  end.

Definition good_stream (test : iperf_test) (s : Z) (sender : bool) (sp : iperf_stream) : Prop :=
  sp_socket sp = s ∧ sp_sender sp = sender ∧ sp_pending_size sp = 0 ∧ sp_diskfile_left sp = 0 ∧
  length (sp_buffer sp) = Z.to_nat (blksize (settings test)) ∧
  (repeating_payload test ≠ 0 → sp_buffer sp = fill_with_repeating_pattern (Z.to_nat (blksize (settings test)))).

(** The outcome of [iperf_new_stream]. *)
Definition new_stream_outcome (test : iperf_test) (s : Z) (sender : bool) (m : machine)
    (r : option (option (iperf_stream * stream_parts) * iperf_test)) (m' : machine) : Prop :=
  match r with
  | None => no_entropy test m'
  | Some (None, t) => streams t = streams test ∧ lost test (i_errno t) m m'
  | Some (Some (sp, parts), t) =>
      good_stream test s sender sp ∧ (∃ t0, same_but_errno test t0 ∧ t = iperf_add_stream t0 sp) ∧
      ∃ m2, iperf_free_stream parts m' = Ok (Some (), m2) ∧ same_holdings m m2
  end.

Section New_stream_rules.
Context (sockets : gset Z) (ais : gmap positive addrinfo) (bad : list Z).
Context (F : gset Z) (M H T : gset positive).

Lemma wpp_fill_buffer test Q m :
  has sockets ais bad F M H T m →
  (no_entropy test m → Q None m) →
  (∀ data m', length data = Z.to_nat (blksize (settings test)) →
     (repeating_payload test ≠ 0 → data = fill_with_repeating_pattern (Z.to_nat (blksize (settings test)))) →
     has sockets ais bad F M H T m' → Q (Some data) m') →
  wpp (fill_buffer test) Q m.
Proof.
  intros Hm Hno Hok. unfold fill_buffer. destruct (repeating_payload test =? 0) eqn:Er; bool_to_prop; cbn [negb].
  - unfold wpp, readentropy. case_decide as E0.
    { eexists _, _. split; [reflexivity|]. by apply Hok. }
    destruct (urandom m) as [l|] eqn:El.
    + case_decide as El2.
      * eexists _, _. split; [reflexivity|]. apply Hno. unfold no_entropy. by rewrite El.
      * eexists _, _. split; [reflexivity|]. apply Hok; [rewrite length_take; lia|done|done].
    + eexists _, _. split; [reflexivity|]. apply Hno. unfold no_entropy. by rewrite El.
  - apply wpp_ret. apply Hok; [apply fill_from_length|done|done].
Qed.

(** Everything a stream holds is given back by [iperf_free_stream]. *)
Lemma free_stream_holdings parts F1 H1 m :
  has sockets ais bad F1 ({[buffer parts]} ∪ M) H1 T m →
  buffer parts ∉ M → block parts ≠ result_block parts → block parts ∉ H → result_block parts ∉ H →
  H1 = {[result_block parts]} ∪ ({[block parts]} ∪ H) →
  buffer_fd parts ∉ F → (0 ≤ diskfile_fd parts → diskfile_fd parts ≠ buffer_fd parts ∧ diskfile_fd parts ∉ F) →
  F1 = (if 0 <=? diskfile_fd parts then {[diskfile_fd parts]} else ∅) ∪ ({[buffer_fd parts]} ∪ F) →
  ∃ m2, iperf_free_stream parts m = Ok (Some (), m2) ∧ has sockets ais bad F M H T m2.
Proof.
  intros Hm Hb Hn Hh1 Hh2 -> Hf Hd ->.
  assert (wpp (iperf_free_stream parts) (fun r m2 => r = Some () ∧ has sockets ais bad F M H T m2) m)
    as (r & m2 & Hr & -> & Hm2); [|by exists m2].
  unfold iperf_free_stream. destruct (Z.leb_spec 0 (diskfile_fd parts)) as [Hp|Hp]; proc_steps; (split; [done|]).
  all: match goal with Hx : has _ _ _ ?a ?b ?c _ ?x |- has _ _ _ ?a' ?b' ?c' _ ?x =>
         replace a' with a by set_solver; replace b' with b by set_solver; replace c' with c by set_solver; exact Hx end.
Qed.
End New_stream_rules.

Section New_stream_outcome.
Context (tmp_template : option bytes) (getenv : bytes → option bytes) (quic_attach : Z → Z).
Context (test : iperf_test) (s : Z) (sender : bool) (m : machine).
Local Abbreviation holds := (has (dom (open_fds (kern m))) (infos (kern m)) (bad_fds (kern m))).

Lemma holds_same m' :
  holds (files m) (mappings m) (heap m) (temp_files m) m' → same_holdings m m'.
Proof. intros (? & ? & ? & ? & ? & ? & ?). by repeat split. Qed.

Lemma holds_file m' fd :
  holds ({[fd]} ∪ files m) (mappings m) (heap m) (temp_files m) m' → fd ∉ files m →
  same_memory m m' ∧ lost_descriptor m m' ∧ temp_files m' = temp_files m.
Proof. intros (? & ? & ? & ? & ? & ? & ?) Hfd. split; [by repeat split|]. split; [by exists fd|done]. Qed.

Lemma holds_name m' fd name :
  holds ({[fd]} ∪ files m) (mappings m) (heap m) ({[name]} ∪ temp_files m) m' → fd ∉ files m → name ∉ temp_files m →
  same_memory m m' ∧ lost_descriptor m m' ∧ ∃ n, n ∉ temp_files m ∧ temp_files m' = {[n]} ∪ temp_files m.
Proof. intros (? & ? & ? & ? & ? & ? & ?) Hfd Hn. split; [by repeat split|]. split; [by exists fd|by exists name]. Qed.

(** The sets that are left, brought into the form of [holds_same] or [holds_file]. *)
Ltac settled :=
  match goal with
  | Hx : has _ _ _ ?a ?b ?c ?d ?x |- has _ _ _ ?a' ?b' ?c' ?d' ?x =>
      replace a' with a by set_solver; replace b' with b by set_solver; replace c' with c by set_solver;
      replace d' with d by set_solver; exact Hx
  end.

Lemma same_errno_streams t : same_but_errno test t → streams t = streams test.
Proof. by intros [->|[e ->]]. Qed.

Section Parts.
Context (sp result p : positive) (fd : Z).
Context (Hs : s ∈ dom (open_fds (kern m))) (Hsp : sp ∉ heap m) (Hres : result ∉ {[sp]} ∪ heap m).
Context (Hp : p ∉ mappings m) (Hfd0 : 0 ≤ fd) (Hfd : fd ∉ files m).

Lemma wpp_start_stream disk m1 :
  (0 ≤ disk → disk ∉ {[fd]} ∪ files m ∧ diskfile_name test ≠ None) →
  holds ((if 0 <=? disk then {[disk]} else ∅) ∪ ({[fd]} ∪ files m)) ({[p]} ∪ mappings m)
        ({[result]} ∪ ({[sp]} ∪ heap m)) (temp_files m) m1 →
  wpp (start_stream test s sender sp result p fd disk) (new_stream_outcome test s sender m) m1.
Proof.
  intros Hd Hm1. unfold start_stream. apply wpp_bind.
  eapply wpp_fill_buffer; [exact Hm1|done|]. intros data m2 Hlen Hpat Hm2. apply wpp_bind.
  eapply wpp_init_stream; [exact Hm2|exact Hs|]. intros r t m3 Ht Hm3. cbv beta iota.
  destruct (r <? 0) eqn:Er.
  - proc_steps. split; [by apply same_errno_streams|].
    destruct (Z.leb_spec 0 disk) as [Hge|Hge].
    + destruct (Hd Hge) as [Hdf Hn].
      match goal with Hx : holds _ _ _ _ ?x |- lost _ _ _ ?x => destruct (holds_file x disk) as (? & ? & ?) end;
        [settled|set_solver|]. by apply Lost_diskfile.
    + apply Lost_nothing, holds_same. settled.
  - apply wpp_ret. split; [by split_and!|]. split; [by exists t|].
    destruct (free_stream_holdings (dom (open_fds (kern m))) (infos (kern m)) (bad_fds (kern m))
                (files m) (mappings m) (heap m) (temp_files m) (mk_parts sp result p fd disk) _ _ m3 Hm3)
      as (m4 & Hf & Hm4); cbn; [done|set_solver|done|set_solver|done|done| |done|].
    + intros Hge. destruct (Hd Hge). set_solver.
    + exists m4. split; [exact Hf|by apply holds_same].
Qed.

Lemma wpp_complete_stream m1 :
  holds ({[fd]} ∪ files m) ({[p]} ∪ mappings m) ({[result]} ∪ ({[sp]} ∪ heap m)) (temp_files m) m1 →
  wpp (complete_stream quic_attach test s sender sp result p fd) (new_stream_outcome test s sender m) m1.
Proof.
  intros Hm1. unfold complete_stream.
  destruct ((protocol test =? Pquic) && (quic_attach s <? 0)).
  { proc_steps. split; [done|]. apply Lost_nothing, holds_same. settled. }
  apply wpp_bind. unfold open_diskfile. destruct (diskfile_name test) as [name|] eqn:En.
  - proc_step. eapply wpp_open_file; [exact Hm1|intros m2 Hm2|intros disk m2 Hd0 Hd Hm2].
    + apply wpp_ret. change (-1 =? -1) with true. cbv beta iota. proc_steps. split; [done|].
      match goal with Hx : holds _ _ _ _ ?x |- lost _ _ _ ?x => destruct (holds_file x fd) as (? & ? & ?) end;
        [settled|done|]. by apply Lost_buffer_file; [right|..].
    + rewrite (proj2 (Z.eqb_neq _ _)) by lia. apply wpp_ret. apply wpp_start_stream.
      * intros _. by rewrite En.
      * by rewrite (proj2 (Z.leb_le _ _)).
  - apply wpp_ret, wpp_start_stream; [lia|]. cbn. by rewrite union_empty_l_L.
Qed.
End Parts.

Lemma wpp_new_stream :
  s ∈ dom (open_fds (kern m)) →
  wpp (iperf_new_stream tmp_template getenv quic_attach test s sender) (new_stream_outcome test s sender m) m.
Proof.
  intros Hs. assert (holds (files m) (mappings m) (heap m) (temp_files m) m) as Hm by done.
  unfold iperf_new_stream. cbv zeta.
  proc_steps.
  1-3: split; [done|]; apply Lost_nothing, holds_same; settled.
  - match goal with Hf : ?fd ∉ files _, Hn : ?n ∉ temp_files _ |- new_stream_outcome _ _ _ _ _ ?x =>
      destruct (holds_name x fd n) as (? & ? & ?); [settled|done|done|] end.
    split; [done|]. by apply Lost_buffer_file_and_name.
  - match goal with Hf : ?fd ∉ files _ |- new_stream_outcome _ _ _ _ _ ?x =>
      destruct (holds_file x fd) as (? & ? & ?); [settled|done|] end.
    split; [done|]. by apply Lost_buffer_file; [left|..].
  - match goal with Hf : ?fd ∉ files _ |- new_stream_outcome _ _ _ _ _ ?x =>
      destruct (holds_file x fd) as (? & ? & ?); [settled|done|] end.
    split; [done|]. by apply Lost_buffer_file; [left|..].
  - apply wpp_complete_stream; [assumption..|settled].
Qed.
End New_stream_outcome.

(** ** Properties *)

(** C27: a stream's resources over its life: on a process with the socket [s], for
    every script of refusals, [iperf_new_stream] returns without touching memory
    it does not own, and
    - a stream that is made has the socket and role asked for and a buffer of
      [blksize] bytes (the repeating pattern if asked for), it is the last of
      the test's streams, and [iperf_free_stream] on it gives back exactly what
      was taken: the process holds what it held before;
    - a stream that cannot be made leaves the test's streams, the memory and the
      sockets as they were, but not always the files: the descriptor of the
      buffer's file is lost behind a refused [unlink] (with the file's name),
      [ftruncate], [mmap] or opening of the [-F] file, and that of the [-F]
      file behind a failing [iperf_init_stream];
    - the process has exited only for want of random bytes. *)
Theorem new_stream_balanced tmp_template getenv quic_attach test s sender m :
  s ∈ dom (open_fds (kern m)) →
  ∃ r m', iperf_new_stream tmp_template getenv quic_attach test s sender m = Ok (r, m') ∧
          new_stream_outcome test s sender m r m'.
Proof. intros Hs. destruct (wpp_new_stream tmp_template getenv quic_attach test s sender m Hs) as (r & m' & Hr). by exists r, m'. Qed.

(** A repeating pattern counts from 0 to 9. *)
Lemma repeating_pattern n i :
  (i < n)%nat → fill_with_repeating_pattern n !! i = Some (chr (48 + Z.of_nat i mod 10)).
Proof. intros Hi. unfold fill_with_repeating_pattern. rewrite fill_from_spec by (lia || done). done. Qed.

(** A cookie is a string of 36 characters of its alphabet. *)
Lemma make_cookie_shape random :
  (COOKIE_SIZE ≤ length random)%nat →
  length (make_cookie random) = COOKIE_SIZE ∧
  length (c_str (make_cookie random)) = (COOKIE_SIZE - 1)%nat ∧ Forall (.∈ rndchars) (c_str (make_cookie random)).
Proof.
  intros Hl. unfold make_cookie. set (l := map _ _).
  assert (length l = (COOKIE_SIZE - 1)%nat) as Hlen.
  { unfold l. rewrite length_map, length_take. unfold COOKIE_SIZE in *. lia. }
  assert (Forall (.∈ rndchars) l) as Hin.
  { unfold l. apply Forall_map, Forall_true. intros c. cbn. apply list_elem_of_In, nth_In.
    pose proof (Z.mod_pos_bound (u8 c) 32). change (length rndchars) with 32%nat. lia. }
  assert (no_nul l) as Hn.
  { intros Hx. pose proof (proj1 (Forall_forall _ _) Hin _ Hx) as Hc. assert (¬ NUL ∈ rndchars) by (apply (bool_decide_eq_false _); by vm_compute). done. }
  clearbody l. assert (c_str (l ++ [NUL]) = l) as ->; [|by rewrite length_app, Hlen].
  revert Hn. clear. induction l as [|c l IH]; cbn; [done|]. intros [Hc Hl]%no_nul_cons.
  rewrite decide_False by done. by rewrite IH.
Qed.

(** ** Concrete runs *)

Definition stream_machine (answers : list Z) (random : bytes) : machine :=
  mk_machine (mk_kernel {[7 := mk_sock AF_INET SOCK_STREAM 0 0 [] (Connected no_addr) no_data]} ∅ 0 0 [] [])
    ∅ ∅ ∅ ∅ answers (Some random).

Definition stream_test : iperf_test :=
  on_settings (fun x => x <| blksize := 12 |>) ((iperf_defaults false iperf_new_test) <| diskfile_name := Some (B "data") |>).

Definition no_environment (name : bytes) : option bytes := None.

Lemma new_stream_balanced_witness :
  let t := stream_test <| repeating_payload := 1 |> in
  let m := stream_machine [] [] in
  match iperf_new_stream None no_environment (fun _ => 0) t 7 true m with
  | Ok (Some (Some (sp, parts), t'), m') =>
      sp_buffer sp = B "012345678901" ∧ new_stream_outcome t 7 true m (Some (Some (sp, parts), t')) m'
  | _ => False
  end.
Proof.
  intros t m. 
  destruct (new_stream_balanced None no_environment (fun _ => 0) t 7 true m) as (r & m' & Hr & Ho);
    [apply elem_of_dom; vm_compute; eexists; reflexivity|].
  assert (∃ sp parts t1 m1, iperf_new_stream None no_environment (fun _ => 0) t 7 true m = Ok (Some (Some (sp, parts), t1), m1)
          ∧ sp_buffer sp = B "012345678901") as (sp & parts & t1 & m1 & Hr1 & Hb)
    by (do 4 eexists; split; vm_compute; reflexivity).
  rewrite Hr1 in Hr |- *. injection Hr as <- <-. by split.
Defined.

(** What is left behind a stream that could not be made: the error, the number of
    descriptors and of names in the directory for temporary files. *)
Definition left_behind (answers : list Z) : option (Z * nat * nat) :=
  match iperf_new_stream None no_environment (fun _ => 0) stream_test 7 true (stream_machine answers []) with
  | Ok (Some (None, t), m) => Some (i_errno t, size (files m), size (temp_files m))
  | _ => None
  end.

(** The answers are to [malloc] twice, [mkstemp], [unlink], [ftruncate], [mmap] and
    [open]. *)
Example descriptors_lost :
  left_behind [0; 0; 13] = Some (IECREATESTREAM, 0%nat, 0%nat) ∧
  left_behind [0; 0; 0; 13] = Some (IECREATESTREAM, 1%nat, 1%nat) ∧
  left_behind [0; 0; 0; 0; 28] = Some (IECREATESTREAM, 1%nat, 0%nat) ∧
  left_behind [0; 0; 0; 0; 0; 12] = Some (IECREATESTREAM, 1%nat, 0%nat) ∧
  left_behind [0; 0; 0; 0; 0; 0; 2] = Some (IEFILE, 1%nat, 0%nat).
Proof. vm_compute. repeat split. Qed.
