(* ===== verification/Quic.v ===== *)
(** * Data over QUIC ([src/iperf_quic.c], part one: the streams)

    A data stream of a build with MsQuic.  The library's threads report what
    happens to a stream by [stream_cb]; the stream's own thread sends and receives
    and waits on a condition variable for these reports.  Both sides work under the
    stream's lock: a callback and each stretch of [iperf_quic_send] and
    [iperf_quic_recv] between taking and giving back the lock is one step.  What
    other threads do during a wait is a script: a list of happenings for each time
    the wait ends.  A queue linked by its head and tail is a list.

    Of MsQuic the model relies on its documentation: the buffer of a successful
    [StreamSend] belongs to the library until it is reported by one
    [SEND_COMPLETE]; a closed handle must not be used. *)

From S2P Require Import Prelude Errno CInt CDouble CStdio IperfTime Json Net Test.

(** ** Data *)

(** A buffered chunk and how much of it has been read. *)
Record quic_recv_chunk := mk_chunk { ch_data : bytes; ch_off : nat }.

(** What MsQuic's handle of the stream is is the business of [QuicTest.v]. *)
Record iperf_quic_stream_ctx := mk_sc {
  sc_stream : option positive;
  sc_chunks : list quic_recv_chunk;
  sc_queued : Z;
  sc_pending_sends : Z;
  sc_fin : bool
}.
#[export] Instance eta_sc : Settable iperf_quic_stream_ctx := fun r =>
  mk_sc (sc_stream r) (sc_chunks r) (sc_queued r) (sc_pending_sends r) (sc_fin r).

Definition quic_sc_new (stream : option positive) : iperf_quic_stream_ctx := mk_sc stream [] 0 0 false.

(** The stream with its context, [test->done], whether its thread can be
    cancelled, and MsQuic's side: the buffers it has not completed, all the bytes
    it was given and all it delivered, and whether the handle is open. *)
Record quic_stream := mk_qs {
  qs_sp : iperf_stream;
  qs_sc : iperf_quic_stream_ctx;
  qs_test_done : bool;
  qs_cancel : bool;
  qs_sends : list bytes;
  qs_wire : bytes;
  qs_arrived : bytes;
  qs_open : bool
}.
#[export] Instance eta_qs : Settable quic_stream := fun r =>
  mk_qs (qs_sp r) (qs_sc r) (qs_test_done r) (qs_cancel r) (qs_sends r) (qs_wire r)
    (qs_arrived r) (qs_open r).

Definition on_sc (f : iperf_quic_stream_ctx → iperf_quic_stream_ctx) (s : quic_stream) : quic_stream :=
  s <| qs_sc ::= f |>.
Definition on_sp (f : iperf_stream → iperf_stream) (s : quic_stream) : quic_stream := s <| qs_sp ::= f |>.

(** ** [stream_cb] *)

(** The events; which of the buffers is complete; the data that arrived, with
    whether there is memory for the copy of each buffer. *)
Inductive stream_event :=
| SEND_COMPLETE (i : nat)
| RECEIVE (buffers : list (bytes * bool))
| PEER_SEND_SHUTDOWN
| PEER_SEND_ABORTED
| SHUTDOWN_COMPLETE (app_close_in_progress : bool)
| Other_stream_event.

Definition enqueue (b : bytes) (sc : iperf_quic_stream_ctx) : iperf_quic_stream_ctx :=
  sc <| sc_chunks ::= (fun l => l ++ [mk_chunk b 0]) |>
     <| sc_queued ::= (fun n => u64 (n + Z.of_nat (length b))) |>.

(** The first buffer that cannot be copied ends the loop. *)
Fixpoint copy_buffers (l : list (bytes * bool)) (sc : iperf_quic_stream_ctx) : iperf_quic_stream_ctx :=
  match l with
  | [] => sc
  | (b, memory) :: l => if memory then copy_buffers l (enqueue b sc) else sc
  end.

(** What an event does to the context. *)
Definition sc_after (e : stream_event) (sc : iperf_quic_stream_ctx) : iperf_quic_stream_ctx :=
  match e with
  | SEND_COMPLETE _ => sc <| sc_pending_sends ::= (fun n => if 0 <? n then n - 1 else n) |>
  | RECEIVE l => copy_buffers l sc
  | PEER_SEND_SHUTDOWN | PEER_SEND_ABORTED | SHUTDOWN_COMPLETE _ => sc <| sc_fin := true |>
  | Other_stream_event => sc
  end.

(** The callback also frees a buffer that was sent and closes the stream's handle. *)
Definition stream_cb (e : stream_event) (s : quic_stream) : outcome quic_stream :=
  let after := on_sc (sc_after e) s in
  match e with
  | SEND_COMPLETE i =>
      match qs_sends s !! i with
      | None => Undef
      | Some _ => Ok (after <| qs_sends ::= (fun l => take i l ++ drop (S i) l) |>)
      end
  | RECEIVE l => Ok (after <| qs_arrived ::= (fun a => a ++ concat (map fst l)) |>)
  | SHUTDOWN_COMPLETE false => if qs_open s then Ok (after <| qs_open := false |>) else Undef
  | _ => Ok after
  end.

(** What other threads do. *)
Inductive happening :=
| Callback (e : stream_event)
| Stream_done
| Test_done.

Definition happens (h : happening) (s : quic_stream) : outcome quic_stream :=
  match h with
  | Callback e => stream_cb e s
  | Stream_done => Ok (on_sp (fun sp => sp <| sp_done := 1 |>) s)
  | Test_done => Ok (s <| qs_test_done := true |>)
  end.

Fixpoint happen (l : list happening) (s : quic_stream) : outcome quic_stream :=
  match l with
  | [] => Ok s
  | h :: l => s ← happens h s; happen l s
  end.

(** [while (condition) pthread_cond_timedwait(...)]: a wait ends by a signal or
    after a tenth of a second; [NoFuel] while the script has no more. *)
Fixpoint wait_while (condition : quic_stream → bool) (wakes : list (list happening)) (s : quic_stream)
  : outcome quic_stream :=
  if condition s then
    match wakes with
    | [] => NoFuel
    | w :: wakes => s ← happen w s; wait_while condition wakes s
    end
  else Ok s.

(** [sc->fin || sp->done || sp->test->done] *)
Definition over (s : quic_stream) : bool :=
  sc_fin (qs_sc s) || negb (sp_done (qs_sp s) =? 0) || qs_test_done s.

(** ** [iperf_quic_send] *)

Definition QUIC_MAX_PENDING_SENDS : Z := 32.

Definition throttled (s : quic_stream) : bool :=
  (QUIC_MAX_PENDING_SENDS <=? sc_pending_sends (qs_sc s)) && negb (over s).

(** [attached]: [sp->data] and [test->quic_ctx] are there; [wakes] happens while
    the thread is throttled, [meanwhile] between the lock and [StreamSend];
    [memory] and [accepted] say whether [malloc] and [StreamSend] succeed.  Behind
    either failure the count of pending sends and the thread's cancellation stay
    as they are. *)
Definition iperf_quic_send (attached memory accepted : bool) (wakes : list (list happening)) (meanwhile : list happening)
    (test : iperf_test) (s : quic_stream) : outcome (Z * quic_stream) :=
  if negb attached then Ok (NET_HARDERROR, s)
  else
    let old_cancel := qs_cancel s in
    s ← wait_while throttled wakes (s <| qs_cancel := false |>);
    if over s then Ok (0, s <| qs_cancel := old_cancel |>)
    else
      let s := on_sc (fun sc => sc <| sc_pending_sends ::= (fun n => n + 1) |>) s in
      s ← happen meanwhile s;
      let s := on_sp (fun sp => if sp_pending_size sp =? 0 then sp <| sp_pending_size := blksize (settings test) |> else sp) s in
      let size := sp_pending_size (qs_sp s) in
      let len := Z.to_nat size in
      if negb memory then Ok (NET_HARDERROR, s)
      else if decide (size < 0 ∨ (length (sp_buffer (qs_sp s)) < len)%nat) then Undef
      else if negb (qs_open s) then Undef
      else if negb accepted then Ok (NET_HARDERROR, s)
      else
        let data := take len (sp_buffer (qs_sp s)) in
        let s := s <| qs_sends ::= (fun l => l ++ [data]) |> <| qs_wire ::= (fun l => l ++ data) |> in
        let s := on_sp (fun sp => on_result (fun r =>
                   r <| rs_bytes_sent ::= (fun n => u64 (n + size)) |>
                     <| rs_bytes_sent_this_interval ::= (fun n => u64 (n + size)) |>) (sp <| sp_pending_size := 0 |>)) s in
        Ok (i32 size, s <| qs_cancel := old_cancel |>).

(** ** [iperf_quic_recv] *)

Definition starved (s : quic_stream) : bool := (sc_queued (qs_sc s) =? 0) && negb (over s).

(** The copy loop: [got] bytes are in the buffer, [want] are wanted. *)
Fixpoint copy_loop (fuel : nat) (want got : nat) (buffer : bytes) (sc : iperf_quic_stream_ctx)
  : outcome (nat * bytes * iperf_quic_stream_ctx) :=
  match fuel with
  | O => NoFuel
  | S fuel =>
      match sc_chunks sc with
      | c :: l =>
          if (got <? want)%nat then
            let avail := (length (ch_data c) - ch_off c)%nat in
            let n := Nat.min (want - got) avail in
            if decide (length buffer < got + n)%nat then Undef
            else
              let buffer := take got buffer ++ take n (drop (ch_off c) (ch_data c)) ++ drop (got + n) buffer in
              let c := mk_chunk (ch_data c) (ch_off c + n) in
              let sc := sc <| sc_queued ::= (fun q => u64 (q - Z.of_nat n)) |> in
              let sc := sc <| sc_chunks := if (ch_off c =? length (ch_data c))%nat then l else c :: l |> in
              copy_loop fuel want (got + n) buffer sc
          else Ok (got, buffer, sc)
      | [] => Ok (got, buffer, sc)
      end
  end.

(** Each round but the last empties a chunk. *)
Definition copy_fuel (sc : iperf_quic_stream_ctx) : nat := S (S (length (sc_chunks sc))).

Definition iperf_quic_recv (attached : bool) (wakes : list (list happening)) (test : iperf_test) (s : quic_stream)
  : outcome (Z * quic_stream) :=
  if negb attached then Ok (NET_HARDERROR, s)
  else
    let old_cancel := qs_cancel s in
    s ← wait_while starved wakes (s <| qs_cancel := false |>);
    if sc_queued (qs_sc s) =? 0 then Ok (0, s <| qs_cancel := old_cancel |>)
    else
      let want := Z.min (u64 (blksize (settings test))) (sc_queued (qs_sc s)) in
      '(got, buffer, sc) ← copy_loop (copy_fuel (qs_sc s)) (Z.to_nat want) 0 (sp_buffer (qs_sp s)) (qs_sc s);
      let s := on_sp (fun sp => sp <| sp_buffer := buffer |>) (s <| qs_sc := sc |> <| qs_cancel := old_cancel |>) in
      let size := Z.of_nat got in
      let s := if state test =? TEST_RUNNING then
                 on_sp (on_result (fun r =>
                   r <| rs_bytes_received ::= (fun n => u64 (n + size)) |>
                     <| rs_bytes_received_this_interval ::= (fun n => u64 (n + size)) |>)) s
               else s in
      Ok (i32 size, s).

(** ** Several calls in a row *)

(** What the thread of a stream does, and what happens between its calls. *)
Inductive turn :=
| Others (l : list happening)
| Send_turn (accepted : bool) (wakes : list (list happening)) (meanwhile : list happening)
| Recv_turn (wakes : list (list happening)).

(** With the bytes taken out of the buffer so far and the number of sends that
    failed. *)
Definition take_turn (test : iperf_test) (t : turn) (x : bytes * Z * quic_stream) : outcome (bytes * Z * quic_stream) :=
  let '(taken, failed, s) := x in
  match t with
  | Others l => s ← happen l s; Ok (taken, failed, s)
  | Send_turn accepted wakes meanwhile =>
      '(r, s) ← iperf_quic_send true true accepted wakes meanwhile test s;
      Ok (taken, if r <? 0 then failed + 1 else failed, s)
  | Recv_turn wakes =>
      '(r, s) ← iperf_quic_recv true wakes test s;
      Ok (taken ++ take (Z.to_nat r) (sp_buffer (qs_sp s)), failed, s)
  end.

Fixpoint take_turns (test : iperf_test) (l : list turn) (x : bytes * Z * quic_stream) : outcome (bytes * Z * quic_stream) :=
  match l with
  | [] => Ok x
  | t :: l => x ← take_turn test t x; take_turns test l x
  end.

(** ** The receive queue *)

Definition rest_of (c : quic_recv_chunk) : bytes := drop (ch_off c) (ch_data c).
Definition content (sc : iperf_quic_stream_ctx) : bytes := concat (map rest_of (sc_chunks sc)).
Definition chunk_ok (c : quic_recv_chunk) : Prop := (ch_off c ≤ length (ch_data c))%nat.

(** The queue is well formed: its counter is the number of its bytes. *)
Definition queue_ok (sc : iperf_quic_stream_ctx) : Prop :=
  Forall chunk_ok (sc_chunks sc) ∧ sc_queued sc = Z.of_nat (length (content sc)) ∧
  Z.of_nat (length (content sc)) < 2 ^ 64.

Lemma enqueue_content b sc : content (enqueue b sc) = content sc ++ b.
Proof. unfold content, enqueue. cbn. rewrite map_app, concat_app. cbn. by rewrite app_nil_r. Qed.

Lemma copy_buffers_ok l sc :
  queue_ok sc → Forall (fun p => p.2 = true) l →
  Z.of_nat (length (content sc) + length (concat (map fst l))) < 2 ^ 64 →
  queue_ok (copy_buffers l sc) ∧ content (copy_buffers l sc) = content sc ++ concat (map fst l) ∧
  sc_fin (copy_buffers l sc) = sc_fin sc ∧ sc_pending_sends (copy_buffers l sc) = sc_pending_sends sc.
Proof.
  revert sc. induction l as [|[b memory] l IH]; intros sc Hq Hm Hb; cbn.
  { by rewrite app_nil_r. }
  apply Forall_cons in Hm as [Hm Hl]. cbn in Hm. subst memory. cbn in Hb. rewrite length_app in Hb.
  destruct Hq as (Hc & Hn & Hs).
  destruct (IH (enqueue b sc)) as (H1 & H2 & H3 & H4).
  - unfold queue_ok. rewrite enqueue_content, length_app. split_and!; [|unfold enqueue; cbn|lia].
    + apply Forall_app. split; [done|]. constructor; [|done]. unfold chunk_ok. cbn. lia.
    + rewrite Hn, wrapu_id; unfold in_u; lia.
  - done.
  - rewrite enqueue_content, length_app. lia.
  - split_and!; [done| |done|done]. rewrite H2, enqueue_content. by rewrite <- app_assoc.
Qed.

(** One round of the copy: it takes [n] bytes of the first chunk. *)
Lemma take_of_chunk c l n :
  chunk_ok c → Forall chunk_ok l → (n ≤ length (rest_of c))%nat →
  let c' := mk_chunk (ch_data c) (ch_off c + n) in
  let l' := if (ch_off c' =? length (ch_data c'))%nat then l else c' :: l in
  Forall chunk_ok l' ∧ concat (map rest_of l') = drop n (concat (map rest_of (c :: l))) ∧
  (n = length (rest_of c) → l' = l).
Proof.
  intros Hc Hl Hn c' l'.
  assert (rest_of c' = drop n (rest_of c)) as Ec by (unfold rest_of, c'; cbn; by rewrite drop_drop).
  assert (chunk_ok c' ∧ (ch_off c' =? length (ch_data c'))%nat = (n =? length (rest_of c))%nat) as [Hc' Eb].
  { unfold rest_of in *. rewrite length_drop in *. unfold chunk_ok, c' in *. cbn. split; [lia|].
    destruct (Nat.eqb_spec (ch_off c + n) (length (ch_data c))), (Nat.eqb_spec n (length (ch_data c) - ch_off c)); lia. }
  unfold l'. rewrite Eb. cbn [map concat]. rewrite drop_app_le by done.
  destruct (Nat.eqb_spec n (length (rest_of c))) as [->|E].
  - split_and!; [done| |done]. by rewrite drop_all.
  - split_and!; [by constructor| |done]. cbn [map concat]. by rewrite Ec.
Qed.

Lemma copy_loop_spec fuel : ∀ want got buffer sc,
  queue_ok sc → (got ≤ want)%nat → (want - got ≤ length (content sc))%nat → (want ≤ length buffer)%nat →
  (0 < fuel)%nat → ((got < want)%nat → (S (length (sc_chunks sc)) < fuel)%nat) →
  ∃ sc', copy_loop fuel want got buffer sc
         = Ok (want, take got buffer ++ take (want - got) (content sc) ++ drop want buffer, sc') ∧
         queue_ok sc' ∧ content sc' = drop (want - got) (content sc) ∧
         sc_fin sc' = sc_fin sc ∧ sc_pending_sends sc' = sc_pending_sends sc.
Proof.
  induction fuel as [|fuel IH]; [lia|]. intros want got buffer sc Hq Hg Hw Hb _ Hf. cbn [copy_loop].
  assert (got = want → ∃ sc', Ok (got, buffer, sc)
         = Ok (want, take got buffer ++ take (want - got) (content sc) ++ drop want buffer, sc') ∧
         queue_ok sc' ∧ content sc' = drop (want - got) (content sc) ∧
         sc_fin sc' = sc_fin sc ∧ sc_pending_sends sc' = sc_pending_sends sc) as Hend.
  { intros <-. exists sc. rewrite Nat.sub_diag, take_0, drop_0. cbn. by rewrite take_drop. }
  destruct Hq as (Hc & Hn & Hs). destruct (sc_chunks sc) as [|c l] eqn:El.
  { apply Hend. unfold content in Hw. rewrite El in Hw. cbn in Hw. lia. }
  destruct (Nat.ltb_spec got want) as [Hlt|]; [|apply Hend; lia]. clear Hend.
  apply Forall_cons in Hc as [Hc Hl].
  set (n := Nat.min (want - got) (length (ch_data c) - ch_off c)).
  assert (n ≤ length (rest_of c))%nat as Hnr by (unfold rest_of; rewrite length_drop; lia).
  destruct (take_of_chunk c l n Hc Hl Hnr) as (Hl' & Hr' & Hfull).
  rewrite decide_False by lia.
  set (buffer' := take got buffer ++ _). set (sc1 := sc <| sc_queued ::= _ |> <| sc_chunks := _ |>).
  assert (content sc1 = drop n (content sc)) as Ec.
  { unfold content. rewrite El. exact Hr'. }
  assert (length (take n (drop (ch_off c) (ch_data c))) = n) as Ln by (rewrite length_take, length_drop; lia).
  assert (length buffer' = length buffer) as Lb.
  { unfold buffer'. rewrite !length_app, Ln, length_take, length_drop. lia. }
  destruct (IH want (got + n)%nat buffer' sc1) as (sc' & -> & H1 & H2 & H3 & H4).
  - split_and!; [exact Hl'| |].
    + change (sc_queued sc1) with (u64 (sc_queued sc - Z.of_nat n)). rewrite Ec, length_drop, Hn.
      rewrite wrapu_id; unfold in_u; lia.
    + rewrite Ec, length_drop. lia.
  - lia.
  - rewrite Ec, length_drop. lia.
  - lia.
  - specialize (Hf Hlt). cbn in Hf. lia.
  - intros Hlt'. specialize (Hf Hlt). cbn in Hf.
    assert (sc_chunks sc1 = l) as -> by (apply Hfull; unfold rest_of; rewrite length_drop; lia). lia.
  - exists sc'. split_and!; [|done| |done|done].
    + do 3 f_equal. rewrite Ec. unfold buffer'.
      rewrite take_app_ge by (rewrite length_take; lia). rewrite length_take, Nat.min_l by lia.
      replace (got + n - got)%nat with n by lia. rewrite take_app_le by lia. rewrite (take_ge _ n) by lia.
      rewrite !drop_app_ge by (rewrite ?length_take; lia).
      rewrite length_take, Nat.min_l, Ln, drop_drop by lia.
      replace (got + n + (want - got - n))%nat with want by lia.
      rewrite <- !app_assoc. f_equal.
      replace (want - got)%nat with (n + (want - (got + n)))%nat by lia. rewrite <- take_take_drop, <- app_assoc.
      f_equal. unfold content. rewrite El. cbn. rewrite take_app_le by done. done.
    + rewrite H2, Ec, drop_drop. f_equal. lia.
Qed.

(** ** What MsQuic promises *)

(** A happening that respects the contract of the library in a state: a send is
    completed that was not completed, the end of a stream is reported once, and
    there is memory for what arrives. *)
Definition allowed (h : happening) (s : quic_stream) : Prop :=
  match h with
  | Callback (SEND_COMPLETE i) => (i < length (qs_sends s))%nat
  | Callback (RECEIVE l) =>
      Forall (fun p => p.2 = true) l ∧
      Z.of_nat (length (content (qs_sc s)) + length (concat (map fst l))) < 2 ^ 64
  | Callback (SHUTDOWN_COMPLETE false) => qs_open s = true
  | _ => True
  end.

Fixpoint lawful (l : list happening) (s : quic_stream) : Prop :=
  match l with
  | [] => True
  | h :: l => allowed h s ∧ ∀ s', happens h s = Ok s' → lawful l s'
  end.

(** A wait that ends. *)
Fixpoint lawful_wait (condition : quic_stream → bool) (wakes : list (list happening)) (s : quic_stream) : Prop :=
  condition s = true →
  match wakes with
  | [] => False
  | w :: wakes => lawful w s ∧ ∀ s', happen w s = Ok s' → lawful_wait condition wakes s'
  end.

(** A sending stream is not shut down between the lock and [StreamSend]. *)
Definition lawful_turn (t : turn) (s : quic_stream) : Prop :=
  match t with
  | Others l => lawful l s
  | Send_turn accepted wakes meanwhile =>
      lawful_wait throttled wakes (s <| qs_cancel := false |>) ∧
      ∀ s', wait_while throttled wakes (s <| qs_cancel := false |>) = Ok s' →
        let s' := on_sc (fun sc => sc <| sc_pending_sends ::= (fun n => n + 1) |>) s' in
        lawful meanwhile s' ∧ ∀ s'', happen meanwhile s' = Ok s'' → qs_open s'' = true
  | Recv_turn wakes => lawful_wait starved wakes (s <| qs_cancel := false |>)
  end.

Fixpoint lawful_turns (test : iperf_test) (l : list turn) (x : bytes * Z * quic_stream) : Prop :=
  match l with
  | [] => True
  | t :: l => lawful_turn t x.2 ∧ ∀ x', take_turn test t x = Ok x' → lawful_turns test l x'
  end.

(** ** The invariant of a stream *)

(** [taken] has been read, [extra] more sends are counted as pending than MsQuic
    has, and the buffer has [size] bytes. *)
Record stream_inv (test : iperf_test) (size : nat) (taken : bytes) (extra : Z) (s : quic_stream) : Prop := {
  inv_queue : queue_ok (qs_sc s);
  inv_fifo : qs_arrived s = taken ++ content (qs_sc s);
  inv_pending : sc_pending_sends (qs_sc s) = Z.of_nat (length (qs_sends s)) + extra;
  inv_extra : 0 ≤ extra;
  inv_flight : Z.of_nat (length (qs_sends s)) ≤ QUIC_MAX_PENDING_SENDS;
  inv_open : qs_open s = true ∨ sc_fin (qs_sc s) = true;
  inv_buffer : length (sp_buffer (qs_sp s)) = size;
  inv_left : sp_pending_size (qs_sp s) = 0 ∨ sp_pending_size (qs_sp s) = blksize (settings test);
  inv_sent : rs_bytes_sent (sp_result (qs_sp s)) = u64 (Z.of_nat (length (qs_wire s)));
  inv_received : rs_bytes_received (sp_result (qs_sp s)) = u64 (Z.of_nat (length taken))
}.

(** What other threads leave alone. *)
Definition same_side (s s' : quic_stream) : Prop :=
  qs_wire s' = qs_wire s ∧ qs_cancel s' = qs_cancel s ∧ sp_buffer (qs_sp s') = sp_buffer (qs_sp s) ∧
  (length (qs_sends s') ≤ length (qs_sends s))%nat.

Lemma same_side_trans s1 s2 s3 : same_side s1 s2 → same_side s2 s3 → same_side s1 s3.
Proof. unfold same_side. intros (E1 & E2 & E3 & E4) (F1 & F2 & F3 & F4). split_and!; [congruence..|lia]. Qed.

Lemma happens_inv test size taken extra h s :
  stream_inv test size taken extra s → allowed h s →
  ∃ s', happens h s = Ok s' ∧ stream_inv test size taken extra s' ∧ same_side s s'.
Proof.
  intros [I1 I2 I3 I4 I5 I6 I7 I8 I9 I10] Ha. destruct h as [e| |]; cbn [happens].
  2: { eexists. split; [reflexivity|]. split; [by split|by split_and!]. }
  2: { eexists. split; [reflexivity|]. split; [by split|by split_and!]. }
  destruct e as [i|l| | |a|]; cbn [stream_cb].
  - cbn in Ha. destruct (lookup_lt_is_Some_2 _ _ Ha) as [b Hb]. rewrite Hb.
    assert (length (take i (qs_sends s) ++ drop (S i) (qs_sends s)) = pred (length (qs_sends s)))%nat as El.
    { rewrite length_app, length_take, length_drop. lia. }
    eexists. split; [reflexivity|]. split; [|split_and!; try done; cbn; lia].
    split; try done; cbn.
    + rewrite El, I3. rewrite (proj2 (Z.ltb_lt _ _)) by lia. lia.
    + lia.
  - cbn in Ha. destruct Ha as [Hm Hf].
    destruct (copy_buffers_ok l (qs_sc s) I1 Hm) as (H1 & H2 & H3 & H4); [done|].
    eexists. split; [reflexivity|]. split; [|by split_and!].
    split; try done; cbn.
    + by rewrite H2, I2, app_assoc.
    + by rewrite H4.
    + by rewrite H3.
  - eexists. split; [reflexivity|]. split; [|by split_and!]. split; try done; cbn. by right.
  - eexists. split; [reflexivity|]. split; [|by split_and!]. split; try done; cbn. by right.
  - destruct a.
    + eexists. split; [reflexivity|]. split; [|by split_and!]. split; try done; cbn. by right.
    + cbn in Ha. rewrite Ha.
      eexists. split; [reflexivity|]. split; [|by split_and!]. split; try done; cbn. by right.
  - eexists. split; [reflexivity|]. split; [|by split_and!]. by split.
Qed.

Lemma happen_inv test size taken extra l : ∀ s,
  stream_inv test size taken extra s → lawful l s →
  ∃ s', happen l s = Ok s' ∧ stream_inv test size taken extra s' ∧ same_side s s'.
Proof.
  induction l as [|h l IH]; intros s Hi Hl; cbn [happen].
  { exists s. by split_and!. }
  destruct Hl as [Ha Hl]. destruct (happens_inv _ _ _ _ h s Hi Ha) as (s1 & E1 & Hi1 & Hs1). rewrite E1.
  cbn [mbind outcome_bind]. destruct (IH s1 Hi1 (Hl s1 E1)) as (s2 & E2 & Hi2 & Hs2).
  exists s2. split_and!; [done|done|]. by eapply same_side_trans.
Qed.

Lemma wait_inv test size taken extra condition wakes : ∀ s,
  stream_inv test size taken extra s → lawful_wait condition wakes s →
  ∃ s', wait_while condition wakes s = Ok s' ∧ condition s' = false ∧
        stream_inv test size taken extra s' ∧ same_side s s'.
Proof.
  induction wakes as [|w wakes IH]; intros s Hi Hl; cbn [wait_while]; cbn [lawful_wait] in Hl;
    destruct (condition s) eqn:Ec; [by destruct Hl| | |].
  1,3: by exists s; split_and!.
  destruct (Hl eq_refl) as [Hw Hwait]. destruct (happen_inv _ _ _ _ w s Hi Hw) as (s1 & E1 & Hi1 & Hs1).
  rewrite E1. cbn [mbind outcome_bind]. destruct (IH s1 Hi1 (Hwait s1 E1)) as (s2 & E2 & Hc & Hi2 & Hs2).
  exists s2. split_and!; [done..|]. by eapply same_side_trans.
Qed.

(** ** The calls *)

Definition blocks_fit (test : iperf_test) (size : nat) : Prop :=
  0 < blksize (settings test) < 2 ^ 31 ∧ blksize (settings test) ≤ Z.of_nat size.

Lemma cancel_inv test size taken extra b s :
  stream_inv test size taken extra s → stream_inv test size taken extra (s <| qs_cancel := b |>).
Proof. by intros []. Qed.

(** [iperf_quic_recv] returns once there is data or the stream is over; it takes
    the front of the queue, at most a block. *)
Lemma recv_inv size taken extra wakes test s :
  blocks_fit test size → state test = TEST_RUNNING →
  stream_inv test size taken extra s → lawful_wait starved wakes (s <| qs_cancel := false |>) →
  ∃ r s', iperf_quic_recv true wakes test s = Ok (r, s') ∧ 0 ≤ r ≤ blksize (settings test) ∧
    stream_inv test size (taken ++ take (Z.to_nat r) (sp_buffer (qs_sp s'))) extra s' ∧
    qs_cancel s' = qs_cancel s ∧ qs_wire s' = qs_wire s ∧ (r = 0 → over s' = true ∧ content (qs_sc s') = []).
Proof.
  intros [Hb Hbs] Hrun Hi Hl. unfold iperf_quic_recv. cbn [negb].
  destruct (wait_inv _ _ _ _ _ _ _ (cancel_inv _ _ _ _ false _ Hi) Hl) as (s1 & -> & Hc & Hi1 & (Hw & _ & Hbuf & _)).
  cbn [mbind outcome_bind]. destruct Hi1 as [I1 I2 I3 I4 I5 I6 I7 I8 I9 I10].
  pose proof I1 as (Hck & Hq & Hsz). unfold starved in Hc. rewrite Hq in Hc |- *.
  destruct (Z.eqb_spec (Z.of_nat (length (content (qs_sc s1)))) 0) as [E|E].
  - cbn [andb] in Hc. apply negb_false_iff in Hc. exists 0. eexists. split; [reflexivity|].
    change (Z.to_nat 0) with 0%nat. rewrite take_0, app_nil_r.
    split_and!; [lia|lia| |done|done|]; [by split|]. intros _. split; [done|].
    apply length_zero_iff_nil, (Nat2Z.inj _ 0). exact E.
  - clear Hc. rewrite (wrapu_id 64 (blksize _)) by (unfold in_u; lia).
    set (want := Z.to_nat _).
    destruct (copy_loop_spec (copy_fuel (qs_sc s1)) want 0 (sp_buffer (qs_sp s1)) (qs_sc s1) I1)
      as (sc' & -> & H1 & H2 & H3 & H4); [lia|lia|lia|unfold copy_fuel; lia|intros; unfold copy_fuel; lia|].
    cbn [mbind outcome_bind]. rewrite Nat.sub_0_r in *. rewrite Hrun, Z.eqb_refl.
    eexists _, _. split; [reflexivity|].
    assert (i32 (Z.of_nat want) = Z.of_nat want) as -> by (apply wraps_id; [lia|unfold in_s; lia]).
    rewrite Nat2Z.id. cbn [take app].
    assert (length (take want (content (qs_sc s1))) = want) as Lt by (rewrite length_take; lia).
    match goal with |- context [take want (sp_buffer (qs_sp ?x))] =>
      assert (take want (sp_buffer (qs_sp x)) = take want (content (qs_sc s1))) as -> end.
    { cbn. rewrite ?take_0. cbn [app]. rewrite take_app_le by lia. by rewrite take_take, Nat.min_id. }
    split_and!; [lia|lia| |done|done|lia].
    split; try done; cbn.
    + rewrite H2, I2, <- app_assoc. by rewrite take_drop.
    + by rewrite H4.
    + by rewrite H3.
    + rewrite ?take_0. cbn [app]. rewrite length_app, Lt, length_drop. lia.
    + rewrite I10, length_app, Lt, wrapu_add_l. f_equal. lia.
Qed.

Lemma set_pending b sp :
  sp_pending_size sp = 0 ∨ sp_pending_size sp = b →
  (if sp_pending_size sp =? 0 then sp <| sp_pending_size := b |> else sp) = sp <| sp_pending_size := b |>.
Proof. destruct sp. intros [E|E]; cbn in E; subst; [done|]. cbn. by destruct (b =? 0). Qed.

Lemma on_sp_ext f g s : f (qs_sp s) = g (qs_sp s) → on_sp f s = on_sp g s.
Proof. intros E. unfold on_sp, update_field. by rewrite E. Qed.

(** [iperf_quic_send] hands over one block, or nothing when the stream is over. *)
Lemma send_inv size taken extra accepted wakes meanwhile test s :
  blocks_fit test size → stream_inv test size taken extra s →
  lawful_turn (Send_turn accepted wakes meanwhile) s →
  ∃ r s', iperf_quic_send true true accepted wakes meanwhile test s = Ok (r, s') ∧
    stream_inv test size taken (if r <? 0 then extra + 1 else extra) s' ∧
    ((r = blksize (settings test) ∧ accepted = true ∧ qs_cancel s' = qs_cancel s ∧
      qs_wire s' = qs_wire s ++ take (Z.to_nat (blksize (settings test))) (sp_buffer (qs_sp s))) ∨
     (r = 0 ∧ over s' = true ∧ qs_cancel s' = qs_cancel s ∧ qs_wire s' = qs_wire s) ∨
     (r = NET_HARDERROR ∧ accepted = false ∧ qs_wire s' = qs_wire s)).
Proof.
  intros [Hb Hbs] Hi [Hl Hm]. unfold iperf_quic_send. cbn [negb].
  destruct (wait_inv _ _ _ _ _ _ _ (cancel_inv _ _ _ _ false _ Hi) Hl) as (s1 & E1 & Hc & Hi1 & (Hw & _ & Hbuf & _)).
  rewrite E1. cbn [mbind outcome_bind]. destruct (over s1) eqn:Eo.
  { exists 0. eexists. split; [reflexivity|]. split; [by apply cancel_inv|]. right. left. by split_and!. }
  unfold throttled in Hc. rewrite Eo, andb_true_r in Hc. bool_to_prop.
  destruct (Hm s1 E1) as [Hlm Hopen]. clear Hm Hl E1.
  set (s2 := on_sc _ s1) in *.
  assert (stream_inv test size taken (extra + 1) s2) as Hi2.
  { destruct Hi1. split; try done; cbn; lia. }
  destruct (happen_inv _ _ _ _ _ _ Hi2 Hlm) as (s3 & E3 & Hi3 & (Hw3 & _ & Hbuf3 & Hfl)).
  rewrite E3. cbn [mbind outcome_bind]. specialize (Hopen s3 E3).
  destruct Hi3 as [I1 I2 I3 I4 I5 I6 I7 I8 I9 I10].
  set (s4 := on_sp _ s3).
  assert (s4 = on_sp (fun sp => sp <| sp_pending_size := blksize (settings test) |>) s3) as Es.
  { apply on_sp_ext. by apply set_pending. }
  rewrite Es. clear s4 Es. cbn [on_sp qs_sp sp_pending_size sp_buffer].
  set (s4 := on_sp _ s3) in *. change (sp_buffer (qs_sp s4)) with (sp_buffer (qs_sp s3)).
  change (sp_pending_size (qs_sp s4)) with (blksize (settings test)).
  rewrite decide_False by lia. change (qs_open s4) with (qs_open s3). rewrite Hopen. cbn [negb].
  assert (length (qs_sends s3) < 32)%nat as Hroom.
  { destruct Hi1 as [_ _ J3 _ _ _ _ _ _ _]. unfold QUIC_MAX_PENDING_SENDS in *.
    change (qs_sends s2) with (qs_sends s1) in Hfl. destruct Hi as [_ _ _ J4 _ _ _ _ _ _]. lia. }
  assert (length (take (Z.to_nat (blksize (settings test))) (sp_buffer (qs_sp s3))) = Z.to_nat (blksize (settings test))) as Lt.
  { rewrite length_take. lia. }
  destruct accepted; cbn [negb].
  - eexists _, _. split; [reflexivity|].
    rewrite wraps_id by (try unfold in_s; lia). rewrite (proj2 (Z.ltb_ge _ _)) by lia. split.
    + split; try done; cbn.
      * rewrite I3, length_app. cbn. lia.
      * by destruct Hi.
      * rewrite length_app. unfold QUIC_MAX_PENDING_SENDS. cbn. lia.
      * by left.
      * rewrite I9, length_app, Lt, wrapu_add_l. f_equal. lia.
    + left. split_and!; [done..|]. cbn. rewrite Hw3. change (qs_wire s2) with (qs_wire s1). rewrite Hw, Hbuf3.
      change (sp_buffer (qs_sp s2)) with (sp_buffer (qs_sp s1)). by rewrite Hbuf.
  - eexists _, _. split; [reflexivity|]. split.
    + cbn. split; try done; cbn. by right.
    + right. right. split_and!; [done..|]. cbn. by rewrite Hw3.
Qed.

Lemma turn_inv test size taken failed t s :
  blocks_fit test size → state test = TEST_RUNNING →
  stream_inv test size taken failed s → lawful_turn t s →
  ∃ taken' failed' s', take_turn test t (taken, failed, s) = Ok (taken', failed', s') ∧
                       stream_inv test size taken' failed' s'.
Proof.
  intros Hb Hr Hi Hl. destruct t as [l|accepted wakes meanwhile|wakes]; cbn [take_turn].
  - destruct (happen_inv _ _ _ _ _ _ Hi Hl) as (s' & -> & Hi' & _). by eexists _, _, _.
  - destruct (send_inv _ _ _ accepted wakes meanwhile _ _ Hb Hi Hl) as (r & s' & -> & Hi' & _).
    cbn [mbind outcome_bind]. by eexists _, _, _.
  - destruct (recv_inv _ _ _ wakes _ _ Hb Hr Hi Hl) as (r & s' & -> & _ & Hi' & _).
    cbn [mbind outcome_bind]. by eexists _, _, _.
Qed.

Lemma turns_inv test size l : ∀ taken failed s,
  blocks_fit test size → state test = TEST_RUNNING →
  stream_inv test size taken failed s → lawful_turns test l (taken, failed, s) →
  ∃ taken' failed' s', take_turns test l (taken, failed, s) = Ok (taken', failed', s') ∧
                       stream_inv test size taken' failed' s'.
Proof.
  induction l as [|t l IH]; intros taken failed s Hb Hr Hi Hl; cbn [take_turns].
  { by eexists _, _, _. }
  destruct Hl as [Ht Hl]. destruct (turn_inv _ _ _ _ _ _ Hb Hr Hi Ht) as (taken1 & failed1 & s1 & E & Hi1).
  rewrite E. cbn [mbind outcome_bind]. by apply IH; [..|apply Hl].
Qed.

(** A stream that was just attached. *)
Record fresh_stream (size : nat) (s : quic_stream) : Prop := {
  fresh_sc : ∃ h, qs_sc s = quic_sc_new h;
  fresh_lib : qs_sends s = [] ∧ qs_wire s = [] ∧ qs_arrived s = [] ∧ qs_open s = true;
  fresh_buffer : length (sp_buffer (qs_sp s)) = size ∧ sp_pending_size (qs_sp s) = 0;
  fresh_counts : rs_bytes_sent (sp_result (qs_sp s)) = 0 ∧ rs_bytes_received (sp_result (qs_sp s)) = 0
}.

Lemma fresh_inv test size s : fresh_stream size s → stream_inv test size [] 0 s.
Proof.
  intros [[h E] (E1 & E2 & E3 & E4) [E5 E6] [E7 E8]].
  split; rewrite ?E, ?E1, ?E2, ?E3, ?E4; try done; cbn; first [by left|by split_and!].
Qed.

(** ** Properties *)


(** The two ends of a QUIC stream agree.  When all that one end handed to
    MsQuic has arrived at the other and was read there, the bytes read are the bytes
    sent, and the two counters are the same. *)
Theorem quic_counters_agree test_s test_r size_s size_r sending receiving s r :
  blocks_fit test_s size_s → state test_s = TEST_RUNNING → fresh_stream size_s s →
  lawful_turns test_s sending ([], 0, s) →
  blocks_fit test_r size_r → state test_r = TEST_RUNNING → fresh_stream size_r r →
  lawful_turns test_r receiving ([], 0, r) →
  ∃ own failed s' taken failed' r',
    take_turns test_s sending ([], 0, s) = Ok (own, failed, s') ∧
    take_turns test_r receiving ([], 0, r) = Ok (taken, failed', r') ∧
    (qs_arrived r' = qs_wire s' → sc_queued (qs_sc r') = 0 →
     taken = qs_wire s' ∧ rs_bytes_received (sp_result (qs_sp r')) = rs_bytes_sent (sp_result (qs_sp s'))).
Proof.
  intros Hb Hr Hf Hl Hb' Hr' Hf' Hl'.
  destruct (turns_inv _ _ _ _ _ _ Hb Hr (fresh_inv _ _ _ Hf) Hl) as (own & failed & s' & E & []).
  destruct (turns_inv _ _ _ _ _ _ Hb' Hr' (fresh_inv _ _ _ Hf') Hl') as (taken & failed' & r' & E' & []).
  exists own, failed, s', taken, failed', r'. split_and!; [done|done|]. intros Ha Hq.
  assert (content (qs_sc r') = []) as E0.
  { destruct inv_queue1 as (_ & Hc & _). apply length_zero_iff_nil. lia. }
  rewrite E0, app_nil_r in inv_fifo1. assert (taken = qs_wire s') as Et by congruence. split; [done|].
  by rewrite inv_received1, inv_sent0, Et.
Qed.

(** ** Concrete runs *)

Definition quic_test : iperf_test :=
  on_settings (fun x => x <| blksize := 4 |>) ((iperf_defaults false iperf_new_test) <| state := TEST_RUNNING |>).

Definition quic_sample (b : bytes) : quic_stream :=
  mk_qs (mk_stream 1 1 false 0 (mk_result 0 0 0 0 0 0 0 zero_time zero_time zero_time D0 D0 [])
           false b 0 0 0 0 0 D0 D0 0 0 0 0 0)
    (quic_sc_new (Some 1%positive)) false true [] [] [] true.

(** Two blocks are sent, the first is completed; six bytes arrive in two pieces,
    the second during a wait, and the peer ends the stream. *)
Definition sample_turns : list turn :=
  [Send_turn true [] []; Others [Callback (RECEIVE [(B "wxy", true)])]; Recv_turn [];
   Send_turn true [] [Callback (SEND_COMPLETE 0)];
   Recv_turn [[]; [Callback (RECEIVE [(B "z", true); (B "12", true)]); Callback PEER_SEND_SHUTDOWN]]; Recv_turn []].

(** Runs the happenings of a concrete script one by one. *)
Ltac run_lawful :=
  repeat lazymatch goal with
  | H : ?x = Ok ?y |- _ => vm_compute in H; injection H as H; subst y
  | H : _ = true |- _ => vm_compute in H; first [discriminate H|clear H]
  | |- True => exact I
  | |- _ ∧ _ => split
  | |- ∀ x, @?P x => intros
  | |- lawful_turns _ _ _ => cbn [lawful_turns lawful_turn snd]
  | |- lawful (_ :: _) _ => cbn [lawful]
  | |- lawful [] _ => exact I
  | |- lawful_wait _ _ _ => cbn [lawful_wait]
  | |- allowed _ _ => first [exact I|split; [by repeat constructor|vm_compute; reflexivity]|vm_compute; lia]
  | |- qs_open _ = true => vm_compute; reflexivity
  end.


Lemma quic_counters_agree_witness :
  let sending := [Send_turn true [] []; Send_turn true [] [Callback (SEND_COMPLETE 0)]] in
  let receiving := [Recv_turn [[Callback (RECEIVE [(B "iper", true)])]]; Others [Callback (RECEIVE [(B "ip", true); (B "er", true)])]; Recv_turn []] in
  let s := quic_sample (B "iperf3") in
  let r := quic_sample (B "0123") in
  ∃ own failed s' taken failed' r',
    take_turns quic_test sending ([], 0, s) = Ok (own, failed, s') ∧
    take_turns quic_test receiving ([], 0, r) = Ok (taken, failed', r') ∧
    (qs_arrived r' = qs_wire s' → sc_queued (qs_sc r') = 0 →
     taken = qs_wire s' ∧ rs_bytes_received (sp_result (qs_sp r')) = rs_bytes_sent (sp_result (qs_sp s'))).
Proof.
  intros sending receiving s r.
  apply (quic_counters_agree quic_test quic_test 6 4 sending receiving s r).
  - split; vm_compute; [split; reflexivity|discriminate].
  - reflexivity.
  - split; [by eexists|by split_and!|by split|by split].
  - unfold sending. run_lawful.
  - split; vm_compute; [split; reflexivity|discriminate].
  - reflexivity.
  - split; [by eexists|by split_and!|by split|by split].
  - unfold receiving. run_lawful.
Defined.

(** In that run everything arrives; the second block is sent from the buffer that
    was read into. *)
Example quic_run :
  match take_turns quic_test sample_turns ([], 0, quic_sample (B "iperf3")) with
  | Ok (taken, failed, s) => (taken, failed, qs_wire s, qs_sends s, sc_pending_sends (qs_sc s))
  | _ => ([], 0, [], [], 0)
  end = (B "wxyz12", 0, B "iperwxyr", [B "wxyr"], 1).
Proof. vm_compute. reflexivity. Qed.

(** Without memory for a copy the data is dropped, but MsQuic is told that it was
    consumed: the reader goes on behind the gap. *)
Example no_memory_loses_bytes :
  match take_turns quic_test
          [Others [Callback (RECEIVE [(B "ab", true); (B "cd", false)]); Callback (RECEIVE [(B "ef", true)])]; Recv_turn []]
          ([], 0, quic_sample (B "0123")) with
  | Ok (taken, _, s) => (taken, qs_arrived s)
  | _ => ([], [])
  end = (B "abef", B "abcdef").
Proof. vm_compute. reflexivity. Qed.

(** A send that MsQuic refuses stays pending for ever, and the thread cannot be
    cancelled any more. *)
Example refused_send_stays_pending :
  match iperf_quic_send true true false [] [] quic_test (quic_sample (B "iperf3")) with
  | Ok (r, s) => (r, sc_pending_sends (qs_sc s), length (qs_sends s), qs_cancel s)
  | _ => (0, 0, 0%nat, true)
  end = (NET_HARDERROR, 1, 0%nat, false).
Proof. vm_compute. reflexivity. Qed.

(** When the stream is shut down between the lock and [StreamSend], the callback
    closes the handle that is then used. *)
Example send_races_shutdown :
  iperf_quic_send true true true [] [Callback (SHUTDOWN_COMPLETE false)] quic_test (quic_sample (B "iperf3")) = Undef.
Proof. vm_compute. reflexivity. Qed.
