(* ===== verification/QuicTest.v ===== *)
(** * A test over QUIC ([src/iperf_quic.c], part two: connections)

    The context of a test with MsQuic's handles, the streams that arrived and wait
    to be accepted, the streams that have a number and wait to be attached, and the
    pipe whose reading end wakes the server's [select].  The [process] keeps track
    of what is open: a handle used after it was closed and a context used after it
    was freed are undefined.  The answers of MsQuic and of the system are a script,
    and so is what MsQuic's threads report while a call waits.  Behind the operations
    come the rules of their programs ([wpq], [holds]), the release of a context, its
    start, and what it means that a context accounts for all that was opened
    ([accounted]).  Of MsQuic the model
    relies on its documentation: a successful [...Open] yields a new handle, which
    [...Close] ends; callbacks get the context that was last set. *)

From S2P Require Import Prelude Errno CInt CDouble CStdio IperfTime Json Net Test Quic.

(** ** Data *)

Definition QUIC_ADDRESS_FAMILY_UNSPEC : Z := 0.

Record quic_settings := mk_quic_settings {
  IdleTimeoutMs : option Z;
  StreamRecvWindow : Z;            (* the four windows and the buffer are the same *)
  ConnFlowControlWindow : Z;
  PeerBidiStreamCount : option Z
}.

Inductive credential :=
| Cred_pkcs12 (length : Z) (password : option bytes)
| Cred_file (cert key : bytes)
| Cred_file_protected (cert key password : bytes)
| Cred_client.                     (* no certificate, no validation *)

(** What the program did to a handle. *)
Inductive object :=
| Registration
| Configuration (s : quic_settings) (c : option credential)
| Listener (address : option (Z * bytes * Z))            (* family, address, port *)
| Connection (peer : option (Z * bytes * Z)) (set_up : bool)
| Stream (context : option positive).

Record iperf_quic_context := mk_ctx {
  cx_api : bool;
  cx_reg : option positive;
  cx_cfg : option positive;
  cx_listener : option positive;
  cx_conn : option positive;
  cx_ready : bool;
  cx_server : bool;
  cx_done : bool;
  cx_nfd : option (Z * Z);         (* the two ends of the pipe; [None] for -1 *)
  cx_pipe : nat;                   (* bytes in the pipe *)
  cx_next_id : Z;
  cx_map : list (Z * positive);    (* the latest first *)
  cx_accept : list positive        (* in the order of arrival *)
}.
#[export] Instance eta_ctx : Settable iperf_quic_context := fun r =>
  mk_ctx (cx_api r) (cx_reg r) (cx_cfg r) (cx_listener r) (cx_conn r) (cx_ready r) (cx_server r) (cx_done r)
    (cx_nfd r) (cx_pipe r) (cx_next_id r) (cx_map r) (cx_accept r).

(** What MsQuic reports; whether [calloc] succeeds in the callback. *)
Inductive library_event :=
| CONNECTED
| PEER_STREAM_STARTED (context_memory node_memory : bool)
| CONN_SHUTDOWN_COMPLETE
| NEW_CONNECTION
| Stream_event (h : positive) (e : stream_event).

(** A wait ends by a signal or at its deadline. *)
Inductive wake := Woken (l : list library_event) | Timed_out (l : list library_event).

Record process := mk_process {
  q_context : option iperf_quic_context;             (* [test->quic_ctx] *)
  q_handles : gmap positive object;
  q_apis : nat;                                      (* tables of MsQuicOpen2 *)
  q_streams : gmap positive iperf_quic_stream_ctx;
  q_fds : gset Z;
  q_files : nat;                                     (* open FILEs *)
  q_blobs : nat;                                     (* blocks for the certificate *)
  q_answers : list Z;
  q_wakes : list wake
}.
#[export] Instance eta_process : Settable process := fun r =>
  mk_process (q_context r) (q_handles r) (q_apis r) (q_streams r) (q_fds r) (q_files r) (q_blobs r)
    (q_answers r) (q_wakes r).

(** ** Programs *)

Definition quic (A : Type) : Type := process → outcome (A * process).
#[export] Instance quic_ret : MRet quic := fun A a p => Ok (a, p).
#[export] Instance quic_bind : MBind quic := fun A B f x p => '(a, p) ← x p; f a p.

Definition undefined {A} : quic A := fun _ => Undef.

(** The next answer, 0 for success when the script has run out. *)
Definition next_answer : quic Z := fun p =>
  match q_answers p with
  | [] => Ok (0, p)
  | z :: l => Ok (z, p <| q_answers := l |>)
  end.

(** [QUIC_FAILED]: negative values (pending) are not failures. *)
Definition library_fails : quic bool := s ← next_answer; mret (0 <? s).
Definition system_fails : quic bool := s ← next_answer; mret (negb (s =? 0)).

(** [if (FAILED(call)) bad; else good;] *)
Definition if_fails {A} (call : quic bool) (bad good : quic A) : quic A :=
  failed ← call; if (failed : bool) then bad else good.

(** [test->quic_ctx] of a test that has one. *)
Definition with_ctx {A} (f : iperf_quic_context → quic A) : quic A := fun p =>
  match q_context p with None => Undef | Some c => f c p end.
Definition set_ctx (f : iperf_quic_context → iperf_quic_context) : quic () := fun p =>
  match q_context p with None => Undef | Some c => Ok ((), p <| q_context := Some (f c) |>) end.

(** A new handle. *)
Definition new_handle (o : object) : quic positive := fun p =>
  let h := fresh (dom (q_handles p)) in Ok (h, p <| q_handles ::= insert h o |>).
Definition api_open (o : object) : quic (option positive) :=
  if_fails library_fails (mret None) (h ← new_handle o; mret (Some h)).
Definition api_close (h : positive) : quic () := fun p =>
  match q_handles p !! h with
  | None => Undef
  | Some _ => Ok ((), p <| q_handles ::= delete h |>)
  end.
(** A call on a handle that changes what is known of it, or nothing. *)
Definition api_use (h : positive) (f : object → object) : quic () := fun p =>
  match q_handles p !! h with
  | None => Undef
  | Some o => Ok ((), p <| q_handles ::= insert h (f o) |>)
  end.
(** A call that can fail. *)
Definition api_try (h : positive) (f : object → object) : quic bool :=
  if_fails library_fails (api_use h id;; mret true) (api_use h f;; mret false).

Definition MsQuicOpen2 : quic bool :=
  if_fails library_fails (mret true) (fun p => Ok (false, p <| q_apis ::= S |>)).
Definition MsQuicClose : quic () := fun p =>
  match q_apis p with O => Undef | S n => Ok ((), p <| q_apis := n |>) end.

(** ** Streams, the queue and the map *)

Definition new_sc (h : option positive) : quic positive := fun p =>
  let sc := fresh (dom (q_streams p)) in Ok (sc, p <| q_streams ::= insert sc (quic_sc_new h) |>).
Definition quic_sc_free (sc : positive) : quic () := fun p =>
  match q_streams p !! sc with
  | None => Undef
  | Some _ => Ok ((), p <| q_streams ::= delete sc |>)
  end.
Definition with_sc {A} (sc : positive) (f : iperf_quic_stream_ctx → quic A) : quic A := fun p =>
  match q_streams p !! sc with None => Undef | Some x => f x p end.
Definition set_sc (sc : positive) (x : iperf_quic_stream_ctx) : quic () := fun p =>
  Ok ((), p <| q_streams ::= insert sc x |>).

(** A pipe holds 65536 bytes; the write to a full one fails. *)
Definition notify_pipe (c : iperf_quic_context) : iperf_quic_context :=
  match cx_nfd c with
  | Some _ => if Z.of_nat (cx_pipe c) <? 65536 then c <| cx_pipe ::= S |> else c
  | None => c
  end.

(** Without memory for the node the stream is in no list. *)
Definition map_add (id : Z) (sc : positive) : quic () :=
  if_fails system_fails (mret ()) (set_ctx (fun c => c <| cx_map ::= cons (id, sc) |>)).

Fixpoint take_id (id : Z) (l : list (Z * positive)) : option (positive * list (Z * positive)) :=
  match l with
  | [] => None
  | (i, sc) :: l =>
      if i =? id then Some (sc, l)
      else '(x, rest) ← take_id id l; Some (x, (i, sc) :: rest)
  end.
Definition map_take (id : Z) (c : iperf_quic_context) : option positive * iperf_quic_context :=
  match take_id id (cx_map c) with
  | None => (None, c)
  | Some (sc, l) => (Some sc, c <| cx_map := l |>)
  end.

(** Without memory for the node the stream is forgotten. *)
Definition accept_enq (memory : bool) (sc : positive) (c : iperf_quic_context) : iperf_quic_context :=
  if memory then notify_pipe (c <| cx_accept ::= (fun l => l ++ [sc]) |>) else c.
Definition accept_deq (c : iperf_quic_context) : option positive * iperf_quic_context :=
  match cx_accept c with
  | [] => (None, c)
  | sc :: l => (Some sc, c <| cx_accept := l |>)
  end.

(** [StreamShutdown] only announces the end. *)
Definition StreamShutdown (h : positive) : quic () := api_use h id.

Definition close_stream (sc : positive) : quic () :=
  with_sc sc (fun x =>
    match sc_stream x with
    | None => mret ()
    | Some h => StreamShutdown h;; api_close h;; set_sc sc (x <| sc_stream := None |>)
    end).

(** ** Callbacks *)

(** [stream_cb]: the handle stays in the context when the callback closes it. *)
Definition process_stream_cb (h : positive) (e : stream_event) : quic () := fun p =>
  match q_handles p !! h with
  | Some (Stream (Some sc)) =>
      with_sc sc (fun x =>
        set_sc sc (sc_after e x);;
        match e with SHUTDOWN_COMPLETE false => api_close h | _ => mret () end) p
  | Some (Stream None) => Ok ((), p)
  | _ => Undef
  end.

Definition conn_cb (e : library_event) : quic () :=
  match e with
  | CONNECTED => set_ctx (fun c => c <| cx_ready := true |>)
  | PEER_STREAM_STARTED context_memory node_memory =>
      h ← new_handle (Stream None);
      if context_memory then
        sc ← new_sc (Some h);
        api_use h (fun _ => Stream (Some sc));;
        set_ctx (accept_enq node_memory sc)
      else mret ()
  | CONN_SHUTDOWN_COMPLETE => set_ctx (fun c => c <| cx_ready := false |> <| cx_done := true |>)
  | _ => mret ()
  end.

(** Every new connection becomes the connection of the test. *)
Definition listener_cb : quic () :=
  h ← new_handle (Connection None false);
  set_ctx (fun c => c <| cx_conn := Some h |>);;
  with_ctx (fun c =>
    match cx_cfg c with
    | None => undefined
    | Some cfg =>
        api_use cfg id;;
        (* the result is not looked at *)
        if_fails library_fails (mret ()) (api_use h (fun _ => Connection None true))
    end).

Definition report (e : library_event) : quic () :=
  match e with
  | Stream_event h e => process_stream_cb h e
  | NEW_CONNECTION => listener_cb
  | e => conn_cb e
  end.

Fixpoint reports (l : list library_event) : quic () :=
  match l with
  | [] => mret ()
  | e :: l => report e;; reports l
  end.

(** ** The context of a test *)

(** The file of [--quic-p12], read into a block: its length. *)
Definition fclose : quic () := fun p =>
  match q_files p with O => Undef | S n => Ok ((), p <| q_files := n |>) end.
Definition free_blob : quic () := fun p =>
  match q_blobs p with O => Undef | S n => Ok ((), p <| q_blobs := n |>) end.

Definition read_p12 : quic (option Z) :=
  let close_and_fail := fclose;; mret None in
  if_fails system_fails (mret None)                                             (* fopen *)
    ((fun p => Ok ((), p <| q_files ::= S |>));;
     if_fails system_fails close_and_fail                                       (* fseek *)
       (sz ← next_answer;                                                       (* ftell *)
        if sz <=? 0 then close_and_fail
        else
          if_fails system_fails close_and_fail                                  (* fseek *)
            (if_fails system_fails close_and_fail                               (* malloc *)
               ((fun p => Ok ((), p <| q_blobs ::= S |>));;
                if_fails system_fails (fclose;; free_blob;; mret None)          (* fread *)
                  (fclose;; mret (Some sz)))))).

Definition quic_cert_error (test : iperf_test) : iperf_test := test <| i_errno := IEQUICCERT |>.

(** [ConfigurationLoadCredential] *)
Definition load_credential (cfg : positive) (c : credential) : quic Z :=
  if_fails (api_try cfg (fun o => match o with Configuration s _ => Configuration s (Some c) | o => o end))
    (mret (-1)) (mret 0).

Definition settings_of (test : iperf_test) : quic_settings :=
  let s := settings test in
  let bufsz := if quic_buf_size (cmdline test) =? 0 then 32 * 1024 * 1024 else u32 (quic_buf_size (cmdline test)) in
  mk_quic_settings
    (if 0 <? idle_timeout s then Some (idle_timeout s * 1000) else None)
    bufsz (u64 (bufsz * 4))
    (if 0 <? num_streams test then
       let n := wrapu 16 (num_streams test * (if bidirectional test =? 0 then 1 else 2)) in
       Some (if n =? 0 then 1 else n)
     else None).

Definition load_server_credential (test : iperf_test) (cfg : positive) : quic (Z * iperf_test) :=
  let c := cmdline test in
  match quic_p12_file c with
  | Some _ =>
      sz ← read_p12;
      match sz with
      | None => mret (-1, quic_cert_error test)
      | Some sz =>
          r ← load_credential cfg (Cred_pkcs12 (u32 sz) (quic_p12_password c));
          free_blob;; mret (r, test)
      end
  | None =>
      match quic_cert_file c, quic_key_file c with
      | Some cert, Some key =>
          r ← load_credential cfg (match quic_key_password c with
                                   | Some pass => Cred_file_protected cert key pass
                                   | None => Cred_file cert key
                                   end);
          mret (r, test)
      | _, _ => mret (-1, quic_cert_error test)
      end
  end.

Definition open_api (c : iperf_quic_context) : quic (Z * iperf_quic_context) :=
  if_fails MsQuicOpen2 (mret (-1, c))
    (let c := c <| cx_api := true |> in
     reg ← api_open Registration;
     match reg with
     | None => mret (-1, c)
     | Some h => mret (0, c <| cx_reg := Some h |>)
     end).

Definition open_config (test : iperf_test) (c : iperf_quic_context) : quic (Z * iperf_test * iperf_quic_context) :=
  match cx_reg c with
  | None => undefined
  | Some reg =>
      api_use reg id;;
      cfg ← api_open (Configuration (settings_of test) None);
      match cfg with
      | None => mret (-1, test, c)
      | Some cfg =>
          let c := c <| cx_cfg := Some cfg |> in
          '(r, test) ← (if cx_server c then load_server_credential test cfg
                        else r ← load_credential cfg Cred_client; mret (r, test));
          mret (r, test, c)
      end
  end.

(** ** Releasing *)

Definition close_fd (fd : Z) : quic () := fun p =>
  if decide (fd ∈ q_fds p) then Ok ((), p <| q_fds ::= (fun s => s ∖ {[fd]}) |>) else Undef.

Definition close_pipe (c : iperf_quic_context) : quic () :=
  match cx_nfd c with
  | None => mret ()
  | Some (r, w) => close_fd r;; close_fd w
  end.

Definition close_handle (h : option positive) : quic () :=
  match h with None => mret () | Some h => api_close h end.

(** [ListenerStop], [ListenerClose] *)
Definition stop_listener (c : iperf_quic_context) : quic () :=
  match cx_listener c with
  | None => mret ()
  | Some h => api_use h id;; api_close h;; set_ctx (fun c => c <| cx_listener := None |>)
  end.

(** A stream of the map or the queue: aborted, closed, freed. *)
Definition abort_stream (sc : positive) : quic () := close_stream sc;; quic_sc_free sc.

Fixpoint abort_streams (l : list positive) : quic () :=
  match l with
  | [] => mret ()
  | sc :: l => abort_stream sc;; abort_streams l
  end.

(** MsQuic reports while the connection is closed. *)
Definition close_connection (c : iperf_quic_context) : quic () :=
  match cx_conn c with
  | None => mret ()
  | Some h =>
      api_use h id;;
      (fun p => match q_wakes p with
                | [] => Ok ((), p)
                | Woken l :: rest | Timed_out l :: rest => reports l (p <| q_wakes := rest |>)
                end);;
      api_close h
  end.

Definition unset_context : quic () := fun p => Ok ((), p <| q_context := None |>).

(** Everything the context has, then the context. *)
Definition free_context (c : iperf_quic_context) : quic () :=
  stop_listener c;;
  abort_streams (map snd (cx_map c));;
  set_ctx (fun c => c <| cx_map := [] |>);;
  abort_streams (cx_accept c);;
  set_ctx (fun c => c <| cx_accept := [] |>);;
  close_connection c;;
  set_ctx (fun c => c <| cx_conn := None |>);;
  close_pipe c;;
  close_handle (cx_cfg c);;
  close_handle (cx_reg c);;
  (if cx_api c then MsQuicClose else mret ());;
  unset_context.

Definition get_context : quic (option iperf_quic_context) := fun p => Ok (q_context p, p).

Definition iperf_quic_free_test (test : iperf_test) : quic iperf_test :=
  c ← get_context;
  match c with
  | None => mret test
  | Some c => free_context c;; mret (test <| prot_listener := -1 |>)
  end.

Definition iperf_quic_reset_test : iperf_test → quic iperf_test := iperf_quic_free_test.

Definition put_context (c : iperf_quic_context) : quic () := fun p => Ok ((), p <| q_context := Some c |>).

(** Two new descriptors. *)
Definition make_pipe : quic (option (Z * Z)) :=
  if_fails system_fails (mret None)
    (fun p =>
       let fd := 1 + foldr Z.max 2 (elements (q_fds p)) in
       Ok (Some (fd, fd + 1), p <| q_fds ::= (fun s => {[fd; fd + 1]} ∪ s) |>)).

Definition new_context (server : bool) : iperf_quic_context :=
  mk_ctx false None None None None false server false None 0 0 [] [].

(** The goto of a failure. *)
Definition fail_init (test : iperf_test) (c : iperf_quic_context) : quic (Z * iperf_test) :=
  put_context c;; test ← iperf_quic_free_test test; mret (-1, test).

Definition init_context (test : iperf_test) (is_server : bool) : quic (Z * iperf_test) :=
  '(r, c) ← open_api (new_context is_server);
  if r <? 0 then fail_init test c
  else
    '(r, test, c) ← open_config test c;
    if r <? 0 then fail_init test c
    else
      nfd ← make_pipe;
      match nfd with
      | None => fail_init test c
      | Some _ => put_context (c <| cx_nfd := nfd |>);; mret (0, test)
      end.

Definition quic_ctx_init (test : iperf_test) (is_server : bool) : quic (Z * iperf_test) :=
  c ← get_context;
  match c with
  | Some _ => mret (0, test)
  | None => if_fails system_fails (mret (-1, test)) (init_context test is_server)     (* calloc *)
  end.

(** ** The protocol's operations *)

Definition iperf_quic_init (test : iperf_test) : Z := 0.

Definition quic_error (test : iperf_test) (e : Z) : Z * iperf_test := (-1, test <| i_errno := e |>).
(** [if (i_errno == 0) i_errno = e] *)
Definition quic_default_error (test : iperf_test) (e : Z) : Z * iperf_test :=
  (-1, if i_errno test =? 0 then test <| i_errno := e |> else test).

(** The port of the data, [(uint16_t)]. *)
Definition data_port (test : iperf_test) : Z :=
  wrapu 16 (if 0 <? quic_port test then quic_port test else server_port test).

Section Operations.
(** Whether a string is an address of a family. *)
Context (inet_pton : Z → bytes → bool).

(** Where to listen: family and address, [[]] for any. *)
Definition quic_listen_address (test : iperf_test) : Z * bytes :=
  let d := domain (cmdline test) in
  let default := (if d =? AF_INET6 then AF_INET6 else AF_INET, []) in
  match bind_address (cmdline test) with
  | None => default
  | Some a =>
      if inet_pton AF_INET a then (AF_INET, a)
      else if inet_pton AF_INET6 a then (AF_INET6, a)
      else default
  end.

Definition start_listener (test : iperf_test) (c : iperf_quic_context) : quic (Z * iperf_test) :=
  match cx_reg c with
  | None => undefined
  | Some reg =>
      api_use reg id;;
      l ← api_open (Listener None);
      match l with
      | None => mret (quic_error test IELISTEN)
      | Some l =>
          set_ctx (fun c => c <| cx_listener := Some l |>);;
          let '(af, host) := quic_listen_address test in
          if_fails (api_try l (fun _ => Listener (Some (af, host, data_port test))))
            (mret (quic_error test IELISTEN))
            (let test := match cx_nfd c with Some (r, _) => test <| prot_listener := r |> | None => test end in
             mret (prot_listener test, test))
      end
  end.

Definition iperf_quic_listen (test : iperf_test) : quic (Z * iperf_test) :=
  '(r, test) ← quic_ctx_init test true;
  if r <? 0 then mret (quic_default_error test IELISTEN)
  else with_ctx (start_listener test).
End Operations.

(** One byte is read from the pipe, if there is one; without a stream the result
    is -1, and no error number. *)
Definition iperf_quic_accept (test : iperf_test) : quic (Z * iperf_test) :=
  c ← get_context;
  match c with
  | None => mret (quic_error test IEACCEPT)
  | Some c =>
      let c := match cx_nfd c with Some _ => c <| cx_pipe ::= pred |> | None => c end in
      let '(sc, c) := accept_deq c in
      match sc with
      | None => put_context c;; mret (-1, test)
      | Some sc =>
          let id := cx_next_id c + 1 in
          put_context (c <| cx_next_id := id |>);; map_add id sc;; mret (id, test)
      end
  end.

(** [while (!ctx->ready)]: without a limit it goes on for as long as the connection
    is not made; [NoFuel] when the script has no more. *)
Fixpoint wait_ready (fuel : nat) (limited : bool) : quic () := fun p =>
  match q_context p, q_wakes p, fuel with
  | None, _, _ => Undef
  | Some c, wakes, fuel =>
      if cx_ready c then Ok ((), p)
      else
        match wakes, fuel with
        | Woken l :: rest, S fuel => (reports l;; wait_ready fuel limited) (p <| q_wakes := rest |>)
        | Timed_out l :: rest, S fuel =>
            (reports l;; if limited then mret () else wait_ready fuel limited) (p <| q_wakes := rest |>)
        | _, _ => NoFuel
        end
  end.

Definition open_connection (test : iperf_test) (c : iperf_quic_context) : quic (Z * iperf_test) :=
  match cx_conn c, cx_reg c, cx_cfg c with
  | Some _, _, _ => mret (0, test)
  | None, Some reg, Some cfg =>
      api_use reg id;;
      conn ← api_open (Connection None false);
      match conn with
      | None => mret (quic_error test IECONNECT)
      | Some conn =>
          set_ctx (fun c => c <| cx_conn := Some conn |>);;
          let d := domain (cmdline test) in
          let family := if (d =? AF_INET) || (d =? AF_INET6) then d else QUIC_ADDRESS_FAMILY_UNSPEC in
          api_use cfg id;;
          if_fails (api_try conn (fun _ => Connection (Some (family, default [] (server_hostname (cmdline test)), data_port test)) true))
            (mret (quic_error test IECONNECT)) (mret (0, test))
      end
  | None, _, _ => undefined
  end.

(** From the open connection on: one bidirectional stream. *)
Definition open_stream (test : iperf_test) (c : iperf_quic_context) : quic (Z * iperf_test) :=
  match cx_conn c with
  | None => undefined
  | Some conn =>
      api_use conn id;;
      h ← api_open (Stream None);
      match h with
      | None => mret (quic_error test IECONNECT)
      | Some h =>
          if_fails system_fails                                                 (* quic_sc_new *)
            (api_close h;; mret (quic_error test IECONNECT))
            (sc ← new_sc (Some h);
             api_use h (fun _ => Stream (Some sc));;
             if_fails (api_try h id)                                            (* StreamStart *)
               (close_stream sc;; quic_sc_free sc;; mret (quic_error test IECONNECT))
               (with_ctx (fun c =>
                  let id := cx_next_id c + 1 in
                  put_context (c <| cx_next_id := id |>);; map_add id sc;; mret (id, test))))
      end
  end.

Definition iperf_quic_connect (test : iperf_test) : quic (Z * iperf_test) :=
  '(r, test) ← quic_ctx_init test false;
  if r <? 0 then mret (quic_default_error test IECONNECT)
  else
    '(r, test) ← with_ctx (open_connection test);
    if r <? 0 then mret (r, test)
    else
      (fun p => wait_ready (S (length (q_wakes p))) (0 <? connect_timeout (settings test)) p);;
      with_ctx (fun c => if cx_ready c then open_stream test c else mret (quic_error test IECONNECT)).

(** The context of a number, which becomes [sp->data]. *)
Definition iperf_quic_attach_stream (stream_id : Z) : quic (Z * option positive) :=
  c ← get_context;
  match c with
  | None => mret (-1, None)
  | Some c =>
      let '(sc, c) := map_take stream_id c in
      put_context c;;
      match sc with
      | None => mret (-1, None)
      | Some sc => mret (0, Some sc)
      end
  end.

(** [data] is [sp->data]. *)
Definition iperf_quic_stream_cleanup (data : option positive) : quic () :=
  match data with
  | None => mret ()
  | Some sc =>
      c ← get_context;
      match c with
      | None => quic_sc_free sc
      | Some _ => close_stream sc;; quic_sc_free sc
      end
  end.

Definition iperf_quic_close_listener (test : iperf_test) : quic iperf_test :=
  c ← get_context;
  match c with
  | None => mret test
  | Some c =>
      stop_listener c;;
      let test := if -1 <? prot_listener test
                  then test <| read_set ::= (fun s => s ∖ {[prot_listener test]}) |>
                            <| write_set ::= (fun s => s ∖ {[prot_listener test]}) |>
                  else test in
      close_pipe c;;
      set_ctx (fun c => c <| cx_nfd := None |>);;
      mret (test <| prot_listener := -1 |>)
  end.

Definition iperf_quic_shutdown_complete : quic bool :=
  c ← get_context;
  match c with
  | None => mret false
  | Some c => mret (cx_done c)
  end.

(** ** Rules *)

Definition wpq {A} (x : quic A) (Q : A → process → Prop) (p : process) : Prop :=
  ∃ a p', x p = Ok (a, p') ∧ Q a p'.

(** What the process has. *)
Record holds (c : option iperf_quic_context) (H : gmap positive object) (apis : nat)
    (S : gmap positive iperf_quic_stream_ctx) (F : gset Z) (files blobs : nat) (W : list wake) (p : process) : Prop := {
  holds_context : q_context p = c;
  holds_handles : q_handles p = H;
  holds_apis : q_apis p = apis;
  holds_streams : q_streams p = S;
  holds_fds : q_fds p = F;
  holds_files : q_files p = files;
  holds_blobs : q_blobs p = blobs;
  holds_wakes : q_wakes p = W
}.

Lemma wpq_ret {A} (a : A) Q p : Q a p → wpq (mret a) Q p.
Proof. intros HQ. by exists a, p. Qed.

Lemma wpq_bind {A C} (x : quic C) (f : C → quic A) Q p :
  wpq x (fun c p' => wpq (f c) Q p') p → wpq (x ≫= f) Q p.
Proof.
  intros (c & p' & Hx & Hc). unfold wpq. cbv [mbind quic_bind outcome_bind]. rewrite Hx. exact Hc.
Qed.

Section Rules.
Context (c : option iperf_quic_context) (H : gmap positive object) (apis : nat).
Context (S : gmap positive iperf_quic_stream_ctx) (F : gset Z) (files blobs : nat) (W : list wake).

Local Abbreviation has := (holds c H apis S F files blobs W).

Lemma wpq_next Q p : has p → (∀ z p', has p' → Q z p') → wpq next_answer Q p.
Proof.
  intros Hp HQ. unfold wpq, next_answer. destruct (q_answers p) as [|z l].
  - eexists _, _. split; [reflexivity|]. by apply HQ.
  - eexists _, _. split; [reflexivity|]. apply HQ. by destruct Hp.
Qed.

Lemma wpq_if_fails {A} call (bad good : quic A) Q p :
  (call = library_fails ∨ call = system_fails) →
  has p → (∀ p', has p' → wpq bad Q p') → (∀ p', has p' → wpq good Q p') → wpq (if_fails call bad good) Q p.
Proof.
  intros Hc Hp Hbad Hgood. unfold if_fails. apply wpq_bind.
  assert (wpq call (fun _ p' => has p') p) as (b & p1 & Hb & Hp1).
  { destruct Hc as [-> | ->]; (apply wpq_bind; apply wpq_next; [done|]; intros; by apply wpq_ret). }
  exists b, p1. split; [done|]. destruct b; auto.
Qed.

Lemma wpq_new_handle o Q p :
  has p → (∀ h p', H !! h = None → holds c (<[h := o]> H) apis S F files blobs W p' → Q h p') → wpq (new_handle o) Q p.
Proof.
  intros [] HQ. eexists _, _. split; [reflexivity|]. apply HQ; [|split; cbn; congruence].
  subst. apply not_elem_of_dom, is_fresh.
Qed.

Lemma wpq_open o Q p :
  has p → (∀ p', has p' → Q None p') →
  (∀ h p', H !! h = None → holds c (<[h := o]> H) apis S F files blobs W p' → Q (Some h) p') → wpq (api_open o) Q p.
Proof.
  intros Hp Hno Hyes. eapply wpq_if_fails; [by left|done|intros; by apply wpq_ret, Hno|].
  intros p1 [] . apply wpq_bind. eexists _, _. split; [reflexivity|]. apply wpq_ret, Hyes.
  - subst. apply not_elem_of_dom, is_fresh.
  - split; cbn; congruence.
Qed.

Lemma wpq_close h o Q p :
  has p → H !! h = Some o → (∀ p', holds c (delete h H) apis S F files blobs W p' → Q () p') → wpq (api_close h) Q p.
Proof.
  intros [] Hh HQ. eexists _, _. unfold api_close. rewrite holds_handles0, Hh. split; [reflexivity|].
  apply HQ. split; cbn; congruence.
Qed.

Lemma wpq_use h o f Q p :
  has p → H !! h = Some o → (∀ p', holds c (<[h := f o]> H) apis S F files blobs W p' → Q () p') → wpq (api_use h f) Q p.
Proof.
  intros [] Hh HQ. eexists _, _. unfold api_use. rewrite holds_handles0, Hh. split; [reflexivity|].
  apply HQ. split; cbn; congruence.
Qed.

(** Only a use. *)
Lemma wpq_touch h o Q p : has p → H !! h = Some o → (∀ p', has p' → Q () p') → wpq (api_use h id) Q p.
Proof. intros Hp Hh HQ. eapply wpq_use; [done..|]. intros p'. rewrite insert_id; [apply HQ|done]. Qed.

Lemma wpq_try h o f Q p :
  has p → H !! h = Some o → (∀ p', has p' → Q true p') →
  (∀ p', holds c (<[h := f o]> H) apis S F files blobs W p' → Q false p') → wpq (api_try h f) Q p.
Proof.
  intros Hp Hh Hno Hyes. eapply wpq_if_fails; [by left|done|..]; intros p1 Hp1; apply wpq_bind.
  - eapply wpq_touch; [done..|]. intros. by apply wpq_ret, Hno.
  - eapply wpq_use; [done..|]. intros. by apply wpq_ret, Hyes.
Qed.

Lemma wpq_if_try {A} h o f (bad good : quic A) Q p :
  has p → H !! h = Some o → (∀ p', has p' → wpq bad Q p') →
  (∀ p', holds c (<[h := f o]> H) apis S F files blobs W p' → wpq good Q p') → wpq (if_fails (api_try h f) bad good) Q p.
Proof. intros Hp Hh Hno Hyes. apply wpq_bind. by eapply wpq_try. Qed.

Lemma wpq_open_table Q p :
  has p → (∀ p', has p' → Q true p') → (∀ p', holds c H (1 + apis) S F files blobs W p' → Q false p') → wpq MsQuicOpen2 Q p.
Proof.
  intros Hp Hno Hyes. eapply wpq_if_fails; [by left|done|intros; by apply wpq_ret, Hno|].
  intros p1 []. eexists _, _. split; [reflexivity|]. apply Hyes. split; cbn; congruence.
Qed.

Lemma wpq_close_table n Q p :
  has p → apis = Datatypes.S n → (∀ p', holds c H n S F files blobs W p' → Q () p') → wpq MsQuicClose Q p.
Proof.
  intros [] -> HQ. unfold wpq, MsQuicClose. rewrite holds_apis0. eexists _, _. split; [reflexivity|].
  apply HQ. split; cbn; congruence.
Qed.

Lemma wpq_get Q p : has p → Q c p → wpq get_context Q p.
Proof. intros [] HQ. eexists _, _. split; [reflexivity|]. by rewrite holds_context0. Qed.

Lemma wpq_with_ctx {A} x (f : iperf_quic_context → quic A) Q p :
  has p → c = Some x → wpq (f x) Q p → wpq (with_ctx f) Q p.
Proof. intros [] -> HQ. unfold wpq, with_ctx. by rewrite holds_context0. Qed.

Lemma wpq_set_ctx x f Q p :
  has p → c = Some x → (∀ p', holds (Some (f x)) H apis S F files blobs W p' → Q () p') → wpq (set_ctx f) Q p.
Proof.
  intros [] -> HQ. unfold wpq, set_ctx. rewrite holds_context0. eexists _, _. split; [reflexivity|].
  apply HQ. split; cbn; congruence.
Qed.

Lemma wpq_put x Q p : has p → (∀ p', holds (Some x) H apis S F files blobs W p' → Q () p') → wpq (put_context x) Q p.
Proof. intros [] HQ. eexists _, _. split; [reflexivity|]. apply HQ. split; cbn; congruence. Qed.

Lemma wpq_unset Q p : has p → (∀ p', holds None H apis S F files blobs W p' → Q () p') → wpq unset_context Q p.
Proof. intros [] HQ. eexists _, _. split; [reflexivity|]. apply HQ. split; cbn; congruence. Qed.

Lemma wpq_new_sc h Q p :
  has p → (∀ sc p', S !! sc = None → holds c H apis (<[sc := quic_sc_new h]> S) F files blobs W p' → Q sc p') → wpq (new_sc h) Q p.
Proof.
  intros [] HQ. eexists _, _. split; [reflexivity|]. apply HQ; [|split; cbn; congruence].
  subst. apply not_elem_of_dom, is_fresh.
Qed.

Lemma wpq_sc_free sc x Q p :
  has p → S !! sc = Some x → (∀ p', holds c H apis (delete sc S) F files blobs W p' → Q () p') → wpq (quic_sc_free sc) Q p.
Proof.
  intros [] Hs HQ. unfold wpq, quic_sc_free. rewrite holds_streams0, Hs. eexists _, _. split; [reflexivity|].
  apply HQ. split; cbn; congruence.
Qed.

(** A stream whose handle is open. *)
Lemma wpq_close_stream sc x h o Q p :
  has p → S !! sc = Some x → sc_stream x = Some h → H !! h = Some o →
  (∀ p', holds c (delete h H) apis (<[sc := x <| sc_stream := None |>]> S) F files blobs W p' → Q () p') →
  wpq (close_stream sc) Q p.
Proof.
  intros Hp Hs Hh Ho HQ. unfold wpq, close_stream, with_sc. pose proof Hp as []. rewrite holds_streams0, Hs, Hh.
  eassert (wpq (StreamShutdown h;; api_close h;; set_sc sc (x <| sc_stream := None |>)) Q p) as Hw; [|exact Hw].
  apply wpq_bind. eapply wpq_touch; [done..|]. intros p1 Hp1. apply wpq_bind.
  eapply (wpq_close h o); [done..|]. intros p2 []. eexists _, _. split; [reflexivity|]. apply HQ. split; cbn; congruence.
Qed.

Lemma wpq_close_fd fd Q p :
  has p → fd ∈ F → (∀ p', holds c H apis S (F ∖ {[fd]}) files blobs W p' → Q () p') → wpq (close_fd fd) Q p.
Proof.
  intros [] Hf HQ. unfold wpq, close_fd. rewrite holds_fds0, decide_True by done. eexists _, _. split; [reflexivity|].
  apply HQ. split; cbn; congruence.
Qed.

Lemma wpq_make_pipe Q p :
  has p → (∀ p', has p' → Q None p') →
  (∀ r w p', 0 ≤ r → 0 ≤ w → r ≠ w → r ∉ F → w ∉ F → holds c H apis S ({[r; w]} ∪ F) files blobs W p' → Q (Some (r, w)) p') →
  wpq make_pipe Q p.
Proof.
  intros Hp Hno Hyes. eapply wpq_if_fails; [by right|done|intros; by apply wpq_ret, Hno|].
  intros p1 []. eexists _, _. split; [reflexivity|]. set (m := foldr Z.max 2 (elements (q_fds p1))).
  assert (2 ≤ m ∧ ∀ x, x ∈ q_fds p1 → x ≤ m) as [Hm Hx].
  { unfold m. setoid_rewrite <- elem_of_elements. induction (elements (q_fds p1)) as [|y l [IH1 IH2]]; cbn.
    - split; [lia|]. by intros x ?%elem_of_nil.
    - split; [lia|]. intros x [->|Hx]%elem_of_cons; [lia|]. specialize (IH2 x Hx). lia. }
  apply Hyes; [lia..| | |].
  - intros Hin. rewrite <- holds_fds0 in Hin. specialize (Hx _ Hin). lia.
  - intros Hin. rewrite <- holds_fds0 in Hin. specialize (Hx _ Hin). lia.
  - split; cbn; congruence.
Qed.
End Rules.

(** ** Releasing everything *)

Definition deletes {A} (l : list positive) (m : gmap positive A) : gmap positive A := foldl (fun m k => delete k m) m l.

(** The handle of a stream context, and those of a list of them. *)
Definition handle_of (S : gmap positive iperf_quic_stream_ctx) (sc : positive) : option positive := S !! sc ≫= sc_stream.

Definition streams_of (c : iperf_quic_context) : list positive := map snd (cx_map c) ++ cx_accept c.

(** The handles a context owns, in the order in which they are closed. *)
Definition handles_of (c : iperf_quic_context) (S : gmap positive iperf_quic_stream_ctx) : list positive :=
  option_list (cx_listener c) ++ omap (handle_of S) (streams_of c) ++ option_list (cx_conn c) ++
  option_list (cx_cfg c) ++ option_list (cx_reg c).

Definition fds_of (c : iperf_quic_context) : gset Z :=
  match cx_nfd c with Some (r, w) => {[r; w]} | None => ∅ end.

(** What MsQuic may report while a connection without streams is closed. *)
Definition quiet (e : library_event) : bool :=
  match e with CONNECTED | CONN_SHUTDOWN_COMPLETE => true | _ => false end.
Definition wake_events (w : wake) : list library_event := match w with Woken l | Timed_out l => l end.

Lemma deletes_app {A} l1 l2 (m : gmap positive A) : deletes (l1 ++ l2) m = deletes l2 (deletes l1 m).
Proof. apply foldl_app. Qed.

Lemma lookup_deletes {A} l (m : gmap positive A) k : k ∉ l → deletes l m !! k = m !! k.
Proof.
  revert m. induction l as [|k' l IH]; intros m Hk; [done|]. change (deletes l (delete k' m) !! k = m !! k).
  apply not_elem_of_cons in Hk as [Hne Hk]. by rewrite IH, lookup_delete_ne.
Qed.

Lemma lookup_deletes_in {A} l (m : gmap positive A) k : k ∈ l → deletes l m !! k = None.
Proof.
  revert m. induction l as [|k' l IH]; intros m Hk; [by apply elem_of_nil in Hk|].
  change (deletes l (delete k' m) !! k = None).
  destruct (decide (k ∈ l)) as [Hin|Hin]; [by apply IH|].
  apply elem_of_cons in Hk as [-> |Hk]; [|done]. by rewrite lookup_deletes, lookup_delete_eq.
Qed.

Lemma deletes_perm {A} l l' (m : gmap positive A) : l ≡ₚ l' → deletes l m = deletes l' m.
Proof.
  intros Hl. apply map_eq. intros k. destruct (decide (k ∈ l')).
  - by rewrite !lookup_deletes_in by by rewrite ?Hl.
  - by rewrite !lookup_deletes by by rewrite ?Hl.
Qed.

Lemma handle_of_delete S sc (l : list positive) : sc ∉ l → omap (handle_of (delete sc S)) l = omap (handle_of S) l.
Proof.
  induction l as [|sc' l IH]; intros Hl; [done|]. apply not_elem_of_cons in Hl as [Hne Hl]. cbn.
  rewrite IH by done. unfold handle_of. by rewrite lookup_delete_ne.
Qed.

Lemma handle_of_deletes S l' (l : list positive) :
  (∀ sc, sc ∈ l' → sc ∉ l) → omap (handle_of (deletes l' S)) l = omap (handle_of S) l.
Proof.
  revert S. induction l' as [|sc l' IH]; intros S Hd; [done|].
  change (omap (handle_of (deletes l' (delete sc S))) l = omap (handle_of S) l).
  rewrite IH by set_solver. apply handle_of_delete. set_solver.
Qed.

Lemma wpq_abort_stream c H apis S F files blobs W sc Q p :
  holds c H apis S F files blobs W p → is_Some (S !! sc) → Forall (fun h => is_Some (H !! h)) (option_list (handle_of S sc)) →
  (∀ p', holds c (deletes (option_list (handle_of S sc)) H) apis (delete sc S) F files blobs W p' → Q () p') →
  wpq (abort_stream sc) Q p.
Proof.
  intros Hp [x Hx] Hh HQ. unfold handle_of in *. rewrite Hx in *. cbn in *. apply wpq_bind.
  destruct (sc_stream x) as [h|] eqn:Hs; cbn in *.
  - apply Forall_singleton in Hh as [o Ho]. eapply (wpq_close_stream _ _ _ _ _ _ _ _ sc x h o); [done..|].
    intros p1 Hp1. eapply wpq_sc_free; [exact Hp1|apply lookup_insert_eq|]. intros p2 Hp2. apply HQ.
    by rewrite delete_insert_eq in Hp2.
  - exists (), p. split; [|by eapply wpq_sc_free].
    unfold close_stream, with_sc. destruct Hp. by rewrite holds_streams0, Hx, Hs.
Qed.

Lemma wpq_abort_streams c apis F files blobs W l Q : ∀ H S p,
  holds c H apis S F files blobs W p → NoDup l → Forall (fun sc => is_Some (S !! sc)) l →
  NoDup (omap (handle_of S) l) → Forall (fun h => is_Some (H !! h)) (omap (handle_of S) l) →
  (∀ p', holds c (deletes (omap (handle_of S) l) H) apis (deletes l S) F files blobs W p' → Q () p') →
  wpq (abort_streams l) Q p.
Proof.
  induction l as [|sc l IH]; intros H S p Hp Hnd Hl Hnh Hh HQ; [by apply wpq_ret, HQ|].
  apply NoDup_cons in Hnd as [Hsc Hnd]. apply Forall_cons in Hl as [Hx Hl].
  assert (omap (handle_of S) (sc :: l) = option_list (handle_of S sc) ++ omap (handle_of S) l) as Heq.
  { cbn. by destruct (handle_of S sc). }
  rewrite Heq in *.
  apply NoDup_app in Hnh as (_ & Hdis & Hnh). apply Forall_app in Hh as [Hh1 Hh2].
  apply wpq_bind. eapply wpq_abort_stream; [done..|]. intros p1 Hp1. eapply IH; [exact Hp1|done| | | |].
  - apply Forall_forall. intros k Hk. rewrite lookup_delete_ne by set_solver. by eapply (Forall_forall _ _) in Hl.
  - by rewrite handle_of_delete.
  - rewrite handle_of_delete by done. apply Forall_forall. intros h Hin. rewrite lookup_deletes by set_solver.
    by eapply (Forall_forall _ _) in Hh2.
  - rewrite handle_of_delete by done. intros p2 Hp2. apply HQ. by rewrite deletes_app.
Qed.

Lemma wpq_close_handle c H apis S F files blobs W oh Q p :
  holds c H apis S F files blobs W p → Forall (fun h => is_Some (H !! h)) (option_list oh) →
  (∀ p', holds c (deletes (option_list oh) H) apis S F files blobs W p' → Q () p') → wpq (close_handle oh) Q p.
Proof.
  intros Hp Hh HQ. destruct oh as [h|]; [|by apply wpq_ret, HQ].
  apply Forall_singleton in Hh as [o Ho]. eapply wpq_close; [exact Hp|exact Ho|]. exact HQ.
Qed.

Lemma wpq_stop_listener c x H apis S F files blobs W Q p :
  holds (Some c) H apis S F files blobs W p → Forall (fun h => is_Some (H !! h)) (option_list (cx_listener x)) →
  (∀ c' p', holds (Some c') (deletes (option_list (cx_listener x)) H) apis S F files blobs W p' → Q () p') →
  wpq (stop_listener x) Q p.
Proof.
  intros Hp Hh HQ. unfold stop_listener. destruct (cx_listener x) as [h|]; [|by eapply wpq_ret, HQ].
  apply Forall_singleton in Hh as [o Ho]. apply wpq_bind. eapply wpq_touch; [done..|]. intros p1 Hp1.
  apply wpq_bind. eapply wpq_close; [done..|]. intros p2 Hp2. eapply wpq_set_ctx; [done..|]. intros p3. apply HQ.
Qed.

Lemma wpq_close_pipe c x H apis S F files blobs W Q p :
  holds c H apis S F files blobs W p →
  match cx_nfd x with Some (r, w) => r ≠ w ∧ r ∈ F ∧ w ∈ F | None => True end →
  (∀ p', holds c H apis S (F ∖ fds_of x) files blobs W p' → Q () p') → wpq (close_pipe x) Q p.
Proof.
  intros Hp Hf HQ. unfold close_pipe, fds_of in *. destruct (cx_nfd x) as [[r w]|].
  - destruct Hf as (Hne & Hr & Hw). apply wpq_bind. eapply wpq_close_fd; [done..|]. intros p1 Hp1.
    eapply wpq_close_fd; [done|set_solver|]. intros p2. rewrite difference_difference_l_L. apply HQ.
  - apply wpq_ret, HQ. by rewrite difference_empty_L.
Qed.

Lemma wpq_quiet H apis S F files blobs W l Q : forallb quiet l = true → ∀ c p,
  holds (Some c) H apis S F files blobs W p →
  (∀ c' p', holds (Some c') H apis S F files blobs W p' → Q () p') → wpq (reports l) Q p.
Proof.
  induction l as [|e l IH]; intros Hl c p Hp HQ; [by eapply wpq_ret, HQ|].
  cbn in Hl. apply andb_true_iff in Hl as [He Hl]. apply wpq_bind.
  destruct e; try discriminate; cbn; (eapply wpq_set_ctx; [done..|]; intros p1 Hp1; by eapply IH).
Qed.

(** The events of the next wait. *)
Definition next_events (W : list wake) : list library_event := match W with [] => [] | w :: _ => wake_events w end.
Definition wakes_after (c : iperf_quic_context) (W : list wake) : list wake :=
  match cx_conn c with Some _ => tail W | None => W end.

Lemma wpq_close_connection c x H apis S F files blobs W Q p :
  holds (Some c) H apis S F files blobs W p → Forall (fun h => is_Some (H !! h)) (option_list (cx_conn x)) →
  (is_Some (cx_conn x) → forallb quiet (next_events W) = true) →
  (∀ c' p', holds (Some c') (deletes (option_list (cx_conn x)) H) apis S F files blobs (wakes_after x W) p' → Q () p') →
  wpq (close_connection x) Q p.
Proof.
  intros Hp Hh Hw HQ. unfold close_connection, wakes_after in *. destruct (cx_conn x) as [h|]; [|by eapply wpq_ret, HQ].
  apply Forall_singleton in Hh as [o Ho]. apply wpq_bind. eapply wpq_touch; [done..|]. intros p1 Hp1.
  specialize (Hw ltac:(done)). apply wpq_bind. pose proof Hp1 as [].
  assert (wpq (fun p => match q_wakes p with
                        | [] => Ok ((), p)
                        | Woken l :: rest | Timed_out l :: rest => reports l (p <| q_wakes := rest |>)
                        end) (fun _ p' => ∃ c', holds (Some c') H apis S F files blobs (tail W) p') p1) as (u & p2 & E & c2 & Hp2).
  { destruct W as [|w W].
    - unfold wpq. rewrite holds_wakes0. by exists (), p1; eauto.
    - assert (wpq (reports (wake_events w)) (fun _ p' => ∃ c', holds (Some c') H apis S F files blobs W p')
        (p1 <| q_wakes := W |>)) as (u & p2 & E & Hp2).
      { eapply (wpq_quiet H apis S F files blobs W); [exact Hw| |by eauto]. split; cbn; eauto. }
      exists u, p2. split; [|done]. rewrite holds_wakes0. by destruct w. }
  exists u, p2. split; [done|]. eapply wpq_close; [done..|]. intros p3. apply HQ.
Qed.

(** What is owned is there, and nothing is owned twice. *)
Record owned (c : iperf_quic_context) (H : gmap positive object) (S : gmap positive iperf_quic_stream_ctx) (F : gset Z) : Prop := {
  owned_streams : Forall (fun sc => is_Some (S !! sc)) (streams_of c);
  owned_streams_once : NoDup (streams_of c);
  owned_handles : Forall (fun h => is_Some (H !! h)) (handles_of c S);
  owned_handles_once : NoDup (handles_of c S);
  owned_pipe : match cx_nfd c with Some (r, w) => r ≠ w ∧ r ∈ F ∧ w ∈ F | None => True end
}.

Lemma held_after {A} (H : gmap positive A) l1 l2 :
  Forall (fun h => is_Some (H !! h)) l2 → (∀ h, h ∈ l1 → h ∉ l2) → Forall (fun h => is_Some (deletes l1 H !! h)) l2.
Proof.
  rewrite !Forall_forall. intros Hl Hdis h Hh. rewrite lookup_deletes; [by apply Hl|]. intros Hin. by eapply Hdis.
Qed.

Lemma wpq_free_context c H n S F files blobs W Q p :
  holds (Some c) H ((if cx_api c then 1 else 0) + n) S F files blobs W p → owned c H S F →
  (is_Some (cx_conn c) → forallb quiet (next_events W) = true) →
  (∀ p', holds None (deletes (handles_of c S) H) n (deletes (streams_of c) S) (F ∖ fds_of c) files blobs (wakes_after c W) p' →
         Q () p') →
  wpq (free_context c) Q p.
Proof.
  intros Hp [Hs Hs1 Hh Hh1 Hf] Hw HQ. unfold handles_of, streams_of in *. rewrite omap_app in *.
  rewrite <- (app_assoc _ _ (option_list (cx_conn c) ++ _)) in *.
  set (hl := option_list (cx_listener c)) in *. set (h1 := omap _ (map snd (cx_map c))) in *.
  set (h2 := omap _ (cx_accept c)) in *. set (hc := option_list (cx_conn c)) in *.
  set (hg := option_list (cx_cfg c)) in *. set (hr := option_list (cx_reg c)) in *.
  rewrite !NoDup_app in Hh1. setoid_rewrite elem_of_app in Hh1. repeat setoid_rewrite elem_of_app in Hh1.
  rewrite !Forall_app in Hh. destruct Hh as (Hhl & Hm1 & Hm2 & Hhc & Hhg & Hhr).
  apply Forall_app in Hs as [Hsm Hsa]. apply NoDup_app in Hs1 as (Hndm & Hdis & Hnda).
  unfold free_context. apply wpq_bind. eapply wpq_stop_listener; [done|by apply Hhl|]. intros c1 p1 Hp1. cbn beta.
  apply wpq_bind. eapply wpq_abort_streams; [exact Hp1|done|done|apply Hh1| |].
  { apply held_after; [done|]. naive_solver. }
  intros p2 Hp2. apply wpq_bind. eapply wpq_set_ctx; [done..|]. intros p3 Hp3. apply wpq_bind.
  fold hl h1 in Hp3. rewrite <- deletes_app in Hp3.
  assert (omap (handle_of (deletes (map snd (cx_map c)) S)) (cx_accept c) = h2) as E2.
  { apply handle_of_deletes. set_solver. }
  eapply wpq_abort_streams; [exact Hp3|done|..]; [|rewrite E2; apply Hh1|rewrite E2|rewrite E2, <- deletes_app].
  { apply held_after; [done|]. set_solver. }
  { apply held_after; [done|]. setoid_rewrite elem_of_app. naive_solver. }
  intros p4 Hp4. rewrite <- deletes_app, <- app_assoc in Hp4.
  apply wpq_bind. eapply wpq_set_ctx; [done..|]. intros p5 Hp5.
  apply wpq_bind. eapply wpq_close_connection; [exact Hp5| |done|].
  { apply held_after; [done|]. setoid_rewrite elem_of_app. setoid_rewrite elem_of_app. naive_solver. }
  intros c6 p6 Hp6. fold hc in Hp6. rewrite <- deletes_app, <- !app_assoc in Hp6.
  apply wpq_bind. eapply wpq_set_ctx; [done..|]. intros p7 Hp7.
  apply wpq_bind. eapply wpq_close_pipe; [done..|]. intros p8 Hp8.
  apply wpq_bind. eapply wpq_close_handle; [done| |].
  { apply held_after; [done|]. repeat setoid_rewrite elem_of_app. naive_solver. }
  intros p9 Hp9. fold hg in Hp9. rewrite <- deletes_app, <- !app_assoc in Hp9.
  apply wpq_bind. eapply wpq_close_handle; [done| |].
  { apply held_after; [done|]. repeat setoid_rewrite elem_of_app. naive_solver. }
  intros p10 Hp10. fold hr in Hp10. rewrite <- deletes_app, <- !app_assoc in Hp10. apply wpq_bind.
  destruct (cx_api c).
  - eapply wpq_close_table; [done|done|]. intros p11 Hp11. by eapply wpq_unset.
  - apply wpq_ret. by eapply wpq_unset.
Qed.

(** ** The start of a context *)

Lemma wpq_fclose c H apis S F files blobs W n Q p :
  holds c H apis S F files blobs W p → files = Datatypes.S n →
  (∀ p', holds c H apis S F n blobs W p' → Q () p') → wpq fclose Q p.
Proof.
  intros [] -> HQ. unfold wpq, fclose. rewrite holds_files0. eexists _, _. split; [reflexivity|].
  apply HQ. split; cbn; congruence.
Qed.

Lemma wpq_free_blob c H apis S F files blobs W n Q p :
  holds c H apis S F files blobs W p → blobs = Datatypes.S n →
  (∀ p', holds c H apis S F files n W p' → Q () p') → wpq free_blob Q p.
Proof.
  intros [] -> HQ. unfold wpq, free_blob. rewrite holds_blobs0. eexists _, _. split; [reflexivity|].
  apply HQ. split; cbn; congruence.
Qed.

(** A file that was opened is closed again; a block is left only for a text. *)
Lemma wpq_read_p12 c H apis S F files blobs W Q p :
  holds c H apis S F files blobs W p →
  (∀ p', holds c H apis S F files blobs W p' → Q None p') →
  (∀ sz p', 0 < sz → holds c H apis S F files (1 + blobs) W p' → Q (Some sz) p') → wpq read_p12 Q p.
Proof.
  intros Hp Hno Hyes.
  assert (∀ p', holds c H apis S F (1 + files) blobs W p' → wpq (fclose;; mret None) Q p') as Hfail.
  { intros p1 Hp1. apply wpq_bind. eapply wpq_fclose; [done..|]. intros p2 Hp2. by apply wpq_ret, Hno. }
  assert (∀ A (bad good : quic A) Q c H apis S F files blobs W p, holds c H apis S F files blobs W p →
    (∀ p', holds c H apis S F files blobs W p' → wpq bad Q p') →
    (∀ p', holds c H apis S F files blobs W p' → wpq good Q p') → wpq (if_fails system_fails bad good) Q p) as Hif.
  { intros. eapply wpq_if_fails; eauto. }
  unfold read_p12. eapply Hif; [done|intros; by apply wpq_ret, Hno|]. intros p1 []. apply wpq_bind.
  eexists (), _. split; [reflexivity|].
  eapply (Hif _ _ _ _ c H apis S F (1 + files)%nat blobs W); [split; cbn; congruence|done|]. intros p2 Hp2. apply wpq_bind.
  eapply wpq_next; [done|]. intros sz p3 Hp3. destruct (Z.leb_spec sz 0); [by apply Hfail|].
  eapply Hif; [done|done|]. intros p4 Hp4. eapply Hif; [done|done|]. intros p5 []. apply wpq_bind.
  eexists (), _. split; [reflexivity|].
  eapply (Hif _ _ _ _ c H apis S F (1 + files)%nat (1 + blobs)%nat W); [split; cbn in *; congruence|..]; intros p6 Hp6; apply wpq_bind.
  - eapply wpq_fclose; [done..|]. intros p7 Hp7. apply wpq_bind. eapply wpq_free_blob; [done..|]. intros p8 Hp8.
    by apply wpq_ret, Hno.
  - eapply wpq_fclose; [done..|]. intros p7 Hp7. by apply wpq_ret, Hyes.
Qed.

(** The configuration with a credential. *)
Lemma wpq_load_credential c H apis S F files blobs W cfg s o cred Q p :
  holds c H apis S F files blobs W p → H !! cfg = Some (Configuration s o) →
  (∀ p', holds c H apis S F files blobs W p' → Q (-1) p') →
  (∀ p', holds c (<[cfg := Configuration s (Some cred)]> H) apis S F files blobs W p' → Q 0 p') →
  wpq (load_credential cfg cred) Q p.
Proof.
  intros Hp Hcfg Hno Hyes. eapply wpq_if_try; [done|done|..]; intros p' Hp'; apply wpq_ret; auto.
Qed.

(** The credentials the command line asks for. *)
Inductive credential_of (test : iperf_test) : bool → credential → Prop :=
| of_client : credential_of test false Cred_client
| of_p12 name sz : quic_p12_file (cmdline test) = Some name → 0 < sz →
    credential_of test true (Cred_pkcs12 (u32 sz) (quic_p12_password (cmdline test)))
| of_file cert key : quic_p12_file (cmdline test) = None → quic_cert_file (cmdline test) = Some cert →
    quic_key_file (cmdline test) = Some key → quic_key_password (cmdline test) = None →
    credential_of test true (Cred_file cert key)
| of_protected cert key pass : quic_p12_file (cmdline test) = None → quic_cert_file (cmdline test) = Some cert →
    quic_key_file (cmdline test) = Some key → quic_key_password (cmdline test) = Some pass →
    credential_of test true (Cred_file_protected cert key pass).

(** The error number is the old one or that of a certificate. *)
Definition same_but_errno (test test' : iperf_test) : Prop :=
  test' = test ∨ test' = quic_cert_error test.

Lemma wpq_load_server_credential c H apis S F files blobs W test cfg s o Q p :
  holds c H apis S F files blobs W p → H !! cfg = Some (Configuration s o) →
  (∀ test' p', same_but_errno test test' → holds c H apis S F files blobs W p' → Q (-1, test') p') →
  (∀ cred p', credential_of test true cred →
     holds c (<[cfg := Configuration s (Some cred)]> H) apis S F files blobs W p' → Q (0, test) p') →
  wpq (load_server_credential test cfg) Q p.
Proof.
  intros Hp Hcfg Hno Hyes. unfold load_server_credential.
  destruct (quic_p12_file (cmdline test)) as [name|] eqn:E12.
  - apply wpq_bind. eapply wpq_read_p12; [done|intros; apply wpq_ret, Hno; [by right|done]|]. intros sz p1 Hsz Hp1.
    apply wpq_bind. eapply wpq_load_credential; [done|done|..]; intros p2 Hp2; apply wpq_bind;
      (eapply wpq_free_blob; [done|done|]; intros p3 Hp3; apply wpq_ret).
    + apply Hno; [by left|done].
    + eapply Hyes; [by eapply of_p12|done].
  - destruct (quic_cert_file (cmdline test)) as [cert|] eqn:Ec, (quic_key_file (cmdline test)) as [key|] eqn:Ek;
      try (apply wpq_ret, Hno; [by right|done]).
    apply wpq_bind. eapply wpq_load_credential; [done|done|..]; intros p2 Hp2; apply wpq_ret.
    + apply Hno; [by left|done].
    + eapply Hyes; [|exact Hp2]. destruct (quic_key_password (cmdline test)) eqn:Ep; by econstructor.
Qed.

(** Either everything was set up or nothing is left. *)
Inductive init_outcome (test : iperf_test) (server : bool) (p : process) : Z * iperf_test → process → Prop :=
| init_failed test' p' :
    holds None (q_handles p) (q_apis p) (q_streams p) (q_fds p) (q_files p) (q_blobs p) (q_wakes p) p' →
    (test' = test ∨ ∃ t, same_but_errno test t ∧ test' = t <| prot_listener := -1 |>) →
    init_outcome test server p (-1, test') p'
| init_done reg cfg cred r w p' :
    q_handles p !! reg = None → q_handles p !! cfg = None → reg ≠ cfg →
    0 ≤ r → 0 ≤ w → r ≠ w → r ∉ q_fds p → w ∉ q_fds p → credential_of test server cred →
    holds (Some (mk_ctx true (Some reg) (Some cfg) None None false server false (Some (r, w)) 0 0 [] []))
      (<[cfg := Configuration (settings_of test) (Some cred)]> (<[reg := Registration]> (q_handles p)))
      (1 + q_apis p) (q_streams p) ({[r; w]} ∪ q_fds p) (q_files p) (q_blobs p) (q_wakes p) p' →
    init_outcome test server p (0, test) p'.

Lemma holds_self c p : q_context p = c →
  holds c (q_handles p) (q_apis p) (q_streams p) (q_fds p) (q_files p) (q_blobs p) (q_wakes p) p.
Proof. by intros <-. Qed.

(** A context that has an API table and handles, but no stream yet. *)
Lemma wpq_fail_init test server p0 t c (api : bool) regs H1 p1 :
  c = mk_ctx api (regs !! 0%nat) (regs !! 1%nat) None None false server false None 0 0 [] [] →
  holds None H1 ((if api then 1 else 0) + q_apis p0) (q_streams p0) (q_fds p0) (q_files p0) (q_blobs p0) (q_wakes p0) p1 →
  (length regs ≤ 2)%nat → NoDup regs → Forall (fun h => is_Some (H1 !! h)) regs →
  deletes regs H1 = q_handles p0 → same_but_errno test t →
  wpq (fail_init t c) (init_outcome test server p0) p1.
Proof.
  intros -> Hp1 Hlen Hnd Hin Hdel Ht. apply wpq_bind. eapply wpq_put; [done|]. intros p2 Hp2. apply wpq_bind.
  set (c := mk_ctx _ _ _ _ _ _ _ _ _ _ _ _ _) in *.
  assert (handles_of c (q_streams p0) ≡ₚ regs) as Hh.
  { destruct regs as [|a [|b [|x l]]]; cbn; [done..|apply Permutation_swap|cbn in Hlen; lia]. }
  apply wpq_bind. eapply wpq_get; [done|]. apply wpq_bind. eapply (wpq_free_context c); [exact Hp2| |by intros []|].
  - split; [constructor|constructor|by rewrite Hh|by rewrite Hh|done].
  - intros p3 Hp3. apply wpq_ret, wpq_ret, init_failed; [|right; eauto].
    change (wakes_after c _) with (q_wakes p0) in Hp3. change (fds_of c) with (∅ : gset Z) in Hp3.
    change (deletes (streams_of c) _) with (q_streams p0) in Hp3. rewrite difference_empty_L in Hp3.
    by rewrite (deletes_perm _ _ _ Hh), Hdel in Hp3.
Qed.

Lemma wpq_credential c H apis S F files blobs W test (server : bool) cfg s o Q p :
  holds c H apis S F files blobs W p → H !! cfg = Some (Configuration s o) →
  (∀ test' p', same_but_errno test test' → holds c H apis S F files blobs W p' → Q (-1, test') p') →
  (∀ cred p', credential_of test server cred →
     holds c (<[cfg := Configuration s (Some cred)]> H) apis S F files blobs W p' → Q (0, test) p') →
  wpq (if server then load_server_credential test cfg else r ← load_credential cfg Cred_client; mret (r, test)) Q p.
Proof.
  intros Hp Hcfg Hno Hyes. destruct server; [by eapply wpq_load_server_credential|].
  apply wpq_bind. eapply wpq_load_credential; [done|done|..]; intros p1 Hp1; apply wpq_ret.
  - apply Hno; [by left|done].
  - eapply Hyes; [constructor|done].
Qed.

(** Behind the registration. *)
Lemma wpq_configure test server p0 reg p1 :
  q_handles p0 !! reg = None →
  holds None (<[reg := Registration]> (q_handles p0)) (1 + q_apis p0) (q_streams p0) (q_fds p0) (q_files p0) (q_blobs p0)
    (q_wakes p0) p1 →
  wpq ('(r, test, c) ← open_config test ((new_context server) <| cx_api := true |> <| cx_reg := Some reg |>);
       if r <? 0 then fail_init test c
       else
         nfd ← make_pipe;
         match nfd with
         | None => fail_init test c
         | Some _ => put_context (c <| cx_nfd := nfd |>);; mret (0, test)
         end) (init_outcome test server p0) p1.
Proof.
  intros Hreg Hp1. apply wpq_bind. apply wpq_bind.
  eapply wpq_touch; [done|apply lookup_insert_eq|]. intros p2 Hp2. apply wpq_bind. eapply wpq_open; [done| |].
  { intros p3 Hp3. apply wpq_ret. eapply (wpq_fail_init _ _ _ _ _ true [reg]); [done|exact Hp3|cbn; lia| | | |by left].
    - apply NoDup_singleton.
    - apply Forall_singleton. rewrite lookup_insert_eq. eauto.
    - by apply delete_insert_id. }
  intros cfg p3 Hcfg Hp3. assert (reg ≠ cfg) as Hne by (intros ->; by rewrite lookup_insert_eq in Hcfg).
  rewrite lookup_insert_ne in Hcfg by done.
  assert (∀ t cred p', same_but_errno test t →
    holds None (<[cfg := Configuration (settings_of test) cred]> (<[reg := Registration]> (q_handles p0))) (1 + q_apis p0)
      (q_streams p0) (q_fds p0) (q_files p0) (q_blobs p0) (q_wakes p0) p' →
    wpq (fail_init t ((new_context server) <| cx_api := true |> <| cx_reg := Some reg |> <| cx_cfg := Some cfg |>))
      (init_outcome test server p0) p') as Hfail.
  { intros t cred p' Ht Hp'.
    eapply (wpq_fail_init _ _ _ _ _ true [reg; cfg]); [done|exact Hp'|cbn; lia| | | |done].
    - repeat constructor; set_solver.
    - repeat constructor; [rewrite lookup_insert_ne, lookup_insert_eq by done; eauto|rewrite lookup_insert_eq; eauto].
    - cbn. rewrite delete_insert_ne, (delete_insert_id (q_handles p0) reg) by done. by apply delete_insert_id. }
  apply wpq_bind. eapply wpq_credential; [done|apply lookup_insert_eq|..].
  { intros t p4 Ht Hp4. apply wpq_ret. cbn [Z.ltb]. by eapply Hfail. }
  intros cred p4 Hcred Hp4. rewrite insert_insert_eq in Hp4. apply wpq_ret. cbn [Z.ltb]. apply wpq_bind.
  eapply wpq_make_pipe; [done|intros; eapply Hfail; [by left|done]|].
  intros r w p5 Hr Hw Hrw Hrn Hwn Hp5. apply wpq_bind. eapply wpq_put; [done|]. intros p6 Hp6.
  apply wpq_ret. apply (init_done test server p0 reg cfg cred r w); done.
Qed.

Lemma wpq_ctx_init test server p :
  q_context p = None → wpq (quic_ctx_init test server) (init_outcome test server p) p.
Proof.
  intros Hc. pose proof (holds_self _ _ Hc) as Hp.
  apply wpq_bind. eapply wpq_get; [done|]. eapply wpq_if_fails; [by right|done| |].
  { intros p1 Hp1. apply wpq_ret, init_failed; [done|by left]. }
  intros p1 Hp1. apply wpq_bind. unfold open_api. eapply wpq_bind, wpq_open_table; [done| |]; intros p2 Hp2.
  { apply wpq_ret. cbn [Z.ltb]. eapply (wpq_fail_init _ _ _ _ _ false []); [done|exact Hp2|cbn; lia|constructor|done|done|by left]. }
  apply wpq_bind. eapply wpq_open; [done| |].
  { intros p3 Hp3. apply wpq_ret.
    eapply (wpq_fail_init _ _ _ _ _ true []); [done|exact Hp3|cbn; lia|constructor|done|done|by left]. }
  intros reg p3 Hreg Hp3. apply wpq_ret. by eapply wpq_configure.
Qed.

(** C31: [quic_ctx_init] is all or nothing: for every answer of MsQuic and of the
    system it returns, either with the API table, the registration, a configuration
    with the settings of the test and the credential the command line asks for, the
    two ends of the pipe and nothing else, or with -1 and no context, and then every
    handle, table, stream, descriptor, file and block is as it was before. *)
Theorem quic_ctx_init_all_or_nothing test server p :
  q_context p = None → ∃ r p', quic_ctx_init test server p = Ok (r, p') ∧ init_outcome test server p r p'.
Proof. apply wpq_ctx_init. Qed.

(** ** What a context owns *)

(** What the context owns is all that the process has more than [p]. *)
Record accounted (p : process) (c : iperf_quic_context) (p1 : process) : Prop := {
  ac_context : q_context p1 = Some c;
  ac_owned : owned c (q_handles p1) (q_streams p1) (q_fds p1);
  ac_handles : deletes (handles_of c (q_streams p1)) (q_handles p1) = q_handles p;
  ac_streams : deletes (streams_of c) (q_streams p1) = q_streams p;
  ac_apis : q_apis p1 = ((if cx_api c then 1 else 0) + q_apis p)%nat;
  ac_fds : q_fds p1 ∖ fds_of c = q_fds p;
  ac_files : q_files p1 = q_files p;
  ac_blobs : q_blobs p1 = q_blobs p
}.

(** Releasing such a context gives [p] back. *)
Lemma wpq_free_test test p c p1 Q :
  accounted p c p1 → (is_Some (cx_conn c) → forallb quiet (next_events (q_wakes p1)) = true) →
  (∀ p2, holds None (q_handles p) (q_apis p) (q_streams p) (q_fds p) (q_files p) (q_blobs p) (wakes_after c (q_wakes p1)) p2 →
    Q (test <| prot_listener := -1 |>) p2) → wpq (iperf_quic_free_test test) Q p1.
Proof.
  intros [] Hw HQ. pose proof (holds_self _ _ ac_context0) as Hp1. rewrite ac_apis0 in Hp1.
  apply wpq_bind. eapply wpq_get; [exact Hp1|]. apply wpq_bind. eapply (wpq_free_context c); [exact Hp1|done|done|].
  intros p2. rewrite ac_handles0, ac_streams0, ac_fds0, ac_files0, ac_blobs0. intros Hp2. by apply wpq_ret, HQ.
Qed.

Definition inserts {A} (l : list (positive * A)) (m : gmap positive A) : gmap positive A :=
  foldr (fun '(k, v) m => <[k := v]> m) m l.

Lemma lookup_inserts {A} l (m : gmap positive A) k v : NoDup l.*1 → (k, v) ∈ l → inserts l m !! k = Some v.
Proof.
  induction l as [|[k' v'] l IH]; intros Hnd Hin; [by apply elem_of_nil in Hin|].
  apply NoDup_cons in Hnd as [Hn Hnd]. change (<[k' := v']> (inserts l m) !! k = Some v).
  apply elem_of_cons in Hin as [[= -> ->]|Hin]; [apply lookup_insert_eq|]. rewrite lookup_insert_ne; [by apply IH|].
  intros ->. apply Hn. apply list_elem_of_fmap. by exists (k, v).
Qed.

Lemma lookup_inserts_ne {A} l (m : gmap positive A) k : k ∉ l.*1 → inserts l m !! k = m !! k.
Proof.
  induction l as [|[k' v'] l IH]; intros Hk; [done|]. apply not_elem_of_cons in Hk as [Hne Hk].
  change (<[k' := v']> (inserts l m) !! k = m !! k). by rewrite lookup_insert_ne, IH by done.
Qed.

Lemma deletes_inserts {A} l l' (m : gmap positive A) :
  (∀ k, k ∈ l.*1 → m !! k = None) → l' ≡ₚ l.*1 → deletes l' (inserts l m) = m.
Proof.
  intros Hm Hp. apply map_eq. intros k. destruct (decide (k ∈ l.*1)) as [Hk|Hk].
  - rewrite lookup_deletes_in by by rewrite Hp. by rewrite Hm.
  - rewrite lookup_deletes by by rewrite Hp. by apply lookup_inserts_ne.
Qed.

(** A context with the new handles [hs] and the new streams [ss]. *)
Lemma accounted_of p c hs ss W p1 :
  holds (Some c) (inserts hs (q_handles p)) ((if cx_api c then 1 else 0) + q_apis p) (inserts ss (q_streams p))
    (fds_of c ∪ q_fds p) (q_files p) (q_blobs p) W p1 →
  NoDup hs.*1 → (∀ k, k ∈ hs.*1 → q_handles p !! k = None) →
  NoDup ss.*1 → (∀ k, k ∈ ss.*1 → q_streams p !! k = None) →
  handles_of c (inserts ss (q_streams p)) ≡ₚ hs.*1 → streams_of c ≡ₚ ss.*1 →
  match cx_nfd c with Some (r, w) => r ≠ w ∧ r ∉ q_fds p ∧ w ∉ q_fds p | None => True end →
  accounted p c p1.
Proof.
  intros [] Hnd Hnew Hnds Hnews Hh Hs Hfd.
  assert (∀ A (l : list (positive * A)) m, NoDup l.*1 → Forall (fun k => is_Some (inserts l m !! k)) l.*1) as Hin.
  { intros A l m Hl. apply Forall_forall. intros k Hk. apply list_elem_of_fmap in Hk as ([k' v] & -> & Hk).
    cbn [fst]. rewrite (lookup_inserts l m k' v) by done. eauto. }
  split; try congruence; rewrite ?holds_handles0, ?holds_streams0, ?holds_fds0; try done.
  - split; rewrite ?Hh, ?Hs; auto. unfold fds_of. destruct (cx_nfd c) as [[r w]|]; [set_solver|done].
  - by apply deletes_inserts.
  - by apply deletes_inserts.
  - unfold fds_of. destruct (cx_nfd c) as [[r w]|]; set_solver.
Qed.

(** ** Instances *)

(** A process without a test, and one script for everything going well. *)
Definition bare_process (answers : list Z) (wakes : list wake) : process :=
  mk_process None ∅ 0 ∅ (list_to_set [0; 1; 2]) 0 0 answers wakes.
Definition quic_host : iperf_test :=
  quic_test <| cmdline := (cmdline quic_test) <| quic_cert_file := Some (B "cert.pem") |> <| quic_key_file := Some (B "key.pem") |> |>.

Lemma quic_ctx_init_all_or_nothing_witness :
  q_context (bare_process [0; 0; 0; 0; 1] []) = None ∧
  ∃ r p', quic_ctx_init quic_host true (bare_process [0; 0; 0; 0; 1] []) = Ok (r, p') ∧
    init_outcome quic_host true (bare_process [0; 0; 0; 0; 1] []) r p'.
Proof. split; [reflexivity|]. by apply (quic_ctx_init_all_or_nothing quic_host true (bare_process [0; 0; 0; 0; 1] [])). Defined.
