(* ===== verification/QuicEnds.v ===== *)
(** * The two ends of a test over QUIC

    Over the context of [QuicTest]: [iperf_quic_listen] and the streams a server
    accepts and attaches against a specification of the order of arrival
    ([desk_ops]); [iperf_quic_connect] with its wait; and that at either end the
    context owns all that was opened, once, so that its release leaves nothing. *)

From S2P Require Import Prelude Errno CInt CDouble CStdio IperfTime Json Net Test Quic QuicTest.

(** ** Streams of a server: the order of arrival *)

(** What happens to a server's context: a stream arrives, [iperf_quic_accept] is
    called, [iperf_quic_attach_stream] is called. *)
Inductive server_op := Arrives | Accepts | Attaches (id : Z).

(** What the caller sees; a stream is named by an [A]. *)
Inductive answer (A : Type) := Nothing | Number (r : Z) | Attached (r : Z) (s : option A).
Arguments Nothing {A}.
Arguments Number {A} r.
Arguments Attached {A} r s.

Definition answer_map {A B} (f : A → option B) (a : answer A) : answer B :=
  match a with Nothing => Nothing | Number r => Number r | Attached r s => Attached r (s ≫= f) end.

Definition serve_op (test : iperf_test) (op : server_op) : quic (answer positive) :=
  match op with
  | Arrives => conn_cb (PEER_STREAM_STARTED true true);; mret Nothing
  | Accepts => '(r, _) ← iperf_quic_accept test; mret (Number r)
  | Attaches id => '(r, s) ← iperf_quic_attach_stream id; mret (Attached r s)
  end.

Fixpoint serve_streams (test : iperf_test) (ops : list server_op) : quic (list (answer positive)) :=
  match ops with
  | [] => mret []
  | op :: ops => a ← serve_op test op; l ← serve_streams test ops; mret (a :: l)
  end.

(** The specification: streams are numbered as they arrive, the k-th [accept] that
    finds one answers k, and number k is attached once, and then is the k-th stream
    that arrived. *)
Record desk := mk_desk { arrived : nat; accepted : nat; attached : list Z }.

Definition desk_op (op : server_op) (d : desk) : answer nat * desk :=
  match op with
  | Arrives => (Nothing, mk_desk (arrived d + 1) (accepted d) (attached d))
  | Accepts =>
      if (accepted d <? arrived d)%nat then
        (Number (Z.of_nat (accepted d) + 1), mk_desk (arrived d) (accepted d + 1) (attached d))
      else (Number (-1), d)
  | Attaches id =>
      if decide (1 ≤ id ≤ Z.of_nat (accepted d) ∧ id ∉ attached d) then
        (Attached 0 (Some (Z.to_nat (id - 1))), mk_desk (arrived d) (accepted d) (id :: attached d))
      else (Attached (-1) None, d)
  end.

Fixpoint desk_ops (ops : list server_op) (d : desk) : list (answer nat) * desk :=
  match ops with
  | [] => ([], d)
  | op :: ops => let '(a, d) := desk_op op d in let '(l, d) := desk_ops ops d in (a :: l, d)
  end.

(** The streams that arrived, context and handle. *)
Definition with_streams (l : list (positive * positive)) (S : gmap positive iperf_quic_stream_ctx) :=
  foldl (fun S '(sc, h) => <[sc := quic_sc_new (Some h)]> S) S l.
Definition with_handles (l : list (positive * positive)) (H : gmap positive object) :=
  foldl (fun H '(sc, h) => <[h := Stream (Some sc)]> H) H l.

Lemma lookup_with_streams l S sc : sc ∉ l.*1 → with_streams l S !! sc = S !! sc.
Proof.
  revert S. induction l as [|[sc' h] l IH]; intros S Hk; [done|]. apply not_elem_of_cons in Hk as [Hne Hk].
  change (with_streams l (<[sc' := quic_sc_new (Some h)]> S) !! sc = S !! sc). by rewrite IH, lookup_insert_ne by done.
Qed.

Lemma lookup_with_streams_in l S sc h :
  NoDup l.*1 → (sc, h) ∈ l → with_streams l S !! sc = Some (quic_sc_new (Some h)).
Proof.
  revert S. induction l as [|[sc' h'] l IH]; intros S Hnd Hin; [by apply elem_of_nil in Hin|].
  apply NoDup_cons in Hnd as [Hn Hnd]. change (with_streams l (<[sc' := quic_sc_new (Some h')]> S) !! sc = Some (quic_sc_new (Some h))).
  apply elem_of_cons in Hin as [[= -> ->]|Hin]; [|by apply IH]. by rewrite lookup_with_streams, lookup_insert_eq.
Qed.

Lemma lookup_with_handles l H h : h ∉ l.*2 → with_handles l H !! h = H !! h.
Proof.
  revert H. induction l as [|[sc h'] l IH]; intros H Hk; [done|]. apply not_elem_of_cons in Hk as [Hne Hk].
  change (with_handles l (<[h' := Stream (Some sc)]> H) !! h = H !! h). by rewrite IH, lookup_insert_ne by done.
Qed.

Lemma lookup_with_handles_in l H sc h : NoDup l.*2 → (sc, h) ∈ l → with_handles l H !! h = Some (Stream (Some sc)).
Proof.
  revert H. induction l as [|[sc' h'] l IH]; intros H Hnd Hin; [by apply elem_of_nil in Hin|].
  apply NoDup_cons in Hnd as [Hn Hnd]. change (with_handles l (<[h' := Stream (Some sc')]> H) !! h = Some (Stream (Some sc))).
  apply elem_of_cons in Hin as [[= -> ->]|Hin]; [|by apply IH]. by rewrite lookup_with_handles, lookup_insert_eq.
Qed.

Lemma take_id_none id l : take_id id l = None ↔ id ∉ l.*1.
Proof.
  induction l as [|[i sc] l IH]; [split; [intros _; apply not_elem_of_nil|done]|]. cbn.
  rewrite not_elem_of_cons, <- IH. destruct (Z.eqb_spec i id) as [-> |Hne]; [naive_solver|].
  destruct (take_id id l) as [[]|]; naive_solver.
Qed.

Lemma take_id_some id l sc l' : take_id id l = Some (sc, l') → l ≡ₚ (id, sc) :: l'.
Proof.
  revert l'. induction l as [|[i s] l IH]; intros l' E; cbn in E; [done|].
  destruct (Z.eqb_spec i id) as [-> |Hne]; [by simplify_eq|].
  destruct (take_id id l) as [[x rest]|] eqn:Et; [|done]. cbn in E. simplify_eq. rewrite (IH rest) by done. constructor.
Qed.

(** Carries out the updates of a process that is given field by field. *)
Ltac update_process :=
  cbv beta iota delta [update_field q_context q_handles q_apis q_streams q_fds q_files q_blobs q_answers q_wakes
    cx_api cx_reg cx_cfg cx_listener cx_conn cx_ready cx_server cx_done cx_nfd cx_pipe cx_next_id cx_map cx_accept].

Section Serving.
Context (test : iperf_test) (c0 : iperf_quic_context) (H0 : gmap positive object).
Context (S0 : gmap positive iperf_quic_stream_ctx) (p0 : process).

(** The context of a server of which [arrived] streams arrived: [l]. *)
Definition context_of (l : list (positive * positive)) (d : desk) (m : list (Z * positive)) : iperf_quic_context :=
  mk_ctx (cx_api c0) (cx_reg c0) (cx_cfg c0) (cx_listener c0) (cx_conn c0) (cx_ready c0) (cx_server c0) (cx_done c0)
    (cx_nfd c0) (arrived d - accepted d) (Z.of_nat (accepted d)) m (drop (accepted d) l.*1).
Definition process_of (l : list (positive * positive)) (d : desk) (m : list (Z * positive)) : process :=
  mk_process (Some (context_of l d m)) (with_handles l H0) (q_apis p0) (with_streams l S0) (q_fds p0) (q_files p0)
    (q_blobs p0) [] (q_wakes p0).

(** The contexts of the streams that were attached, the latest first. *)
Definition attached_streams (l : list (positive * positive)) (d : desk) : list positive :=
  omap (fun id => l.*1 !! Z.to_nat (id - 1)) (attached d).

Record serving_map (l : list (positive * positive)) (d : desk) (m : list (Z * positive)) : Prop := {
  map_once : NoDup m.*1;
  map_in : ∀ i sc, (i, sc) ∈ m ↔ 1 ≤ i ≤ Z.of_nat (accepted d) ∧ i ∉ attached d ∧ l.*1 !! Z.to_nat (i - 1) = Some sc;
  map_all : m.*2 ++ drop (accepted d) l.*1 ++ attached_streams l d ≡ₚ l.*1
}.

Record serving (l : list (positive * positive)) (d : desk) (p : process) : Prop := {
  serving_process : ∃ m, serving_map l d m ∧ p = process_of l d m;
  serving_length : length l = arrived d;
  serving_accepted : (accepted d ≤ arrived d)%nat ∧ Z.of_nat (arrived d) ≤ 65536;
  serving_attached : ∀ i, i ∈ attached d → 1 ≤ i ≤ Z.of_nat (accepted d);
  serving_streams : NoDup l.*1 ∧ ∀ sc, sc ∈ l.*1 → S0 !! sc = None;
  serving_handles : NoDup l.*2 ∧ ∀ h, h ∈ l.*2 → H0 !! h = None
}.

Hypothesis has_pipe : is_Some (cx_nfd c0).

Lemma notify_context l d m sc h :
  length l = arrived d → (accepted d ≤ arrived d)%nat → Z.of_nat (arrived d) < 65536 →
  notify_pipe ((context_of l d m) <| cx_accept ::= (fun q => q ++ [sc]) |>) =
  context_of (l ++ [(sc, h)]) (mk_desk (arrived d + 1) (accepted d) (attached d)) m.
Proof.
  intros Hl Ha Hlt. destruct has_pipe as [pipe Hpipe]. unfold notify_pipe, context_of. cbn. rewrite Hpipe.
  rewrite (proj2 (Z.ltb_lt _ _)) by lia. rewrite fmap_app, drop_app_le by (rewrite length_fmap; lia).
  replace (arrived d + 1 - accepted d)%nat with (Datatypes.S (arrived d - accepted d)) by lia. reflexivity.
Qed.

Lemma attached_more l x d a :
  length l = arrived d → (accepted d ≤ arrived d)%nat → (∀ i, i ∈ attached d → 1 ≤ i ≤ Z.of_nat (accepted d)) →
  attached_streams (l ++ [x]) (mk_desk a (accepted d) (attached d)) = attached_streams l d.
Proof.
  intros Hl Ha Hat. unfold attached_streams. cbn. induction (attached d) as [|i t IH]; [done|]. cbn.
  rewrite fmap_app, lookup_app_l, <- fmap_app, IH; [done|set_solver|].
  rewrite length_fmap. specialize (Hat i ltac:(set_solver)). lia.
Qed.

Lemma serving_arrives l d p :
  serving l d p → Z.of_nat (arrived d) < 65536 →
  ∃ x p', serve_op test Arrives p = Ok (Nothing, p') ∧ serving (l ++ [x]) (snd (desk_op Arrives d)) p'.
Proof.
  intros [(m & [Hm1 Hm2 Hm3] & ->) Hl Ha Hat [Hs1 Hs2] [Hh1 Hh2]] Hlt. destruct has_pipe as [pipe Hpipe].
  set (h := fresh (dom (with_handles l H0))). set (sc := fresh (dom (with_streams l S0))).
  assert (with_handles l H0 !! h = None) as Hh by apply not_elem_of_dom, is_fresh.
  assert (with_streams l S0 !! sc = None) as Hsc by apply not_elem_of_dom, is_fresh.
  assert (h ∉ l.*2) as Hnh.
  { intros ([sc' h'] & -> & Hin)%list_elem_of_fmap. erewrite lookup_with_handles_in in Hh; done. }
  assert (sc ∉ l.*1) as Hnsc.
  { intros ([sc' h'] & -> & Hin)%list_elem_of_fmap. erewrite lookup_with_streams_in in Hsc; done. }
  rewrite lookup_with_handles in Hh by done. rewrite lookup_with_streams in Hsc by done.
  eexists (sc, h), _. split.
  - cbn. cbv [mbind quic_bind outcome_bind new_handle new_sc api_use set_ctx mret quic_ret]. cbn.
    fold h sc. rewrite lookup_insert_eq. cbn. reflexivity.
  - split; cbn.
    + exists m. split.
      * split; [done| |].
        -- intros i s. rewrite Hm2, fmap_app, lookup_app. cbn.
           split; intros (Hi & Hni & Hls); (split_and!; [lia..|done|]); rewrite ?Hls; try done.
           destruct (l.*1 !! Z.to_nat (i - 1)) eqn:E; [done|]. apply lookup_ge_None in E. rewrite length_fmap in E. lia.
        -- rewrite (attached_more l (sc, h)) by (done || lia). rewrite fmap_app. cbn.
           rewrite drop_app_le by (rewrite length_fmap; lia). rewrite <- Hm3 at 2. solve_Permutation.
      * change (fst (sc, h)) with sc. rewrite (notify_context l d m sc h) by (done || lia).
        unfold process_of, with_handles, with_streams. rewrite !foldl_app. update_process. cbn [foldl].
        by rewrite insert_insert_eq.
    + rewrite length_app. cbn. lia.
    + lia.
    + done.
    + rewrite fmap_app. cbn. split; [apply NoDup_app; set_solver by auto using NoDup_singleton|]. set_solver.
    + rewrite fmap_app. cbn. split; [apply NoDup_app; set_solver by auto using NoDup_singleton|]. set_solver.
Qed.
Lemma serving_accepts l d p :
  serving l d p →
  ∃ p', serve_op test Accepts p = Ok (answer_map (fun i => l.*1 !! i) (fst (desk_op Accepts d)), p') ∧
        serving l (snd (desk_op Accepts d)) p'.
Proof.
  intros [(m & [Hm1 Hm2 Hm3] & ->) Hl [Ha Hb] Hat Hs Hh]. destruct has_pipe as [pipe Hpipe]. unfold desk_op.
  destruct (Nat.ltb_spec (accepted d) (arrived d)) as [Hlt|Hge].
  - destruct (lookup_lt_is_Some_2 l.*1 (accepted d)) as [sc Hsc]; [rewrite length_fmap; lia|].
    assert (drop (accepted d) l.*1 = sc :: drop (Datatypes.S (accepted d)) l.*1) as Hd by by apply drop_S.
    eexists. split.
    + cbn. cbv [mbind quic_bind outcome_bind iperf_quic_accept get_context]. cbn. rewrite Hpipe. cbn.
      unfold accept_deq. cbn. rewrite Hd. cbn. reflexivity.
    + cbn. split; cbn; [|done|lia| |done|done].
      * exists ((Z.of_nat (accepted d) + 1, sc) :: m). split.
        -- split; cbn.
           ++ apply NoDup_cons. split; [|done]. intros ([i s] & E & Hin)%list_elem_of_fmap. cbn in E. subst i.
              apply Hm2 in Hin. lia.
           ++ intros i s. rewrite elem_of_cons, Hm2. split.
              ** intros [[= -> ->]|(? & ? & ?)]; [|by split_and!; [lia..|done|done]].
                 split_and!; [lia..|intros Hin%Hat; lia|]. rewrite <- Hsc. f_equal. lia.
              ** intros (Hi & Hni & Hls). destruct (decide (i = Z.of_nat (accepted d) + 1)) as [-> |Hne].
                 { left. f_equal. replace (Z.to_nat _) with (accepted d) in Hls by lia. congruence. }
                 right. split_and!; [lia..|done|done].
           ++ etransitivity; [|exact Hm3]. rewrite Hd. cbn. replace (accepted d + 1)%nat with (Datatypes.S (accepted d)) by lia.
              solve_Permutation.
        -- unfold process_of, context_of. rewrite Hpipe. update_process. rewrite <- (Nat2Z.inj_add _ 1), (Nat.add_comm _ 1).
           replace (pred (arrived d - accepted d)) with (arrived d - (1 + accepted d))%nat by lia. reflexivity.
      * intros i Hi%Hat. lia.
  - assert (drop (accepted d) l.*1 = []) as Hd by (apply drop_ge; rewrite length_fmap; lia).
    eexists. split.
    + cbn. cbv [mbind quic_bind outcome_bind iperf_quic_accept get_context]. cbn. rewrite Hpipe. cbn.
      unfold accept_deq. cbn. rewrite Hd. cbn. reflexivity.
    + cbn [snd]. split; [|done..]. exists m. split; [done|]. unfold process_of, context_of. rewrite Hd, Hpipe. update_process.
      replace (arrived d - accepted d)%nat with 0%nat by lia. reflexivity.
Qed.

Lemma serving_attaches l d p id :
  serving l d p →
  ∃ p', serve_op test (Attaches id) p = Ok (answer_map (fun i => l.*1 !! i) (fst (desk_op (Attaches id) d)), p') ∧
        serving l (snd (desk_op (Attaches id) d)) p'.
Proof.
  intros [(m & [Hm1 Hm2 Hm3] & ->) Hl [Ha Hb] Hat Hs Hh]. unfold desk_op.
  assert (is_Some (take_id id m) ↔ 1 ≤ id ≤ Z.of_nat (accepted d) ∧ id ∉ attached d) as Hiff.
  { rewrite <- not_eq_None_Some, take_id_none. split.
    - intros Hn%dec_stable. apply list_elem_of_fmap in Hn as ([i s] & -> & Hin). apply Hm2 in Hin. naive_solver.
    - intros [Hi Hni] Hn. apply Hn. destruct (lookup_lt_is_Some_2 l.*1 (Z.to_nat (id - 1))) as [sc Hsc].
      { rewrite length_fmap. lia. }
      apply list_elem_of_fmap. exists (id, sc). split; [done|]. by apply Hm2. }
  destruct (decide _) as [Hd|Hd].
  - apply Hiff in Hd as [[sc rest] Et]. apply take_id_some in Et as Hperm. destruct (proj1 Hiff) as [Hi Hni]; [by eauto|].
    assert ((id, sc) ∈ m) as Hin by (rewrite Hperm; set_solver). apply Hm2 in Hin as (_ & _ & Hls).
    eexists. split.
    + cbn. cbv [mbind quic_bind outcome_bind iperf_quic_attach_stream get_context]. cbn. unfold map_take. cbn.
      rewrite Et. cbn. rewrite Hls. reflexivity.
    + cbn. split; cbn; [|done|done| |done|done].
      * exists rest. split; [|reflexivity]. rewrite Hperm in Hm1. apply NoDup_cons in Hm1 as [Hn1 Hn2]. split; [done|..|].
        intros i s. cbn [attached accepted]. rewrite not_elem_of_cons. specialize (Hm2 i s). rewrite Hperm, elem_of_cons in Hm2. split.
        -- intros Hr. destruct (proj1 Hm2) as (? & ? & ?); [by right|]. split_and!; [lia..| |done|done].
           intros ->. apply Hn1. apply list_elem_of_fmap. by exists (id, s).
        -- intros (? & [? ?] & ?). destruct (proj2 Hm2) as [[=]|]; [|done|done]. done.
        -- unfold attached_streams in *. cbn. rewrite Hls. etransitivity; [|exact Hm3]. rewrite Hperm. cbn.
           solve_Permutation.
      * intros i [-> |Hin]%elem_of_cons; [lia|by apply Hat].
  - assert (take_id id m = None) as Et.
    { destruct (take_id id m) eqn:E; [|done]. exfalso. apply Hd, Hiff. eauto. }
    eexists. split.
    + cbn. cbv [mbind quic_bind outcome_bind iperf_quic_attach_stream get_context]. cbn. unfold map_take. cbn.
      rewrite Et. reflexivity.
    + split; [|done..]. exists m. split; [done|reflexivity].
Qed.
(** Which streams the answers attached. *)
Definition got {A} (l : list (answer A)) : list A := omap (fun a => match a with Attached _ s => s | _ => None end) l.

Lemma desk_arrived op d : (arrived d ≤ arrived (snd (desk_op op d)))%nat.
Proof. destruct op; cbn; repeat case_match; cbn; lia. Qed.

Lemma desk_ops_arrived ops d : (arrived d ≤ arrived (snd (desk_ops ops d)))%nat.
Proof.
  revert d. induction ops as [|op ops IH]; intros d; [done|]. cbn. pose proof (desk_arrived op d) as H.
  destruct (desk_op op d) as [a d1]. specialize (IH d1). destruct (desk_ops ops d1). cbn in *. lia.
Qed.

Lemma serving_op l d p op :
  serving l d p → Z.of_nat (arrived (snd (desk_op op d))) ≤ 65536 →
  ∃ x p', serve_op test op p = Ok (answer_map (fun i => l.*1 !! i) (fst (desk_op op d)), p') ∧
          serving (l ++ x) (snd (desk_op op d)) p'.
Proof.
  intros Hp Hb. destruct op as [| |id].
  - edestruct serving_arrives as (x & p' & E & Hs); [done|cbn in Hb; lia|]. exists [x], p'. auto.
  - edestruct serving_accepts as (p' & E & Hs); [done|]. exists [], p'. by rewrite app_nil_r.
  - edestruct serving_attaches as (p' & E & Hs); [done|]. exists [], p'. by rewrite app_nil_r.
Qed.

(** A stream that is answered had arrived. *)
Lemma desk_answer (l x : list (positive * positive)) d op :
  length l = arrived d → (accepted d ≤ arrived d)%nat →
  answer_map (fun i => (l ++ x).*1 !! i) (fst (desk_op op d)) = answer_map (fun i => l.*1 !! i) (fst (desk_op op d)).
Proof.
  intros Hl Ha. destruct op; cbn; repeat case_match; cbn; try done. destruct_and?.
  rewrite fmap_app, lookup_app_l; [done|]. rewrite length_fmap. lia.
Qed.

Lemma serving_ops ops : ∀ l d p,
  serving l d p → Z.of_nat (arrived (snd (desk_ops ops d))) ≤ 65536 →
  ∃ x p', serve_streams test ops p = Ok (map (answer_map (fun i => (l ++ x).*1 !! i)) (fst (desk_ops ops d)), p') ∧
          serving (l ++ x) (snd (desk_ops ops d)) p'.
Proof.
  induction ops as [|op ops IH]; intros l d p Hp Hb.
  - exists [], p. by rewrite app_nil_r.
  - cbn in Hb |- *. pose proof (desk_ops_arrived ops (snd (desk_op op d))) as Hge.
    edestruct (serving_op l d p op) as (x & p1 & E & Hp1); [done|destruct (desk_op op d), (desk_ops ops _); cbn in *; lia|].
    edestruct (IH _ _ _ Hp1) as (y & p2 & E2 & Hp2); [destruct (desk_op op d), (desk_ops ops _); done|].
    rewrite <- app_assoc in *. exists (x ++ y), p2.
    rewrite <- (desk_answer l (x ++ y)) in E by apply Hp.
    destruct (desk_op op d) as [a d1]. cbn [fst snd] in *. destruct (desk_ops ops d1) as [as_ d2]. cbn [fst snd] in *.
    split; [|done]. cbv [mbind quic_bind outcome_bind]. rewrite E, E2. reflexivity.
Qed.
End Serving.

Lemma got_attached (l : list (positive * positive)) ops d :
  got (map (answer_map (fun i => l.*1 !! i)) (fst (desk_ops ops d))) ++ attached_streams l d ≡ₚ
  attached_streams l (snd (desk_ops ops d)).
Proof.
  revert d. induction ops as [|op ops IH]; intros d; [done|]. cbn. pose proof (IH (snd (desk_op op d))) as IHd.
  assert (got [answer_map (fun i => l.*1 !! i) (fst (desk_op op d))] ++ attached_streams l d ≡ₚ
          attached_streams l (snd (desk_op op d))) as Hop.
  { destruct op as [| |id]; cbn; [done|by repeat case_match|]. unfold attached_streams.
    destruct (decide _); cbn; [|done]. by destruct (l.*1 !! Z.to_nat (id - 1)). }
  destruct (desk_op op d) as [a d1]. cbn [fst snd] in *. destruct (desk_ops ops d1) as [la d2]. cbn [fst snd] in *.
  rewrite <- IHd, <- Hop. cbn [map]. set (x := answer_map _ a). set (xs := map _ la).
  assert (got (x :: xs) = got [x] ++ got xs) as -> by (apply (omap_app _ [x] xs)). solve_Permutation.
Qed.

(** What the streams of a server go through: they are served, those that were
    attached are cleaned up ([iperf_free_stream]), then the context is released. *)
Fixpoint cleanup_all (l : list positive) : quic () :=
  match l with
  | [] => mret ()
  | sc :: l => iperf_quic_stream_cleanup (Some sc);; cleanup_all l
  end.

Definition server_life (test : iperf_test) (ops : list server_op) : quic iperf_test :=
  answers ← serve_streams test ops;
  cleanup_all (got answers);;
  iperf_quic_free_test test.

Lemma abort_stream_context sc p u p' : abort_stream sc p = Ok (u, p') → q_context p' = q_context p.
Proof.
  cbv [abort_stream close_stream with_sc quic_sc_free StreamShutdown api_use api_close set_sc mbind quic_bind outcome_bind mret quic_ret].
  intros E. repeat case_match; simplify_eq; cbn; repeat case_match; simplify_eq; done.
Qed.

Lemma cleanup_aborts l : ∀ p, is_Some (q_context p) → cleanup_all l p = abort_streams l p.
Proof.
  induction l as [|sc l IH]; intros p Hp; [done|].
  assert (iperf_quic_stream_cleanup (Some sc) p = abort_stream sc p) as E.
  { destruct Hp as [c Hc]. cbn. unfold iperf_quic_stream_cleanup. cbv [mbind quic_bind outcome_bind get_context]. by rewrite Hc. }
  cbn [cleanup_all abort_streams]. cbv [mbind quic_bind outcome_bind]. rewrite E.
  destruct (abort_stream sc p) as [[u p1]| | |] eqn:Ed; try done. apply IH. by rewrite (abort_stream_context _ _ _ _ Ed).
Qed.

(** Nothing is left when the holdings are those of before. *)
Lemma deletes_none {A} l (m : gmap positive A) k : m !! k = None → deletes l m !! k = None.
Proof.
  intros Hk. destruct (decide (k ∈ l)); [by apply lookup_deletes_in|by rewrite lookup_deletes].
Qed.

Lemma deletes_with_streams l l' S :
  NoDup l.*1 → l' ≡ₚ l.*1 → (∀ sc, sc ∈ l.*1 → S !! sc = None) → deletes l' (with_streams l S) = S.
Proof.
  intros Hnd Hp Hs. apply map_eq. intros k. destruct (decide (k ∈ l.*1)) as [Hk|Hk].
  - rewrite lookup_deletes_in by by rewrite Hp. by rewrite Hs.
  - rewrite lookup_deletes by by rewrite Hp. by apply lookup_with_streams.
Qed.

Lemma deletes_with_handles l l' keep H :
  NoDup l.*2 → l' ≡ₚ l.*2 ++ keep → (∀ h, h ∈ l.*2 → H !! h = None) → deletes l' (with_handles l H) = deletes keep H.
Proof.
  intros Hnd Hp Hs. apply map_eq. intros k. destruct (decide (k ∈ l.*2)) as [Hk|Hk].
  - rewrite lookup_deletes_in by (rewrite Hp; set_solver). by rewrite deletes_none by auto.
  - destruct (decide (k ∈ keep)) as [Hk2|Hk2].
    + rewrite !lookup_deletes_in; [done|done|rewrite Hp; set_solver].
    + rewrite !lookup_deletes; [by apply lookup_with_handles|done|rewrite Hp; set_solver].
Qed.

Lemma handles_with_streams l k S :
  NoDup l.*1 → k ⊆ l → omap (handle_of (with_streams l S)) k.*1 = k.*2.
Proof.
  intros Hnd. induction k as [|[sc h] k IH]; intros Hk; [done|]. cbn. unfold handle_of at 1.
  rewrite (lookup_with_streams_in l S sc h) by (done || set_solver). cbn. f_equal. apply IH. set_solver.
Qed.

(** A server's context without streams. *)
Definition idle (c : iperf_quic_context) : Prop :=
  cx_accept c = [] ∧ cx_map c = [] ∧ cx_next_id c = 0 ∧ cx_pipe c = 0%nat ∧ is_Some (cx_nfd c).

Lemma serving_start c p :
  q_context p = Some c → idle c → q_answers p = [] → serving c (q_handles p) (q_streams p) p [] (mk_desk 0 0 []) p.
Proof.
  intros Hc (Ha & Hm & Hn & Hp & Hf) Hans. split; try done; try (cbn; lia);
    try (intros ? []%elem_of_nil); try (split; [constructor|]; by intros ? ?%elem_of_nil).
  - exists []. split; [split; [constructor| |done]|].
    + intros i sc. split; [by intros ?%elem_of_nil|]. cbn. lia.
    + unfold process_of, context_of. destruct p, c. cbn in *. by subst.
Qed.

Section Released.
Context (c0 : iperf_quic_context) (p0 : process) (l : list (positive * positive)) (d : desk) (m : list (Z * positive)).
Local Abbreviation H0 := (q_handles p0).
Local Abbreviation S0 := (q_streams p0).
Local Abbreviation c := (context_of c0 l d m).
Local Abbreviation S := (with_streams l S0).
Local Abbreviation H := (with_handles l H0).
Context (T : list positive) (HT : T ++ streams_of c ≡ₚ l.*1).
Context (Hs : NoDup l.*1 ∧ ∀ sc, sc ∈ l.*1 → S0 !! sc = None) (Hh : NoDup l.*2 ∧ ∀ h, h ∈ l.*2 → H0 !! h = None).
Context (Hidle : idle c0) (Howned : owned c0 H0 S0 (q_fds p0)).

Lemma held_handles : omap (handle_of S) T ++ omap (handle_of S) (streams_of c) ≡ₚ l.*2.
Proof. rewrite <- omap_app, HT, (handles_with_streams l l) by (done || apply Hs). done. Qed.

Lemma held_streams_there : Forall (fun sc => is_Some (S !! sc)) (T ++ streams_of c).
Proof.
  apply Forall_forall. intros sc Hin. rewrite HT in Hin. apply list_elem_of_fmap in Hin as ([s h] & -> & Hin).
  cbn [fst]. rewrite (lookup_with_streams_in l S0 s h) by (done || apply Hs). eauto.
Qed.

Lemma held_handles_there : Forall (fun h => is_Some (H !! h)) (omap (handle_of S) T ++ omap (handle_of S) (streams_of c)).
Proof.
  apply Forall_forall. intros h Hin. rewrite held_handles in Hin. apply list_elem_of_fmap in Hin as ([s h'] & -> & Hin).
  cbn [snd]. rewrite (lookup_with_handles_in l H0 s h') by (done || apply Hh). eauto.
Qed.

(** The handles that are not of streams. *)
Local Abbreviation others :=
  (option_list (cx_conn c0) ++ option_list (cx_cfg c0) ++ option_list (cx_reg c0)).

Lemma fixed_handles : handles_of c0 S0 = option_list (cx_listener c0) ++ others.
Proof. unfold handles_of, streams_of. destruct Hidle as (-> & -> & _). done. Qed.

Lemma owned_after_cleanup : owned c (deletes (omap (handle_of S) T) H) (deletes T S) (q_fds p0).
Proof.
  pose proof held_streams_there as HS. pose proof held_handles_there as HH. apply Forall_app in HS as [_ HS], HH as [_ HH].
  assert (NoDup (T ++ streams_of c)) as Hnd by (rewrite HT; apply Hs). apply NoDup_app in Hnd as (_ & Hdis & Hnd).
  assert (NoDup (omap (handle_of S) T ++ omap (handle_of S) (streams_of c))) as Hnh by (rewrite held_handles; apply Hh).
  apply NoDup_app in Hnh as (_ & Hdis2 & Hnh).
  destruct Howned as [_ _ Hfix Hfix1 Hfd]. rewrite fixed_handles in Hfix, Hfix1.
  assert (∀ h, h ∈ omap (handle_of S) T ++ omap (handle_of S) (streams_of c) → H0 !! h = None) as Hnew.
  { intros h Hin. rewrite held_handles in Hin. by apply Hh. }
  set (hs := omap (handle_of S) (streams_of c)) in *. set (ht := omap (handle_of S) T) in *.
  assert (handles_of c (deletes T S) = option_list (cx_listener c0) ++ hs ++ others) as Eh.
  { unfold handles_of. by rewrite handle_of_deletes. }
  split; [by apply held_after|done|rewrite Eh|rewrite Eh|done].
  - assert (Forall (fun h => is_Some (deletes ht H !! h)) (option_list (cx_listener c0) ++ others)) as Hf.
    { apply Forall_forall. intros h Hin. pose proof (proj1 (Forall_forall _ _) Hfix _ Hin) as [o Ho].
      assert (h ∉ l.*2) as Hn by (intros ?%Hh; congruence).
      rewrite lookup_deletes, lookup_with_handles; [eauto|done|]. intros Ht. apply Hn. rewrite <- held_handles. set_solver. }
    apply (held_after H ht hs) in HH; [|done]. rewrite Forall_app in Hf. destruct Hf.
    apply Forall_app_2; [done|]. by apply Forall_app_2.
  - rewrite NoDup_app in Hfix1 |- *. destruct Hfix1 as (H1 & H2 & H3). split_and!; [done| |].
    + intros h Hin [Hin2|Hin2]%elem_of_app; [|by eapply H2].
      apply Forall_app in Hfix as [Hfix _]. pose proof (proj1 (Forall_forall _ _) Hfix _ Hin) as [o Ho].
      rewrite Hnew in Ho; [done|set_solver].
    + apply NoDup_app. split_and!; [done| |done]. intros h Hin Hin2.
      apply Forall_app in Hfix as [_ Hfix]. pose proof (proj1 (Forall_forall _ _) Hfix _ Hin2) as [o Ho].
      rewrite Hnew in Ho; [done|set_solver].
Qed.
Lemma released_handles :
  deletes (handles_of c (deletes T S)) (deletes (omap (handle_of S) T) H) = deletes (handles_of c0 S0) H0.
Proof.
  rewrite <- deletes_app. apply deletes_with_handles; [apply Hh| |apply Hh]. rewrite <- held_handles, fixed_handles.
  assert (NoDup (T ++ streams_of c)) as Hnd by (rewrite HT; apply Hs). apply NoDup_app in Hnd as (_ & Hdis & _).
  unfold handles_of. rewrite handle_of_deletes by done. cbn [cx_listener cx_conn cx_cfg cx_reg context_of].
  solve_Permutation.
Qed.

Lemma released_streams : deletes (streams_of c) (deletes T S) = S0.
Proof. rewrite <- deletes_app. by apply deletes_with_streams; [apply Hs| |apply Hs]. Qed.

(** Cleaning up the attached streams and releasing the context. *)
Lemma wpq_end test n Q :
  q_apis p0 = ((if cx_api c0 then 1 else 0) + n)%nat → (is_Some (cx_conn c0) → forallb quiet (next_events (q_wakes p0)) = true) →
  (∀ p', holds None (deletes (handles_of c0 S0) H0) n S0 (q_fds p0 ∖ fds_of c0) (q_files p0) (q_blobs p0)
           (wakes_after c0 (q_wakes p0)) p' → Q (test <| prot_listener := -1 |>) p') →
  wpq (cleanup_all T;; iperf_quic_free_test test) Q (process_of c0 H0 S0 p0 l d m).
Proof.
  intros Hn Hq HQ. apply wpq_bind.
  assert (NoDup (T ++ streams_of c)) as Hnd by (rewrite HT; apply Hs). apply NoDup_app in Hnd as (HndT & _ & _).
  assert (NoDup (omap (handle_of S) T ++ omap (handle_of S) (streams_of c))) as Hnh by (rewrite held_handles; apply Hh).
  apply NoDup_app in Hnh as (HnhT & _ & _).
  pose proof held_streams_there as HS. pose proof held_handles_there as HH. apply Forall_app in HS as [HS _], HH as [HH _].
  assert (wpq (abort_streams T) (fun _ p' => wpq (iperf_quic_free_test test) Q p') (process_of c0 H0 S0 p0 l d m)) as Hw.
  { eapply (wpq_abort_streams (Some c) (q_apis p0) (q_fds p0) (q_files p0) (q_blobs p0) (q_wakes p0));
      [by split|done..|].
    cbn [process_of q_handles q_streams]. intros p1 Hp1. apply wpq_bind. eapply wpq_get; [done|]. apply wpq_bind.
    rewrite Hn in Hp1.
    eapply (wpq_free_context c); [exact Hp1|apply owned_after_cleanup|done|].
    intros p2. rewrite released_handles, released_streams. intros Hp2. apply wpq_ret, HQ, Hp2. }
  unfold wpq in *. rewrite cleanup_aborts by (cbn; eauto). exact Hw.
Qed.
End Released.

(** ** A server over QUIC *)

(** With a context that has no stream yet. *)
Definition set_up (p : process) (c : iperf_quic_context) (p1 : process) : Prop := accounted p c p1 ∧ idle c.

Lemma set_up_streams p c p1 : set_up p c p1 → q_streams p1 = q_streams p.
Proof. intros [[] (Ha & Hm & _)]. unfold streams_of in *. by rewrite Ha, Hm in *. Qed.

(** One more handle: of a listener, or of a connection. *)
Lemma set_up_adds p c p1 c' h o p2 :
  set_up p c p1 → q_handles p1 !! h = None →
  handles_of c' (q_streams p1) ≡ₚ h :: handles_of c (q_streams p1) → streams_of c' = streams_of c →
  cx_nfd c' = cx_nfd c → cx_api c' = cx_api c → idle c' →
  holds (Some c') (<[h := o]> (q_handles p1)) (q_apis p1) (q_streams p1) (q_fds p1) (q_files p1) (q_blobs p1) (q_wakes p1) p2 →
  set_up p c' p2.
Proof.
  intros [[_ [Ho1 Ho2 Ho3 Ho4 Ho5]] _] Hh Hperm Hst Hnfd Hapi Hi []. split; [|done].
  assert (fds_of c' = fds_of c) as Ef by (unfold fds_of; by rewrite Hnfd).
  split; rewrite ?holds_handles, ?holds_streams, ?holds_fds, ?Hst, ?Hapi, ?Ef; try congruence.
  - split; rewrite ?Hst, ?Hnfd, ?Hperm; [done|done| | |done].
    + apply Forall_cons. split; [rewrite lookup_insert_eq; eauto|]. eapply Forall_impl; [exact Ho3|].
      intros k [x Hx]. destruct (decide (k = h)) as [-> |Hne]; [congruence|]. rewrite lookup_insert_ne by done. eauto.
    + apply NoDup_cons. split; [|done]. intros Hin. pose proof (proj1 (Forall_forall _ _) Ho3 _ Hin) as [x Hx]. congruence.
  - rewrite (deletes_perm _ _ _ Hperm). change (deletes (handles_of c (q_streams p1)) (delete h (<[h:=o]> (q_handles p1))) = q_handles p).
    by rewrite delete_insert_id.
Qed.

(** The context [quic_ctx_init] makes. *)
Definition first_context (server : bool) (reg cfg : positive) (r w : Z) : iperf_quic_context :=
  mk_ctx true (Some reg) (Some cfg) None None false server false (Some (r, w)) 0 0 [] [].

Lemma init_set_up test server p reg cfg cred r w p1 :
  q_handles p !! reg = None → q_handles p !! cfg = None → reg ≠ cfg → r ≠ w → r ∉ q_fds p → w ∉ q_fds p →
  holds (Some (first_context server reg cfg r w))
    (<[cfg := Configuration (settings_of test) (Some cred)]> (<[reg := Registration]> (q_handles p)))
    (1 + q_apis p) (q_streams p) ({[r; w]} ∪ q_fds p) (q_files p) (q_blobs p) (q_wakes p) p1 →
  set_up p (first_context server reg cfg r w) p1.
Proof.
  intros Hreg Hcfg Hne Hrw Hr Hw Hp1. split; [|split_and!; try done; by exists (r, w)].
  eapply (accounted_of p _ [(cfg, Configuration (settings_of test) (Some cred)); (reg, Registration)] []);
    [exact Hp1|..]; try done; cbn.
  - repeat constructor; set_solver.
  - set_solver.
  - constructor.
  - set_solver.
Qed.

(** What [iperf_quic_listen] leaves: no context; a context that does not listen, which
    the end of the test releases; or the listener, and its pipe to wait for. *)
Inductive listen_outcome (inet_pton : Z → bytes → bool) (test : iperf_test) (p : process) : Z * iperf_test → process → Prop :=
| listen_no_context t p' :
    holds None (q_handles p) (q_apis p) (q_streams p) (q_fds p) (q_files p) (q_blobs p) (q_wakes p) p' →
    i_errno t ≠ 0 → listen_outcome inet_pton test p (-1, t) p'
| listen_refused c t p' : set_up p c p' → i_errno t = IELISTEN → listen_outcome inet_pton test p (-1, t) p'
| listening c h r w p' :
    set_up p c p' → cx_server c = true → cx_conn c = None → cx_nfd c = Some (r, w) → cx_listener c = Some h →
    q_handles p' !! h =
      Some (Listener (Some (fst (quic_listen_address inet_pton test), snd (quic_listen_address inet_pton test), data_port test))) →
    listen_outcome inet_pton test p (r, test <| prot_listener := r |>) p'.

Lemma default_error_set test e : e ≠ 0 → i_errno (snd (quic_default_error test e)) ≠ 0.
Proof. intros He. unfold quic_default_error. cbn. destruct (Z.eqb_spec (i_errno test) 0); done. Qed.

(** Another state of the same holdings. *)
Lemma set_up_same p c p1 p2 :
  set_up p c p1 →
  holds (Some c) (q_handles p1) (q_apis p1) (q_streams p1) (q_fds p1) (q_files p1) (q_blobs p1) (q_wakes p1) p2 → set_up p c p2.
Proof.
  intros [[] Hi] []. split; [|done].
  split; try congruence; by rewrite ?holds_handles, ?holds_streams, ?holds_fds.
Qed.

Lemma wpq_start_listener inet_pton test p reg cfg r w p1 :
  set_up p (first_context true reg cfg r w) p1 → q_handles p1 !! reg = Some Registration →
  wpq (start_listener inet_pton test (first_context true reg cfg r w)) (listen_outcome inet_pton test p) p1.
Proof.
  intros Hs Hreg. pose proof (holds_self _ _ (ac_context _ _ _ (proj1 Hs))) as Hp1.
  unfold start_listener. cbn [cx_reg first_context]. apply wpq_bind.
  eapply wpq_touch; [done..|]. intros p2 Hp2. apply wpq_bind. eapply wpq_open; [done| |].
  { intros p3 Hp3. apply wpq_ret. eapply listen_refused; [by eapply set_up_same|done]. }
  intros l p3 Hl Hp3. apply wpq_bind. eapply wpq_set_ctx; [done..|]. intros p4 Hp4.
  set (c := mk_ctx true (Some reg) (Some cfg) (Some l) None false true false (Some (r, w)) 0 0 [] []).
  assert (∀ o p', holds (Some c) (<[l := o]> (q_handles p1)) (q_apis p1) (q_streams p1) (q_fds p1) (q_files p1) (q_blobs p1)
    (q_wakes p1) p' → set_up p c p') as Hc.
  { intros o p' Hp'. eapply (set_up_adds p _ p1 c l o); try done. }
  destruct (quic_listen_address inet_pton test) as [af host] eqn:Eaddr.
  eapply wpq_if_try; [exact Hp4|apply lookup_insert_eq|..]; intros p5 Hp5.
  - apply wpq_ret. eapply listen_refused; [by eapply Hc|done].
  - rewrite insert_insert_eq in Hp5. apply wpq_ret. cbn. eapply (listening _ _ _ c l r w); try done; [by eapply Hc|].
    rewrite (holds_handles _ _ _ _ _ _ _ _ _ Hp5), lookup_insert_eq, Eaddr. done.
Qed.


(** C28: streams are served in the order in which they arrive: whatever the order of
    arrivals, calls of [iperf_quic_accept] and of [iperf_quic_attach_stream], the
    answers are those of the specification [desk_ops] (numbers are consecutive, number
    k belongs to the k-th stream that arrived, and is attached once), every stream
    has a context and an open handle of its own, and the pipe that wakes the server
    holds one byte for each stream that waits to be accepted. *)
Theorem quic_streams_in_order test ops c p :
  q_context p = Some c → idle c → q_answers p = [] →
  Z.of_nat (arrived (snd (desk_ops ops (mk_desk 0 0 [])))) ≤ 65536 →
  ∃ l c' p', serve_streams test ops p = Ok (map (answer_map (fun i => l.*1 !! i)) (fst (desk_ops ops (mk_desk 0 0 []))), p') ∧
    length l = arrived (snd (desk_ops ops (mk_desk 0 0 []))) ∧ NoDup l.*1 ∧ NoDup l.*2 ∧
    (∀ sc h, (sc, h) ∈ l → q_streams p' !! sc = Some (quic_sc_new (Some h)) ∧ q_handles p' !! h = Some (Stream (Some sc))) ∧
    q_context p' = Some c' ∧ cx_accept c' = drop (accepted (snd (desk_ops ops (mk_desk 0 0 [])))) l.*1 ∧
    cx_pipe c' = length (cx_accept c').
Proof.
  intros Hc Hi Ha Hb. pose proof (serving_start _ _ Hc Hi Ha) as Hs. destruct Hi as (_ & _ & _ & _ & Hnfd).
  edestruct serving_ops as (l & p' & E & Hs'); [exact Hnfd|exact Hs|exact Hb|]. cbn [app] in *.
  destruct Hs' as [(m & _ & ->) Hl Hac _ [Hn1 _] [Hn2 _]].
  eexists l, (context_of c l _ m), _. split; [exact E|].
  split_and!; try done.
  - intros sc h Hin. split; [by apply lookup_with_streams_in|by apply lookup_with_handles_in].
  - cbn. rewrite length_drop, length_fmap. by rewrite Hl.
Qed.


(** The first connection becomes that of the context. *)
Lemma wpq_new_connection p c cfg o p1 :
  set_up p c p1 → cx_conn c = None → cx_cfg c = Some cfg → q_handles p1 !! cfg = Some o →
  wpq listener_cb (fun _ p2 => ∃ h set, set_up p (c <| cx_conn := Some h |>) p2 ∧
    q_handles p2 !! h = Some (Connection None set)) p1.
Proof.
  intros Hs Hno Hcfg Ho. pose proof (holds_self _ _ (ac_context _ _ _ (proj1 Hs))) as Hp1. unfold listener_cb.
  apply wpq_bind. eapply wpq_new_handle; [done|]. intros h p2 Hh Hp2. assert (cfg ≠ h) as Hne by (intros ->; congruence).
  assert (∀ x p', holds (Some (c <| cx_conn := Some h |>)) (<[h := x]> (q_handles p1)) (q_apis p1) (q_streams p1) (q_fds p1)
    (q_files p1) (q_blobs p1) (q_wakes p1) p' → set_up p (c <| cx_conn := Some h |>) p') as Hc.
  { intros x p' Hp'. eapply (set_up_adds p c p1 _ h x); try done; [|apply Hs]. unfold handles_of. cbn. rewrite Hno. cbn.
    unfold streams_of. cbn. solve_Permutation. }
  apply wpq_bind. eapply wpq_set_ctx; [exact Hp2|done|]. intros p3 Hp3. eapply wpq_with_ctx; [exact Hp3|done|].
  cbn [cx_cfg]. change (cx_cfg (c <| cx_conn := Some h |>)) with (cx_cfg c). rewrite Hcfg. apply wpq_bind.
  eapply wpq_touch; [exact Hp3|by rewrite lookup_insert_ne|]. intros p4 Hp4.
  eapply wpq_if_fails; [by left|exact Hp4|..]; intros p5 Hp5.
  - apply wpq_ret. exists h, false. split; [by eapply Hc|]. rewrite (holds_handles _ _ _ _ _ _ _ _ _ Hp5). apply lookup_insert_eq.
  - eapply wpq_use; [exact Hp5|apply lookup_insert_eq|]. intros p6 Hp6. rewrite insert_insert_eq in Hp6.
    exists h, true. split; [by eapply Hc|]. rewrite (holds_handles _ _ _ _ _ _ _ _ _ Hp6). apply lookup_insert_eq.
Qed.

(** ** A client over QUIC *)

(** Waiting for the connection: what the reports make of [ready], and whether the
    wait ends. *)
Definition ready_after (l : list library_event) (ready : bool) : bool :=
  foldl (fun r e => match e with CONNECTED => true | CONN_SHUTDOWN_COMPLETE => false | _ => r end) ready l.

Fixpoint waits (limited : bool) (W : list wake) (ready : bool) : option bool :=
  if ready then Some true
  else
    match W with
    | [] => None
    | Woken l :: W => waits limited W (ready_after l ready)
    | Timed_out l :: W => if limited then Some (ready_after l ready) else waits limited W (ready_after l ready)
    end.

Definition with_ready (c : iperf_quic_context) (ready done : bool) : iperf_quic_context :=
  mk_ctx (cx_api c) (cx_reg c) (cx_cfg c) (cx_listener c) (cx_conn c) ready (cx_server c) done (cx_nfd c) (cx_pipe c)
    (cx_next_id c) (cx_map c) (cx_accept c).

Lemma wpq_reports H apis S F files blobs W l Q : forallb quiet l = true → ∀ c p,
  holds (Some c) H apis S F files blobs W p →
  (∀ d p', holds (Some (with_ready c (ready_after l (cx_ready c)) d)) H apis S F files blobs W p' → Q () p') →
  wpq (reports l) Q p.
Proof.
  induction l as [|e l IH]; intros Hl c p Hp HQ.
  - apply wpq_ret. apply (HQ (cx_done c)). destruct c. exact Hp.
  - cbn in Hl. apply andb_true_iff in Hl as [He Hl]. apply wpq_bind.
    destruct e; try discriminate; cbn; (eapply wpq_set_ctx; [done..|]; intros p1 Hp1; eapply IH; [done|exact Hp1|];
      intros d p2 Hp2; eapply HQ; exact Hp2).
Qed.

Lemma wpq_wait_ready limited H apis S F files blobs Q : ∀ W fuel c p,
  forallb (fun w => forallb quiet (wake_events w)) W = true → (length W < fuel)%nat →
  holds (Some c) H apis S F files blobs W p → is_Some (waits limited W (cx_ready c)) →
  (∀ r d W' p', waits limited W (cx_ready c) = Some r → holds (Some (with_ready c r d)) H apis S F files blobs W' p' → Q () p') →
  wpq (wait_ready fuel limited) Q p.
Proof.
  induction W as [|w W IH]; intros fuel c p Hq Hf Hp Hw HQ; (destruct fuel as [|fuel]; [cbn in Hf; lia|]).
  - cbn in Hw. pose proof Hp as []. destruct (cx_ready c) eqn:Er; [|by destruct Hw].
    exists (), p. split; [cbn; by rewrite holds_context, Er|]. eapply (HQ true (cx_done c)); [done|]. destruct c. cbn in *. by subst.
  - cbn in Hq, Hf. apply andb_true_iff in Hq as [Hq1 Hq]. pose proof Hp as []. unfold wpq. cbn [wait_ready].
    rewrite holds_context, holds_wakes. destruct (cx_ready c) eqn:Er.
    { exists (), p. split; [done|]. eapply (HQ true (cx_done c)); [done|]. destruct c. cbn in *. by subst. }
    assert (holds (Some c) H apis S F files blobs W (p <| q_wakes := W |>)) as Hp1 by by split; cbn.
    assert (∀ l (next : quic ()), forallb quiet l = true →
      (∀ d p', holds (Some (with_ready c (ready_after l false) d)) H apis S F files blobs W p' → wpq next Q p') →
      wpq (reports l;; next) Q (p <| q_wakes := W |>)) as Hrep.
    { intros l next Hl Hn. apply wpq_bind. eapply wpq_reports; [done|exact Hp1|]. rewrite Er. exact Hn. }
    destruct w as [l|l]; cbn in Hw, HQ.
    + apply Hrep; [done|]. intros d p' Hp'. eapply IH; [done|lia|exact Hp'|exact Hw|]. intros r d' W' p2 Hr. by apply HQ.
    + apply Hrep; [done|]. intros d p' Hp'. destruct limited; [by apply wpq_ret; eapply HQ|].
      eapply IH; [done|lia|exact Hp'|exact Hw|]. intros r d' W' p2 Hr. by apply HQ.
Qed.

(** [wait_ready] goes on for as long as the reports say. *)
Lemma reports_quiet l : forallb quiet l = true → ∀ c p, q_context p = Some c →
  ∃ d, reports l p = Ok ((), p <| q_context := Some (with_ready c (ready_after l (cx_ready c)) d) |>).
Proof.
  induction l as [|e l IH]; intros Hl c p Hc.
  - exists (cx_done c). destruct p, c. cbn in *. by subst.
  - cbn in Hl. apply andb_true_iff in Hl as [He Hl].
    destruct e; try discriminate; cbn; cbv [mbind quic_bind outcome_bind set_ctx]; rewrite Hc.
    + destruct (IH Hl (c <| cx_ready := true |>) (p <| q_context := Some (c <| cx_ready := true |>) |>)) as [d E]; [done|].
      exists d. rewrite E. done.
    + destruct (IH Hl (c <| cx_ready := false |> <| cx_done := true |>)
        (p <| q_context := Some (c <| cx_ready := false |> <| cx_done := true |>) |>)) as [d E]; [done|].
      exists d. rewrite E. done.
Qed.

Lemma wait_goes_on limited : ∀ W fuel c p,
  forallb (fun w => forallb quiet (wake_events w)) W = true → q_context p = Some c → q_wakes p = W →
  waits limited W (cx_ready c) = None → wait_ready fuel limited p = NoFuel.
Proof.
  induction W as [|w W IH]; intros fuel c p Hq Hc HW Hw; (destruct fuel as [|fuel]; cbn [wait_ready];
    rewrite Hc, HW; destruct (cx_ready c) eqn:Er; cbn in Hw; rewrite ?Er in Hw; try done); [by destruct w|].
  cbn in Hq. apply andb_true_iff in Hq as [Hl Hq].
  assert (∀ l, forallb quiet l = true → waits limited W (ready_after l false) = None →
    (reports l;; wait_ready fuel limited) (p <| q_wakes := W |>) = NoFuel) as Hgo.
  { intros l Hl' Hw'. edestruct (reports_quiet l Hl' c (p <| q_wakes := W |>)) as [d E]; [done|].
    cbv [mbind quic_bind outcome_bind]. rewrite E. eapply IH; [done|reflexivity|done|]. cbn. by rewrite Er. }
  destruct w as [l|l]; [by apply Hgo|]. destruct limited; [done|by apply Hgo].
Qed.

Section Client.
Context (test : iperf_test) (p : process).

(** The connection the options ask for. *)
Definition peer_of (t : iperf_test) : Z * bytes * Z :=
  let d := domain (cmdline t) in
  (if (d =? AF_INET) || (d =? AF_INET6) then d else QUIC_ADDRESS_FAMILY_UNSPEC,
   default [] (server_hostname (cmdline t)), data_port t).

Inductive connect_outcome : Z * iperf_test → process → Prop :=
| connect_no_context t p' W :
    holds None (q_handles p) (q_apis p) (q_streams p) (q_fds p) (q_files p) (q_blobs p) W p' →
    i_errno t ≠ 0 → connect_outcome (-1, t) p'
| connect_refused c t p' : accounted p c p' → i_errno t = IECONNECT → connect_outcome (-1, t) p'
| connected c conn sc h p' :
    accounted p c p' → cx_ready c = true → cx_conn c = Some conn → cx_map c = [(1, sc)] →
    q_handles p' !! conn = Some (Connection (Some (peer_of test)) true) →
    q_streams p' !! sc = Some (quic_sc_new (Some h)) → q_handles p' !! h = Some (Stream (Some sc)) →
    connect_outcome (1, test) p'
| connected_without_memory c p' : (* the node of the map *)
    cx_ready c = true → cx_map c = [] → q_context p' = Some c → connect_outcome (1, test) p'.

Definition client_context (reg cfg : positive) (conn : option positive) (r w : Z) (ready done : bool) (id : Z)
    (m : list (Z * positive)) : iperf_quic_context :=
  mk_ctx true (Some reg) (Some cfg) None conn ready false done (Some (r, w)) 0 id m [].

Context (reg cfg : positive) (cred : credential) (r w : Z).
Context (Hreg : q_handles p !! reg = None) (Hcfg : q_handles p !! cfg = None) (Hne : reg ≠ cfg).
Context (Hrw : r ≠ w) (Hr : r ∉ q_fds p) (Hw : w ∉ q_fds p).

Local Abbreviation base := [(cfg, Configuration (settings_of test) (Some cred)); (reg, Registration)].
Local Abbreviation has c hs ss W :=
  (holds (Some c) (inserts (hs ++ base) (q_handles p)) (1 + q_apis p) (inserts ss (q_streams p)) ({[r; w]} ∪ q_fds p)
    (q_files p) (q_blobs p) W).

(** Without streams. *)
Lemma client_accounted hs conn ready done id W p1 :
  has (client_context reg cfg conn r w ready done id []) hs [] W p1 → hs.*1 = option_list conn →
  (∀ k, k ∈ hs.*1 → q_handles p !! k = None ∧ k ≠ reg ∧ k ≠ cfg) →
  accounted p (client_context reg cfg conn r w ready done id []) p1.
Proof.
  intros Hp1 Hhs Hnew. eapply accounted_of; [exact Hp1|..]; try done; rewrite ?fmap_app, ?Hhs in *.
  - destruct conn as [k|]; cbn in *; [|repeat constructor; set_solver].
    destruct (Hnew k) as (? & ? & ?); [set_solver|]. repeat constructor; set_solver.
  - intros k [Hk|Hk]%elem_of_app; [by apply Hnew|]. cbn in Hk. set_solver.
  - cbn. constructor.
  - intros k Hk. by apply elem_of_nil in Hk.
  - by destruct conn.
Qed.

Context (conn : positive) (Hconn : q_handles p !! conn = None ∧ conn ≠ reg ∧ conn ≠ cfg).
Local Abbreviation set_conn := (Connection (Some (peer_of test)) true).

(** From the open connection on. *)
Lemma wpq_open_stream d W p1 :
  has (client_context reg cfg (Some conn) r w true d 0 []) [(conn, set_conn)] [] W p1 →
  wpq (open_stream test (client_context reg cfg (Some conn) r w true d 0 [])) connect_outcome p1.
Proof.
  intros Hp1. destruct Hconn as (Hc1 & Hc2 & Hc3).
  assert (∀ p', has (client_context reg cfg (Some conn) r w true d 0 []) [(conn, set_conn)] [] W p' →
    connect_outcome (quic_error test IECONNECT) p') as Hfail.
  { intros p' Hp'. eapply connect_refused; [|done]. eapply client_accounted; [exact Hp'|done|].
    intros k Hk. cbn in Hk. apply list_elem_of_singleton in Hk as ->. done. }
  unfold open_stream. cbn [cx_conn client_context]. apply wpq_bind.
  eapply wpq_touch; [exact Hp1|apply lookup_insert_eq|]. intros p2 Hp2. apply wpq_bind. eapply wpq_open; [done| |].
  { intros p3 Hp3. by apply wpq_ret, Hfail. }
  intros h p3 Hh Hp3.
  assert (q_handles p !! h = None ∧ h ≠ conn ∧ h ≠ cfg ∧ h ≠ reg) as (Hh0 & Hhc & Hhg & Hhr).
  { cbn in Hh. rewrite !lookup_insert_None in Hh. naive_solver. }
  eapply wpq_if_fails; [by right|done| |].
  { intros p4 Hp4. apply wpq_bind. eapply wpq_close; [exact Hp4|apply lookup_insert_eq|]. intros p5 Hp5.
    rewrite delete_insert_id in Hp5 by done. by apply wpq_ret, Hfail. }
  intros p4 Hp4. apply wpq_bind. eapply wpq_new_sc; [done|]. intros sc p5 Hsc Hp5. apply wpq_bind.
  eapply wpq_use; [exact Hp5|apply lookup_insert_eq|]. intros p6 Hp6. rewrite insert_insert_eq in Hp6.
  eapply wpq_if_try; [exact Hp6|apply lookup_insert_eq|..]; intros p7 Hp7.
  { apply wpq_bind. eapply wpq_close_stream; [exact Hp7|apply lookup_insert_eq|done|apply lookup_insert_eq|]. intros p8 Hp8.
    apply wpq_bind. eapply wpq_sc_free; [exact Hp8|apply lookup_insert_eq|]. intros p9 Hp9.
    rewrite insert_insert_eq, !delete_insert_id in Hp9 by done. by apply wpq_ret, Hfail. }
  rewrite insert_insert_eq in Hp7. eapply wpq_with_ctx; [exact Hp7|done|]. apply wpq_bind. eapply wpq_put; [exact Hp7|].
  intros p8 Hp8. apply wpq_bind. eapply wpq_if_fails; [by right|exact Hp8|..].
  - intros p9 Hp9. apply wpq_ret, wpq_ret. eapply connected_without_memory; [| |apply Hp9]; done.
  - intros p9 Hp9. eapply wpq_set_ctx; [exact Hp9|done|]. intros p10 Hp10. apply wpq_ret.
    eapply (connected (client_context reg cfg (Some conn) r w true d 1 [(1, sc)]) conn sc h).
    + eapply (accounted_of p _ ([(h, Stream (Some sc)); (conn, set_conn)] ++ base)
        [(sc, quic_sc_new (Some h))]); [exact Hp10|..]; cbn.
      * repeat constructor; set_solver.
      * set_solver.
      * repeat constructor; set_solver.
      * set_solver.
      * unfold handle_of. rewrite lookup_insert_eq. done.
      * done.
      * done.
    + done.
    + done.
    + done.
    + rewrite (holds_handles _ _ _ _ _ _ _ _ _ Hp10). cbn. by rewrite lookup_insert_ne, lookup_insert_eq.
    + rewrite (holds_streams _ _ _ _ _ _ _ _ _ Hp10). apply lookup_insert_eq.
    + rewrite (holds_handles _ _ _ _ _ _ _ _ _ Hp10). apply lookup_insert_eq.
Qed.
End Client.

Lemma wpq_open_connection test p reg cfg cred r w Q p1 :
  let c conn := client_context reg cfg conn r w false false 0 [] in
  let base := [(cfg, Configuration (settings_of test) (Some cred)); (reg, Registration)] in
  let has conn hs := holds (Some (c conn)) (inserts (hs ++ base) (q_handles p)) (1 + q_apis p) (q_streams p)
    ({[r; w]} ∪ q_fds p) (q_files p) (q_blobs p) (q_wakes p) in
  reg ≠ cfg → has None [] p1 →
  (∀ p', has None [] p' → Q (quic_error test IECONNECT) p') →
  (∀ conn o p', q_handles p !! conn = None ∧ conn ≠ reg ∧ conn ≠ cfg → has (Some conn) [(conn, o)] p' →
     Q (quic_error test IECONNECT) p') →
  (∀ conn p', q_handles p !! conn = None ∧ conn ≠ reg ∧ conn ≠ cfg →
     has (Some conn) [(conn, Connection (Some (peer_of test)) true)] p' → Q (0, test) p') →
  wpq (open_connection test (c None)) Q p1.
Proof.
  intros c base has Hne Hp1 Hno Hno2 Hyes. unfold open_connection. cbn [cx_conn cx_reg cx_cfg client_context c].
  apply wpq_bind. eapply wpq_touch; [exact Hp1| |].
  { cbn. rewrite lookup_insert_ne, lookup_insert_eq by done. done. }
  intros p2 Hp2. apply wpq_bind. eapply wpq_open; [done| |].
  { intros p3 Hp3. by apply wpq_ret, Hno. }
  intros conn p3 Hconn Hp3. cbn in Hconn. rewrite !lookup_insert_None in Hconn. destruct Hconn as ((Hc1 & Hc2) & Hc3).
  apply wpq_bind. eapply wpq_set_ctx; [done..|]. intros p4 Hp4. apply wpq_bind.
  eapply wpq_touch; [exact Hp4| |].
  { cbn. rewrite lookup_insert_ne, lookup_insert_eq by done. done. }
  intros p5 Hp5. eapply wpq_if_try; [exact Hp5|apply lookup_insert_eq|..]; intros p6 Hp6; apply wpq_ret.
  - eapply (Hno2 conn); [done|exact Hp6].
  - rewrite insert_insert_eq in Hp6. eapply (Hyes conn); [done|exact Hp6].
Qed.


(** ** Instances *)

Definition no_address (family : Z) (name : bytes) : bool := false.



(** Behind [iperf_quic_listen] without its listener. *)
Definition fresh_server : process :=
  mk_process (Some (first_context true 1 2 3 4))
    (<[2%positive := Configuration (settings_of quic_host) (Some (Cred_file (B "cert.pem") (B "key.pem")))]>
       (<[1%positive := Registration]> ∅))
    1 ∅ ({[3; 4]} ∪ list_to_set [0; 1; 2]) 0 0 [] [].
Definition sample_ops : list server_op := [Arrives; Arrives; Accepts; Attaches 1; Accepts; Accepts; Attaches 1; Arrives].

Lemma quic_streams_in_order_witness :
  let d := snd (desk_ops sample_ops (mk_desk 0 0 [])) in
  ∃ l c' p', serve_streams quic_host sample_ops fresh_server =
      Ok (map (answer_map (fun i => l.*1 !! i)) [Nothing; Nothing; Number 1; Attached 0 (Some 0%nat); Number 2; Number (-1);
                                                 Attached (-1) None; Nothing], p') ∧
    length l = arrived d ∧ NoDup l.*1 ∧ NoDup l.*2 ∧
    (∀ sc h, (sc, h) ∈ l → q_streams p' !! sc = Some (quic_sc_new (Some h)) ∧ q_handles p' !! h = Some (Stream (Some sc))) ∧
    q_context p' = Some c' ∧ cx_accept c' = drop (accepted d) l.*1 ∧ cx_pipe c' = length (cx_accept c').
Proof.
  intros d. by apply (quic_streams_in_order quic_host sample_ops (first_context true 1 2 3 4) fresh_server).
Defined.


(** A stream that was shut down before the program closed it: the callback closes the
    handle, but the context still names it, and it is closed again, at the end of
    the test and at the end of a stream that is in use. *)
Definition with_one_stream : process :=
  match (conn_cb (PEER_STREAM_STARTED true true)) fresh_server with Ok (_, p) => p | _ => fresh_server end.

Example shut_down_stream_closed_twice :
  match process_stream_cb 3 (SHUTDOWN_COMPLETE false) with_one_stream with
  | Ok (_, p) => match iperf_quic_free_test quic_host p with Undef => true | _ => false end
  | _ => false
  end = true ∧
  match (iperf_quic_accept quic_host;; '(_, s) ← iperf_quic_attach_stream 1;
         process_stream_cb 3 (SHUTDOWN_COMPLETE false);; iperf_quic_stream_cleanup s) with_one_stream with
  | Undef => true
  | _ => false
  end = true.
Proof. split; vm_compute; reflexivity. Qed.

(** When the handshake fails, the wait ends with a time limit only. *)
Example failed_handshake_waits_for_ever :
  let p := bare_process [] [Woken [CONN_SHUTDOWN_COMPLETE]; Woken []] in
  match iperf_quic_connect quic_host p with NoFuel => true | _ => false end = true ∧
  match iperf_quic_connect (quic_host <| settings := (settings quic_host) <| connect_timeout := 1000 |> |>)
          (p <| q_wakes ::= (fun l => l ++ [Timed_out []]) |>) with
  | Ok ((r, t), _) => (r, i_errno t)
  | _ => (0, 0)
  end = (-1, IECONNECT).
Proof. split; vm_compute; reflexivity. Qed.

(** A second connection takes the place of the first, whose handle stays open. *)
Example second_connection_loses_the_first :
  match (listener_cb;; listener_cb;; iperf_quic_free_test quic_host) fresh_server with
  | Ok (_, p) => map_to_list (q_handles p)
  | _ => []
  end = [(3%positive, Connection None true)].
Proof. vm_compute. reflexivity. Qed.

(** Without memory for a node of the map, [iperf_quic_accept] answers a number that no
    stream has; the stream stays open when everything is released. *)
Example accepted_without_memory_is_lost :
  match (x ← iperf_quic_accept quic_host; y ← iperf_quic_attach_stream (fst x);
         iperf_quic_free_test quic_host;; mret (fst x, y)) (with_one_stream <| q_answers := [1] |>) with
  | Ok (r, p) => (r, size (q_handles p), size (q_streams p))
  | _ => ((0, (0, None)), 0%nat, 0%nat)
  end = ((1, (-1, None)), 1%nat, 1%nat).
Proof. vm_compute. reflexivity. Qed.

(** A name for [--bind] is ignored. *)
Example bind_name_is_ignored :
  quic_listen_address no_address (quic_host <| cmdline := (cmdline quic_host) <| bind_address := Some (B "host") |> |>) =
  quic_listen_address no_address quic_host.
Proof. vm_compute. reflexivity. Qed.
