(* ===== verification/CScan.v ===== *)
(** * Reading numbers and words the way the C library does

    [strtol], [atoi], [sscanf] with ["%lf%c"], [strcasecmp] and [strchr], as far
    as the command line needs them.  [sscanf] reads the decimal forms of a
    floating point number; the words for infinities and NaNs and hexadecimal
    floats are not read as numbers. *)

From S2P Require Import Prelude CInt CDouble CStdio.

Definition is_space (c : ascii) : bool := (u8 c =? 32) || ((9 <=? u8 c) && (u8 c <=? 13)).

Fixpoint skip_space (l : bytes) : bytes :=
  match l with c :: l' => if is_space c then skip_space l' else l | [] => [] end.

Definition to_lower (c : ascii) : ascii := if (65 <=? u8 c) && (u8 c <=? 90) then chr (u8 c + 32) else c.
Definition to_upper (c : ascii) : ascii := if (97 <=? u8 c) && (u8 c <=? 122) then chr (u8 c - 32) else c.
Definition is_upper (c : ascii) : bool := (65 <=? u8 c) && (u8 c <=? 90).

(** [strcasecmp(a, b) == 0] on strings without NUL. *)
Definition strcasecmp_equal (a b : bytes) : bool := bool_decide (map to_lower a = map to_lower b).

(** The string before the first [c] and the one behind it, if there is one. *)
Fixpoint split_at (c : ascii) (l : bytes) : bytes * option bytes :=
  match l with
  | [] => ([], None)
  | x :: l' => if decide (x = c) then ([], Some l')
               else let '(a, b) := split_at c l' in (x :: a, b)
  end.

(** ** [strtol] *)

(** The value of a digit in any base up to 36. *)
Definition digit_value (c : ascii) : Z :=
  let v := u8 (to_lower c) in
  if is_digit c then v - 48 else if (97 <=? v) && (v <=? 122) then v - 87 else 36.

Fixpoint span_base (base : Z) (l : bytes) : list Z * bytes :=
  match l with
  | c :: l' => if digit_value c <? base
               then let '(d, r) := span_base base l' in (digit_value c :: d, r) else ([], l)
  | [] => ([], [])
  end.

Definition value_in (base : Z) (d : list Z) : Z := foldl (fun a x => base * a + x) 0 d.

Definition LONG_MAX : Z := 2 ^ 63 - 1.
Definition clamp_long (z : Z) : Z := Z.min LONG_MAX (Z.max (- 2 ^ 63) z).

(** The base that base 0 stands for, and the digits. *)
Definition base_prefix (l : bytes) : Z * bytes :=
  match l with
  | z :: x :: h :: _ =>
      if bool_decide (z = "0"%char) then
        if bool_decide (to_lower x = "x"%char) && (digit_value h <? 16) then (16, drop 2 l) else (8, l)
      else (10, l)
  | z :: _ => if bool_decide (z = "0"%char) then (8, l) else (10, l)
  | [] => (10, l)
  end.

(** The value and what follows the number; without digits the value is 0 and
    nothing was read. *)
Definition strtol (base : Z) (s : bytes) : Z * bytes :=
  let '(neg, l) := strtod_sign (skip_space s) in
  let '(b, l) := if base =? 0 then base_prefix l else (base, l) in
  match span_base b l with
  | ([], _) => (0, s)
  | (d, r) => (clamp_long (if neg then - value_in b d else value_in b d), r)
  end.

(** [strtoul]: a negative number wraps around. *)
Definition ULONG_MAX : Z := 2 ^ 64 - 1.
Definition strtoul (base : Z) (s : bytes) : Z :=
  let '(neg, l) := strtod_sign (skip_space s) in
  let '(b, l) := if base =? 0 then base_prefix l else (base, l) in
  let v := value_in b (span_base b l).1 in
  if ULONG_MAX <? v then ULONG_MAX else u64 (if neg then - v else v).

(** [atoi] *)
Definition atoi (s : bytes) : Z := i32 (fst (strtol 10 s)).

(** ** [sscanf(s, "%lf%c", &n, &suffix)]: the number and the byte behind it *)

Definition scan_lf_c (s : bytes) : option (double * option ascii) :=
  let l := skip_space s in
  match strtod l with
  | None => None
  | Some (n, k) => Some (n, head (drop k l))
  end.

(** [atof] *)
Definition atof (s : bytes) : double :=
  match strtod (skip_space s) with Some (n, _) => n | None => D0 end.

(** ** Decimal numbers *)

Lemma is_digit_value c : is_digit c = true → digit_value c = digit_val c ∧ 0 ≤ digit_val c < 10.
Proof.
  intros Hc. unfold digit_value. rewrite Hc. unfold is_digit in Hc. bool_to_prop.
  unfold to_lower, digit_val. ztest. cbn. lia.
Qed.

Lemma span_base_digits base l r :
  10 ≤ base → Forall (fun c => is_digit c = true) l →
  (∀ c, head r = Some c → base ≤ digit_value c) →
  span_base base (l ++ r) = (map digit_val l, r).
Proof.
  intros Hb Hl Hr. induction Hl as [|c l Hc Hl IH]; cbn.
  - destruct r as [|c r]; [done|]. cbn. specialize (Hr c eq_refl). by ztest.
  - destruct (is_digit_value c Hc) as [-> ?]. ztest. by rewrite IH.
Qed.

Lemma value_in_dec l a :
  foldl (fun a x => 10 * a + x) a (map digit_val l) = foldl (fun a c => 10 * a + digit_val c) a l.
Proof. revert a. induction l as [|c l IH]; intros a; [done|]. cbn [map foldl]. by rewrite IH. Qed.

Lemma dec_U_skip n : 0 ≤ n → skip_space (dec_U n) = dec_U n ∧ strtod_sign (dec_U n) = (false, dec_U n).
Proof.
  intros Hn. destruct (dec_U_spec n Hn) as (Hd & _ & _).
  destruct (dec_U n) as [|c l]; [done|].
  apply Forall_cons in Hd as [Hc _]. pose proof (digit_not_sign c Hc) as [H1 H2].
  unfold is_digit in Hc. bool_to_prop. cbn. unfold is_space. ztest. cbn. by rewrite !decide_False by done.
Qed.
