(* ===== verification/Units.v ===== *)
(** * Numbers with units ([src/units.c])

    [unit_atof], [unit_atof_rate] and [unit_atoi] read a number with a suffix of
    the command line; [unit_snprintf] prints a quantity of a report.  The first
    component of a result is what is assigned to [i_errno], if anything is. *)

From S2P Require Import Prelude Errno CInt CDouble CStdio CScan.


(** ** Reading *)

Definition KILO_UNIT : double := D_of_Z (2 ^ 10).
Definition MEGA_UNIT : double := D_of_Z (2 ^ 20).
Definition GIGA_UNIT : double := D_of_Z (2 ^ 30).
Definition TERA_UNIT : double := D_of_Z (2 ^ 40).

Definition KILO_RATE_UNIT : double := D_of_Z (10 ^ 3).
Definition MEGA_RATE_UNIT : double := D_of_Z (10 ^ 6).
Definition GIGA_RATE_UNIT : double := D_of_Z (10 ^ 9).
Definition TERA_RATE_UNIT : double := D_of_Z (10 ^ 12).

(** The factor of a suffix; [None] for a suffix that is not one. *)
Definition unit_factor (k m g t : double) (suffix : option ascii) : option (option double) :=
  match suffix with
  | None => Some None
  | Some c =>
      if decide (c = NUL) then Some None
      else match to_lower c with
      | "t"%char => Some (Some t)
      | "g"%char => Some (Some g)
      | "m"%char => Some (Some m)
      | "k"%char => Some (Some k)
      | _ => None
      end
  end.

Definition scaled (factor : option double) (n : double) : double :=
  match factor with Some f => Dmul n f | None => n end.

(** An unknown suffix is an error, but the number is returned. *)
Definition unit_atof_with (k m g t : double) (s : bytes) : option Z * double :=
  match scan_lf_c s with
  | None => (Some IEUNITVAL, D0)
  | Some (n, suffix) =>
      match unit_factor k m g t suffix with
      | Some f => (None, scaled f n)
      | None => (Some IEUNITVAL, n)
      end
  end.

Definition unit_atof : bytes → option Z * double :=
  unit_atof_with KILO_UNIT MEGA_UNIT GIGA_UNIT TERA_UNIT.
Definition unit_atof_rate : bytes → option Z * double :=
  unit_atof_with KILO_RATE_UNIT MEGA_RATE_UNIT GIGA_RATE_UNIT TERA_RATE_UNIT.

(** [(iperf_size_t) n]: undefined for what 64 bits cannot hold. *)
Definition to_size (n : double) : outcome Z :=
  match D_to_u 64 n with Some z => Ok z | None => Undef end.

Definition unit_atoi (s : bytes) : outcome (option Z * Z) :=
  match scan_lf_c s with
  | None => Ok (Some IEUNITVAL, 0)
  | Some (n, suffix) =>
      match unit_factor KILO_UNIT MEGA_UNIT GIGA_UNIT TERA_UNIT suffix with
      | Some f => z ← to_size (scaled f n); Ok (None, z)
      | None => Ok (Some IEUNITVAL, 0)
      end
  end.

(** ** Printing *)

Definition UNIT_CONV : nat := 0.
Definition KILO_CONV : nat := 1.
Definition MEGA_CONV : nat := 2.
Definition GIGA_CONV : nat := 3.
Definition TERA_CONV : nat := 4.

(** [1.0 / 1024], [1.0 / 1024 / 1024], ... *)
Fixpoint conversion (base : double) (conv : nat) : double :=
  match conv with O => D_of_Z 1 | S c => Ddiv (conversion base c) base end.
Definition conversion_bytes : nat → double := conversion (D_of_Z 1024).
Definition conversion_bits : nat → double := conversion (D_of_Z 1000).

Definition label_byte (conv : nat) : bytes :=
  nth conv [B "Byte"; B "KByte"; B "MByte"; B "GByte"; B "TByte"] [].
Definition label_bit (conv : nat) : bytes :=
  nth conv [B "bit"; B "Kbit"; B "Mbit"; B "Gbit"; B "Tbit"] [].

(** The adaptive unit: [left] more units may be tried. *)
Fixpoint adapt (left conv : nat) (base tmpNum : double) : nat :=
  match left with
  | O => conv
  | S left' => if Dleb base tmpNum then adapt left' (S conv) base (Ddiv tmpNum base) else conv
  end.

(** [%4.kf]: padded on the left to four places. *)
Definition fmt_4f (k : nat) (d : double) : bytes := pad_left 4 " "%char (fmt_f k d).

(** The text and how it is cut to the buffer. *)
Definition unit_snprintf (inLen : nat) (inNum : double) (inFormat : ascii) : bytes :=
  let upper := is_upper inFormat in
  let inNum := if upper then inNum else Dmul inNum (D_of_Z 8) in
  let conv :=
    match to_upper inFormat with
    | "B"%char => UNIT_CONV
    | "K"%char => KILO_CONV
    | "M"%char => MEGA_CONV
    | "G"%char => GIGA_CONV
    | "T"%char => TERA_CONV
    | _ => adapt TERA_CONV UNIT_CONV (D_of_Z (if upper then 1024 else 1000)) inNum
    end in
  let inNum := Dmul inNum (if upper then conversion_bytes conv else conversion_bits conv) in
  let suffix := if upper then label_byte conv else label_bit conv in
  let places := if Dltb inNum (D_of_dec 9995 (-3)) then 2%nat
                else if Dltb inNum (D_of_dec 9995 (-2)) then 1%nat else 0%nat in
  take (inLen - 1) (fmt_4f places inNum ++ B " " ++ suffix).

Example unit_snprintf_samples :
  unit_snprintf 32 (D_of_Z 1) "A" = B "1.00 Byte" ∧
  unit_snprintf 32 (D_of_Z 1234567) "A" = B "1.18 MByte" ∧
  unit_snprintf 32 (D_of_Z 125000000) "a" = B "1.00 Gbit" ∧
  unit_snprintf 32 (D_of_Z 128000) "K" = B " 125 KByte".
Proof. by vm_compute. Qed.

(** ** Exactness *)

(** Multiplying by a power of two is exact as long as the exponent fits. *)
Lemma Dmul_pow2 s m e k :
  2 ^ 52 ≤ Zpos m < 2 ^ 53 → -1074 ≤ e + k ≤ 971 →
  Dmul (S754_finite s m e) (S754_finite false (2 ^ 52) (k - 52)) = S754_finite s m (e + k).
Proof.
  intros Hm He. unfold Dmul, SFmul. rewrite xorb_false_r.
  set (q := (m * 2 ^ 52)%positive).
  assert (Zpos (digits2_pos q) = 105) as Hq.
  { unfold q. rewrite digits2_log2, Pos2Z.inj_mul, Z.log2_mul_pow2 with (b := 52) by lia.
    rewrite (Z.log2_unique _ 52); lia. }
  unfold binary_round_aux.
  assert (shr_fexp 53 1024 (Zpos q) (e + (k - 52)) loc_Exact
          = (Build_shr_record (Zpos m) false false, e + k)) as ->.
  { unfold shr_fexp, fexp, emin, Zdigits2. rewrite Hq.
    replace (Z.max (105 + (e + (k - 52)) - 53) (3 - 1024 - 53) - (e + (k - 52))) with 52 by lia.
    unfold q. rewrite Pos.mul_comm. cbn -[Z.add]. f_equal. lia. }
  cbn -[shr_fexp Z.leb].
  assert (shr_fexp 53 1024 (Zpos m) (e + k) loc_Exact = (Build_shr_record (Zpos m) false false, e + k)) as ->.
  { unfold shr_fexp, fexp, emin, Zdigits2. rewrite digits_53 by done.
    replace (Z.max (53 + (e + k) - 53) (3 - 1024 - 53) - (e + k)) with 0 by lia. done. }
  cbn -[Z.leb]. by rewrite (proj2 (Z.leb_le _ _)) by lia.
Qed.

(** The powers of two of the suffixes, and no suffix. *)
Definition unit_power (suffix : bytes) : option Z :=
  match map to_lower suffix with
  | [] => Some 0
  | ["k"%char] => Some 10
  | ["m"%char] => Some 20
  | ["g"%char] => Some 30
  | ["t"%char] => Some 40
  | _ => None
  end.

Definition suffixes : list bytes :=
  [[]; B "k"; B "K"; B "m"; B "M"; B "g"; B "G"; B "t"; B "T"].

(** The text of a number and a suffix, scanned. *)
Lemma scan_size_dec n suffix :
  0 ≤ n < 2 ^ 53 → suffix ∈ suffixes →
  scan_lf_c (dec_U n ++ suffix) = Some (D_of_Z n, head suffix).
Proof.
  intros Hn Hs. unfold scan_lf_c.
  assert (skip_space (dec_U n ++ suffix) = dec_U n ++ suffix) as ->.
  { destruct (dec_U_spec n ltac:(lia)) as (Hd & Hne & _). destruct (dec_U n) as [|c l]; [done|].
    apply Forall_cons in Hd as [Hc _]. cbn. unfold is_digit in Hc. bool_to_prop. unfold is_space. by ztest. }
  assert (ends_number suffix) as He.
  { unfold suffixes in Hs. rewrite !elem_of_cons in Hs.
    repeat (destruct Hs as [-> | Hs]; [by vm_compute|]). by apply elem_of_nil in Hs. }
  pose proof (strtod_dec_Z n suffix ltac:(unfold small_int; lia) He) as Hst.
  unfold dec_Z in Hst. rewrite (proj2 (Z.ltb_ge n 0)) in Hst by lia.
  by rewrite Hst, drop_app_length.
Qed.

Lemma D_of_Z_pow2 k : k = 10 ∨ k = 20 ∨ k = 30 ∨ k = 40 →
  D_of_Z (2 ^ k) = S754_finite false (2 ^ 52) (k - 52).
Proof. by intros [-> | [-> | [-> | ->]]]. Qed.

(** A small integer times a power of two, as an integer again. *)
Lemma to_size_scaled n k :
  0 ≤ n < 2 ^ 53 → k = 10 ∨ k = 20 ∨ k = 30 ∨ k = 40 → n * 2 ^ k < 2 ^ 64 →
  to_size (Dmul (D_of_Z n) (D_of_Z (2 ^ k))) = Ok (n * 2 ^ k).
Proof.
  intros Hn Hk Hb. rewrite (D_of_Z_pow2 k Hk). destruct n as [|p|p]; [done| |lia].
  assert (Zpos p < 2 ^ 53) as Hp by lia. pose proof (int_exp_range p Hp) as Hr.
  rewrite D_of_Z_pos, Dmul_pow2 by (try apply int_mant_range; lia).
  unfold to_size, D_to_u. cbn [D_trunc mbind option_bind cond_Zopp].
  assert (Z.shiftl (Zpos (int_mant p)) (int_exp p + k) = Zpos p * 2 ^ k) as ->.
  { rewrite int_mant_val by done. destruct (Z.le_gt_cases 0 (int_exp p + k)).
    - rewrite Z.shiftl_mul_pow2 by lia. rewrite <- Z.mul_assoc, <- Z.pow_add_r by lia. do 2 f_equal. lia.
    - replace (int_exp p + k) with (- (- (int_exp p + k))) by lia.
      rewrite Z.shiftl_opp_r, Z.shiftr_div_pow2 by lia.
      replace (- int_exp p) with (k + - (int_exp p + k)) by lia.
      rewrite Z.pow_add_r, Z.mul_assoc by lia. apply Z.div_mul, Z.pow_nonzero; lia. }
  rewrite decide_True by (unfold in_u; lia). done.
Qed.

(** C37: the units of the command line are exact: a decimal number below 2^53
    followed by nothing or by one of the letters of a unit, in either case, is
    read by [unit_atoi] as that number times 1, 1024, 1024^2, 1024^3 or 1024^4,
    without rounding, whenever the product fits the 64 bits of the result. *)
Theorem unit_atoi_exact n suffix k :
  0 ≤ n < 2 ^ 53 → suffix ∈ suffixes → unit_power suffix = Some k → n * 2 ^ k < 2 ^ 64 →
  unit_atoi (dec_U n ++ suffix) = Ok (None, n * 2 ^ k).
Proof.
  intros Hn Hs Hk Hb. unfold unit_atoi. rewrite scan_size_dec by done.
  assert (∃ f, unit_factor KILO_UNIT MEGA_UNIT GIGA_UNIT TERA_UNIT (head suffix) = Some f ∧
    to_size (scaled f (D_of_Z n)) = Ok (n * 2 ^ k)) as (f & -> & Hf); [|by rewrite Hf].
  unfold suffixes in Hs. rewrite !elem_of_cons in Hs.
  destruct Hs as [-> | Hs].
  { injection Hk as <-. eexists. split; [reflexivity|]. unfold to_size, scaled, D_to_u.
    rewrite D_trunc_of_Z by (unfold small_int; lia). cbn.
    rewrite decide_True by (unfold in_u; lia). f_equal. lia. }
  repeat (destruct Hs as [-> | Hs];
    [injection Hk as <-; eexists; split; [reflexivity|]; apply to_size_scaled; [done|lia|done]|]).
  by apply elem_of_nil in Hs.
Qed.

Lemma unit_atoi_exact_witness : unit_atoi (dec_U 10 ++ B "G") = Ok (None, 10737418240).
Proof. refine (unit_atoi_exact 10 (B "G") 30 _ _ _ _); [lia|decided|reflexivity|lia]. Defined.

(** The adaptive unit is one of the table. *)
Lemma adapt_bound left conv base n : (adapt left conv base n ≤ conv + left)%nat.
Proof.
  revert conv n. induction left as [|left IH]; intros conv n; cbn [adapt]; [lia|].
  case_goal; [|lia]. specialize (IH (S conv) (Ddiv n base)). lia.
Qed.
