(* ===== verification/Dscp.v ===== *)
(** * DiffServ code points ([src/dscp.c])

    [parse_qos] reads the argument of [--dscp] as the byte of the type of
    service; [iptos2str] names such a byte. *)

From S2P Require Import Prelude CInt CStdio CScan.

(** The table [ipqos]. *)
Definition ipqos : list (bytes * Z) :=
  [(B "af11", 0x28); (B "af12", 0x30); (B "af13", 0x38);
   (B "af21", 0x48); (B "af22", 0x50); (B "af23", 0x58);
   (B "af31", 0x68); (B "af32", 0x70); (B "af33", 0x78);
   (B "af41", 0x88); (B "af42", 0x90); (B "af43", 0x98);
   (B "cs0", 0x00); (B "cs1", 0x20); (B "cs2", 0x40); (B "cs3", 0x60);
   (B "cs4", 0x80); (B "cs5", 0xa0); (B "cs6", 0xc0); (B "cs7", 0xe0);
   (B "ef", 0xb8); (B "va", 0xb0);
   (B "lowdelay", 0x10); (B "throughput", 0x08); (B "reliability", 0x04)].

Fixpoint qos_value (table : list (bytes * Z)) (cp : bytes) : option Z :=
  match table with
  | [] => None
  | (name, value) :: rest => if strcasecmp_equal cp name then Some value else qos_value rest cp
  end.

Fixpoint qos_name (table : list (bytes * Z)) (iptos : Z) : option bytes :=
  match table with
  | [] => None
  | (name, value) :: rest => if value =? iptos then Some name else qos_name rest iptos
  end.

(** A null pointer is [None]. *)
Definition parse_qos (cp : option bytes) : Z :=
  match cp with
  | None => -1
  | Some cp =>
      match qos_value ipqos cp with
      | Some v => v
      | None =>
          let '(val, ep) := strtol 0 cp in
          if bool_decide (cp = []) || negb (bool_decide (ep = [])) || (val <? 0) || (63 <? val) then -1
          else i32 (Z.shiftl val 2)
      end
  end.

Definition iptos2str (iptos : Z) : bytes :=
  let iptos := if (iptos <? 0) || (64 <? iptos) then 0 else iptos in
  match qos_name ipqos iptos with
  | Some name => name
  | None => B "0x" ++ hex_pad 2 iptos
  end.

(** ** Properties *)

Lemma qos_value_in table cp v : qos_value table cp = Some v → v ∈ table.*2.
Proof.
  induction table as [|[name value] table IH]; cbn [qos_value]; [done|].
  case_goal; [intros [= ->]; by left|]. intros H. right. by apply IH.
Qed.

Lemma qos_value_lower table cp name :
  map to_lower cp = name → qos_value table cp = qos_value table name.
Proof.
  intros <-. assert (∀ c, to_lower (to_lower c) = to_lower c) as Hlow.
  { all_bytes (fun c => bool_decide (to_lower (to_lower c) = to_lower c)). intros c. apply bool_decide_eq_true_1. }
  induction table as [|[n v] table IH]; [done|]. cbn [qos_value].
  rewrite IH. unfold strcasecmp_equal. rewrite map_map. by rewrite (map_ext _ _ Hlow).
Qed.

Lemma parse_qos_range cp : parse_qos cp = -1 ∨ (0 ≤ parse_qos cp < 256 ∧ parse_qos cp mod 4 = 0).
Proof.
  destruct cp as [cp|]; [|by left]. unfold parse_qos. destruct (qos_value ipqos cp) as [v|] eqn:Ev.
  - right. apply qos_value_in in Ev. revert v Ev.
    assert (Forall (fun v => 0 ≤ v < 256 ∧ v mod 4 = 0) ipqos.*2) as Hall by decided.
    intros v Hv. by apply (proj1 (Forall_forall _ _) Hall).
  - destruct (strtol 0 cp) as [val ep]. case_goal; [by left|right]. bool_to_prop.
    rewrite Z.shiftl_mul_pow2, wraps_id by (unfold in_s; lia).
    split; [lia|]. apply Z.mod_mul. lia.
Qed.

(** What [parse_qos] returns fits the field it is used for: -1, or a byte of
    the type of service whose two low bits, which belong to congestion
    notification, are clear; and both forms of the argument have their
    meaning: a name of the table, in any letter case, stands for its value, a
    decimal number up to 63 for the code point shifted into place. *)
Theorem parse_qos_codepoints :
  (∀ cp, parse_qos cp = -1 ∨ (0 ≤ parse_qos cp < 256 ∧ parse_qos cp mod 4 = 0)) ∧
  (∀ name value cp, (name, value) ∈ ipqos → map to_lower cp = name → parse_qos (Some cp) = value) ∧
  (∀ d, 0 ≤ d < 64 → parse_qos (Some (dec_Z d)) = 4 * d).
Proof.
  split_and!.
  - apply parse_qos_range.
  - intros name value cp Hin Hcp. unfold parse_qos.
    rewrite (qos_value_lower _ _ _ Hcp).
    assert (Forall (fun p => qos_value ipqos p.1 = Some p.2) ipqos) as Hall by decided.
    pose proof (proj1 (Forall_forall _ _) Hall _ Hin) as Hv. cbn [fst snd] in Hv. by rewrite Hv.
  - intros d Hd.
    assert (Forall (fun d => parse_qos (Some (dec_Z d)) = 4 * d) (seqZ 0 64)) as Hall by decided.
    apply (proj1 (Forall_forall _ _) Hall). apply elem_of_seqZ. lia.
Qed.

(** [iptos2str] names a code point of the table by a name that [parse_qos]
    reads back, but only up to 64: every larger byte, sixteen entries of its
    own table among them, is called [cs0], the name of 0. *)
Theorem iptos2str_names :
  (∀ name value, (name, value) ∈ ipqos → value ≤ 64 → parse_qos (Some (iptos2str value)) = value) ∧
  (∀ iptos, 64 < iptos → iptos2str iptos = B "cs0") ∧
  length (List.filter (fun p => 64 <? p.2) ipqos) = 16%nat.
Proof.
  split_and!.
  - intros name value Hin.
    assert (Forall (fun p => p.2 ≤ 64 → parse_qos (Some (iptos2str p.2)) = p.2) ipqos) as Hall by decided.
    apply (proj1 (Forall_forall _ _) Hall _ Hin).
  - intros iptos Hi. unfold iptos2str. ztest. rewrite orb_true_r. reflexivity.
  - reflexivity.
Qed.
