(* ===== verification/Options.v ===== *)
(** * The command line ([iperf_parse_arguments] in [src/iperf_api.c])

    [getopt_long] is the C library's: its results are a list of options with
    their arguments.  [parse_case] is the switch on one of them, [parse_loop]
    the loop, [final_checks] what follows it.  The build is the one for Linux;
    SCTP and MsQuic are optional. *)

From S2P Require Import Prelude Errno CInt CDouble CStdio CScan IperfTime Json Net Test Units Dscp.

(** ** Constants *)


Definition MAX_TCP_BUFFER : Z := 512 * (1024 * 1024).
Definition MAX_BLOCKSIZE : Z := 1024 * 1024.
Definition MIN_UDP_BLOCKSIZE : Z := 4 + 4 + 8.
Definition MAX_UDP_BLOCKSIZE : Z := 65535 - 8 - 20.
Definition MIN_INTERVAL : double := D_of_dec 1 (-1).
Definition MAX_INTERVAL_D : double := D_of_Z 60.
Definition MAX_TIME : Z := 86400.
Definition MAX_OMIT_TIME : Z := 600.
Definition MAX_BURST : Z := 1000.
Definition MAX_MSS : Z := 32 * 1024 - 1.
Definition MAX_STREAMS : Z := 128.
Definition MIN_NO_MSG_RCVD_TIMEOUT : Z := 100.
Definition DEFAULT_SCTP_BLKSIZE : Z := 64 * 1024.
Definition UDP_RATE : Z := 1024 * 1024.
Definition DEBUG_LEVEL_MAX : Z := 4.
Definition TIMESTAMP_FORMAT : bytes := B "%c ".

(** ** Options: the table [longopts] with the arguments it asks for *)

Inductive option_arg :=
| O_port (optarg : bytes)                (* -p *)
| O_format (optarg : option bytes)       (* -f *)
| O_interval (optarg : bytes)            (* -i *)
| O_daemon | O_one_off | O_verbose | O_json | O_json_stream | O_json_stream_full_output
| O_version                              (* -v *)
| O_server                               (* -s *)
| O_client (optarg : bytes)              (* -c *)
| O_udp                                  (* -u *)
| O_quic
| O_quic_cert (optarg : bytes) | O_quic_key (optarg : bytes) | O_quic_key_password (optarg : bytes)
| O_quic_p12 (optarg : bytes) | O_quic_p12_password (optarg : bytes)
| O_quic_port (optarg : bytes) | O_quic_buf (optarg : bytes)
| O_sctp
| O_nstreams (optarg : bytes)
| O_bitrate (optarg : bytes)             (* -b *)
| O_server_bitrate_limit (optarg : bytes)
| O_server_max_duration (optarg : bytes)
| O_time (optarg : bytes)                (* -t *)
| O_bytes (optarg : bytes)               (* -n *)
| O_blockcount (optarg : bytes)          (* -k *)
| O_length (optarg : bytes)              (* -l *)
| O_parallel (optarg : bytes)            (* -P *)
| O_reverse                              (* -R *)
| O_bidir
| O_window (optarg : bytes)              (* -w *)
| O_bind (optarg : bytes)                (* -B *)
| O_bind_dev (optarg : bytes)
| O_cport (optarg : bytes)
| O_set_mss (optarg : bytes)             (* -M *)
| O_no_delay                             (* -N *)
| O_version4 | O_version6
| O_tos (optarg : bytes)                 (* -S *)
| O_dscp (optarg : bytes)
| O_extra_data (optarg : bytes)
| O_flowlabel (optarg : bytes)           (* -L *)
| O_xbind (optarg : bytes)               (* -X *)
| O_zerocopy                             (* -Z *)
| O_repeating_payload
| O_timestamps (optarg : option bytes)
| O_omit (optarg : bytes)                (* -O *)
| O_file (optarg : bytes)                (* -F *)
| O_idle_timeout (optarg : bytes)
| O_rcv_timeout (optarg : bytes)
| O_snd_timeout (optarg : bytes)
| O_cntl_ka (optarg : option bytes)
| O_affinity (optarg : bytes)            (* -A *)
| O_title (optarg : bytes)               (* -T *)
| O_congestion (optarg : bytes)          (* -C *)
| O_debug (optarg : option bytes)        (* -d *)
| O_pidfile (optarg : bytes)             (* -I *)
| O_logfile (optarg : bytes)
| O_forceflush
| O_get_server_output
| O_udp_counters_64bit
| O_no_fq_socket_pacing
| O_fq_rate (optarg : bytes)
| O_dont_fragment
| O_username (optarg : bytes)
| O_rsa_public_key_path (optarg : bytes)
| O_rsa_private_key_path (optarg : bytes)
| O_authorized_users_path (optarg : bytes)
| O_time_skew_threshold (optarg : bytes)
| O_use_pkcs1_padding
| O_skip_rx_copy
| O_pacing_timer (optarg : bytes)
| O_connect_timeout (optarg : bytes)
| O_mptcp                                (* -m *)
| O_help                                 (* -h *)
| O_unknown.                             (* '?' *)

(** ** The state of the parser: the test and the local variables *)

Record parser := mk_parser {
  ps_test : iperf_test;
  blksize_arg : Z;
  server_flag : bool;
  client_flag : bool;
  rate_flag : bool;
  duration_flag : bool;
  rcv_timeout_flag : bool;
  arg_username : option bytes;
  arg_public_key : option bytes;
  arg_private_key : option bytes
}.
#[export] Instance eta_parser : Settable parser := fun r =>
  mk_parser (ps_test r) (blksize_arg r) (server_flag r) (client_flag r) (rate_flag r) (duration_flag r)
    (rcv_timeout_flag r) (arg_username r) (arg_public_key r) (arg_private_key r).

(** Go on, [return -1], or [exit]. *)
Inductive verdict :=
| Go (p : parser)
| Refuse (t : iperf_test)
| Exit (status : Z).

Definition on_test (f : iperf_test → iperf_test) (p : parser) : parser := p <| ps_test ::= f |>.
Definition setting (f : iperf_settings → iperf_settings) : parser → parser := on_test (on_settings f).
Definition cmd (f : iperf_cmdline → iperf_cmdline) : parser → parser := on_test (on_cmdline f).
Definition client (p : parser) : parser := p <| client_flag := true |>.
Definition server (p : parser) : parser := p <| server_flag := true |>.

Definition go (p : parser) : outcome verdict := Ok (Go p).
Definition refuse (e : Z) (p : parser) : outcome verdict := Ok (Refuse ((ps_test p) <| i_errno := e |>)).
Definition refuse_if (b : bool) (e : Z) (p : parser) (k : parser → outcome verdict) : outcome verdict :=
  if b then refuse e p else k p.

(** [if (i_errno != 0) return -1;] after a number with a unit was assigned. *)
Definition if_no_errno (e : option Z) (p : parser) (k : parser → outcome verdict) : outcome verdict :=
  let p := match e with Some e => on_test (fun t => t <| i_errno := e |>) p | None => p end in
  if i_errno (ps_test p) =? 0 then k p else Ok (Refuse (ps_test p)).

(** What the parser asks of the system: the length of a file, the environment,
    the terminal, the keys of OpenSSL, the default certificate of QUIC. *)
Record host := mk_host {
  have_sctp : bool;
  have_msquic : bool;
  is_link_local : bytes → bool;            (* inet_pton and IN6_IS_ADDR_LINKLOCAL *)
  file_size : bytes → option Z;            (* stat *)
  can_read : bytes → bool;                 (* fopen *)
  password : option bytes;                 (* IPERF3_PASSWORD, or the one typed in *)
  pubkey_loads : bytes → bool;
  load_pubkey : bytes → option bytes;
  load_privkey : bytes → option bytes;
  default_quic_p12 : bool
}.

Definition has_sendfile : bool := true.

(** ** One option *)

(** [strtok(spec, c)]: the first token and the rest. *)
Fixpoint skip_char (c : ascii) (l : bytes) : bytes :=
  match l with x :: l' => if decide (x = c) then skip_char c l' else l | [] => [] end.

Definition strtok (c : ascii) (l : bytes) : option (bytes * bytes) :=
  match split_at c (skip_char c l) with
  | ([], _) => None
  | (token, rest) => Some (token, default [] rest)
  end.

(** [iperf_parse_hostname]: the address and the device of [addr%dev]. *)
Definition iperf_parse_hostname (h : host) (spec : bytes) : option (bytes * bytes) :=
  match strtok "%" spec with
  | Some (p, rest) =>
      match strtok "%" rest with
      | Some (p1, _) => if is_link_local h p then None else Some (p, p1)
      | None => None
      end
  | None => None
  end.

Definition port_ok (portno : Z) : bool := negb ((portno <? 1) || (65535 <? portno)).

Definition parse_port (optarg : bytes) (p : parser) : outcome verdict :=
  let portno := atoi optarg in
  refuse_if (negb (port_ok portno)) IEBADPORT p (fun p => go (on_test (fun t => t <| server_port := portno |>) p)).

Definition parse_cport (optarg : bytes) (p : parser) : outcome verdict :=
  let portno := atoi optarg in
  refuse_if (negb (port_ok portno)) IEBADPORT p (fun p => go (on_test (fun t => t <| bind_port := portno |>) p)).

Definition parse_format (optarg : option bytes) (p : parser) : outcome verdict :=
  match optarg with
  | None => refuse IEBADFORMAT p
  | Some s =>
      let c := default NUL (head s) in
      let p := setting (fun x => x <| unit_format := c |>) p in
      refuse_if (negb (bool_decide (c ∈ ["k"; "K"; "m"; "M"; "g"; "G"; "t"; "T"]%char))) IEBADFORMAT p go
  end.

Definition interval_ok (d : double) : bool := negb (Dltb d MIN_INTERVAL || Dltb MAX_INTERVAL_D d) || Deqb d D0.

Definition parse_interval (optarg : bytes) (p : parser) : outcome verdict :=
  let d := atof optarg in
  let p := on_test (fun t => t <| reporter_interval := d |> <| stats_interval := d |>) p in
  refuse_if (negb (interval_ok d)) IEINTERVAL p go.

(** [-s], [-c], [-R] and [--bidir] with their checks ([Test.v]). *)
Definition parse_dir (o : dir_option) (p : parser) (k : parser → outcome verdict) : outcome verdict :=
  let '(r, t) := parse_option (ps_test p) o in
  if r <? 0 then Ok (Refuse t) else k (p <| ps_test := t |>).

Definition parse_client (h : host) (optarg : bytes) (p : parser) : outcome verdict :=
  parse_dir Opt_c p (fun p =>
    let p := cmd (fun c => c <| server_hostname := Some optarg |>) p in
    match iperf_parse_hostname h optarg with
    | Some (host, dev) => go (cmd (fun c => c <| server_hostname := Some host |> <| bind_dev := Some dev |>) p)
    | None => go p
    end).

Definition parse_bind (h : host) (optarg : bytes) (p : parser) : outcome verdict :=
  let p := cmd (fun c => c <| bind_address := Some optarg |>) p in
  match iperf_parse_hostname h optarg with
  | Some (host, dev) => go (cmd (fun c => c <| bind_address := Some host |> <| bind_dev := Some dev |>) p)
  | None => go p
  end.

Definition choose_protocol (id : Z) (p : parser) : parser := on_test (fun t => snd (set_protocol t id)) p.

Definition nonempty (s : bytes) : option bytes := match s with [] => None | _ => Some s end.

(** The options of QUIC. *)
Definition parse_quic (o : option_arg) (p : parser) : outcome verdict :=
  match o with
  | O_quic => go (choose_protocol Pquic p)
  | O_quic_cert a => go (server (cmd (fun c => c <| quic_cert_file := Some a |>) p))
  | O_quic_key a => go (server (cmd (fun c => c <| quic_key_file := Some a |>) p))
  | O_quic_key_password a => go (server (cmd (fun c => c <| quic_key_password := nonempty a |>) p))
  | O_quic_p12 a => go (server (cmd (fun c => c <| quic_p12_file := Some a |>) p))
  | O_quic_p12_password a => go (server (cmd (fun c => c <| quic_p12_password := nonempty a |>) p))
  | O_quic_port a =>
      let v := atoi a in
      let p := on_test (fun t => t <| quic_port := v |>) p in
      refuse_if ((v <=? 0) || (65535 <? v)) IEBADPORT p go
  | O_quic_buf a =>
      let v := u32 (strtoul 10 a) in
      let p := cmd (fun c => c <| quic_buf_size := v |>) p in
      refuse_if (v =? 0) IEBUFSIZE p go
  | _ => go p
  end.

(** A size of the command line, a 64-bit number or an [int] made of it. *)
Definition parse_size (optarg : bytes) (set : Z → parser → parser) (p : parser) (k : parser → outcome verdict)
  : outcome verdict :=
  '(e, z) ← unit_atoi optarg; if_no_errno e (set z p) k.

Definition parse_rate (optarg : bytes) (set : Z → parser → parser) (p : parser) (k : parser → outcome verdict)
  : outcome verdict :=
  let '(e, d) := unit_atof_rate optarg in
  z ← to_size d; if_no_errno e (set z p) k.

Definition parse_bitrate (optarg : bytes) (p : parser) : outcome verdict :=
  let '(optarg, slash) := split_at "/" optarg in
  let rest p :=
    parse_rate optarg (fun z => setting (fun x => x <| rate := z |>)) p (fun p =>
      go (client (p <| rate_flag := true |>))) in
  match slash with
  | Some s =>
      let b := atoi s in
      let p := setting (fun x => x <| burst := b |>) p in
      refuse_if ((b <=? 0) || (MAX_BURST <? b)) IEBURST p rest
  | None => rest p
  end.

(** [--nstreams]; there is no [break] in front of [case 'b']. *)
Definition parse_nstreams (optarg : bytes) (p : parser) : outcome verdict :=
  parse_size optarg (fun z => cmd (fun c => c <| num_ostreams := i32 z |>)) p (fun p =>
    parse_bitrate optarg (client p)).

Definition parse_bitrate_limit (optarg : bytes) (p : parser) : outcome verdict :=
  let '(optarg, slash) := split_at "/" optarg in
  let rest p :=
    parse_rate optarg (fun z => setting (fun x => x <| bitrate_limit := z |>)) p (fun p => go (server p)) in
  match slash with
  | Some s =>
      let d := atof s in
      let p := setting (fun x => x <| bitrate_limit_interval := d |>) p in
      refuse_if (negb (interval_ok d)) IETOTALINTERVAL p rest
  | None => rest p
  end.

Definition parse_time (optarg : bytes) (p : parser) : outcome verdict :=
  let d := atoi optarg in
  let p := on_test (fun t => t <| duration := d |>) p in
  refuse_if ((MAX_TIME <? d) || (d <? 0)) IEDURATION p (fun p => go (client (p <| duration_flag := true |>))).

Definition parse_parallel (optarg : bytes) (p : parser) : outcome verdict :=
  let n := atoi optarg in
  let p := on_test (fun t => t <| num_streams := n |>) p in
  refuse_if (MAX_STREAMS <? n) IENUMSTREAMS p (fun p => go (client p)).

Definition parse_window (optarg : bytes) (p : parser) : outcome verdict :=
  let '(e, farg) := unit_atof optarg in
  if_no_errno e p (fun p =>
    refuse_if (Dltb (D_of_Z MAX_TCP_BUFFER) farg) IEBUFSIZE p (fun p =>
      match D_to_s 32 farg with
      | Some z => go (client (setting (fun x => x <| socket_bufsize := z |>) p))
      | None => Undef
      end)).

Definition parse_mss (optarg : bytes) (p : parser) : outcome verdict :=
  let v := atoi optarg in
  let p := setting (fun x => x <| mss := v |>) p in
  refuse_if (MAX_MSS <? v) IEMSS p (fun p => go (client p)).

Definition parse_tos (optarg : bytes) (p : parser) : outcome verdict :=
  let '(v, endptr) := strtol 0 optarg in
  let p := setting (fun x => x <| tos := i32 v |>) p in
  refuse_if (bool_decide (endptr = optarg) || (i32 v <? 0) || (255 <? i32 v)) IEBADTOS p (fun p => go (client p)).

Definition parse_dscp (optarg : bytes) (p : parser) : outcome verdict :=
  let v := parse_qos (Some optarg) in
  let p := setting (fun x => x <| tos := v |>) p in
  refuse_if (v <? 0) IEBADTOS p (fun p => go (client p)).

Definition parse_flowlabel (optarg : bytes) (p : parser) : outcome verdict :=
  let '(v, endptr) := strtol 0 optarg in
  let p := setting (fun x => x <| flowlabel := i32 v |>) p in
  refuse_if (bool_decide (endptr = optarg) || (i32 v <? 1) || (0xfffff <? i32 v)) IESETFLOW p (fun p => go (client p)).

Definition parse_omit (optarg : bytes) (p : parser) : outcome verdict :=
  let v := atoi optarg in
  let p := on_test (fun t => t <| omit := v |>) p in
  refuse_if ((v <? 0) || (MAX_OMIT_TIME <? v)) IEOMIT p (fun p => go (client p)).

Definition parse_idle_timeout (optarg : bytes) (p : parser) : outcome verdict :=
  let v := atoi optarg in
  let p := setting (fun x => x <| idle_timeout := v |>) p in
  refuse_if ((v <? 1) || (MAX_TIME <? v)) IEIDLETIMEOUT p (fun p => go (server p)).

Definition parse_server_max_duration (optarg : bytes) (p : parser) : outcome verdict :=
  let v := atoi optarg in
  let p := on_test (fun t => t <| max_server_duration := v |>) p in
  refuse_if ((v <? 0) || (MAX_TIME <? v)) IEDURATION p (fun p => go (server p)).

Definition parse_rcv_timeout (optarg : bytes) (p : parser) : outcome verdict :=
  let v := atoi optarg in
  refuse_if ((v <? MIN_NO_MSG_RCVD_TIMEOUT) || (MAX_TIME * SEC_TO_mS <? v)) IERCVTIMEOUT p (fun p =>
    go (setting (fun x => x <| rcv_timeout := mk_time (v / SEC_TO_mS) (v mod SEC_TO_mS * mS_TO_US) |>) p
        <| rcv_timeout_flag := true |>)).

Definition parse_snd_timeout (optarg : bytes) (p : parser) : outcome verdict :=
  let v := u32 (atoi optarg) in
  let p := setting (fun x => x <| snd_timeout := v |>) p in
  refuse_if (MAX_TIME * SEC_TO_mS <? v) IESNDTIMEOUT p go.

(** [--cntl-ka=keepidle/interval/count]; an empty part leaves its value. *)
Definition part (s : bytes) (old : Z) : Z := match s with [] => old | _ => atoi s end.

Definition parse_cntl_ka (optarg : option bytes) (p : parser) : outcome verdict :=
  let p := cmd (fun c => c <| cntl_ka := 1 |>) p in
  let p :=
    match optarg with
    | None => p
    | Some s =>
        let '(idle, rest) := split_at "/" s in
        let '(interval, count) := split_at "/" (default [] rest) in
        cmd (fun c => c <| cntl_ka_count := part (default [] count) (cntl_ka_count c) |>
                        <| cntl_ka_interval := part interval (cntl_ka_interval c) |>
                        <| cntl_ka_keepidle := part idle (cntl_ka_keepidle c) |>) p
    end in
  let c := cmdline (ps_test p) in
  refuse_if (negb (cntl_ka_keepidle c =? 0) &&
             (cntl_ka_keepidle c <=? i32 (cntl_ka_count c * cntl_ka_interval c))) IECNTLKA p go.

Definition affinity_ok (v : Z) : bool := negb ((v <? 0) || (1024 <? v)).

Definition parse_affinity (optarg : bytes) (p : parser) : outcome verdict :=
  let '(v, endptr) := strtol 0 optarg in
  let p := on_test (fun t => t <| affinity := i32 v |>) p in
  refuse_if (bool_decide (endptr = optarg) || negb (affinity_ok (i32 v))) IEAFFINITY p (fun p =>
    match (split_at "," optarg).2 with
    | None => go p
    | Some s =>
        let w := atoi s in
        let p := on_test (fun t => t <| server_affinity := w |>) p in
        refuse_if (negb (affinity_ok w)) IEAFFINITY p (fun p => go (client p))
    end).

(** [debug_level] is an enumeration without negative members, hence unsigned. *)
Definition parse_debug (optarg : option bytes) (p : parser) : outcome verdict :=
  let p := on_test (fun t => t <| debug := 1 |>) p in
  let level := match optarg with
               | None => DEBUG_LEVEL_MAX
               | Some s => let v := u32 (atoi s) in if v <? 0 then DEBUG_LEVEL_MAX else v
               end in
  go (cmd (fun c => c <| debug_level := level |>) p).

Definition parse_skew (optarg : bytes) (p : parser) : outcome verdict :=
  let v := atoi optarg in
  let p := on_test (fun t => t <| server_skew_threshold := v |>) p in
  refuse_if (v <=? 0) IESKEWTHRESHOLD p (fun p => go (server p)).

Definition parse_timestamps (optarg : option bytes) (p : parser) : outcome verdict :=
  go (cmd (fun c => c <| timestamps := 1 |> <| timestamp_format := Some (default TIMESTAMP_FORMAT optarg) |>) p).

(** Groups of options that stand next to each other in the switch. *)

Definition parse_general (o : option_arg) (p : parser) : outcome verdict :=
  match o with
  | O_daemon => go (server (cmd (fun c => c <| daemon := 1 |>) p))
  | O_one_off => go (server (on_test (fun t => t <| one_off := 1 |>) p))
  | O_verbose => go (cmd (fun c => c <| verbose := 1 |>) p)
  | O_json => go (on_test (fun t => t <| json_output := 1 |>) p)
  | O_json_stream => go (cmd (fun c => c <| json_stream := 1 |>) (on_test (fun t => t <| json_output := 1 |>) p))
  | O_json_stream_full_output => go (cmd (fun c => c <| json_stream_full_output := 1 |>) p)
  | O_version => Ok (Exit 0)
  | O_server => parse_dir Opt_s p go
  | _ => go p
  end.

Definition parse_amount (o : option_arg) (p : parser) : outcome verdict :=
  match o with
  | O_bytes a => parse_size a (fun z => setting (fun x => x <| bytes_limit := z |>)) p (fun p => go (client p))
  | O_blockcount a => parse_size a (fun z => setting (fun x => x <| blocks_limit := z |>)) p (fun p => go (client p))
  | O_length a => parse_size a (fun z p => p <| blksize_arg := i32 z |>) p (fun p => go (client p))
  | _ => go p
  end.

Definition parse_payload (o : option_arg) (p : parser) : outcome verdict :=
  match o with
  | O_xbind a => go (cmd (fun c => c <| xbind_addrs ::= (fun l => l ++ [a]) |>) p)
  | O_zerocopy =>
      refuse_if (negb has_sendfile) IENOSENDFILE p (fun p => go (client (on_test (fun t => t <| zerocopy := 1 |>) p)))
  | O_repeating_payload => go (client (on_test (fun t => t <| repeating_payload := 1 |>) p))
  | _ => go p
  end.

Definition parse_output (o : option_arg) (p : parser) : outcome verdict :=
  match o with
  | O_pidfile a => go (cmd (fun c => c <| pidfile := Some a |>) p)
  | O_logfile a => go (cmd (fun c => c <| logfile := Some a |>) p)
  | O_forceflush => go (cmd (fun c => c <| forceflush := 1 |>) p)
  | O_get_server_output => go (client (on_test (fun t => t <| get_server_output := 1 |>) p))
  | O_udp_counters_64bit => go (client (on_test (fun t => t <| udp_counters_64bit := 1 |>) p))
  | O_no_fq_socket_pacing => go (client (setting (fun x => x <| fqrate := 0 |>) p))
  | O_fq_rate a => parse_rate a (fun z => setting (fun x => x <| fqrate := z |>)) p (fun p => go (client p))
  | O_dont_fragment => go (client (setting (fun x => x <| dont_fragment := 1 |>) p))
  | _ => go p
  end.

Definition parse_auth (o : option_arg) (p : parser) : outcome verdict :=
  match o with
  | O_username a => go (client (p <| arg_username := Some a |>))
  | O_rsa_public_key_path a => go (client (p <| arg_public_key := Some a |>))
  | O_rsa_private_key_path a => go (server (p <| arg_private_key := Some a |>))
  | O_authorized_users_path a => go (on_test (fun t => t <| server_authorized_users := Some a |>) p)
  | O_time_skew_threshold a => parse_skew a p
  | O_use_pkcs1_padding => go (server (cmd (fun c => c <| use_pkcs1_padding := 1 |>) p))
  | _ => go p
  end.

Definition parse_last (o : option_arg) (p : parser) : outcome verdict :=
  match o with
  | O_skip_rx_copy => go (client (setting (fun x => x <| skip_rx_copy := 1 |>) p))
  | O_pacing_timer a => parse_size a (fun z => setting (fun x => x <| pacing_timer := i32 z |>)) p (fun p => go (client p))
  | O_connect_timeout a =>
      parse_size a (fun z => setting (fun x => x <| connect_timeout := i32 z |>)) p (fun p => go (client p))
  | O_mptcp => go (on_test (fun t => t <| mptcp := 1 |>) (choose_protocol Ptcp p))
  | O_help => Ok (Exit 0)
  | O_unknown => Ok (Exit 1)
  | _ => go p
  end.

Section Parser.
Context (h : host).

(** The switch of [iperf_parse_arguments]. *)
Definition parse_case (o : option_arg) (p : parser) : outcome verdict :=
  match o with
  | O_port a => parse_port a p
  | O_format a => parse_format a p
  | O_interval a => parse_interval a p
  | O_daemon | O_one_off | O_verbose | O_json | O_json_stream | O_json_stream_full_output
  | O_version | O_server => parse_general o p
  | O_client a => parse_client h a p
  | O_udp => go (client (choose_protocol Pudp p))
  | O_quic | O_quic_cert _ | O_quic_key _ | O_quic_key_password _ | O_quic_p12 _
  | O_quic_p12_password _ | O_quic_port _ | O_quic_buf _ =>
      if have_msquic h then parse_quic o p else refuse IEUNIMP p
  | O_sctp => if have_sctp h then go (client (choose_protocol Psctp p)) else refuse IEUNIMP p
  | O_nstreams a => parse_nstreams a p
  | O_bitrate a => parse_bitrate a p
  | O_server_bitrate_limit a => parse_bitrate_limit a p
  | O_time a => parse_time a p
  | O_bytes _ | O_blockcount _ | O_length _ => parse_amount o p
  | O_parallel a => parse_parallel a p
  | O_reverse => parse_dir Opt_R p (fun p => go (client p))
  | O_bidir => parse_dir Opt_bidir p (fun p => go (client p))
  | O_window a => parse_window a p
  | O_bind a => parse_bind h a p
  | O_bind_dev a => go (cmd (fun c => c <| bind_dev := Some a |>) p)
  | O_cport a => parse_cport a p
  | O_set_mss a => parse_mss a p
  | O_no_delay => go (client (on_test (fun t => t <| no_delay := 1 |>) p))
  | O_version4 => go (cmd (fun c => c <| domain := AF_INET |>) p)
  | O_version6 => go (cmd (fun c => c <| domain := AF_INET6 |>) p)
  | O_tos a => parse_tos a p
  | O_dscp a => parse_dscp a p
  | O_extra_data a => go (client (on_test (fun t => t <| extra_data := Some a |>) p))
  | O_flowlabel a => parse_flowlabel a p
  | O_xbind _ | O_zerocopy | O_repeating_payload => parse_payload o p
  | O_timestamps a => parse_timestamps a p
  | O_omit a => parse_omit a p
  | O_file a => go (on_test (fun t => t <| diskfile_name := Some a |>) p)
  | O_idle_timeout a => parse_idle_timeout a p
  | O_server_max_duration a => parse_server_max_duration a p
  | O_rcv_timeout a => parse_rcv_timeout a p
  | O_snd_timeout a => parse_snd_timeout a p
  | O_cntl_ka a => parse_cntl_ka a p
  | O_affinity a => parse_affinity a p
  | O_title a => go (client (on_test (fun t => t <| title := Some a |>) p))
  | O_congestion a => go (client (on_test (fun t => t <| congestion := Some a |>) p))
  | O_debug a => parse_debug a p
  | O_pidfile _ | O_logfile _ | O_forceflush | O_get_server_output | O_udp_counters_64bit
  | O_no_fq_socket_pacing | O_fq_rate _ | O_dont_fragment => parse_output o p
  | O_username _ | O_rsa_public_key_path _ | O_rsa_private_key_path _ | O_authorized_users_path _
  | O_time_skew_threshold _ | O_use_pkcs1_padding => parse_auth o p
  | O_skip_rx_copy | O_pacing_timer _ | O_connect_timeout _ | O_mptcp | O_help | O_unknown => parse_last o p
  end.

Fixpoint parse_loop (l : list option_arg) (p : parser) : outcome verdict :=
  match l with
  | [] => go p
  | o :: l' => v ← parse_case o p; match v with Go p => parse_loop l' p | _ => Ok v end
  end.

(** ** The checks behind the loop *)

Definition is_client (p : parser) : bool := bool_decide (role (ps_test p) = "c"%char).
Definition is_server (p : parser) : bool := bool_decide (role (ps_test p) = "s"%char).
Definition given {A} (o : option A) : bool := bool_decide (is_Some o).

Definition check_roles (p : parser) (k : parser → outcome verdict) : outcome verdict :=
  refuse_if (is_client p && server_flag p) IESERVERONLY p (fun p =>
  refuse_if (is_server p && client_flag p) IECLIENTONLY p k).

Definition quic_defaults (p : parser) (k : parser → outcome verdict) : outcome verdict :=
  if protocol (ps_test p) =? Pquic then
    let p :=
      if quic_port (ps_test p) =? 0 then
        let qp := i32 (server_port (ps_test p) + 1) in
        on_test (fun t => t <| quic_port := if (0 <? qp) && (qp <=? 65535) then qp else server_port t |>) p
      else p in
    let c := cmdline (ps_test p) in
    if is_server p && negb (given (quic_p12_file c) || given (quic_cert_file c) || given (quic_key_file c)) then
      let p := cmd (fun c => c <| quic_p12_file := Some (B "/tmp/iperf_quic.p12") |> <| quic_p12_password := None |>) p in
      if default_quic_p12 h then k p else refuse IEQUICCERT p
    else k p
  else k p.

(** The credentials of a client. *)
Definition client_auth (p : parser) (k : parser → outcome verdict) : outcome verdict :=
  let some := given (arg_username p) || given (arg_public_key p) in
  if is_server p && some then refuse IECLIENTONLY p
  else if is_client p && some then
    match arg_username p, arg_public_key p with
    | Some user, Some key =>
        match pubkey_loads h key, password h with
        | true, Some pw =>
            k (setting (fun x => x <| client_username := Some user |> <| client_password := Some pw |>
                                   <| client_rsa_pubkey := load_pubkey h key |>) p)
        | _, _ => refuse IESETCLIENTAUTH p
        end
    | _, _ => refuse IESETCLIENTAUTH p
    end
  else k p.

(** What only a server, or only a reversed client, may have. *)
Definition server_auth (p : parser) (k : parser → outcome verdict) : outcome verdict :=
  let t := ps_test p in
  let key := given (arg_private_key p) in
  let users := given (server_authorized_users t) in
  if is_client p && (key || users) then refuse IESERVERONLY p
  else if is_client p && negb (server_skew_threshold t =? 0) then refuse IESERVERONLY p
  else if is_client p && rcv_timeout_flag p && (mode t =? SENDER) then refuse IERVRSONLYRCVTIMEOUT p
  else if is_server p && (key || users) && negb (key && users) then refuse IESETSERVERAUTH p
  else k p.

(** The files of a server that authenticates. *)
Definition server_keys (p : parser) (k : parser → outcome verdict) : outcome verdict :=
  let unreadable := match server_authorized_users (ps_test p) with Some f => negb (can_read h f) | None => false end in
  if is_server p && unreadable then refuse IESERVERAUTHUSERS p
  else
    match arg_private_key p with
    | Some key =>
        if is_server p then
          let p := on_test (fun t => t <| server_rsa_private_key := load_privkey h key |>) p in
          if given (server_rsa_private_key (ps_test p)) then
            k (on_test (fun t => if server_skew_threshold t =? 0 then t <| server_skew_threshold := 10 |> else t) p)
          else refuse IESETSERVERAUTH p
        else k p
    | None => k p
    end.

Definition check_blksize (p : parser) (k : parser → outcome verdict) : outcome verdict :=
  let proto := protocol (ps_test p) in
  let size :=
    if blksize_arg p =? 0 then
      if proto =? Pudp then 0 else if proto =? Psctp then DEFAULT_SCTP_BLKSIZE else DEFAULT_TCP_BLKSIZE
    else blksize_arg p in
  refuse_if ((negb (proto =? Pudp) && (size <=? 0)) || (MAX_BLOCKSIZE <? size)) IEBLOCKSIZE p (fun p =>
  refuse_if ((proto =? Pudp) && (0 <? size) && ((size <? MIN_UDP_BLOCKSIZE) || (MAX_UDP_BLOCKSIZE <? size)))
    IEUDPBLOCKSIZE p (fun p => k (setting (fun x => x <| blksize := size |>) p))).

Definition default_rate (p : parser) : parser :=
  if rate_flag p then p
  else setting (fun x => x <| rate := if protocol (ps_test p) =? Pudp then UDP_RATE else 0 |>) p.

(** With a file and no end condition, the length of the file. *)
Definition file_end (p : parser) : parser :=
  let t := ps_test p in
  if (bytes_limit (settings t) =? 0) && (blocks_limit (settings t) =? 0) && negb (duration_flag p) && is_client p then
    match diskfile_name t with
    | Some f => match file_size h f with
                | Some n => setting (fun x => x <| bytes_limit := u64 n |>) p
                | None => p
                end
    | None => p
    end
  else p.

Definition check_end (p : parser) (k : parser → outcome verdict) : outcome verdict :=
  let st := settings (ps_test p) in
  let some_bytes := negb (bytes_limit st =? 0) in
  let some_blocks := negb (blocks_limit st =? 0) in
  let p := if (some_bytes || some_blocks) && negb (duration_flag p) then on_test (fun t => t <| duration := 0 |>) p else p in
  refuse_if ((duration_flag p && some_bytes) || (duration_flag p && some_blocks) || (some_bytes && some_blocks)) IEENDCONDITIONS p k.

(** [round], half away from zero. *)
Definition D_round (d : double) : option Z :=
  match d with
  | S754_zero _ => Some 0
  | S754_finite s m e =>
      let z := if 0 <=? e then Z.shiftl (Zpos m) e
               else (2 * Zpos m + 2 ^ (- e)) / (2 * 2 ^ (- e)) in
      Some (if s then - z else z)
  | _ => None
  end.

Definition limit_periods (p : parser) : outcome parser :=
  let st := settings (ps_test p) in
  let every := bitrate_limit_interval st in
  if Deqb every D0 then Ok p
  else
    let n := if Dleb every (stats_interval (ps_test p)) then Some 1
             else D_round (Ddiv every (stats_interval (ps_test p))) in
    match n with
    | Some z => if decide (in_s 32 z)
                then Ok (setting (fun x => x <| bitrate_limit_stats_per_interval := z |>) p) else Undef
    | None => Undef
    end.

Definition final_checks (p : parser) : outcome verdict :=
  check_roles p (fun p =>
  quic_defaults p (fun p =>
  client_auth p (fun p =>
  server_auth p (fun p =>
  server_keys p (fun p =>
  refuse_if (given (diskfile_name (ps_test p)) && (protocol (ps_test p) =? Pudp)) IEUDPFILETRANSFER p (fun p =>
  check_blksize p (fun p =>
  check_end (file_end (default_rate p)) (fun p =>
  refuse_if (negb (is_client p) && negb (is_server p)) IENOROLE p (fun p =>
  p ← limit_periods p; go p))))))))).

Definition iperf_parse_arguments (test : iperf_test) (l : list option_arg) : outcome verdict :=
  v ← parse_loop l (mk_parser test 0 false false false false false None None None);
  match v with Go p => final_checks p | _ => Ok v end.
End Parser.
