(* ===== verification/CommandLine.v ===== *)
(** * What an accepted command line is like

    The options of [Options.v] keep the bounds of the fields they set and the
    agreement of role, direction and mode; the final checks establish the rest.
    Also the places where the parser does not do what its comments or the
    manual say. *)

From S2P Require Import Prelude Errno CInt CDouble CStdio CScan IperfTime Json Net Test Units Dscp Options.

(** ** What the options maintain *)

(** The fields the options bound. *)
Record view := mk_view {
  v_role : ascii; v_mode : Z; v_reverse : Z; v_bidirectional : Z;
  v_server_port : Z; v_bind_port : Z; v_duration : Z; v_num_streams : Z; v_omit : Z;
  v_tos : Z; v_burst : Z; v_mss : Z; v_flowlabel : Z
}.

Definition view_of (t : iperf_test) : view :=
  mk_view (role t) (mode t) (reverse t) (bidirectional t) (server_port t) (bind_port t) (duration t)
    (num_streams t) (omit t) (tos (settings t)) (burst (settings t)) (mss (settings t)) (flowlabel (settings t)).

Definition bounded (v : view) : Prop :=
  1 ≤ v_server_port v ≤ 65535 ∧ 0 ≤ v_bind_port v ≤ 65535 ∧ 0 ≤ v_duration v ≤ MAX_TIME ∧
  v_num_streams v ≤ MAX_STREAMS ∧ 0 ≤ v_omit v ≤ MAX_OMIT_TIME ∧ 0 ≤ v_tos v ≤ 255 ∧
  0 ≤ v_burst v ≤ MAX_BURST ∧ v_mss v ≤ MAX_MSS ∧ 0 ≤ v_flowlabel v ≤ 0xfffff.

Definition options_ok (t : iperf_test) : Prop := dirs_ok t ∧ bounded (view_of t).

Lemma options_ok_view t t' : view_of t' = view_of t → options_ok t → options_ok t'.
Proof.
  intros Hv [Hd Hb]. split; [|by rewrite Hv].
  unfold view_of in Hv. injection Hv as Hr Hm Hre Hbi _ _ _ _ _ _ _ _ _.
  unfold dirs_ok, mode_ok in *. by rewrite Hr, Hm, Hre, Hbi.
Qed.

(** [m] only goes on with a parser for which [J] holds. *)
Definition gives (J : parser → Prop) (m : outcome verdict) : Prop := ∀ p, m = Ok (Go p) → J p.

Section Gives.
Context (J : parser → Prop).

Lemma gives_go p : J p → gives J (go p).
Proof. by intros Hp p' [= <-]. Qed.
Lemma gives_refuse e p : gives J (refuse e p).
Proof. by intros p' [=]. Qed.
Lemma gives_stop t : gives J (Ok (Refuse t)).
Proof. by intros p' [=]. Qed.
Lemma gives_exit n : gives J (Ok (Exit n)).
Proof. by intros p' [=]. Qed.
Lemma gives_undef : gives J Undef.
Proof. by intros p' [=]. Qed.
Lemma gives_refuse_if b e p k : (b = false → gives J (k p)) → gives J (refuse_if b e p k).
Proof. intros Hk. unfold refuse_if. destruct b; [apply gives_refuse|by apply Hk]. Qed.
Lemma gives_if_no_errno e p k :
  (∀ e', gives J (k (on_test (fun t => t <| i_errno := e' |>) p))) → gives J (k p) →
  gives J (if_no_errno e p k).
Proof. intros He Hp. unfold if_no_errno. destruct e; cbv zeta; case_goal; auto using gives_stop. Qed.
Lemma gives_bind {A} (m : outcome A) f : (∀ a, m = Ok a → gives J (f a)) → gives J (m ≫= f).
Proof. intros Hf. destruct m; cbn; [by apply Hf|by intros p' [=]..]. Qed.
End Gives.

Definition parser_ok (p : parser) : Prop := options_ok (ps_test p).

(** An update of a field that is not bounded. *)
Lemma keep_view f p : view_of (f (ps_test p)) = view_of (ps_test p) → parser_ok p → parser_ok (on_test f p).
Proof. intros Hv Hp. by eapply options_ok_view. Qed.

Lemma keep_protocol id p : parser_ok p → parser_ok (choose_protocol id p).
Proof.
  apply keep_view. unfold set_protocol, check_sender_has_retransmits. by repeat case_goal.
Qed.

(** A bounded field gets a value within its bound. *)
Lemma keep_dirs f p :
  role (f (ps_test p)) = role (ps_test p) → mode (f (ps_test p)) = mode (ps_test p) →
  reverse (f (ps_test p)) = reverse (ps_test p) → bidirectional (f (ps_test p)) = bidirectional (ps_test p) →
  bounded (view_of (f (ps_test p))) → parser_ok p → parser_ok (on_test f p).
Proof.
  intros Hr Hm Hre Hbi Hb [Hd _]. split; [|done]. cbn. unfold dirs_ok, mode_ok in *.
  change (ps_test (on_test f p)) with (f (ps_test p)). by rewrite Hr, Hm, Hre, Hbi.
Qed.

Ltac keep_field :=
  lazymatch goal with
  | H : parser_ok ?p |- parser_ok (on_test _ ?p) => apply keep_dirs; [reflexivity..| |exact H]; destruct H as [_ H]
  end.

Lemma parser_ok_client p : parser_ok p → parser_ok (client p).
Proof. done. Qed.
Lemma parser_ok_server p : parser_ok p → parser_ok (server p).
Proof. done. Qed.

(** What the options of the direction leave alone. *)
Lemma parse_option_bounded t o t' : parse_option t o = (0, t') → bounded (view_of t) → bounded (view_of t').
Proof.
  intros E Hb.
  assert (server_port t' = server_port t ∧ bind_port t' = bind_port t ∧ duration t' = duration t ∧
          num_streams t' = num_streams t ∧ omit t' = omit t ∧ settings t' = settings t)
    as (H1 & H2 & H3 & H4 & H5 & H6).
  { destruct o; cbn [parse_option] in E; case_match; simplify_eq;
      unfold iperf_set_test_role, iperf_set_test_bidirectional, iperf_set_test_reverse, check_sender_has_retransmits;
      by repeat case_match. }
  unfold bounded in *. cbn in *. by rewrite H1, H2, H3, H4, H5, H6.
Qed.

Lemma gives_parse_dir o p k :
  parser_ok p → (∀ p', parser_ok p' → gives parser_ok (k p')) → gives parser_ok (parse_dir o p k).
Proof.
  intros [Hd Hb] Hk. unfold parse_dir. destruct (parse_option (ps_test p) o) as [r t] eqn:E.
  destruct (r <? 0) eqn:Er; [apply gives_stop|]. apply Hk.
  assert (r = 0) as -> by (destruct o; cbn [parse_option] in E; case_match; simplify_eq; done).
  split; [by eapply parse_option_ok|by eapply parse_option_bounded].
Qed.

Lemma gives_parse_size optarg set p k :
  (∀ z p, parser_ok p → parser_ok (set z p)) → (∀ p, parser_ok p → gives parser_ok (k p)) →
  parser_ok p → gives parser_ok (parse_size optarg set p k).
Proof.
  intros Hset Hk Hp. unfold parse_size. apply gives_bind. intros [e z] _.
  apply gives_if_no_errno; [intros e'|]; apply Hk; [apply keep_view; [done|]|]; by apply Hset.
Qed.

Lemma gives_parse_rate optarg set p k :
  (∀ z p, parser_ok p → parser_ok (set z p)) → (∀ p, parser_ok p → gives parser_ok (k p)) →
  parser_ok p → gives parser_ok (parse_rate optarg set p k).
Proof.
  intros Hset Hk Hp. unfold parse_rate. destruct (unit_atof_rate optarg) as [e d]. apply gives_bind. intros z _.
  apply gives_if_no_errno; [intros e'|]; apply Hk; [apply keep_view; [done|]|]; by apply Hset.
Qed.

(** Steps of the proof that an option keeps the invariant. *)
Ltac option_step :=
  lazymatch goal with
  | |- gives _ (go _) => apply gives_go
  | |- gives _ (refuse _ _) => apply gives_refuse
  | |- gives _ Undef => apply gives_undef
  | |- gives _ (Ok (Exit _)) => apply gives_exit
  | |- gives _ (refuse_if _ _ _ _) => apply gives_refuse_if; intros
  | |- gives _ (if_no_errno _ _ _) => apply gives_if_no_errno; [intros|]; cbv beta
  | |- gives _ (parse_dir _ _ _) => apply gives_parse_dir; [|intros]
  | |- gives _ (parse_size _ _ _ _) => apply gives_parse_size; [intros|intros|]
  | |- gives _ (parse_rate _ _ _ _) => apply gives_parse_rate; [intros|intros|]
  | |- gives _ (match ?x with _ => _ end) => destruct x
  | |- gives _ (let _ := _ in _) => cbv zeta
  | |- parser_ok (client _) => apply parser_ok_client
  | |- parser_ok (server _) => apply parser_ok_server
  | |- parser_ok (choose_protocol _ _) => apply keep_protocol
  | |- parser_ok (setting _ _) => unfold setting
  | |- parser_ok (cmd _ _) => unfold cmd
  | |- parser_ok (on_test _ _) => apply keep_view; [reflexivity|]
  | |- parser_ok (@update_field _ _ _ _ _ _) => match goal with H : parser_ok _ |- _ => exact H end
  | H : parser_ok ?p |- parser_ok ?p => exact H
  end.
Ltac option_steps := repeat option_step.

Section Keeps.
Context (h : host).
Implicit Types (p : parser) (a : bytes).

Lemma parse_quic_ok o p : parser_ok p → gives parser_ok (parse_quic o p).
Proof. intros Hp. unfold parse_quic. destruct o; option_steps. Qed.

(** A bounded field that was tested. *)
Ltac bound_step :=
  match goal with
  | H : parser_ok ?p |- parser_ok (on_test _ ?p) =>
      apply keep_dirs; [reflexivity..| |exact H]; destruct H as [_ H];
      unfold bounded in *; cbn in *; bool_to_prop;
      unfold MAX_TIME, MAX_STREAMS, MAX_OMIT_TIME, MAX_BURST, MAX_MSS in *; lia
  end.

Lemma port_ok_range z : negb (port_ok z) = false → 1 ≤ z ≤ 65535.
Proof. unfold port_ok. intros H. rewrite negb_involutive in H. bool_to_prop. lia. Qed.

Lemma parse_port_ok a p : parser_ok p → gives parser_ok (parse_port a p).
Proof. intros Hp. unfold parse_port. option_steps. pose proof (port_ok_range _ H). bound_step. Qed.
Lemma parse_cport_ok a p : parser_ok p → gives parser_ok (parse_cport a p).
Proof. intros Hp. unfold parse_cport. option_steps. pose proof (port_ok_range _ H). bound_step. Qed.
Lemma parse_time_ok a p : parser_ok p → gives parser_ok (parse_time a p).
Proof. intros Hp. unfold parse_time. option_steps. change (parser_ok (on_test (fun t => t <| duration := atoi a |>) p)). bound_step. Qed.
Lemma parse_parallel_ok a p : parser_ok p → gives parser_ok (parse_parallel a p).
Proof. intros Hp. unfold parse_parallel. option_steps. bound_step. Qed.
Lemma parse_omit_ok a p : parser_ok p → gives parser_ok (parse_omit a p).
Proof. intros Hp. unfold parse_omit. option_steps. bound_step. Qed.
Lemma parse_mss_ok a p : parser_ok p → gives parser_ok (parse_mss a p).
Proof. intros Hp. unfold parse_mss. option_steps. bound_step. Qed.
Lemma parse_tos_ok a p : parser_ok p → gives parser_ok (parse_tos a p).
Proof. intros Hp. unfold parse_tos. option_steps. bound_step. Qed.
Lemma parse_flowlabel_ok a p : parser_ok p → gives parser_ok (parse_flowlabel a p).
Proof. intros Hp. unfold parse_flowlabel. option_steps. bound_step. Qed.
Lemma parse_dscp_ok a p : parser_ok p → gives parser_ok (parse_dscp a p).
Proof.
  intros Hp. unfold parse_dscp. option_steps.
  destruct (parse_qos_range (Some a)) as [E|E]; [rewrite E in *; done|]. bound_step.
Qed.
Lemma parse_bitrate_ok a p : parser_ok p → gives parser_ok (parse_bitrate a p).
Proof.
  intros Hp. unfold parse_bitrate. option_steps. bound_step.
Qed.

Lemma parse_affinity_ok a p : parser_ok p → gives parser_ok (parse_affinity a p).
Proof. intros Hp. unfold parse_affinity. option_steps. Qed.

(** No option leads out of the invariant. *)
Lemma parse_case_ok o p : parser_ok p → gives parser_ok (parse_case h o p).
Proof.
  intros Hp. destruct o; cbn [parse_case];
    first
    [ by apply parse_port_ok | by apply parse_cport_ok | by apply parse_time_ok | by apply parse_parallel_ok
    | by apply parse_omit_ok | by apply parse_mss_ok | by apply parse_tos_ok | by apply parse_flowlabel_ok
    | by apply parse_dscp_ok | by apply parse_bitrate_ok | by apply parse_affinity_ok
    | case_goal; [by apply parse_quic_ok|apply gives_refuse]
    | idtac ].
  all: unfold parse_general, parse_amount, parse_payload, parse_output, parse_auth, parse_last.
  all: unfold parse_format, parse_interval, parse_client, parse_bind, parse_nstreams, parse_bitrate_limit,
    parse_window, parse_idle_timeout, parse_server_max_duration, parse_rcv_timeout, parse_snd_timeout,
    parse_cntl_ka, parse_debug, parse_skew, parse_timestamps.
  all: option_steps.
  - by apply parse_bitrate_ok.
  - destruct optarg as [s|]; [destruct (split_at "/" s) as [idle rest], (split_at "/" (default [] rest))|]; option_steps.
Qed.

Lemma parse_loop_ok l p : parser_ok p → gives parser_ok (parse_loop h l p).
Proof.
  revert p. induction l as [|o l IH]; intros p Hp; cbn [parse_loop]; [by apply gives_go|].
  apply gives_bind. intros v Hv. destruct v as [p'|t|n]; [|apply gives_stop|apply gives_exit].
  apply IH. by eapply parse_case_ok.
Qed.
End Keeps.

(** ** What the final checks establish *)

(** The test of an accepted command line. *)
Definition accepted (p : parser) : Prop :=
  let t := ps_test p in
  let st := settings t in
  let size := blksize st in
  options_ok t ∧ is_role (role t) ∧
  (role t = "c"%char → server_flag p = false) ∧ (role t = "s"%char → client_flag p = false) ∧
  (protocol t = Pudp → diskfile_name t = None ∧ (size ≤ 0 ∨ MIN_UDP_BLOCKSIZE ≤ size ≤ MAX_UDP_BLOCKSIZE)) ∧
  (protocol t ≠ Pudp → 1 ≤ size ≤ MAX_BLOCKSIZE) ∧
  (* one end condition *)
  (bytes_limit st = 0 ∨ blocks_limit st = 0) ∧ (duration t = 0 ∨ (bytes_limit st = 0 ∧ blocks_limit st = 0)).

(** What the first part of the checks has established, when the size is reached. *)
Definition checked (p : parser) : Prop :=
  parser_ok p ∧ (is_client p && server_flag p = false) ∧ (is_server p && client_flag p = false).

Lemma keep_checked f p : view_of (f (ps_test p)) = view_of (ps_test p) → checked p → checked (on_test f p).
Proof.
  intros Hv (Hp & Hc & Hs). split; [by apply keep_view|].
  assert (role (f (ps_test p)) = role (ps_test p)) as Hr by (unfold view_of in Hv; congruence).
  unfold is_client, is_server, on_test in *. cbn in *. by rewrite Hr.
Qed.

Section Checks.
Context (h : host) (J : parser → Prop).

Lemma gives_check_roles p k :
  parser_ok p → (checked p → gives J (k p)) → gives J (check_roles p k).
Proof. intros Hp Hk. unfold check_roles. apply gives_refuse_if. intros. apply gives_refuse_if. intros. by apply Hk. Qed.

Lemma gives_quic_defaults p k :
  checked p → (∀ p', checked p' → gives J (k p')) → gives J (quic_defaults h p k).
Proof.
  intros Hp Hk. unfold quic_defaults. case_goal; [|by apply Hk]. cbv zeta.
  set (p1 := if quic_port (ps_test p) =? 0 then _ else p).
  assert (checked p1) as H1 by (unfold p1; case_goal; [by apply keep_checked|done]). clearbody p1.
  case_goal; [|by apply Hk]. case_goal; [|apply gives_refuse]. apply Hk. by apply keep_checked.
Qed.

Lemma gives_client_auth p k :
  checked p → (∀ p', checked p' → gives J (k p')) → gives J (client_auth h p k).
Proof.
  intros Hp Hk. unfold client_auth. cbv zeta.
  repeat (case_goal; try apply gives_refuse; try (by apply Hk)).
Qed.

Lemma gives_server_auth p k :
  checked p → (∀ p', checked p' → gives J (k p')) → gives J (server_auth p k).
Proof. intros Hp Hk. unfold server_auth. repeat (case_goal; try apply gives_refuse). by apply Hk. Qed.

Lemma gives_server_keys p k :
  checked p → (∀ p', checked p' → gives J (k p')) → gives J (server_keys h p k).
Proof.
  intros Hp Hk. unfold server_keys. cbv zeta.
  case_goal; [apply gives_refuse|]. destruct (arg_private_key p) as [key|]; [|by apply Hk].
  case_goal; [|by apply Hk].
  set (p1 := on_test (fun t => t <| server_rsa_private_key := load_privkey h key |>) p).
  assert (checked p1) as H1 by (by apply keep_checked). clearbody p1.
  case_goal; [|apply gives_refuse]. apply Hk. apply keep_checked; [|done]. by case_goal.
Qed.
End Checks.

(** Behind the check of the block size. *)
Definition sized (p : parser) : Prop :=
  let t := ps_test p in
  let size := blksize (settings t) in
  checked p ∧
  (protocol t = Pudp → diskfile_name t = None ∧ (size ≤ 0 ∨ MIN_UDP_BLOCKSIZE ≤ size ≤ MAX_UDP_BLOCKSIZE)) ∧
  (protocol t ≠ Pudp → 1 ≤ size ≤ MAX_BLOCKSIZE).

Lemma keep_sized f p :
  view_of (f (ps_test p)) = view_of (ps_test p) → blksize (settings (f (ps_test p))) = blksize (settings (ps_test p)) →
  protocol (f (ps_test p)) = protocol (ps_test p) → diskfile_name (f (ps_test p)) = diskfile_name (ps_test p) →
  sized p → sized (on_test f p).
Proof.
  intros Hv Hb Hp Hd (Hc & Hs). split; [by apply keep_checked|].
  change (ps_test (on_test f p)) with (f (ps_test p)). cbv zeta in *. by rewrite Hb, Hp, Hd.
Qed.

Lemma gives_check_blksize J p k :
  checked p → given (diskfile_name (ps_test p)) && (protocol (ps_test p) =? Pudp) = false →
  (∀ p', sized p' → gives J (k p')) → gives J (check_blksize p k).
Proof.
  intros Hp Hf Hk. unfold check_blksize. cbv zeta.
  apply gives_refuse_if. intros H1. apply gives_refuse_if. intros H2. apply Hk.
  set (size := if blksize_arg p =? 0 then _ else _) in *.
  split; [by apply keep_checked|]. cbv zeta.
  change (blksize (settings (ps_test (setting (fun x => x <| blksize := size |>) p)))) with size.
  change (protocol (ps_test (setting (fun x => x <| blksize := size |>) p))) with (protocol (ps_test p)).
  change (diskfile_name (ps_test (setting (fun x => x <| blksize := size |>) p))) with (diskfile_name (ps_test p)).
  clearbody size. unfold given in Hf. split.
  - intros Hu. rewrite Hu in *. change (Pudp =? Pudp) with true in *. rewrite andb_true_r in Hf.
    rewrite andb_true_l in H2.
    split; [apply bool_decide_eq_false in Hf; by apply eq_None_not_Some|].
    destruct (0 <? size) eqn:E; bool_to_prop; [right|left; lia]. cbn in H2. bool_to_prop. lia.
  - intros Hu. apply Z.eqb_neq in Hu. rewrite Hu in *. cbn in H1. bool_to_prop. lia.
Qed.

Lemma sized_end h p : sized p → sized (file_end h (default_rate p)).
Proof.
  intros Hp. assert (sized (default_rate p)) as H1.
  { unfold default_rate. case_goal; [done|]. by apply keep_sized. }
  unfold file_end. cbv zeta. by repeat case_goal; first [done|apply keep_sized].
Qed.

Definition one_end (p : parser) : Prop :=
  let t := ps_test p in
  let st := settings t in
  (bytes_limit st = 0 ∨ blocks_limit st = 0) ∧ (duration t = 0 ∨ (bytes_limit st = 0 ∧ blocks_limit st = 0)).

Lemma sized_no_duration p : sized p → sized (on_test (fun t => t <| duration := 0 |>) p).
Proof.
  intros ((Hp & Hc) & Hs). split; [|exact Hs]. split; [|exact Hc].
  apply keep_dirs; [reflexivity..| |exact Hp]. destruct Hp as [_ Hp].
  unfold bounded in *. cbn in *. unfold MAX_TIME in *. lia.
Qed.

Lemma gives_check_end J p k :
  sized p → (∀ p', sized p' → one_end p' → gives J (k p')) → gives J (check_end p k).
Proof.
  intros Hp Hk. unfold check_end. cbv zeta.
  destruct (negb (bytes_limit (settings (ps_test p)) =? 0)) eqn:Ey,
           (negb (blocks_limit (settings (ps_test p)) =? 0)) eqn:El, (duration_flag p) eqn:Ed; cbn [andb orb negb].
  all: apply gives_refuse_if; intros Hx; rewrite ?Ed in Hx; try discriminate Hx; apply Hk; try done; try by apply sized_no_duration.
  all: unfold one_end; cbn; bool_to_prop; lia.
Qed.

Lemma gives_limit_periods p :
  accepted p → gives accepted (p ← limit_periods p; go p).
Proof.
  intros Hp. apply gives_bind. intros p' Hl. unfold limit_periods in Hl. cbv zeta in Hl.
  destruct (Deqb _ _); [by injection Hl as <-; apply gives_go|].
  destruct (if Dleb _ _ then _ else _) as [z|]; [|done]. case_decide; [|done]. injection Hl as <-.
  apply gives_go. destruct Hp as (Ho & Hp). split; [by eapply options_ok_view|]. exact Hp.
Qed.

Lemma final_checks_accept h p : parser_ok p → gives accepted (final_checks h p).
Proof.
  intros Hp. unfold final_checks.
  apply gives_check_roles; [done|]. intros H1.
  apply gives_quic_defaults; [done|]. intros p2 H2.
  apply gives_client_auth; [done|]. intros p3 H3.
  apply gives_server_auth; [done|]. intros p4 H4.
  apply gives_server_keys; [done|]. intros p5 H5.
  apply gives_refuse_if. intros Hf. apply gives_check_blksize; [done|done|]. intros p6 H6.
  apply gives_check_end; [by apply sized_end|]. intros p7 H7 He.
  apply gives_refuse_if. intros Hr. apply gives_limit_periods.
  destruct H7 as ((Hok & Hcs & Hss) & Hu & Hn), He as [He1 He2].
  unfold is_client, is_server in *.
  split; [exact Hok|]. split; [|split; [|split; [|split; [exact Hu|split; [exact Hn|split; [exact He1|exact He2]]]]]].
  - unfold is_role. destruct (decide (role (ps_test p7) = "c"%char)); [by left|].
    destruct (decide (role (ps_test p7) = "s"%char)); [by right|]. by rewrite !bool_decide_false in Hr.
  - intros E. by rewrite bool_decide_true in Hcs.
  - intros E. by rewrite bool_decide_true in Hss.
Qed.

(** ** Claims *)

Lemma defaults_parser_ok sctp a b c d e f g i j :
  parser_ok (mk_parser (iperf_defaults sctp iperf_new_test) a b c d e f g i j).
Proof.
  destruct sctp; split; try (vm_compute; by repeat split).
  all: split; [by left|split; [intros [H|H]; discriminate H|by left]].
Qed.


(** A machine without files and keys. *)
Definition bare_host : host :=
  mk_host false false (λ _, false) (λ _, None) (λ _, false) None (λ _, false) (λ _, None) (λ _, None) false.

Definition sample_line : list option_arg :=
  [O_client (B "host%eth0"); O_udp; O_bitrate (B "10M/5"); O_bytes (B "3K"); O_length (B "1200");
   O_dscp (B "ef"); O_parallel (B "4"); O_bidir].


(** Refused: an option of the server on a client, two end conditions, a file over UDP. *)
Example refused_lines :
  (λ l, match iperf_parse_arguments bare_host (iperf_defaults false iperf_new_test) l with
        | Ok (Refuse t) => i_errno t | _ => 0 end) <$>
    [[O_client (B "h"); O_one_off]; [O_server; O_bytes (B "1M")]; [O_client (B "h"); O_bytes (B "1"); O_time (B "3")];
     [O_client (B "h"); O_udp; O_file (B "f")]; [O_client (B "h"); O_udp; O_length (B "15")]; [];
     [O_client (B "h"); O_bytes (B "3z")]]
  = [IESERVERONLY; IECLIENTONLY; IEENDCONDITIONS; IEUDPFILETRANSFER; IEUDPBLOCKSIZE; IENOROLE; IEUNITVAL].
Proof. vm_compute. reflexivity. Qed.

(** There is no [break] behind [--nstreams]: its argument is taken for the
    bit rate, too. *)
Lemma nstreams_sets_the_rate p a n d r :
  i_errno (ps_test p) = 0 → unit_atoi a = Ok (None, n) → split_at "/" a = (a, None) →
  unit_atof_rate a = (None, d) → to_size d = Ok r →
  ∃ p', parse_nstreams a p = go p' ∧ num_ostreams (cmdline (ps_test p')) = i32 n ∧
        rate (settings (ps_test p')) = r ∧ rate_flag p' = true.
Proof.
  intros He Hn Hs Hd Hr. unfold parse_nstreams, parse_size. rewrite Hn. cbn. unfold if_no_errno at 1. cbn. rewrite He. cbn.
  unfold parse_bitrate. rewrite Hs. cbn [fst snd]. unfold parse_rate. rewrite Hd, Hr. cbn. unfold if_no_errno. cbn. rewrite He. cbn.
  eexists. split; [reflexivity|]. done.
Qed.

Example nstreams_3_is_3_bits_per_second :
  match iperf_parse_arguments bare_host (iperf_defaults false iperf_new_test) [O_client (B "h"); O_nstreams (B "3")] with
  | Ok (Go p) => rate (settings (ps_test p))
  | _ => 0
  end = 3.
Proof. vm_compute. reflexivity. Qed.

(** [-i 0] turns the periodic reports off; the server's period of the bit-rate
    limit, five seconds by default, is then divided by zero and the infinite
    quotient converted to [int]. *)
Example interval_zero_is_undefined :
  iperf_parse_arguments bare_host (iperf_defaults false iperf_new_test) [O_server; O_interval (B "0")] = Undef.
Proof. vm_compute. reflexivity. Qed.

(** The number of streams has no lower bound, and a block size of 2^32 bytes
    is the default one. *)
Example no_streams_accepted :
  match iperf_parse_arguments bare_host (iperf_defaults false iperf_new_test)
          [O_client (B "h"); O_parallel (B "-1"); O_length (B "4G")] with
  | Ok (Go p) => (num_streams (ps_test p), blksize (settings (ps_test p)))
  | _ => (0, 0)
  end = (-1, DEFAULT_TCP_BLKSIZE).
Proof. vm_compute. reflexivity. Qed.
