(* ===== verification/Errors.v ===== *)
(** * Messages ([src/iperf_error.c])

    [iperf_strerror]: the message of an error number, with the reason the system
    or the resolver gives appended for some of them, in a buffer of 256 bytes.
    [strerror] and [gai_strerror] belong to the C library and are parameters. *)

From S2P Require Import Prelude Errno CInt CDouble CStdio Options.

(** A text and the flags [herr] and [perr] of its case. *)
Record message := mk_message { text : bytes; herr : bool; perr : bool }.

Definition plain (s : bytes) : message := mk_message s false false.
Definition with_errno (s : bytes) : message := mk_message s false true.
Definition with_both (s : bytes) : message := mk_message s true true.

(** ** The cases of the switch, in its order *)

Definition option_messages : list (Z * message) := [
  (IENONE, plain (B "no error"));
  (IESERVCLIENT, plain (B "cannot be both server and client"));
  (IENOROLE, plain (B "must either be a client (-c) or server (-s)"));
  (IESERVERONLY, plain (B "some option you are trying to set is server only"));
  (IECLIENTONLY, plain (B "some option you are trying to set is client only"));
  (IEDURATION, plain (B "test duration valid values are 0 to " ++ dec_Z MAX_TIME ++ B " seconds"));
  (IENUMSTREAMS, plain (B "number of parallel streams too large (maximum = " ++ dec_Z MAX_STREAMS ++ B ")"));
  (IEBLOCKSIZE, plain (B "block size too large (maximum = " ++ dec_Z MAX_BLOCKSIZE ++ B " bytes)"));
  (IEBUFSIZE, plain (B "socket buffer size too large (maximum = " ++ dec_Z MAX_TCP_BUFFER ++ B " bytes)"));
  (IEINTERVAL, plain (B "invalid report interval (min = " ++ fmt_g 6 MIN_INTERVAL ++ B ", max = " ++ fmt_g 6 MAX_INTERVAL_D ++ B " seconds)"));
  (IEBIND, plain (B "--bind must be specified to use --cport"));
  (IEUDPBLOCKSIZE, plain (B "block size invalid (minimum = " ++ dec_Z MIN_UDP_BLOCKSIZE ++ B " bytes, maximum = " ++ dec_Z MAX_UDP_BLOCKSIZE ++ B " bytes)"));
  (IEBADTOS, plain (B "bad TOS value (must be between 0 and 255 inclusive)"));
  (IESETCLIENTAUTH, plain (B "you must specify a username, password, and path to a valid RSA public key"));
  (IESETSERVERAUTH, plain (B "you must specify a path to a valid RSA private key and a user credential file"));
  (IESERVERAUTHUSERS, plain (B "cannot access authorized users file"));
  (IEBADFORMAT, plain (B "bad format specifier (valid formats are in the set [kmgtKMGT])"));
  (IEBADPORT, plain (B "port number must be between 1 and 65535 inclusive"));
  (IEMSS, plain (B "TCP MSS too large (maximum = " ++ dec_Z MAX_MSS ++ B " bytes)"));
  (IENOSENDFILE, plain (B "this OS does not support sendfile"));
  (IEOMIT, plain (B "bogus value for --omit (maximum = " ++ dec_Z MAX_OMIT_TIME ++ B " seconds)"));
  (IEUNIMP, plain (B "an option you are trying to set is not implemented yet"));
  (IEFILE, with_errno (B "unable to open -F file"));
  (IEQUICCERT, with_errno (B "unable to open or load QUIC certificate credentials"));
  (IEBURST, plain (B "invalid burst count (maximum = " ++ dec_Z MAX_BURST ++ B ")"));
  (IEENDCONDITIONS, plain (B "only one test end condition (-t, -n, -k) may be specified"));
  (IELOGFILE, with_errno (B "unable to open log file"));
  (IENOSCTP, plain (B "no SCTP support available"))].

Definition test_messages : list (Z * message) := [
  (IENEWTEST, with_errno (B "unable to create a new test"));
  (IEINITTEST, with_errno (B "test initialization failed"));
  (IEAUTHTEST, plain (B "test authorization failed"));
  (IELISTEN, with_both (B "unable to start listener for connections"));
  (IECONNECT, with_both (B "unable to connect to server - server may have stopped running or use a different port, firewall issue, etc."));
  (IEACCEPT, with_both (B "unable to accept connection from client"));
  (IESENDCOOKIE, with_errno (B "unable to send cookie to server"));
  (IERECVCOOKIE, with_errno (B "unable to receive cookie at server"));
  (IECTRLWRITE, with_errno (B "unable to write to the control socket"));
  (IECTRLREAD, with_errno (B "unable to read from the control socket"));
  (IECTRLCLOSE, plain (B "control socket has closed unexpectedly"));
  (IEMESSAGE, plain (B "received an unknown control message (ensure other side is iperf3 and not iperf)"));
  (IESENDMESSAGE, with_errno (B "unable to send control message - port may not be available, the other side may have stopped running, etc."));
  (IERECVMESSAGE, with_errno (B "unable to receive control message - port may not be available, the other side may have stopped running, etc."));
  (IESENDPARAMS, with_errno (B "unable to send parameters to server"));
  (IERECVPARAMS, with_errno (B "unable to receive parameters from client"));
  (IEPACKAGERESULTS, with_errno (B "unable to package results"));
  (IESENDRESULTS, with_errno (B "unable to send results"));
  (IERECVRESULTS, with_errno (B "unable to receive results"));
  (IESELECT, with_errno (B "select failed"));
  (IECLIENTTERM, plain (B "the client has terminated"));
  (IESERVERTERM, plain (B "the server has terminated"));
  (IEACCESSDENIED, plain (B "the server is busy running a test. try again later"));
  (IESETNODELAY, with_errno (B "unable to set TCP/SCTP NODELAY"));
  (IESETMSS, with_errno (B "unable to set TCP/SCTP MSS"));
  (IESETBUF, with_errno (B "unable to set socket buffer size"));
  (IESETTOS, with_errno (B "unable to set IP TOS"));
  (IESETCOS, with_errno (B "unable to set IPv6 traffic class"));
  (IESETFLOW, plain (B "unable to set IPv6 flow label"));
  (IEREUSEADDR, with_errno (B "unable to reuse address on socket"));
  (IENONBLOCKING, with_errno (B "unable to set socket to non-blocking"));
  (IESETWINDOWSIZE, with_errno (B "unable to set socket window size"));
  (IEPROTOCOL, plain (B "protocol does not exist"));
  (IEAFFINITY, with_errno (B "unable to set CPU affinity"))].

Definition stream_messages (errarg : bytes) : list (Z * message) := [
  (IERCVTIMEOUT, with_errno (B "receive timeout value is incorrect or not in range"));
  (IESNDTIMEOUT, with_errno (B "send timeout value is incorrect or not in range"));
  (IEUDPFILETRANSFER, plain (B "cannot transfer file using UDP"));
  (IEUNITVAL, plain (B "invalid unit value or suffix: '" ++ errarg ++ B "'"));
  (IERVRSONLYRCVTIMEOUT, with_errno (B "client receive timeout is valid only in receiving mode"));
  (IEDAEMON, with_errno (B "unable to become a daemon"));
  (IECREATESTREAM, with_both (B "unable to create a new stream"));
  (IEINITSTREAM, with_both (B "unable to initialize stream"));
  (IESTREAMLISTEN, with_both (B "unable to start stream listener"));
  (IESTREAMCONNECT, with_both (B "unable to connect stream"));
  (IESTREAMACCEPT, with_errno (B "unable to accept stream connection"));
  (IESTREAMWRITE, with_errno (B "unable to write to stream socket"));
  (IESTREAMREAD, with_errno (B "unable to read from stream socket"));
  (IESTREAMCLOSE, plain (B "stream socket has closed unexpectedly"));
  (IESTREAMID, plain (B "stream has an invalid id"));
  (IENEWTIMER, with_errno (B "unable to create new timer"));
  (IEUPDATETIMER, with_errno (B "unable to update timer"))].

Definition other_messages : list (Z * message) := [
  (IESETCONGESTION, plain (B "unable to set TCP_CONGESTION: Supplied congestion control algorithm not supported on this host"));
  (IEPIDFILE, with_errno (B "unable to write PID file"));
  (IEV6ONLY, with_errno (B "Unable to set/reset IPV6_V6ONLY"));
  (IESETSCTPDISABLEFRAG, with_errno (B "unable to set SCTP_DISABLE_FRAGMENTS"));
  (IESETSCTPNSTREAM, with_errno (B "unable to set SCTP_INIT num of SCTP streams" ++ [chr 10]));
  (IESETPACING, with_errno (B "unable to set socket pacing"));
  (IESETBUF2, plain (B "socket buffer size not set correctly"));
  (IEREVERSEBIDIR, plain (B "cannot be both reverse and bidirectional"));
  (IETOTALRATE, plain (B "total required bandwidth is larger than server limit"));
  (IETOTALINTERVAL, plain (B "invalid time interval for calculating average data rate"));
  (IESKEWTHRESHOLD, plain (B "skew threshold must be a positive number"));
  (IEIDLETIMEOUT, plain (B "idle timeout parameter is not positive or larger than allowed limit"));
  (IEBINDDEV, plain (B "Unable to bind-to-device (check perror, maybe permissions?)"));
  (IEBINDDEVNOSUPPORT, plain (B "`<ip>%<dev>` is not supported as system does not support bind to device"));
  (IEHOSTDEV, plain (B "host device name (ip%<dev>) is supported (and required) only for IPv6 link-local address"));
  (IENOMSG, plain (B "idle timeout for receiving data"));
  (IESETDONTFRAGMENT, plain (B "unable to set IP Do-Not-Fragment flag"));
  (IESETUSERTIMEOUT, with_errno (B "unable to set TCP USER_TIMEOUT"));
  (IEPTHREADCREATE, with_errno (B "unable to create thread"));
  (IEPTHREADCANCEL, with_errno (B "unable to cancel thread"));
  (IEPTHREADJOIN, with_errno (B "unable to join thread"));
  (IEPTHREADATTRINIT, with_errno (B "unable to create thread attributes"));
  (IEPTHREADSIGMASK, plain (B "unable to change mask of blocked signals"));
  (IEPTHREADATTRDESTROY, plain (B "unable to destroy thread attributes"));
  (IECNTLKA, with_errno (B "control connection Keepalive period should be larger than the full retry period (interval * count)"));
  (IESETCNTLKA, with_errno (B "unable to set socket keepalive (SO_KEEPALIVE) option"));
  (IESETCNTLKAKEEPIDLE, with_errno (B "unable to set socket keepalive TCP period (TCP_KEEPIDLE) option"));
  (IESETCNTLKAINTERVAL, with_errno (B "unable to set/get socket keepalive TCP retry interval (TCP_KEEPINTVL) option"));
  (IESETCNTLKACOUNT, with_errno (B "unable to set/get socket keepalive TCP number of retries (TCP_KEEPCNT) option"));
  (IEMAXSERVERTESTDURATIONEXCEEDED, plain (B "client's requested duration exceeds the server's maximum permitted limit"))].

Definition messages (errarg : bytes) : list (Z * message) :=
  option_messages ++ test_messages ++ stream_messages errarg ++ other_messages.

Fixpoint case_of (l : list (Z * message)) (int_errno : Z) : option message :=
  match l with
  | [] => None
  | (e, m) :: l' => if e =? int_errno then Some m else case_of l' int_errno
  end.

Definition message_of (errarg : bytes) (int_errno : Z) : message :=
  default (with_errno (B "int_errno=" ++ dec_Z int_errno)) (case_of (messages errarg) int_errno).

(** ** [iperf_strerror] *)

(** The characters [errstr] holds in front of its terminator. *)
Definition room : nat := 255.

(** [strncat(errstr, s, len - strlen(errstr) - 1)] *)
Definition strncat (errstr s : bytes) : bytes := errstr ++ take (room - length errstr) s.

Section Strerror.
Context (strerror gai_strerror : Z → bytes).

(** What follows the switch; the second component is [gerror]. *)
Definition append_reason (m : message) (errno gerror : Z) : bytes * Z :=
  let errstr := take room (text m) in
  let errstr := if herr m || perr m then strncat errstr (B ": ") else errstr in
  if negb (errno =? 0) && perr m then (strncat errstr (strerror errno), gerror)
  else if herr m && negb (gerror =? 0) then (strncat errstr (gai_strerror gerror), 0)
  else (errstr, gerror).

(** [errarg] is used by one case only. *)
Definition iperf_strerror (errarg : option bytes) (errno gerror int_errno : Z) : outcome (bytes * Z) :=
  match errarg with
  | Some a => Ok (append_reason (message_of a int_errno) errno gerror)
  | None => if int_errno =? IEUNITVAL then Undef
            else Ok (append_reason (message_of [] int_errno) errno gerror)
  end.

(** ** What a message begins with *)

Lemma strncat_fits errstr s :
  (length errstr ≤ room)%nat → (length (strncat errstr s) ≤ room)%nat.
Proof. intros. unfold strncat. rewrite length_app, length_take. lia. Qed.

Lemma append_reason_fits m errno gerror : (length (append_reason m errno gerror).1 ≤ room)%nat.
Proof.
  unfold append_reason.
  assert (length (take room (text m)) ≤ room)%nat by (rewrite length_take; lia).
  repeat case_match; cbn; repeat apply strncat_fits; done.
Qed.

Definition stem (m : message) : bytes := text m ++ (if herr m || perr m then B ": " else []).

Lemma append_reason_stem m errno gerror :
  (length (stem m) ≤ room)%nat → stem m `prefix_of` (append_reason m errno gerror).1.
Proof.
  unfold stem, append_reason. rewrite length_app. intros Hl.
  assert ((if herr m || perr m then strncat (take room (text m)) (B ": ") else take room (text m))
          = text m ++ (if herr m || perr m then B ": " else [])) as ->.
  { rewrite (take_ge (text m)) by lia. destruct (herr m || perr m); [|by rewrite app_nil_r].
    change (length (B ": ")) with 2%nat in Hl. unfold strncat. by rewrite (take_ge (B ": ")) by (change (length (B ": ")) with 2%nat; lia). }
  repeat case_match; cbn; unfold strncat; try done; by apply prefix_app_r.
Qed.

(** The beginning of the message of a number, whatever the circumstances. *)
Definition key (e : Z) : bytes :=
  if e =? IEUNITVAL then B "invalid unit value or suffix: '"
  else match case_of (messages []) e with Some m => stem m | None => B "int_errno=" end.

Definition enumerated : list Z := map fst (messages []).

Lemma case_of_errarg a e : e ≠ IEUNITVAL → case_of (messages a) e = case_of (messages []) e.
Proof.
  intros He. unfold messages, stream_messages. apply Z.eqb_neq in He. rewrite Z.eqb_sym in He.
  assert (∀ l1 l2 l2', (∀ e m, (e, m) ∈ l2 → True) → case_of l2 e = case_of l2' e → case_of (l1 ++ l2) e = case_of (l1 ++ l2') e) as Happ.
  { intros l1 l2 l2' _ E. induction l1 as [|[x y] l1 IH]; [done|]. cbn. by rewrite IH. }
  do 2 (apply Happ; [done|]). cbn [app case_of]. by rewrite He.
Qed.

Lemma case_of_enumerated e m : case_of (messages []) e = Some m → e ∈ enumerated.
Proof.
  unfold enumerated. generalize (messages []) as l. induction l as [|[x y] l IH]; cbn; [done|].
  case_goal; bool_to_prop; [subst; intros _; by apply list_elem_of_here|]. intros E. apply list_elem_of_further. by apply IH.
Qed.

Lemma stems_fit : Forall (λ p, (length (stem p.2) ≤ room)%nat) (messages []).
Proof. decided. Qed.

Lemma case_of_fits e m : case_of (messages []) e = Some m → (length (stem m) ≤ room)%nat.
Proof.
  generalize stems_fit. generalize (messages []) as l. induction l as [|[x y] l IH]; cbn; [done|].
  intros [Hy Hl]%Forall_cons. case_goal; [by intros [= <-]|by apply IH].
Qed.

Lemma default_stem_fits e : in_s 32 e → (length (stem (with_errno (B "int_errno=" ++ dec_Z e))) ≤ room)%nat.
Proof.
  intros He. unfold stem. cbn [text herr perr with_errno orb]. rewrite !length_app.
  pose proof (dec_Z_length e 10) as Hd. unfold in_s in He.
  change (length (B "int_errno=")) with 10%nat. change (length (B ": ")) with 2%nat. unfold room. lia.
Qed.

Lemma strerror_result errarg errno gerror e s g :
  iperf_strerror errarg errno gerror e = Ok (s, g) → ∃ a, s = (append_reason (message_of a e) errno gerror).1.
Proof.
  intros H. unfold iperf_strerror in H. destruct errarg as [a|]; [exists a|exists []].
  - injection H as E. by rewrite E.
  - destruct (e =? IEUNITVAL); [done|]. injection H as E. by rewrite E.
Qed.

(** A message begins with the key of its number, and a number without a case of
    its own follows the key. *)
Lemma strerror_key errarg errno gerror e s g :
  in_s 32 e → iperf_strerror errarg errno gerror e = Ok (s, g) →
  key e `prefix_of` s ∧
  (e ≠ IEUNITVAL → case_of (messages []) e = None → (B "int_errno=" ++ dec_Z e ++ B ": ") `prefix_of` s).
Proof.
  intros He Hr.
  destruct (strerror_result _ _ _ _ _ _ Hr) as (a & ->).
  unfold key. destruct (e =? IEUNITVAL) eqn:Eu; bool_to_prop.
  { subst e. split; [|done]. change (message_of a IEUNITVAL) with
      (plain (B "invalid unit value or suffix: '" ++ a ++ B "'")).
    unfold append_reason. cbn [text herr perr plain orb andb]. rewrite andb_false_r. cbn [fst].
    rewrite take_app, take_ge by (vm_compute; lia). by apply prefix_app_r. }
  unfold message_of. rewrite (case_of_errarg a) by done.
  destruct (case_of (messages []) e) as [m|] eqn:Em; cbn [default].
  - split; [|done]. apply append_reason_stem. by eapply case_of_fits.
  - assert (stem (with_errno (B "int_errno=" ++ dec_Z e)) = B "int_errno=" ++ dec_Z e ++ B ": ") as Hs
      by (unfold stem; cbn [text herr perr with_errno orb]; by rewrite <- app_assoc).
    pose proof (append_reason_stem _ errno gerror (default_stem_fits e He)) as Hp. rewrite Hs in Hp.
    split; [|done]. etransitivity; [|exact Hp]. by apply prefix_app_r.
Qed.

(** The keys tell the numbers apart: none begins another one. *)
Definition keys : list (Z * bytes) := (-1, B "int_errno=") :: map (λ e, (e, key e)) enumerated.

Lemma keys_apart : Forall (λ p, Forall (λ q, p.1 = q.1 ∨ ¬ p.2 `prefix_of` q.2) keys) keys.
Proof. decided. Qed.

Definition index (e : Z) : Z := match case_of (messages []) e with Some _ => e | None => -1 end.

Lemma key_in_keys e : (index e, key e) ∈ keys.
Proof.
  unfold index, keys. destruct (case_of (messages []) e) as [m|] eqn:E.
  - apply list_elem_of_further, list_elem_of_fmap. exists e. split; [done|]. by eapply case_of_enumerated.
  - unfold key. destruct (e =? IEUNITVAL) eqn:Eu; bool_to_prop; [by subst|]. rewrite E. apply list_elem_of_here.
Qed.

Lemma prefixes_same_index e e' s : key e `prefix_of` s → key e' `prefix_of` s → index e = index e'.
Proof.
  intros H H'. pose proof (proj1 (Forall_forall _ _) keys_apart) as Hk.
  pose proof (proj1 (Forall_forall _ _) (Hk _ (key_in_keys e)) _ (key_in_keys e')) as [?|Hn]; [done|].
  pose proof (proj1 (Forall_forall _ _) (Hk _ (key_in_keys e')) _ (key_in_keys e)) as [?|Hn']; [done|].
  destruct (prefix_weak_total _ _ _ H H') as [?|?]; [by destruct Hn|by destruct Hn'].
Qed.

(** C25: the message of an error number tells the number: two calls of
    [iperf_strerror], whatever [errno], [gerror], the offending argument and the
    texts of the system are, give the same message only for the same number;
    and the message with its terminator fits the buffer of 256 bytes. *)
Theorem strerror_identifies errarg errno gerror errarg' errno' gerror' e e' s g g' :
  in_s 32 e → in_s 32 e' →
  iperf_strerror errarg errno gerror e = Ok (s, g) → iperf_strerror errarg' errno' gerror' e' = Ok (s, g') →
  e = e' ∧ (length s < 256)%nat.
Proof.
  intros He He' Hr Hr'.
  destruct (strerror_key _ _ _ _ _ _ He Hr) as [Hk Hd], (strerror_key _ _ _ _ _ _ He' Hr') as [Hk' Hd'].
  split.
  - pose proof (prefixes_same_index _ _ _ Hk Hk') as Hi. unfold index in Hi.
    destruct (case_of (messages []) e) as [m|] eqn:Em, (case_of (messages []) e') as [m'|] eqn:Em'.
    + done.
    + subst e. done.
    + subst e'. done.
    + destruct (Hd ltac:(by intros ->) eq_refl) as [r Hs], (Hd' ltac:(by intros ->) eq_refl) as [r' Hs'].
      rewrite Hs in Hs'. rewrite <- !app_assoc in Hs'. apply app_inv_head in Hs'.
      assert (strtod (dec_Z e ++ B ": " ++ r) = strtod (dec_Z e' ++ B ": " ++ r')) as E by (by rewrite Hs').
      rewrite !strtod_dec_Z in E; [|by unfold small_int, in_s in *; lia|done|by unfold small_int, in_s in *; lia|done].
      injection E as E _. apply (f_equal D_trunc) in E.
      rewrite !D_trunc_of_Z in E by (unfold small_int, in_s in *; lia). congruence.
  - destruct (strerror_result _ _ _ _ _ _ Hr) as (a & ->).
    pose proof (append_reason_fits (message_of a e) errno gerror). unfold room in *. lia.
Qed.
End Strerror.

Lemma strerror_identifies_witness :
  let texts := λ _, B "Connection refused" in
  let s := B "unable to connect stream: Connection refused" in
  iperf_strerror texts texts None 111 0 IESTREAMCONNECT = Ok (s, 0) ∧ IESTREAMCONNECT = IESTREAMCONNECT ∧
  (length s < 256)%nat.
Proof.
  intros texts s. split; [vm_compute; reflexivity|].
  apply (strerror_identifies texts texts None 111 0 None 111 0 IESTREAMCONNECT IESTREAMCONNECT s 0 0);
    [by vm_compute|by vm_compute|vm_compute; reflexivity|vm_compute; reflexivity].
Defined.

(** Every number of the enumeration has a case, but one. *)
Example no_message_for_bindx texts :
  iperf_strerror texts texts None 0 0 IESETSCTPBINDX = Ok (B "int_errno=139: ", 0).
Proof. vm_compute. reflexivity. Qed.

(** The text of a failed binding to a device says where to look for the reason,
    which is not there. *)
Example bind_dev_without_reason texts :
  iperf_strerror texts texts None 1 0 IEBINDDEV
  = Ok (B "Unable to bind-to-device (check perror, maybe permissions?)", 0).
Proof. vm_compute. reflexivity. Qed.
