(* ===== verification/Files.v ===== *)
(** * Transfers of a file ([diskfile_send], [diskfile_recv] in [src/iperf_api.c])

    With [-F] the two functions stand in the place of a stream's [snd] and
    [rcv], which they call through [snd2] and [rcv2]; here these are the ones of
    TCP.  The buffer of a stream is mapped from a file of its own, which is what
    [sendfile] reads: the two have the same bytes. *)

From S2P Require Import Prelude CInt IperfTime Json Net Test Udp Tcp.

(** ** The file on the disk *)

(** The answers to [read], each bounded by what is asked for and by what the
    file still has; without an answer a call gets all of that. *)
Inductive disk_answer :=
| Part (k : nat)        (* at most [S k] bytes *)
| Disk_error.

Record disk := mk_disk {
  rest : bytes;                   (* from the position of the descriptor on *)
  disk_reads : list disk_answer;
  stored : bytes                  (* written so far *)
}.
#[export] Instance eta_disk : Settable disk := fun d => mk_disk (rest d) (disk_reads d) (stored d).

Definition file_read (d : disk) (n : nat) : option bytes * disk :=
  let give k := (Some (take k (rest d)), d <| rest := drop k (rest d) |> <| disk_reads := tail (disk_reads d) |>) in
  match disk_reads d with
  | [] => give n
  | Part k :: _ => give (Nat.min (S k) n)
  | Disk_error :: l => (None, d <| disk_reads := l |>)
  end.

Definition file_write (d : disk) (buf : bytes) : disk := d <| stored ::= (λ s, s ++ buf) |>.

(** ** [diskfile_send] *)

(** A buffer that is not full is filled up from the file: the new bytes go to
    the beginning of the buffer.  The result is also [buffer_left]. *)
Definition refill (test : iperf_test) (sp : iperf_stream) (d : disk) : Z * iperf_test * iperf_stream * disk :=
  let size := blksize (settings test) in
  let left := sp_diskfile_left sp in
  if (left <? size) && (done test =? 0) then
    let '(r, d) := file_read d (Z.to_nat (size - left)) in
    let sp := match r with Some data => sp <| sp_buffer ::= overlay data |> | None => sp end in
    let buffer_left := i32 (left + match r with Some data => Z.of_nat (length data) | None => -1 end) in
    let sp := if buffer_left =? size then sp else sp <| sp_pending_size := buffer_left |> in
    (buffer_left, if buffer_left =? 0 then test <| done := 1 |> else test, sp, d)
  else (left, test, sp, d).

(** [memcpy(buffer, buffer + from, n)]: undefined outside the buffer or when the
    two ranges overlap. *)
Definition slide (buf : bytes) (from n : Z) : outcome bytes :=
  if (n <? 0) || (from <? n) || (Z.of_nat (length buf) <? from + n) then Undef
  else Ok (overlay (take (Z.to_nat n) (drop (Z.to_nat from) buf)) buf).

Definition diskfile_send (test : iperf_test) (sp : iperf_stream) (d : disk) (w : os)
  : outcome (Z * iperf_test * iperf_stream * disk * os) :=
  let size := blksize (settings test) in
  let '(buffer_left, test, sp, d) := refill test sp d in
  if negb (done test =? 0) || (buffer_left =? 0) then Ok (0, test <| done := 1 |>, sp, d, w)
  else
    '(r, sp, w) ← iperf_tcp_send (sp_buffer sp) test sp w;
    if r <? 0 then Ok (r, test, sp, d, w)
    else
      let left := i32 (buffer_left - r) in
      let sp := sp <| sp_diskfile_left := left |> in
      if negb (left =? 0) && (left <? size) then
        buf ← slide (sp_buffer sp) (size - left) left;
        Ok (r, test, sp <| sp_buffer := buf |>, d, w)
      else Ok (r, test, sp, d, w).

(** ** [diskfile_recv] *)

Definition diskfile_recv (test : iperf_test) (sp : iperf_stream) (d : disk) (w : os)
  : outcome (Z * iperf_stream * disk * os) :=
  '(r, sp, w) ← iperf_tcp_recv test sp w;
  Ok (r, sp, if 0 <? r then file_write d (take (Z.to_nat r) (sp_buffer sp)) else d, w).

(** Several calls in a row, up to the first failure. *)
Fixpoint file_sends (n : nat) (test : iperf_test) (sp : iperf_stream) (d : disk) (w : os)
  : outcome (iperf_test * iperf_stream * disk * os) :=
  match n with
  | O => Ok (test, sp, d, w)
  | S n' => '(r, test, sp, d, w) ← diskfile_send test sp d w;
            if r <? 0 then Fail else file_sends n' test sp d w
  end.

Fixpoint file_recvs (n : nat) (test : iperf_test) (sp : iperf_stream) (d : disk) (w : os)
  : outcome (iperf_stream * disk * os) :=
  match n with
  | O => Ok (sp, d, w)
  | S n' => '(r, sp, d, w) ← diskfile_recv test sp d w;
            if r <? 0 then Fail else file_recvs n' test sp d w
  end.

(** ** Whole blocks *)

(** A connection whose writes are never interrupted: each takes a part of what
    is left, until the connection is gone. *)
Definition takes (a : write_answer) : Prop := match a with Accept (S _) => True | _ => False end.

Lemma take_then_drop n (l : bytes) : take n l ++ drop (length (take n l)) l = l.
Proof.
  rewrite length_take. destruct (decide (n ≤ length l)%nat); [by rewrite Nat.min_l, take_drop|].
  by rewrite Nat.min_r, take_ge, drop_ge, app_nil_r by lia.
Qed.

Lemma Nwrite_loop_whole fuel count buf w r w' :
  (length buf ≤ fuel)%nat → Forall takes (writes w) → Z.of_nat count < 2 ^ 31 →
  Nwrite_loop fuel count buf w = Ok (r, w') → 0 ≤ r →
  r = Z.of_nat count ∧ sent w' = sent w ++ buf ∧ Forall takes (writes w').
Proof.
  revert buf w. induction fuel as [|fuel IH]; intros [|c buf] w Hf Ht Hc E Hr; cbn [Nwrite_loop] in E.
  1,3: injection E as <- <-; rewrite app_nil_r; split_and!; [|done|done]; apply wraps_id; unfold in_s; lia.
  { cbn in Hf. lia. }
  unfold os_write in E. destruct (writes w) as [|a l] eqn:Ew; [cbn in E; injection E as <- <-; by unfold NET_HARDERROR in Hr|].
  apply Forall_cons in Ht as [Ha Hl]. destruct a as [[|k]|]; try done.
  rewrite decide_False in E by done.
  apply IH in E as (-> & Hs & Hw); [|rewrite length_drop; cbn in *; lia|done|done|done].
  split_and!; [done| |done]. rewrite Hs. cbn [sent].
  change (sent (w <| writes := l |> <| sent := sent w ++ take (S k) (c :: buf) |>)) with (sent w ++ take (S k) (c :: buf)).
  by rewrite <- app_assoc, take_then_drop.
Qed.

Lemma Nwrite_whole w buf r w' :
  Forall takes (writes w) → Z.of_nat (length buf) < 2 ^ 31 → Nwrite w buf = Ok (r, w') → 0 ≤ r →
  r = Z.of_nat (length buf) ∧ sent w' = sent w ++ buf ∧ Forall takes (writes w').
Proof. intros. eapply Nwrite_loop_whole; [done|done|done|eassumption|done]. Qed.

(** A block, or what is pending of one, leaves whole. *)
Lemma tcp_send_whole file test sp w :
  let n := if sp_pending_size sp =? 0 then blksize (settings test) else sp_pending_size sp in
  zerocopy test = 0 → 0 < n < 2 ^ 31 → n ≤ Z.of_nat (length (sp_buffer sp)) → Forall takes (writes w) →
  ∃ r sp' w', iperf_tcp_send file test sp w = Ok (r, sp', w') ∧
    (0 ≤ r → r = n ∧ sent w' = sent w ++ take (Z.to_nat n) (sp_buffer sp) ∧ Forall takes (writes w') ∧
       sp_buffer sp' = sp_buffer sp ∧ sp_pending_size sp' = 0 ∧ sp_diskfile_left sp' = sp_diskfile_left sp).
Proof.
  intros n Hz Hn Hl Hw. unfold iperf_tcp_send. rewrite Hz.
  set (sp1 := if sp_pending_size sp =? 0 then _ else sp).
  assert (sp_pending_size sp1 = n ∧ sp_buffer sp1 = sp_buffer sp ∧ sp_diskfile_left sp1 = sp_diskfile_left sp)
    as (Hp & Hb & Hd) by (unfold sp1, n; by case_goal).
  clearbody sp1 n. rewrite Hp, Hb. ztest. rewrite decide_False by lia.
  destruct (Nwrite_prefix w (take (Z.to_nat n) (sp_buffer sp))) as (r & w' & k & E & _);
    [rewrite length_take; lia|].
  cbn [Z.eqb negb]. rewrite E. cbn [mbind outcome_bind]. destruct (r <? 0) eqn:Er; bool_to_prop.
  { eexists _, _, _. split; [reflexivity|]. lia. }
  apply Nwrite_whole in E as (-> & Hs & Hw'); [|done|rewrite length_take; lia|done].
  eexists _, _, _. split; [reflexivity|]. intros _. rewrite length_take, Nat.min_l, Z2Nat.id by lia. cbn.
  split_and!; try done. rewrite Hp, Z.sub_diag. by apply wraps_id.
Qed.

(** ** Sending a file *)

Section Sending.
Context (size : Z).

(** Between two calls: nothing is left over in the buffer. *)
Definition at_block (test : iperf_test) (sp : iperf_stream) (w : os) : Prop :=
  blksize (settings test) = size ∧ 0 < size < 2 ^ 31 ∧ zerocopy test = 0 ∧
  Z.of_nat (length (sp_buffer sp)) = size ∧ sp_diskfile_left sp = 0 ∧ sp_pending_size sp = 0 ∧
  Forall takes (writes w).

Lemma file_read_spec d n data d' :
  file_read d n = (data, d') → (0 < n)%nat →
  match data with
  | Some l => rest d = l ++ rest d' ∧ (length l ≤ n)%nat ∧ (l = [] → rest d = []) ∧ stored d' = stored d
  | None => Disk_error ∈ disk_reads d
  end ∧ disk_reads d' = tail (disk_reads d).
Proof.
  assert (∀ k, (0 < k ≤ n)%nat → rest d = take k (rest d) ++ drop k (rest d) ∧ (length (take k (rest d)) ≤ n)%nat ∧
            (take k (rest d) = [] → rest d = []) ∧ stored d = stored d) as Hk.
  { intros k Hk. rewrite take_drop, length_take. split_and!; [done|lia| |done].
    destruct k; [lia|]. by destruct (rest d). }
  unfold file_read. intros E Hn. destruct (disk_reads d) as [|[k|] l] eqn:El; injection E as <- <-;
    (split; [|done]); [apply Hk; lia| |apply list_elem_of_here].
  specialize (Hk (Nat.min (S k) n) ltac:(lia)). exact Hk.
Qed.

(** One call sends the next block of the file, or notices the end. *)
Lemma diskfile_send_step test sp d w :
  at_block test sp w → done test = 0 → Disk_error ∉ disk_reads d →
  ∃ r test' sp' d' w', diskfile_send test sp d w = Ok (r, test', sp', d', w') ∧
    (0 ≤ r → at_block test' sp' w' ∧ Disk_error ∉ disk_reads d' ∧ stored d' = stored d ∧
      ∃ data, rest d = data ++ rest d' ∧ sent w' = sent w ++ data ∧ r = Z.of_nat (length data) ∧
        (data = [] ∧ done test' = 1 ∧ rest d' = [] ∨ data ≠ [] ∧ done test' = 0)).
Proof.
  intros (Hb & Hs & Hz & Hl & Hleft & Hp & Hw) Hd He. unfold diskfile_send, refill. rewrite Hb, Hleft, Hd.
  ztest. destruct (file_read d (Z.to_nat (size - 0))) as [r d'] eqn:Er.
  apply file_read_spec in Er as [Hr Hdr]; [|lia]. destruct r as [data|]; [|done].
  destruct Hr as (Hrest & Hlen & Hend & Hst).
  assert (Disk_error ∉ disk_reads d') as He' by (rewrite Hdr; destruct (disk_reads d); [done|]; by apply not_elem_of_cons in He as [_ ?]).
  rewrite wraps_id by (unfold in_s; lia). rewrite Z.add_0_l. cbn [andb].
  destruct data as [|c data].
  { cbn [length Z.of_nat Z.eqb negb orb]. change (done (test <| done := 1 |>)) with 1. ztest. cbn [negb orb].
    eexists 0, _, _, _, _. split; [reflexivity|]. intros _. split_and!; try done.
    exists []. rewrite app_nil_r. split_and!; try done. left. split_and!; [done..|].
    cbn in Hrest. rewrite <- Hrest. by apply Hend. }
  set (k := Z.of_nat (length (c :: data))) in *.
  assert (0 < k ≤ size) as Hk by (unfold k in *; cbn [length] in *; lia).
  replace (k =? 0) with false by lia. rewrite Hd. cbn [negb orb Z.eqb].
  set (sp1 := if k =? size then _ else _).
  assert (sp_buffer sp1 = overlay (c :: data) (sp_buffer sp) ∧ sp_diskfile_left sp1 = 0 ∧
          (if sp_pending_size sp1 =? 0 then blksize (settings test) else sp_pending_size sp1) = k) as (H1 & H2 & H3).
  { unfold sp1. destruct (k =? size) eqn:E; bool_to_prop; cbn; split_and!; try done.
    rewrite Hp. cbn. congruence. }
  clearbody sp1. assert (length (sp_buffer sp1) = length (sp_buffer sp)) as Hlen1
    by (rewrite H1; unfold overlay; rewrite length_app, length_drop; lia).
  destruct (tcp_send_whole (sp_buffer sp1) test sp1 w) as (r & sp2 & w2 & -> & Hok); [done|rewrite H3; lia|rewrite H3; lia|done|].
  cbn [mbind outcome_bind]. destruct (r <? 0) eqn:Er; bool_to_prop.
  { eexists _, _, _, _, _. split; [reflexivity|]. lia. }
  rewrite H3 in Hok. destruct (Hok Er) as (-> & Hsent & Hw2 & Hb2 & Hp2 & Hd2).
  rewrite Z.sub_diag. change (i32 0) with 0. cbn [Z.eqb negb andb].
  eexists _, _, _, _, _. split; [reflexivity|]. intros _. split_and!; try done.
  - unfold at_block. cbn. rewrite Hb2. split_and!; try done; lia.
  - exists (c :: data). split_and!; [done| |done|by right].
    rewrite Hsent, H1. f_equal. unfold overlay, k. rewrite Nat2Z.id. apply take_app_length.
Qed.

Lemma diskfile_send_done test sp d w :
  done test = 1 → diskfile_send test sp d w = Ok (0, test <| done := 1 |>, sp, d, w).
Proof. intros Hd. unfold diskfile_send, refill. rewrite Hd. cbn [Z.eqb Pos.eqb]. rewrite andb_false_r, Hd. done. Qed.

Lemma file_sends_done n test sp d w :
  done test = 1 → ∃ test', file_sends n test sp d w = Ok (test', sp, d, w) ∧ done test' = 1.
Proof.
  revert test. induction n as [|n IH]; intros test Hd; cbn [file_sends]; [by exists test|].
  rewrite diskfile_send_done by done. cbn [mbind outcome_bind Z.ltb Z.compare]. by apply IH.
Qed.

(** Several calls send a part of the file from its position on, and all of it
    when there are more calls than bytes. *)
Lemma file_sends_run n test sp d w :
  at_block test sp w → done test = 0 → Disk_error ∉ disk_reads d →
  file_sends n test sp d w = Fail ∨
  ∃ test' sp' d' w' data, file_sends n test sp d w = Ok (test', sp', d', w') ∧
    rest d = data ++ rest d' ∧ sent w' = sent w ++ data ∧
    (done test' = 1 ∧ rest d' = [] ∨ done test' = 0 ∧ (n ≤ length data)%nat).
Proof.
  revert test sp d w. induction n as [|n IH]; intros test sp d w Hb Hd He; cbn [file_sends].
  { right. exists test, sp, d, w, []. rewrite app_nil_r. split_and!; [done..|]. right. split; [done|cbn; lia]. }
  destruct (diskfile_send_step test sp d w Hb Hd He) as (r & test1 & sp1 & d1 & w1 & -> & Hok). cbn [mbind outcome_bind].
  destruct (r <? 0) eqn:Er; bool_to_prop; [by left|].
  destruct (Hok Er) as (Hb1 & He1 & _ & data & Hr & Hs & _ & [(-> & Hd1 & Hend)|(Hne & Hd1)]).
  - destruct (file_sends_done n test1 sp1 d1 w1 Hd1) as (test2 & -> & Hd2). right.
    exists test2, sp1, d1, w1, []. by split_and!; [| | |left].
  - destruct (IH test1 sp1 d1 w1 Hb1 Hd1 He1) as [->|(test2 & sp2 & d2 & w2 & data2 & -> & Hr2 & Hs2 & Hend)]; [by left|right].
    exists test2, sp2, d2, w2, (data ++ data2). split_and!; [done|by rewrite Hr, Hr2, app_assoc|by rewrite Hs2, Hs, app_assoc|].
    destruct Hend as [?|[? Hn]]; [by left|right]. split; [done|]. rewrite length_app. destruct data; [done|]. cbn. lia.
Qed.
End Sending.

(** ** Receiving a file *)

Lemma diskfile_recv_step test sp d w :
  can_recv test sp w →
  ∃ r sp' d' w', diskfile_recv test sp d w = Ok (r, sp', d', w') ∧
    (0 ≤ r → can_recv test sp' w' ∧ ∃ data, flat (reads w) = data ++ flat (reads w') ∧ stored d' = stored d ++ data).
Proof.
  intros (Hb & Hl & Hskip & Hst & Hd). unfold diskfile_recv, iperf_tcp_recv. rewrite Hskip, decide_False by lia.
  destruct (Nrecv_no_select_reads_stream w (Z.to_nat (blksize (settings test)))) as (rc & w' & Hr & Hd' & Hf & Hlen & Hret);
    [lia|done|]. cbn [Z.eqb negb]. rewrite Hr. cbn [mbind outcome_bind outcome_ret].
  destruct (ret rc <? 0) eqn:Er; bool_to_prop.
  { cbn [mbind outcome_bind]. eexists _, _, _, _. split; [reflexivity|]. lia. }
  rewrite Hst. change (TEST_RUNNING =? TEST_RUNNING) with true. cbn [mbind outcome_bind].
  eexists _, _, _, _. split; [reflexivity|]. intros _. split.
  - unfold can_recv, overlay. cbn. rewrite length_app, length_drop. split_and!; try done; lia.
  - exists (filled rc). split; [done|]. destruct Hret as [E|E]; [unfold NET_HARDERROR in E; lia|]. rewrite E, Nat2Z.id.
    cbn [sp_buffer on_result]. case_goal; bool_to_prop.
    + cbn. f_equal. unfold overlay. apply take_app_length.
    + destruct (filled rc); [by rewrite app_nil_r|cbn in *; lia].
Qed.

Lemma file_recvs_run n test sp d w :
  can_recv test sp w →
  file_recvs n test sp d w = Fail ∨
  ∃ sp' d' w' data, file_recvs n test sp d w = Ok (sp', d', w') ∧
    flat (reads w) = data ++ flat (reads w') ∧ stored d' = stored d ++ data.
Proof.
  revert sp d w. induction n as [|n IH]; intros sp d w Hc; cbn [file_recvs].
  { right. exists sp, d, w, []. by rewrite app_nil_r. }
  destruct (diskfile_recv_step test sp d w Hc) as (r & sp1 & d1 & w1 & -> & Hok). cbn [mbind outcome_bind].
  destruct (r <? 0) eqn:Er; bool_to_prop; [by left|].
  destruct (Hok Er) as (Hc1 & data & Hr & Hs).
  destruct (IH sp1 d1 w1 Hc1) as [->|(sp2 & d2 & w2 & data2 & -> & Hr2 & Hs2)]; [by left|right].
  exists sp2, d2, w2, (data ++ data2). by rewrite Hr, Hr2, Hs2, Hs, !app_assoc.
Qed.

(** C24: a file arrives as it was sent: when no write of the sender is
    interrupted and no read of its disk fails, the calls of [diskfile_send] put
    the whole file on the connection, block by block, and set [done]; a receiver
    that takes all of it, in pieces of any length, has stored the same bytes.
    The sender needs at most one call more than the file has bytes. *)
Theorem file_transferred size n m ts tr sps spr ds dr ws wr ts' sps' ds' ws' spr' dr' wr' :
  at_block size ts sps ws → done ts = 0 → Disk_error ∉ disk_reads ds → sent ws = [] → (length (rest ds) < n)%nat →
  file_sends n ts sps ds ws = Ok (ts', sps', ds', ws') →
  can_recv tr spr wr → stored dr = [] → file_recvs m tr spr dr wr = Ok (spr', dr', wr') →
  flat (reads wr) = sent ws' → flat (reads wr') = [] →
  stored dr' = rest ds ∧ done ts' = 1.
Proof.
  intros Hb Hd He Hs0 Hn Hsend Hc Hst Hrecv Hall Hend.
  destruct (file_sends_run size n ts sps ds ws Hb Hd He) as [E|(ts1 & sps1 & ds1 & ws1 & data & E & Hr & Hs & Hdone)]; [congruence|].
  destruct (file_recvs_run m tr spr dr wr Hc) as [E'|(spr1 & dr1 & wr1 & data' & E' & Hr' & Hs')]; [congruence|].
  rewrite Hsend in E. rewrite Hrecv in E'. simplify_eq. rewrite Hr in Hn. rewrite length_app in Hn.
  destruct Hdone as [[Hd1 Hr1]|[_ Hlen]]; [|lia]. split; [|done].
  rewrite Hs', Hst, Hr, Hr1, app_nil_r. rewrite Hend, app_nil_r in Hr'. rewrite <- Hr', Hall, Hs, Hs0. done.
Qed.

(** ** Concrete runs *)

Definition block_test (size : Z) : iperf_test :=
  on_settings (fun x => x <| blksize := size |>) ((iperf_defaults false iperf_new_test) <| state := TEST_RUNNING |>).
Definition block_stream (size : Z) : iperf_stream :=
  sample_stream <| sp_buffer := replicate (Z.to_nat size) NUL |> <| sp_pending_size := 0 |> <| sp_diskfile_left := 0 |>.
Definition file_of (s : bytes) : disk := mk_disk s [Part 1] [].
Definition line (a : list write_answer) : os := mk_os false [] a [] [] [].

Lemma file_transferred_witness :
  let ws := line [Accept 2; Accept 3; Accept 9; Accept 9] in
  let wr := mk_os false [Data (B "abcd"); Data (B "efgh"); Eof] [] [1; 1; 1] [] [] in
  ∃ ts' sps' ds' ws' spr' dr' wr',
    file_sends 9 (block_test 4) (block_stream 4) (file_of (B "abcdefgh")) ws = Ok (ts', sps', ds', ws') ∧
    file_recvs 5 (block_test 3) (block_stream 3) (file_of []) wr = Ok (spr', dr', wr') ∧
    stored dr' = B "abcdefgh" ∧ done ts' = 1.
Proof.
  intros ws wr. do 7 eexists. split; [vm_compute; reflexivity|]. split; [vm_compute; reflexivity|].
  eapply (file_transferred 4 9 5 (block_test 4) (block_test 3) (block_stream 4) (block_stream 3)
            (file_of (B "abcdefgh")) (file_of []) ws wr);
    [|reflexivity|intros Hx%list_elem_of_singleton; discriminate Hx|reflexivity|vm_compute; lia|vm_compute; reflexivity| |reflexivity|vm_compute; reflexivity
     |vm_compute; reflexivity|vm_compute; reflexivity].
  - split_and!; try reflexivity; try lia; repeat constructor.
  - split_and!; try reflexivity; vm_compute; congruence.
Defined.

(** When a write is interrupted in a block, the bytes that were left are moved
    to the front of the buffer, and the next read puts its bytes over them. *)
Example interrupted_write_loses_bytes :
  match file_sends 5 (block_test 4) (block_stream 4) (mk_disk (B "abcdefgh") [] [])
          (line [Accept 2; Write_error EINTR; Accept 9; Accept 9; Accept 9; Accept 9]) with
  | Ok (_, _, _, w) => sent w
  | _ => []
  end = B "abefghcd".
Proof. vm_compute. reflexivity. Qed.

(** When more than half of a block is left, the two ranges of [memcpy] overlap. *)
Example interrupted_write_is_undefined :
  diskfile_send (block_test 4) (block_stream 4) (mk_disk (B "abcdefgh") [] []) (line [Accept 1; Write_error EINTR]) = Undef.
Proof. vm_compute. reflexivity. Qed.

(** A read error of the disk makes the number of pending bytes negative. *)
Example disk_error_is_undefined :
  diskfile_send (block_test 4) (block_stream 4) (mk_disk (B "abcdefgh") [Disk_error] []) (line [Accept 9]) = Undef.
Proof. vm_compute. reflexivity. Qed.
