(* ===== verification/Main.v ===== *)
(** * The life of a process ([src/main.c], [iperf_reset_test])

    [run]: the client's one test, and the server's tests one after the other, as
    a function of what happens during each.  Signals, the daemon's fork and the
    content of the PID file are left out: the success of the latter two
    is an argument.  [server_last_run_rc] is left out too: it only steers what is printed. *)

From S2P Require Import Prelude Errno CInt CDouble CStdio Json JsonPrint JsonParse JsonRoundtrip JsonBuild IperfTime Net.
From S2P Require Import Control Timer Test Params Auth Results Stats Endpoint Client Server.

(** ** [iperf_reset_test] *)

(** The timers go back to the free list; the streams, whose sockets were closed
    before, are freed. *)
Definition iperf_reset_test (test : iperf_test) (w : world) : outcome (iperf_test * world) :=
  s ← cancel (omit_timer test) (wheel w);
  s ← cancel (timer test) s;
  s ← cancel (stats_timer test) s;
  s ← cancel (reporter_timer test) s;
  Ok (reset_fields test, w <| wheel := s |>).

(** ** One client after the other *)

(** What happens during one call of [iperf_run_server], and whether the report
    of an error could be printed. *)
Record visit := mk_visit {
  visit_listening : Z;
  visit_answers : list server_answer;
  visit_json_ok : bool
}.

(** Wait for the next client, leave the loop, [return -1], or [exit]. *)
Inductive course := Again | Break | Run_failed | Exited (status : Z).

Section Main.
Context (e : env) (fuel : nat).

Definition serve_once (v : visit) (test : iperf_test) (w : world) : outcome (course * iperf_test * world) :=
  '(r, test, w) ← iperf_run_server e (visit_listening v) fuel (visit_answers v) test w;
  match r with
  | Go_on _ => NoFuel
  | Exit => Ok (Exited 0, test, w)
  | Return rc =>
      if (rc <? 0) && set (json_output test) && negb (visit_json_ok v) then Ok (Run_failed, test, w)
      else if rc <? -1 then Ok (Exited 1, test, w)
      else
        '(test, w) ← iperf_reset_test test w;
        if set (one_off test) && negb (rc =? 2) then
          Ok (if (rc <? 0) && (i_errno test =? IEAUTHTEST) then Again else Break, test, w)
        else Ok (Again, test, w)
  end.

(** The loop [for (;;)]; [Again] when the last of the visits is over and the
    server waits for another one. *)
Fixpoint serve (visits : list visit) (test : iperf_test) (w : world) : outcome (course * iperf_test * world) :=
  match visits with
  | [] => Ok (Again, test, w)
  | v :: visits =>
      '(c, test, w) ← serve_once v test w;
      match c with Again => serve visits test w | _ => Ok (c, test, w) end
  end.

(** [run]; the client's arguments are those of [iperf_run_client]. *)
Definition run (daemon_ok pidfile_ok : bool) (visits : list visit)
    (cookie_text : bytes) (a : dial_answers) (answers : list select_answer)
    (test : iperf_test) (w : world) : outcome (course * iperf_test * world) :=
  if decide (role test = "s"%char) then
    if set (daemon (cmdline test)) && negb daemon_ok then Ok (Exited 1, test <| i_errno := IEDAEMON |>, w)
    else if negb pidfile_ok then Ok (Exited 1, test <| i_errno := IEPIDFILE |>, w)
    else serve visits test w
  else if decide (role test = "c"%char) then
    if negb pidfile_ok then Ok (Exited 1, test <| i_errno := IEPIDFILE |>, w)
    else
      '(r, test, w) ← iperf_run_client e cookie_text a fuel answers test w;
      Ok (if r <? 0 then Exited 1 else Break, test, w)
  else Ok (Break, test, w).

(** ** The server between two clients *)

(** Nothing of a client's test is left but the options of [reset_keeps_options]. *)
Record fresh (t : iperf_test) : Prop := {
  fresh_sockets : ctrl_sck t = -1 ∧ listener t = -1 ∧ prot_listener t = -1 ∧ streams t = [];
  fresh_timers : timer t = None ∧ omit_timer t = None ∧ stats_timer t = None ∧ reporter_timer t = None;
  fresh_role : role t = "s"%char ∧ mode t = RECEIVER ∧ reverse t = 0 ∧ bidirectional t = 0 ∧ state t = 0;
  fresh_counters : bytes_sent t = 0 ∧ blocks_sent t = 0 ∧ bytes_received t = 0 ∧ blocks_received t = 0 ∧
    done t = 0 ∧ bitrate_limit_exceeded t = 0;
  fresh_settings : blksize (settings t) = DEFAULT_TCP_BLKSIZE ∧ rate (settings t) = 0 ∧ burst (settings t) = 0 ∧
    mss (settings t) = 0 ∧ tos (settings t) = 0 ∧ socket_bufsize (settings t) = 0 ∧ authtoken (settings t) = None;
  fresh_identity : cookie t = replicate COOKIE_SIZE NUL ∧ title t = None ∧ extra_data t = None
}.

Lemma reset_fresh t : fresh (reset_fields t).
Proof.
  unfold reset_fields, set_protocol, check_sender_has_retransmits. split; repeat case_goal; by split_and!.
Qed.

Lemma reset_one_off t : one_off (reset_fields t) = one_off t.
Proof. unfold reset_fields, set_protocol, check_sender_has_retransmits. by repeat case_goal. Qed.

Lemma reset_spec t w t' w' : iperf_reset_test t w = Ok (t', w') → t' = reset_fields t.
Proof.
  unfold iperf_reset_test. intros H.
  apply bind_Ok in H as (s1 & _ & H). apply bind_Ok in H as (s2 & _ & H).
  apply bind_Ok in H as (s3 & _ & H). apply bind_Ok in H as (s4 & _ & H). by injection H as <- _.
Qed.

(** A kernel that lets the server listen and choose its processors. *)
Definition can_listen (v : visit) : Prop := 0 ≤ visit_listening v ∧ visit_json_ok v = true.

Lemma run_server_ends v t w r t1 w1 :
  (∀ c, affinity_ok e c = true) → can_listen v →
  iperf_run_server e (visit_listening v) fuel (visit_answers v) t w = Ok (r, t1, w1) →
  ends_clean (r, t1, w1) ∧ ∀ l, r ≠ Go_on l.
Proof.
  intros Ha [Hl _] H. unfold iperf_run_server, iperf_setaffinity in H. rewrite Ha in H.
  assert ((if affinity t =? -1 then (0, t) else (0, t)) = (0, t)) as E by (by case_goal).
  rewrite E in H. cbn [Z.eqb negb] in H. rewrite (proj2 (Z.ltb_ge _ _)) in H by lia.
  destruct (time_now w) as [now w0]. by eapply server_loop_clean.
Qed.

Lemma serve_once_ends v t w c t' w' :
  (∀ c, affinity_ok e c = true) → can_listen v → serve_once v t w = Ok (c, t', w') →
  match c with Again => fresh t' | _ => one_off t' ≠ 0 end.
Proof.
  intros Ha Hv H. unfold serve_once in H. apply bind_Ok in H as ([[r t1] w1] & Hr & H).
  destruct (run_server_ends v t w r t1 w1 Ha Hv Hr) as [Hc Hg]. destruct r as [l|rc|]; [done| |].
  - destruct Hc as [_ Hrc], Hv as [_ Hj]. rewrite Hj, andb_false_r in H.
    rewrite (proj2 (Z.ltb_ge _ _)) in H by lia.
    apply bind_Ok in H as ([t2 w2] & ->%reset_spec & H).
    pose proof (reset_fresh t1) as Hf. revert Hf H. generalize (reset_fields t1). clear. intros t2 Hf H.
    destruct (set (one_off t2) && negb (rc =? 2)) eqn:Eo; [|by injection H as <- <- <-].
    apply andb_prop in Eo as [Eo _]. unfold set in Eo. bool_to_prop.
    destruct ((rc <? 0) && (i_errno t2 =? IEAUTHTEST)); by injection H as <- <- <-.
  - injection H as <- <- <-. apply Hc.
Qed.
End Main.


(** Two clients that are lost before they have sent their cookies. *)
Definition lost_visit : visit := mk_visit 3 [lost_client] true.
Definition two_lost : world :=
  mk_world (mk_os false [Data (B "GET"); Eof; Data (B "X"); Eof] [] (replicate 50 1) [mk_time 5 0] []) tmr_empty [].

